(* ===== verification/_CoqProject ===== *)
-Q . S2P
Prelude.v
FixedWindow.v
Pattern.v
Recovery.v
RateLimiterV2.v
Codes.v
GoErrors.v
Clouderr.v
Semerr.v
Codeerr.v
Status.v
Presenter.v
Retry.v
RestRetries.v
Rdb.v
Schedule.v
PgArray.v
Dsn.v
ConnString.v
Urls.v
ConnUri.v
Texts.v
Decimal.v
Semaphore.v
RateLimiterV1.v
Concurrent.v
DriverWrapper.v
Casing.v
SqlQuery.v
Migration.v
Chdb.v
Earthquakes.v
Threads.v
Search.v
Embeddings.v
Bot.v
Readiness.v
HttpClient.v
Http.v
Middleware.v
Auth.v
RoundTrippers.v
Logger.v
Metrics.v
CyprusBus.v
Durations.v
Helpers.v
Redis.v
RdbOpen.v
Application.v
Stack.v
TestDb.v
OpenApi.v
OpenAiClient.v
YamlStruct.v
RdbClient.v
Datasource.v
Cmd.v
LogFmt.v
Tools.v
Program.v
Fixtures.v
ErrorFields.v
Worker.v
