(* ===== verification/Prelude.v ===== *)
(** * A verification development of github.com/yanakipre/bot (internal/... and app/telegramsearch)

    The repository is a Go code base for services: a Telegram search application under app/,
    built on a set of packages under internal/ that every service shares. The development
    models the application's own logic and those shared packages whose code decides something:
    which messages belong together, what an answer is made of, who may call how often, which
    limiter a request meets, what an error means to a client, what is retried, how a transaction
    ends, when a job runs, how values are printed for the database and read back.

    ** The parts, and the files that model them

    - Prelude.v: Go outcomes (a value or a panic), results, machine integers and times, byte
      strings with the functions of package strings, and generic lemmas. Texts.v: the same
      functions on sequences of runes; Decimal.v: numbers read from texts.
    - FixedWindow.v: internal/rate/fixed_window.go. [Limiter] is the map from keys to stacks of
      fixed windows; [Allow], [WouldAllow] and [OverrideWindows] are its methods. The lock makes
      every method atomic, so a run is a list of operations with their clock readings. The file
      also states the interface [KeyedLimiter] with the laws other parts rely on, and that the
      limiter satisfies them.
    - Pattern.v: internal/resttooling/ratelimiter/v2/pattern.go. Parsing of path patterns,
      matching, and the comparison of two patterns as sets of requests.
    - RateLimiterV2.v: the rest of that package: a manager is built from a configuration
      ([parseConfig]), orders its patterns from specific to general, and answers requests
      ([manager_allow]); [watchConfig] is live reloading. It uses a limiter only through the
      interface, and patterns through the exactness theorems of Pattern.v.
    - RateLimiterV1.v: internal/resttooling/ratelimiter and dynamicratelimiter, token buckets per
      entry of a configuration or per key. Semaphore.v: internal/rate/semaphore.go and
      internal/ratetooling, calls that wait for a semaphore of their key, as interleavings.
    - Recovery.v: internal/recoverytooling/recovery.go, the loops that swallow panics.
      Concurrent.v: internal/concurrent, values, maps and caches under a lock.
      Readiness.v: internal/readiness and internal/closer.
    - Codes.v: the semantics of internal/semerr, the codes, reasons and details of
      internal/status, the codes of internal/codeerr, and their HTTP statuses.
    - GoErrors.v: errors as trees (leaves, wrappers, joins) with errors.Is and errors.As.
    - Clouderr.v: internal/clouderr, errors and contexts that carry log fields. Slices that
      share a backing array are modelled as such where contexts are derived, and in
      ErrorFields.v where errors take the fields of a context.
    - Semerr.v, Codeerr.v, Status.v: the error types of internal/semerr, internal/codeerr,
      internal/status (with internal/status/networkerrs).
    - Presenter.v: how errors reach clients and Sentry: internal/openapiapp/errors.go,
      internal/resttooling/errors.go, internal/sentrytooling.
    - Retry.v: the retry library (github.com/kamilsk/retry) as a parameter with its laws.
    - RestRetries.v: internal/resttooling/restretries, the retrying HTTP round tripper.
      HttpClient.v: internal/resttooling/http.go, options.go and transport.go, how the layers of
      a client are nested and transports shared. RoundTrippers.v: internal/resttooling/roundtripper
      and resttimeouts, what the layers do.
    - Http.v: requests, responses and handlers of net/http as far as the code uses them.
      Middleware.v: the handlers of internal/resttooling that recover, log, measure and identify
      requests; Auth.v: bearer tokens; OpenApi.v: internal/openapiapp, health checks, prefixes and
      the server.
    - Logger.v: internal/logger, its configuration, filters, encoders and contexts. Metrics.v:
      internal/metrics and internal/promtooling. Stack.v: internal/semerr/stack.go, traces.
    - Rdb.v: internal/rdb, statements and transactions with retries and commit callbacks.
      RdbOpen.v: opening and closing it, with the drivers it registers. RdbClient.v: the
      interface [Database] of such a database for its users, and that RdbOpen.v and Rdb.v
      implement it.
      DriverWrapper.v: internal/rdb/internal/driver, connections with hooks. Chdb.v:
      internal/chdb, ClickHouse with a read-only mode. Migration.v:
      internal/pgtooling/migration.go.
    - Schedule.v: internal/scheduletooling, jobs with a latch, and the scheduler that follows
      configuration changes. Worker.v: internal/scheduletooling/worker, the middleware around a
      job's function, of which Schedule.v keeps the metrics and the result. Application.v: internal/application, the life of a service, whose
      shutdown runs beside its jobs.
    - PgArray.v: internal/rdb/array.go, PostgreSQL array literals. Dsn.v:
      internal/rdb/internal/driver/dsn.go, libpq connection strings, and ConnString.v:
      internal/sqltooling/conn.go, which prints them. SqlQuery.v: internal/sqltooling/query.go,
      queries from structs. Urls.v: the escaping of net/url, and ConnUri.v: connection URIs that
      use it. Casing.v: the snake case of internal/logfmt and internal/encodingtooling; LogFmt.v:
      the program of internal/logfmt; YamlStruct.v: internal/yamlfromstruct, which converts keys
      in the text of a value. Durations.v: durations and sizes of internal/encodingtooling.
      Helpers.v: a Module per small package (secrets, slices, units, jitter, paths, and the
      loading of configurations in internal/config); Redis.v: internal/redis.
    - The application: Threads.v (story_dump_chat_history.go, threads from a chat's history),
      Embeddings.v (story_generate_embeddings.go and the tables it works on), Search.v
      (story_embeddings_completion.go, story_try_embedding.go, story_explain.go, with the
      OpenAI client and the similarity search), Bot.v (transport/bottransport, what is sent for
      an update, against a record of the controller's operations that Search.v fills),
      Earthquakes.v (client/earthquakes, a feed of HTML tables), OpenAiClient.v
      (client/openaiclient, its layers and prompts), Cmd.v (cmd/telegramsearch, staticconfig and
      storage/postgres: the commands and what they connect to, over the interface [Database] and
      a record of the controller's operations), Program.v (the commands with the operations of
      Search.v, Threads.v and Bot.v: a session of the program). CyprusBus.v: internal/buses, which buses approach.
    - Tests: TestDb.v (internal/testtooling, databases for tests), Datasource.v
      (internal/testtooling/datasource over [Database] and over Chdb.v, and
      internal/rdb/rdbtesttooling), Fixtures.v (containers, and the fixtures tests share, as
      steps on an environment that keeps what was made under a key). Tools.v: small parts, among them the exporter of traces and
      the generator of conversions of statuses.

    The name of a definition is that of the Go function; a comment above each definition,
    starting with go:, gives its source. Methods take the receiver as an argument and return
    it when they change it.

    ** What the theorems show

    - The application: a history is cut into threads exactly along its chains of replies; an
      answer is made of threads of the database, the most recent first, and an explanation asked
      for within 30 minutes shows their sources; an error of the database is lost on the way. Embedding ends
      with success when every thread can be embedded, and never while one is skipped. The
      earthquakes reported are the first strong ones of the feed; the nearest buses are those in
      the box that come closer. A command of a group connects twice before it runs. From the
      command line to the chat: the bot that was started answers a question with the answer of
      the search, by the configuration that was loaded, and a request to explain with the sources
      of that answer.
    - Rate limiting: a limiter lets at most twice a window's limit through in any stretch of
      time as long as the window. Patterns match exactly the requests they denote, and are
      compared exactly as sets; a configuration is accepted exactly if its patterns neither
      coincide nor overlap properly; the limiter a request meets does not depend on the order of
      the configuration map; the bound holds end to end for the manager, from the interface's
      laws alone, and for the token buckets of an entry. Semaphores bound what runs at once, and
      no call starves where one may run at all.
    - Errors: a collector loses nothing; a deepest field wins; two errors of one context may
      overwrite each other's fields; what a client is shown, in terms of the errors in the tree of an
      error; where the error presentations of the code base differ.
    - Retries and transactions: what is never sent again; each attempt sends the whole body and
      every response is closed once; a statement is tried again exactly as the strategies say; a
      transaction that returns nil was committed exactly once and its callbacks ran after it, and
      nothing was committed when it returns an error, but a callback may panic after the commit; a
      migration that reports success made all its steps, unless it was allowed no attempt; a service is ready only after all its components were.
    - Refinement: a wrapped connection does to the database what the connection does, with
      balanced hooks around it; a database that is ready never panics, whoever uses it through
      the interface; maps and caches under a lock answer as one finite map and one
      journal; a read-only database never reaches the driver to write; a client's layers are
      nested as documented whatever the order of its options.
    - Jobs: no more executions than the maximum under any interleaving; after a tick exactly
      the enabled jobs that quartz did not refuse are scheduled; a job leaves two lines, its metrics and the report of its panic,
      whatever its function does; a shutdown that calls itself clean has shut every part down.
    - HTTP: the handler of metrics returns whatever the handler inside of it does, panics
      included, and with which status; an identifier of a request reaches the requests made for it; a filter of the
      logger passes exactly the entries its rules name.
    - Encodings: arrays of strings, durations, connection strings and connection URIs are read
      back as they were written (the strings up to a limit of the escaping); converting the keys
      of a text converts the keys of the value and nothing else, and formatting log keys twice is
      formatting them once; the parsers return on every input; statements
      separated by semicolons are executed as written.

    - Tests: fixtures are made once and cleaned up in reverse; which of them share a database.

    Further theorems of the files state the remaining branches, and the flaws that modelling
    showed.

    ** Bounds and fuel

    Recursion that is not structural takes fuel computed from the input, and a theorem says it
    is enough: the breadth-first walk of [UnwrapFields] has the number of nodes of the error,
    the array parser the length of its input, the hooks of a command the depth of the tree of
    commands, the option parser the length of its text, the loop
    of [GenerateEmbeddings] one round more than there are threads to embed. [DoUntilSuccess] and
    the latter may loop for ever in the code; their theorems say when they return, and when they
    cannot. Counts of the fixed windows are unsigned and 64 bits wide, durations and differences
    of times are saturating as in package time, versions of a migration have 32 bits. The retry
    library is a relation that any number of attempts satisfies; its executable instance for
    concrete runs stops after a given number.

    ** What is a parameter

    Code that is not in the repository is a parameter with its documented behaviour as named
    hypotheses: the retry library, quartz, xerrors texts, the database session and drivers,
    weighted semaphores, token buckets, tern and pg_dump, telebot, OpenAI, pools of goroutines
    (an order of their tasks), the cache with expiry, parsers of JSON, XML and HTML, HTTP
    transports, hashes of configurations, cron expressions, the tables of Unicode, sorting, the
    arithmetic and printing of floating point numbers, map iteration order, docker with the
    containers of tests, the parser of addresses, the libraries of Redis, AWS, OpenTelemetry,
    Prometheus and Sentry, the sinks of zap, cobra (the command line), confita (the backends of a
    configuration), the parser and printer of Go files. Tasks of a pool that
    share state under a lock are modelled at the grain of their critical sections.

    ** What is not modelled

    Where logging and metrics have no influence on results they are left out of the parts that
    call them, except where a property is about them (counters of the rate limiter, the panic log,
    the gauge of jobs, readiness, the middlewares, the lines of a job). The bytes zap prints, the
    tables of buckets, generated code, templates, the set-up of the router and of Sentry and
    tracing spans are texts, or input and output around libraries. Constructors that only put a
    client together from its configuration (of the buses and the earthquakes), the source of
    random numbers under a lock and the embedding scripts decide nothing. The lines of the
    repository that no definition names are imports, comments, disabled code and the
    declarations of types whose parts appear as arguments. *)
From stdpp Require Export base tactics list gmap strings pretty sorting.
From Stdlib Require Export ZArith Lia.
From Stdlib Require Export Ascii.
#[global] Open Scope Z_scope.
#[global] Open Scope string_scope.
#[global] Open Scope list_scope.
#[global] Open Scope nat_scope.

(** ** Outcomes of Go code that may panic *)

(** A Go call either returns or panics; [Panics] carries the rendered panic value. *)
Inductive outcome (A : Type) : Type :=
| Returns (a : A)
| Panics (why : string).
Arguments Returns {A} a.
Arguments Panics {A} why.

#[export] Instance outcome_ret : MRet outcome := @Returns.
#[export] Instance outcome_bind : MBind outcome :=
  fun A B f m => match m with Returns a => f a | Panics w => Panics w end.
#[export] Instance outcome_fmap : FMap outcome :=
  fun A B f m => match m with Returns a => Returns (f a) | Panics w => Panics w end.
#[export] Instance outcome_eq_dec `{EqDecision A} : EqDecision (outcome A).
Proof. solve_decision. Defined.

(** Panic values that several packages share. *)
Definition index_out_of_range : string := "runtime error: index out of range".
Definition slice_out_of_range : string := "runtime error: slice bounds out of range".

(** A Go call that returns a value and an [error]. *)
Inductive result (E A : Type) : Type :=
| Ok (a : A)
| Err (e : E).
Arguments Ok {E A} a.
Arguments Err {E A} e.

#[export] Instance result_ret {E} : MRet (result E) := @Ok E.
#[export] Instance result_bind {E} : MBind (result E) :=
  fun A B f m => match m with Ok a => f a | Err e => Err e end.
#[export] Instance result_fmap {E} : FMap (result E) :=
  fun A B f m => match m with Ok a => Ok (f a) | Err e => Err e end.
#[export] Instance result_eq_dec `{EqDecision E} `{EqDecision A} : EqDecision (result E A).
Proof. solve_decision. Defined.

(** ** Machine integers and time *)

Section integers.
Local Open Scope Z_scope.

Definition min_int64 : Z := - 2 ^ 63.
Definition max_int64 : Z := 2 ^ 63 - 1.
Definition uint64_mod : Z := 2 ^ 64.

(** Two's-complement wrap-around at width [w]. *)
Definition wrapu (w : Z) (z : Z) : Z := z mod 2 ^ w.
Definition wraps (w : Z) (z : Z) : Z :=
  let u := z mod 2 ^ w in if u <? 2 ^ (w - 1) then u else u - 2 ^ w.

Definition is_int64 (z : Z) : Prop := min_int64 <= z <= max_int64.
Definition is_uint64 (z : Z) : Prop := 0 <= z < uint64_mod.

(** [time.Duration] constants, in nanoseconds. *)
Definition Nanosecond : Z := 1.
Definition Millisecond : Z := 1000000.
Definition Second : Z := 1000000000.
Definition Minute : Z := 60 * Second.
Definition Hour : Z := 60 * Minute.

(** [time.Time] is the number of nanoseconds since the zero time (January 1, year 1);
    [t.Sub u] saturates at the bounds of [time.Duration]. *)
Definition zero_time : Z := 0.
Definition time_sub (t u : Z) : Z := Z.max min_int64 (Z.min max_int64 (t - u)).
Definition time_add (t d : Z) : Z := t + d.

Lemma wraps_range z : is_int64 (wraps 64 z).
Proof.
  unfold is_int64, min_int64, max_int64, wraps. pose proof (Z.mod_pos_bound z (2 ^ 64) ltac:(lia)).
  destruct (Z.ltb_spec (z mod 2 ^ 64) (2 ^ (64 - 1))); lia.
Qed.

Lemma wraps_small z : is_int64 z -> wraps 64 z = z.
Proof.
  unfold is_int64, min_int64, max_int64, wraps. intros Hz. destruct (decide (0 <= z)).
  - rewrite Z.mod_small by lia. by rewrite (proj2 (Z.ltb_lt _ _)) by lia.
  - replace (z mod 2 ^ 64) with (z + 2 ^ 64) by (apply Z.mod_unique with (-1); lia).
    rewrite (proj2 (Z.ltb_ge _ _)) by lia. lia.
Qed.

End integers.

(** ** Strings as byte strings *)

(** The double quote as a byte (a string literal cannot hold one). *)
Definition dquote : ascii := "034"%char.
Definition newline : ascii := "010"%char.

(** [s[n:]] and [s[:n]] for [n] within bounds. *)
Fixpoint sdrop (n : nat) (s : string) : string :=
  match n, s with
  | 0, _ => s
  | S n', String _ s' => sdrop n' s'
  | S _, EmptyString => EmptyString
  end.
Fixpoint stake (n : nat) (s : string) : string :=
  match n, s with
  | 0, _ => EmptyString
  | S n', String c s' => String c (stake n' s')
  | S _, EmptyString => EmptyString
  end.

(** [strings.IndexByte]: [None] stands for -1. *)
Fixpoint index_byte (c : ascii) (s : string) : option nat :=
  match s with
  | EmptyString => None
  | String x s' => if decide (x = c) then Some 0 else S <$> index_byte c s'
  end.

Definition contains_byte (c : ascii) (s : string) : bool :=
  match index_byte c s with Some _ => true | None => false end.

(** [strings.HasPrefix] and [strings.Contains]. *)
Fixpoint has_prefix (s pre : string) : bool :=
  match pre, s with
  | EmptyString, _ => true
  | String p pre', String x s' => bool_decide (p = x) && has_prefix s' pre'
  | String _ _, EmptyString => false
  end.
Fixpoint contains (s sub : string) : bool :=
  has_prefix s sub || match s with EmptyString => false | String _ s' => contains s' sub end.

Definition has_suffix (s suf : string) : bool :=
  (String.length suf <=? String.length s)%nat &&
  bool_decide (sdrop (String.length s - String.length suf) s = suf).

(** [strings.CutSuffix]. *)
Definition cut_suffix (s suf : string) : string * bool :=
  if has_suffix s suf then (stake (String.length s - String.length suf) s, true) else (s, false).

(** [strings.Cut] at a one-byte separator. *)
Definition cut_byte (s : string) (c : ascii) : string * string * bool :=
  match index_byte c s with
  | Some i => (stake i s, sdrop (S i) s, true)
  | None => (s, EmptyString, false)
  end.

(** [strings.Split] at a one-byte separator; the result is never empty. *)
Fixpoint split_byte (c : ascii) (s : string) : list string :=
  match s with
  | EmptyString => [EmptyString]
  | String x s' =>
      if decide (x = c) then EmptyString :: split_byte c s'
      else match split_byte c s' with
           | [] => [String x EmptyString]
           | w :: ws => String x w :: ws
           end
  end.

(** [strings.Join]. *)
Fixpoint join (sep : string) (l : list string) : string :=
  match l with
  | [] => EmptyString
  | [s] => s
  | s :: l' => s +:+ sep +:+ join sep l'
  end.

(** The last byte of a string. *)
Fixpoint last_byte (s : string) : option ascii :=
  match s with
  | EmptyString => None
  | String c EmptyString => Some c
  | String _ s' => last_byte s'
  end.

(** ** Generic lemmas *)

Create HintDb godb.

Section strings.
Implicit Types s t u : string.
Local Open Scope nat_scope.

Lemma string_app_nil_r s : s +:+ "" = s.
Proof. induction s as [|c s IH]; [done|]. change (String c (s +:+ "") = String c s). by rewrite IH. Qed.

Lemma string_app_assoc s t u : s +:+ (t +:+ u) = (s +:+ t) +:+ u.
Proof. induction s as [|c s IH]; [done|]. change (String c (s +:+ (t +:+ u)) = String c ((s +:+ t) +:+ u)). by rewrite IH. Qed.

Lemma string_length_app s t : String.length (s +:+ t) = String.length s + String.length t.
Proof. induction s as [|c s IH]; simpl; [done|]. change (S (String.length (s +:+ t)) = S (String.length s + String.length t)). by rewrite IH. Qed.

Lemma stake_sdrop n s : stake n s +:+ sdrop n s = s.
Proof. revert s. induction n as [|n IH]; intros [|c s]; simpl; try done. change (String c (stake n s +:+ sdrop n s) = String c s). by rewrite IH. Qed.

Lemma sdrop_length n s : String.length (sdrop n s) = String.length s - n.
Proof. revert s. induction n as [|n IH]; intros [|c s]; simpl; auto. Qed.

Lemma stake_app s t : stake (String.length s) (s +:+ t) = s.
Proof. induction s as [|c s IH]; [done|]. change (String c (stake (String.length s) (s +:+ t)) = String c s). by rewrite IH. Qed.

Lemma sdrop_app s t : sdrop (String.length s) (s +:+ t) = t.
Proof. induction s as [|c s IH]; [done|]. exact IH. Qed.

Lemma stake_ge n s : String.length s <= n -> stake n s = s.
Proof. revert s. induction n as [|n IH]; intros [|c s]; simpl; try done; [lia|]. intros. rewrite IH; [done|lia]. Qed.

Lemma sdrop_ge n s : String.length s <= n -> sdrop n s = "".
Proof. revert s. induction n as [|n IH]; intros [|c s]; simpl; try done; [lia|]. intros. apply IH. lia. Qed.

Lemma index_byte_app_l c s t : index_byte c s = None -> index_byte c (s +:+ t) = Nat.add (String.length s) <$> index_byte c t.
Proof.
  induction s as [|x s IH]; simpl; intros H.
  - change ("" +:+ t) with t. by destruct (index_byte c t).
  - change (String x s +:+ t) with (String x (s +:+ t)). simpl. case_decide; [done|].
    destruct (index_byte c s) eqn:E; [done|]. rewrite IH by done. by destruct (index_byte c t).
Qed.

Lemma index_byte_split c s i : index_byte c s = Some i ->
  index_byte c (stake i s) = None /\ sdrop i s = String c (sdrop (S i) s) /\ String.length (stake i s) = i.
Proof.
  revert i. induction s as [|x s IH]; intros i H; simpl in H; [done|].
  case_decide as E; simplify_eq; [done|].
  destruct (index_byte c s) as [j|] eqn:Ej; simplify_eq/=.
  destruct (IH j eq_refl) as (H1 & H2 & H3). rewrite decide_False by done. by rewrite H1, H3.
Qed.

Lemma index_byte_app_None c s t : index_byte c (s +:+ t) = None <-> index_byte c s = None /\ index_byte c t = None.
Proof.
  induction s as [|x s IH]; [by simpl; naive_solver|].
  change (String x s +:+ t) with (String x (s +:+ t)). simpl. case_decide; [naive_solver|].
  rewrite !fmap_None. done.
Qed.

Lemma stake_stake_app n s t : n <= String.length s -> stake n (s +:+ t) = stake n s.
Proof.
  revert s. induction n as [|n IH]; intros [|x s]; simpl; try done; [lia|]. intros.
  change (String x (stake n (s +:+ t)) = String x (stake n s)). by rewrite IH by lia.
Qed.

Lemma last_byte_app s c : last_byte (s +:+ String c "") = Some c.
Proof.
  induction s as [|x s IH]; [done|]. change (String x s +:+ String c "") with (String x (s +:+ String c "")).
  destruct s as [|y s]; [done|]. exact IH.
Qed.

Lemma last_byte_split s c : last_byte s = Some c -> s = stake (String.length s - 1) s +:+ String c "".
Proof.
  induction s as [|x s IH]; [done|]. intros H. destruct s as [|y s]; [by simplify_eq/=|].
  specialize (IH H). revert IH. simpl. rewrite Nat.sub_0_r. intros IH.
  change (String x ?s +:+ ?t) with (String x (s +:+ t)). f_equal. exact IH.
Qed.

Lemma has_suffix_spec s suf : has_suffix s suf = true <-> exists pre, s = pre +:+ suf.
Proof.
  unfold has_suffix. rewrite andb_true_iff, bool_decide_eq_true, Nat.leb_le. split.
  - intros [_ H]. exists (stake (String.length s - String.length suf) s).
    rewrite <- H at 2. symmetry. apply stake_sdrop.
  - intros [pre ->]. rewrite string_length_app.
    replace (String.length pre + String.length suf - String.length suf) with (String.length pre) by lia.
    split; [lia|apply sdrop_app].
Qed.

Lemma cut_suffix_app pre suf : cut_suffix (pre +:+ suf) suf = (pre, true).
Proof.
  unfold cut_suffix. replace (has_suffix (pre +:+ suf) suf) with true
    by (symmetry; apply has_suffix_spec; by exists pre).
  rewrite string_length_app.
  replace (String.length pre + String.length suf - String.length suf) with (String.length pre) by lia.
  by rewrite stake_app.
Qed.

Lemma cut_suffix_true s suf pre : cut_suffix s suf = (pre, true) -> s = pre +:+ suf.
Proof.
  unfold cut_suffix. destruct (has_suffix s suf) eqn:E; [|done].
  apply has_suffix_spec in E as [pre' ->]. intros H. simplify_eq.
  rewrite string_length_app.
  replace (String.length pre' + String.length suf - String.length suf) with (String.length pre') by lia.
  by rewrite stake_app.
Qed.

Lemma cut_suffix_false s suf pre : cut_suffix s suf = (pre, false) <-> pre = s /\ has_suffix s suf = false.
Proof. unfold cut_suffix. destruct (has_suffix s suf) eqn:E; naive_solver. Qed.

Lemma cut_byte_app a c b : index_byte c a = None -> cut_byte (a +:+ String c b) c = (a, b, true).
Proof.
  intros H. unfold cut_byte. rewrite (index_byte_app_l _ _ _ H). simpl. rewrite decide_True by done.
  rewrite fmap_Some_2 with (x := 0) by done. rewrite Nat.add_0_r, stake_app.
  assert (Hd : sdrop (S (String.length a)) (a +:+ String c b) = b); [|simpl in Hd; by rewrite Hd].
  clear H. induction a as [|d a IH]; [done|exact IH].
Qed.

Lemma cut_byte_free s c : index_byte c s = None -> cut_byte s c = (s, "", false).
Proof. unfold cut_byte. by intros ->. Qed.

Lemma has_prefix_app pre s : has_prefix (pre +:+ s) pre = true.
Proof.
  induction pre as [|c pre IH]; [by destruct s|]. change (String c pre +:+ s) with (String c (pre +:+ s)). cbn. by rewrite bool_decide_true.
Qed.

Lemma stake_length n s : String.length (stake n s) = Nat.min n (String.length s).
Proof. revert s. induction n as [|n IH]; intros [|c s]; cbn; [done..|]. by rewrite IH. Qed.

Lemma split_byte_nonempty c s : split_byte c s <> [].
Proof. destruct s as [|x s]; simpl; [done|]. case_decide; [done|]. by destruct (split_byte c s). Qed.
Lemma split_byte_app c s t : split_byte c (s +:+ String c t) = split_byte c s ++ split_byte c t.
Proof.
  induction s as [|x s IH].
  - change ("" +:+ String c t) with (String c t). cbn. by rewrite decide_True.
  - change (String x s +:+ String c t) with (String x (s +:+ String c t)). cbn. rewrite IH. case_decide; [done|].
    pose proof (split_byte_nonempty c s). by destruct (split_byte c s).
Qed.

Lemma split_byte_free c s : index_byte c s = None -> split_byte c s = [s].
Proof.
  induction s as [|x s IH]; [done|]. cbn. case_decide; [done|]. intros H0. destruct (index_byte c s); [done|]. by rewrite IH.
Qed.
End strings.

#[export] Hint Resolve split_byte_nonempty : godb.
#[export] Hint Rewrite string_app_nil_r string_length_app stake_app sdrop_app sdrop_length : godb.

(** Case analysis on the scrutinee of the first match or if of the goal. *)
Ltac case_goal :=
  match goal with
  | |- context [match ?x with _ => _ end] => destruct x eqn:?
  end.
Ltac case_hyp H :=
  match type of H with
  | context [match ?x with _ => _ end] => destruct x eqn:?
  end.

(** Closes a decidable closed goal by evaluating its decision procedure. *)
Ltac by_decision := refine (bool_decide_unpack _ _); vm_compute; exact I.
