(* ===== verification/FixedWindow.v ===== *)
(** * Fixed-window rate limiting (internal/rate)

    [window] counts the requests of one fixed window; [windows] is a stack of them, all of
    which a request must fit; [MultiBucketFixedWindowLimiter] keeps one stack per key.
    Times are nanoseconds since Go's zero time, durations are [time.Duration] values.
    The mutex of the limiter makes each operation one atomic step. *)
From S2P Require Import Prelude.
#[local] Open Scope Z_scope.

(** ** Data *)

(* go: internal/rate/fixed_window.go | type window struct *)
Record window := Window {
  w_limit : Z;
  w_duration : Z;
  w_requests : Z;
  w_start : Z
}.

#[export] Instance window_eq_dec : EqDecision window.
Proof. solve_decision. Defined.

(* go: internal/rate/fixed_window.go | type WindowConfig struct *)
Record WindowConfig := MkWindowConfig { wc_Limit : Z; wc_Duration : Z }.

#[export] Instance WindowConfig_eq_dec : EqDecision WindowConfig.
Proof. solve_decision. Defined.

(* go: internal/rate/fixed_window.go | type MultiBucketFixedWindowLimiter struct *)
Record Limiter := MkLimiter {
  l_windows : gmap string (list window);
  l_cfg : list WindowConfig
}.

(** ** One window *)

(* go: internal/rate/fixed_window.go | func (w *window) allow *)
Definition window_allow (w : window) (now : Z) : window * (bool * Z) :=
  let w1 :=
    if time_sub now (w_start w) >=? w_duration w
    then Window (w_limit w) (w_duration w) 0 now
    else w in
  if w_requests w1 <? w_limit w1
  then (Window (w_limit w1) (w_duration w1) (wrapu 64 (w_requests w1 + 1)) (w_start w1),
        (true, 0))
  else (w1, (false, time_sub (time_add (w_start w1) (w_duration w1)) now)).

(* go: internal/rate/fixed_window.go | func (w *window) wouldAllow *)
Definition window_wouldAllow (w : window) (now : Z) : bool * Z :=
  if w_requests w <? w_limit w
  then (true, 0)
  else (false, time_sub (time_add (w_start w) (w_duration w)) now).

(** ** A stack of windows *)

(** The loop stops at the first window that denies; the windows before it have counted
    the request, those after it have not seen it. *)
(* go: internal/rate/fixed_window.go | func (ws windows) allow *)
Fixpoint windows_allow (ws : list window) (now : Z) : list window * (bool * Z) :=
  match ws with
  | [] => ([], (true, 0))
  | w :: ws' =>
      let '(w', (ok, wait)) := window_allow w now in
      if ok then
        let '(ws'', r) := windows_allow ws' now in (w' :: ws'', r)
      else (w' :: ws', (false, wait))
  end.

(* go: internal/rate/fixed_window.go | func (ws windows) wouldAllow *)
Fixpoint windows_wouldAllow (ws : list window) (now : Z) : bool * Z :=
  match ws with
  | [] => (true, 0)
  | w :: ws' =>
      let '(ok, wait) := window_wouldAllow w now in
      if ok then windows_wouldAllow ws' now else (false, wait)
  end.

(** ** The limiter *)

(* go: internal/rate/fixed_window.go | func (wc *WindowConfig) intoWindow *)
Definition intoWindow (wc : WindowConfig) : window :=
  Window (wc_Limit wc) (wc_Duration wc) 0 zero_time.

(* go: internal/rate/fixed_window.go | func NewMultiBucketFixedWindowLimiter *)
Definition NewMultiBucketFixedWindowLimiter (config : list WindowConfig) : Limiter :=
  MkLimiter ∅ config.

(* go: internal/rate/fixed_window.go | func (mb *MultiBucketFixedWindowLimiter) Allow *)
Definition Allow (mb : Limiter) (key : string) (now : Z) : Limiter * (bool * Z) :=
  let ws := match l_windows mb !! key with
            | Some ws => ws
            | None => map intoWindow (l_cfg mb)
            end in
  let '(ws', r) := windows_allow ws now in
  (MkLimiter (<[key := ws']> (l_windows mb)) (l_cfg mb), r).

(* go: internal/rate/fixed_window.go | func (mb *MultiBucketFixedWindowLimiter) WouldAllow *)
Definition WouldAllow (mb : Limiter) (key : string) (now : Z) : bool * Z :=
  match l_windows mb !! key with
  | None => (true, 0)
  | Some ws => windows_wouldAllow ws now
  end.

(** [ws[i].limit, ws[i].duration = overrides[i]] for every [i] in range; the overrides
    beyond [len(ws)] are dropped. *)
Fixpoint override_windows (ws : list window) (overrides : list WindowConfig) : list window :=
  match ws, overrides with
  | w :: ws', o :: os' =>
      Window (wc_Limit o) (wc_Duration o) (w_requests w) (w_start w) :: override_windows ws' os'
  | _, _ => ws
  end.

(* go: internal/rate/fixed_window.go | func (mb *MultiBucketFixedWindowLimiter) OverrideWindows *)
Definition OverrideWindows (mb : Limiter) (key : string) (overrides : list WindowConfig)
    : Limiter :=
  match l_windows mb !! key with
  | None => mb
  | Some ws =>
      let overrides :=
        if (length ws <? length overrides)%nat then take (length ws) overrides else overrides in
      MkLimiter (<[key := override_windows ws overrides]> (l_windows mb)) (l_cfg mb)
  end.

(** ** What a keyed limiter offers its clients

    The rate-limiter manager (internal/resttooling/ratelimiter/v2) is written against the
    operations below; [KeyedLimiterLaws], stated after the counting functions, is what it may
    rely on. *)
Class KeyedLimiter (L : Type) : Type := {
  kl_new : list WindowConfig -> L;
  kl_allow : L -> string -> Z -> L * (bool * Z);
  kl_would_allow : L -> string -> Z -> bool * Z;
  kl_override : L -> string -> list WindowConfig -> L
}.

#[export] Instance Limiter_ops : KeyedLimiter Limiter := {
  kl_new := NewMultiBucketFixedWindowLimiter;
  kl_allow := Allow;
  kl_would_allow := WouldAllow;
  kl_override := OverrideWindows
}.

(** ** Runs and counting *)

(** A sequence of [Allow] calls, each with its key and time; the result lists the calls with
    their verdicts. *)
Fixpoint allow_run {L : Type} {K : KeyedLimiter L} (l : L) (calls : list (string * Z))
    : L * list (string * Z * bool) :=
  match calls with
  | [] => (l, [])
  | (key, now) :: calls' =>
      let '(l', (ok, _)) := kl_allow l key now in
      let '(l'', tr) := allow_run l' calls' in
      (l'', (key, now, ok) :: tr)
  end.

(** The times at which calls for [key] were allowed. *)
Definition allowed_times (key : string) (tr : list (string * Z * bool)) : list Z :=
  omap (fun '(k, t, ok) => if bool_decide (k = key) && ok then Some t else None) tr.

(** How many of [ts] lie in [[a, b)]. *)
Fixpoint count_in (a b : Z) (ts : list Z) : Z :=
  match ts with
  | [] => 0
  | t :: ts' => (if (a <=? t) && (t <? b) then 1 else 0) + count_in a b ts'
  end.

(** Times that do not go backwards. *)
Fixpoint nondecreasing (last : Z) (ts : list Z) : Prop :=
  match ts with
  | [] => True
  | t :: ts' => last <= t /\ nondecreasing t ts'
  end.

(** Well-formed windows: limits are [uint]s, durations positive [time.Duration]s. *)
Definition wf_config (wc : WindowConfig) : Prop :=
  is_uint64 (wc_Limit wc) /\ 0 < wc_Duration wc <= max_int64.

(** A window in use: its fields are Go values and it has not counted above its limit. *)
Definition wf_window (w : window) : Prop :=
  is_uint64 (w_limit w) /\ 0 < w_duration w <= max_int64 /\ 0 <= w_requests w <= w_limit w.

#[export] Instance wf_config_dec wc : Decision (wf_config wc).
Proof. unfold wf_config, is_uint64. apply _. Defined.
#[export] Instance wf_window_dec w : Decision (wf_window w).
Proof. unfold wf_window, is_uint64. apply _. Defined.

(** The window after the expiry check at [now]. *)
Definition refresh (w : window) (now : Z) : window :=
  if now - w_start w >=? w_duration w
  then Window (w_limit w) (w_duration w) 0 now else w.

(** What the limiter remembers of one key. *)
Definition key_windows (mb : Limiter) (key : string) : list window :=
  match l_windows mb !! key with
  | Some ws => ws
  | None => map intoWindow (l_cfg mb)
  end.

(** The laws of a keyed limiter: a denied call reports a wait that is positive and bounded by
    the longest window, keys do not influence each other, and in any stretch of time as long as
    one of the configured windows at most twice its limit is let through. *)
Class KeyedLimiterLaws (L : Type) {K : KeyedLimiter L} : Prop := {
  kl_allow_other : forall (l : L) k k' t t',
    k <> k' -> (kl_allow (kl_allow l k t).1 k' t').2 = (kl_allow l k' t').2;
  kl_bound : forall cfg calls key wc s,
    Forall wf_config cfg -> wc ∈ cfg -> nondecreasing 0 (map snd calls) ->
    count_in s (s + wc_Duration wc) (allowed_times key (allow_run (kl_new cfg) calls).2)
      <= 2 * wc_Limit wc
}.

(** ** Counting lemmas *)

Section counting.
Implicit Types ts : list Z.

Lemma count_in_nonneg a b ts : 0 <= count_in a b ts.
Proof. induction ts; simpl; [lia|]. case_match; lia. Qed.

Lemma count_in_mono a b a' b' ts : a' <= a -> b <= b' -> count_in a b ts <= count_in a' b' ts.
Proof. intros. induction ts; simpl; [lia|]. repeat case_match; lia. Qed.

Lemma count_in_split a b c ts :
  a <= b -> b <= c -> count_in a c ts = count_in a b ts + count_in b c ts.
Proof. intros. induction ts; simpl; [lia|]. repeat case_match; lia. Qed.

Lemma count_in_below a b ts : Forall (fun t => t < a) ts -> count_in a b ts = 0.
Proof. induction 1; simpl; [done|]. case_match; lia. Qed.

Lemma count_in_empty a b ts : b <= a -> count_in a b ts = 0.
Proof. intros. induction ts; simpl; [done|]. case_match; lia. Qed.

Lemma count_in_app a b ts us : count_in a b (ts ++ us) = count_in a b ts + count_in a b us.
Proof. induction ts; simpl; [done|]. lia. Qed.
End counting.

#[export] Hint Resolve count_in_nonneg : godb.

(** ** Saturating subtraction *)

Lemma time_sub_ge t u d : min_int64 < d <= max_int64 -> (time_sub t u >=? d) = (t - u >=? d).
Proof. unfold time_sub, min_int64, max_int64. intros. apply eq_true_iff_eq. rewrite !Z.geb_le. lia. Qed.

Lemma time_sub_exact t u : is_int64 (t - u) -> time_sub t u = t - u.
Proof. unfold time_sub, is_int64. lia. Qed.

Lemma wrapu64_small z : is_uint64 z -> wrapu 64 z = z.
Proof. unfold is_uint64, wrapu, uint64_mod. apply Z.mod_small. Qed.

(** ** One window, functionally *)

Lemma window_allow_spec w now :
  wf_window w ->
  window_allow w now =
    let w1 := refresh w now in
    if w_requests w1 <? w_limit w1
    then (Window (w_limit w) (w_duration w) (w_requests w1 + 1) (w_start w1), (true, 0))
    else (w1, (false, time_sub (w_start w1 + w_duration w) now)).
Proof.
  intros (HL & HD & HR). unfold window_allow, refresh, is_uint64 in *.
  rewrite time_sub_ge by (unfold min_int64; lia).
  destruct (now - w_start w >=? w_duration w) eqn:E; simpl;
    (case_match; [|done]); rewrite wrapu64_small by (unfold is_uint64; lia); done.
Qed.

Lemma refresh_wf w now : wf_window w -> wf_window (refresh w now).
Proof. unfold wf_window, refresh, is_uint64. intros. case_match; simpl; lia. Qed.

Lemma refresh_config w now :
  w_limit (refresh w now) = w_limit w /\ w_duration (refresh w now) = w_duration w.
Proof. unfold refresh. by case_match. Qed.

Lemma window_allow_wf w now : wf_window w -> wf_window (window_allow w now).1.
Proof.
  intros Hwf. rewrite window_allow_spec by done. pose proof (refresh_wf w now Hwf) as Hr.
  destruct (refresh_config w now) as [EL ED]. revert Hwf Hr. simpl.
  unfold wf_window, is_uint64. case_match; simpl; lia.
Qed.

#[export] Hint Resolve refresh_wf window_allow_wf : godb.

(** ** The invariant of a window against the times it let through *)

(** [win_inv L D last w ts]: [w] has limit [L] and duration [D], no call was later than
    [last], and [ts] are the times of the calls that were allowed, at most [L] of them in the
    current window, at most [L] in any stretch of length [D] before it, hence at most [2 L] in
    any stretch of length [D]. *)
Record win_inv (L D last : Z) (w : window) (ts : list Z) : Prop := {
  wi_limit : w_limit w = L;
  wi_duration : w_duration w = D;
  wi_wf : wf_window w;
  wi_start : w_start w <= last;
  wi_in : Forall (fun t => t < w_start w + D) ts;
  wi_cur : count_in (w_start w) (w_start w + D) ts <= w_requests w;
  wi_prev : forall s, w_start w < s + D -> count_in s (w_start w) ts <= L;
  wi_bound : forall s, count_in s (s + D) ts <= 2 * L
}.

Lemma win_inv_later L D last last' w ts :
  last <= last' -> win_inv L D last w ts -> win_inv L D last' w ts.
Proof. intros ? []. split; auto; lia. Qed.

Lemma win_inv_refresh L D last w ts now :
  last <= now -> win_inv L D last w ts -> win_inv L D now (refresh w now) ts.
Proof.
  intros Hnow Hinv. pose proof Hinv as [HL HD Hwf Hst Hin Hcur Hprev Hbound].
  unfold refresh. destruct (now - w_start w >=? w_duration w) eqn:E; last first.
  { split; auto; lia. }
  assert (HDpos : 0 < D) by (destruct Hwf; subst; lia).
  assert (Hbelow : Forall (fun t => t < now) ts).
  { eapply Forall_impl; [exact Hin|]. simpl. intros. lia. }
  pose proof (refresh_wf w now Hwf) as Hwf'. unfold refresh in Hwf'. rewrite E in Hwf'.
  split; simpl; auto; try lia.
  - eapply Forall_impl; [exact Hin|]. simpl; intros; lia.
  - by rewrite count_in_below.
  - intros s Hs. destruct Hwf as (_ & _ & Hreq).
    transitivity (count_in (w_start w) (w_start w + D) ts); [|lia].
    destruct (decide (s <= w_start w + D)); last first.
    { rewrite count_in_below; [apply count_in_nonneg|].
      eapply Forall_impl; [exact Hin|]. simpl; intros; lia. }
    transitivity (count_in s (w_start w + D) ts); [|apply count_in_mono; lia].
    destruct (decide (now <= w_start w + D)); [apply count_in_mono; lia|].
    rewrite (count_in_split s (w_start w + D) now) by lia.
    rewrite (count_in_below (w_start w + D) now) by done. lia.
Qed.

(** A call that the window lets through keeps the invariant, whether the call as a whole was
    allowed (its time is recorded) or stopped by another window (it is not). *)
Lemma win_inv_allow L D last w ts now w' wait :
  last <= now -> win_inv L D last w ts ->
  window_allow w now = (w', (true, wait)) ->
  win_inv L D now w' (now :: ts) /\ win_inv L D now w' ts.
Proof.
  intros Hnow Hinv Heq. pose proof (wi_wf _ _ _ _ _ Hinv) as Hwf.
  pose proof (wi_duration _ _ _ _ _ Hinv) as HDw.
  pose proof (wi_limit _ _ _ _ _ Hinv) as HLw. subst L D.
  rewrite window_allow_spec in Heq by done. simpl in Heq.
  pose proof (win_inv_refresh _ _ _ _ _ now Hnow Hinv) as [HL HD Hwf1 Hst Hin Hcur Hprev Hbound].
  assert (Hlt : now < w_start (refresh w now) + w_duration w).
  { clear -Hwf. destruct Hwf as (_ & ? & _). unfold refresh.
    destruct (now - w_start w >=? w_duration w) eqn:E; simpl; lia. }
  case_match eqn:Elt; [|done]. injection Heq as <- <-.
  assert (Hwf' : wf_window (Window (w_limit w) (w_duration w)
                              (w_requests (refresh w now) + 1) (w_start (refresh w now)))).
  { revert Hwf1. unfold wf_window, is_uint64. simpl. lia. }
  split; split; simpl; auto; try lia.
  - case_match; lia.
  - intros s Hs. specialize (Hprev s Hs). case_match; lia.
  - intros s. specialize (Hbound s). case_match eqn:Ein; [|lia].
    destruct (decide (s <= w_start (refresh w now))).
    + rewrite (count_in_split s (w_start (refresh w now))) by lia.
      pose proof (Hprev s ltac:(lia)).
      pose proof (count_in_mono (w_start (refresh w now)) (s + w_duration w)
                    (w_start (refresh w now)) (w_start (refresh w now) + w_duration w) ts).
      lia.
    + destruct (decide (s + w_duration w <= w_start (refresh w now) + w_duration w)); [lia|].
      rewrite (count_in_split s (w_start (refresh w now) + w_duration w)) by lia.
      rewrite (count_in_below (w_start (refresh w now) + w_duration w)) by done.
      pose proof (count_in_mono s (w_start (refresh w now) + w_duration w)
                    (w_start (refresh w now)) (w_start (refresh w now) + w_duration w) ts).
      destruct Hwf1 as (? & ? & ?). lia.
Qed.

Lemma win_inv_deny L D last w ts now w' wait :
  last <= now -> win_inv L D last w ts ->
  window_allow w now = (w', (false, wait)) ->
  win_inv L D now w' ts.
Proof.
  intros Hnow Hinv Heq. rewrite window_allow_spec in Heq by apply Hinv. simpl in Heq.
  case_match; [done|]. injection Heq as <- _. by apply win_inv_refresh with last.
Qed.

(** ** Stacks of windows *)

(** The invariant of a whole stack: every window satisfies its own, against the same times. *)
Definition stack_inv (cfg : list WindowConfig) (last : Z) (ws : list window) (ts : list Z) : Prop :=
  Forall2 (fun wc w => win_inv (wc_Limit wc) (wc_Duration wc) last w ts) cfg ws.

Lemma stack_inv_later cfg last last' ws ts :
  last <= last' -> stack_inv cfg last ws ts -> stack_inv cfg last' ws ts.
Proof. intros ? H. eapply Forall2_impl; [exact H|]. eauto using win_inv_later. Qed.

Lemma windows_allow_inv cfg last ws ts now :
  last <= now -> stack_inv cfg last ws ts ->
  stack_inv cfg now (windows_allow ws now).1
    (if (windows_allow ws now).2.1 then now :: ts else ts) /\
  stack_inv cfg now (windows_allow ws now).1 ts.
Proof.
  intros Hnow. induction 1 as [|wc w cfg ws Hw Hws [IH1 IH2]]; simpl; [split; constructor|].
  destruct (window_allow w now) as [w' [[] wait]] eqn:Ew.
  - destruct (win_inv_allow _ _ _ _ _ _ _ _ Hnow Hw Ew) as [H1 H2].
    destruct (windows_allow ws now) as [ws' [[] wait']]; simpl in *; split; constructor; auto.
  - pose proof (win_inv_deny _ _ _ _ _ _ _ _ Hnow Hw Ew) as H1.
    simpl. split; (constructor; [done|]); apply stack_inv_later with last; auto.
Qed.

Lemma stack_inv_init cfg : Forall wf_config cfg -> stack_inv cfg 0 (map intoWindow cfg) [].
Proof.
  unfold stack_inv. induction 1 as [|wc cfg [HL HD] Hcfg IH]; simpl; constructor; auto.
  unfold is_uint64, uint64_mod in *.
  split; unfold intoWindow, zero_time, wf_window, is_uint64, uint64_mod; simpl; intros; auto; lia.
Qed.

(** ** Keys of a limiter *)

Lemma Allow_key_windows mb key now :
  key_windows (Allow mb key now).1 key = (windows_allow (key_windows mb key) now).1 /\
  (Allow mb key now).2 = (windows_allow (key_windows mb key) now).2 /\
  l_cfg (Allow mb key now).1 = l_cfg mb.
Proof.
  unfold Allow, key_windows.
  destruct (windows_allow _ now) as [ws' r] eqn:E. simpl. by rewrite lookup_insert_eq.
Qed.

Lemma Allow_key_windows_ne mb key key' now :
  key <> key' -> key_windows (Allow mb key now).1 key' = key_windows mb key'.
Proof.
  intros. unfold Allow, key_windows at 1. destruct (windows_allow _ now) as [ws' r].
  simpl. by rewrite lookup_insert_ne.
Qed.

Lemma Allow_result_other mb k k' t t' :
  k <> k' -> (Allow (Allow mb k t).1 k' t').2 = (Allow mb k' t').2.
Proof.
  intros. destruct (Allow_key_windows (Allow mb k t).1 k' t') as (_ & -> & _).
  destruct (Allow_key_windows mb k' t') as (_ & -> & _).
  by rewrite Allow_key_windows_ne.
Qed.

Lemma allow_run_bound cfg calls key : forall mb last ts,
  stack_inv cfg last (key_windows mb key) ts ->
  nondecreasing last (map snd calls) ->
  exists last' us, stack_inv cfg last' (key_windows (allow_run mb calls).1 key) us /\
    forall a b, count_in a b us = count_in a b ts + count_in a b (allowed_times key (allow_run mb calls).2).
Proof.
  induction calls as [|[k now] calls IH]; intros mb last ts Hinv Hnd; simpl in *.
  { exists last, ts. split; [done|]. intros. lia. }
  destruct Hnd as [Hnow Hnd].
  destruct (Allow mb k now) as [mb' [ok wait]] eqn:E.
  assert (Hstep : stack_inv cfg now (key_windows mb' key)
                    (if bool_decide (k = key) && ok then now :: ts else ts)).
  { destruct (decide (k = key)) as [->|Hne]; simpl.
    - rewrite bool_decide_true by done. simpl.
      destruct (Allow_key_windows mb key now) as (H1 & H2 & _).
      rewrite E in H1, H2. simpl in H1, H2. rewrite H1.
      destruct (windows_allow_inv _ _ _ _ _ Hnow Hinv) as [Hi _].
      rewrite <- H2 in Hi. exact Hi.
    - rewrite bool_decide_false by done. simpl.
      pose proof (Allow_key_windows_ne mb k key now Hne) as H1. rewrite E in H1. simpl in H1.
      rewrite H1. by apply stack_inv_later with last. }
  destruct (IH _ _ _ Hstep Hnd) as (last' & us & Hus & Hcnt).
  destruct (allow_run mb' calls) as [mb'' tr]. simpl in *.
  exists last', us. split; [done|]. intros a b. rewrite Hcnt.
  destruct (bool_decide (k = key) && ok); simpl; lia.
Qed.

Lemma allow_run_bounded cfg calls key wc s :
  Forall wf_config cfg -> wc ∈ cfg -> nondecreasing 0 (map snd calls) ->
  count_in s (s + wc_Duration wc)
    (allowed_times key (allow_run (NewMultiBucketFixedWindowLimiter cfg) calls).2)
  <= 2 * wc_Limit wc.
Proof.
  intros Hcfg Hwc Hnd.
  destruct (allow_run_bound cfg calls key (NewMultiBucketFixedWindowLimiter cfg) 0 [])
    as (last' & us & Hinv & Hcnt); [by apply stack_inv_init|done|].
  assert (Hc := Hcnt s (s + wc_Duration wc)). simpl in Hc. rewrite Z.add_0_l in Hc.
  rewrite <- Hc.
  apply list_elem_of_lookup in Hwc as [i Hi].
  destruct (Forall2_lookup_l _ _ _ _ _ Hinv Hi) as (w & _ & Hw). apply Hw.
Qed.

(** ** Properties of the limiter *)

(** C1. The limiter enforces its configuration: whatever the keys and the interleaving of
    calls, as long as the clock does not go backwards, the calls allowed for one key in any
    stretch of time as long as a configured window number at most twice that window's limit. *)
Theorem limiter_rate_bound cfg calls key wc s :
  Forall wf_config cfg -> wc ∈ cfg -> nondecreasing 0 (map snd calls) ->
  count_in s (s + wc_Duration wc)
    (allowed_times key (allow_run (NewMultiBucketFixedWindowLimiter cfg) calls).2)
  <= 2 * wc_Limit wc.
Proof.
  apply allow_run_bounded.
Qed.

Definition demo_config : list WindowConfig :=
  [MkWindowConfig 2 Second; MkWindowConfig 3 Minute].
Definition demo_calls : list (string * Z) :=
  [("a", 10 * Second); ("a", 10 * Second); ("b", 10 * Second); ("a", 10 * Second + 1);
   ("a", 11 * Second); ("a", 11 * Second)].

Lemma limiter_rate_bound_witness :
  Forall wf_config demo_config /\
  count_in (10 * Second) (10 * Second + Second)
    (allowed_times "a" (allow_run (NewMultiBucketFixedWindowLimiter demo_config) demo_calls).2)
  <= 2 * 2.
Proof.
  assert (H : Forall wf_config demo_config).
  { by_decision. }
  split; [exact H|].
  apply (limiter_rate_bound demo_config demo_calls "a" (MkWindowConfig 2 Second) (10 * Second) H).
  - left.
  - repeat split; by_decision.
Defined.

(** ** The verdict of [Allow] *)

(** One more request counted. *)
Definition bump (w : window) : window :=
  Window (w_limit w) (w_duration w) (w_requests w + 1) (w_start w).

Definition has_room (w : window) : Prop := w_requests w < w_limit w.

Lemma window_allow_cases w now :
  wf_window w -> w_start w <= now ->
  let w1 := refresh w now in
  (has_room w1 /\ window_allow w now = (bump w1, (true, 0))) \/
  (w_requests w1 = w_limit w1 /\
   window_allow w now = (w1, (false, w_start w1 + w_duration w1 - now)) /\
   0 < w_start w1 + w_duration w1 - now <= w_duration w1).
Proof.
  intros Hwf Hst. simpl. rewrite window_allow_spec by done. simpl.
  pose proof (refresh_wf w now Hwf) as Hr. destruct (refresh_config w now) as [EL ED].
  destruct (w_requests (refresh w now) <? w_limit (refresh w now)) eqn:E.
  - left. unfold has_room, bump. split; [lia|]. by rewrite EL, ED.
  - right. destruct Hr as (_ & HD & HR). split; [lia|].
    assert (0 < w_start (refresh w now) + w_duration (refresh w now) - now
              <= w_duration (refresh w now)).
    { revert Hst ED Hwf. unfold wf_window, refresh.
      destruct (now - w_start w >=? w_duration w) eqn:E2; simpl; lia. }
    rewrite ED in *. rewrite time_sub_exact; [done|]. unfold is_int64, min_int64. lia.
Qed.

Lemma windows_allow_cases ws now :
  Forall wf_window ws -> Forall (fun w => w_start w <= now) ws ->
  (Forall (fun w => has_room (refresh w now)) ws /\
   windows_allow ws now = (map (fun w => bump (refresh w now)) ws, (true, 0))) \/
  (exists pre w post, ws = pre ++ w :: post /\
     Forall (fun w => has_room (refresh w now)) pre /\
     w_requests (refresh w now) = w_limit (refresh w now) /\
     let wait := w_start (refresh w now) + w_duration (refresh w now) - now in
     0 < wait <= w_duration w /\
     windows_allow ws now =
       (map (fun w => bump (refresh w now)) pre ++ refresh w now :: post, (false, wait))).
Proof.
  induction 1 as [|w ws Hw Hws IH]; intros Hst; simpl; [left; by split|].
  inversion Hst as [|? ? Hst1 Hst2]; subst.
  destruct (window_allow_cases w now Hw Hst1) as [[Hroom ->]|(Hfull & -> & Hwait)].
  - destruct (IH Hst2) as [[Hall ->]|(pre & w' & post & -> & Hpre & Hfull & Hwait & ->)].
    + left. split; [by constructor|done].
    + right. exists (w :: pre), w', post. simpl. repeat split; auto; lia.
  - right. exists [], w, ws. destruct (refresh_config w now) as [_ ED]. rewrite ED in *.
    repeat split; auto; lia.
Qed.

(** Waiting exactly as long as a full window says makes that window let a request through,
    unless its limit is zero. *)
Lemma window_retry w now :
  wf_window w -> w_start w <= now -> w_requests (refresh w now) = w_limit (refresh w now) ->
  let w1 := refresh w now in
  (window_allow w1 (now + (w_start w1 + w_duration w1 - now))).2.1 = (0 <? w_limit w).
Proof.
  intros Hwf Hst Hfull w1. rewrite window_allow_spec by (subst w1; auto with godb).
  destruct (refresh_config w now) as [EL ED]. fold w1 in EL, ED.
  replace (refresh w1 (now + (w_start w1 + w_duration w1 - now)))
    with (Window (w_limit w1) (w_duration w1) 0 (now + (w_start w1 + w_duration w1 - now))).
  { simpl. rewrite EL. by destruct (0 <? w_limit w). }
  unfold refresh at 1. by replace (_ - w_start w1 >=? _) with true by lia.
Qed.

(** [Allow] on every branch, for well-formed windows started in the past. The call is
    allowed, with wait 0, exactly when every window of the key has room after expired windows
    are reset; then every window counts it. Otherwise the first full window decides: the
    windows before it have counted the request, those after it are untouched, the wait is the
    rest of that window (positive, at most its duration) and retrying after exactly that wait
    passes it. Other keys never change. *)
Theorem Allow_verdict mb key now :
  Forall wf_window (key_windows mb key) ->
  Forall (fun w => w_start w <= now) (key_windows mb key) ->
  let ws := key_windows mb key in
  let mb' := (Allow mb key now).1 in
  match (Allow mb key now).2 with
  | (true, wait) =>
      wait = 0 /\ Forall (fun w => has_room (refresh w now)) ws /\
      key_windows mb' key = map (fun w => bump (refresh w now)) ws
  | (false, wait) =>
      exists pre w post, ws = pre ++ w :: post /\
        Forall (fun w => has_room (refresh w now)) pre /\
        w_requests (refresh w now) = w_limit (refresh w now) /\
        wait = w_start (refresh w now) + w_duration (refresh w now) - now /\
        0 < wait <= w_duration w /\
        key_windows mb' key = map (fun w => bump (refresh w now)) pre ++ refresh w now :: post /\
        (window_allow (refresh w now) (now + wait)).2.1 = (0 <? w_limit w)
  end /\
  forall key', key <> key' -> key_windows mb' key' = key_windows mb key'.
Proof.
  intros Hwf Hst. simpl. destruct (Allow_key_windows mb key now) as (-> & -> & _).
  split; [|intros; by apply Allow_key_windows_ne].
  destruct (windows_allow_cases _ _ Hwf Hst)
    as [[Hall ->]|(pre & w & post & Heq & Hpre & Hfull & Hwait & ->)]; [done|].
  rewrite Heq in Hwf, Hst. apply Forall_app in Hwf as [_ [Hw _]%Forall_cons].
  apply Forall_app in Hst as [_ [Hs _]%Forall_cons].
  exists pre, w, post. repeat split; auto; try lia. by apply window_retry.
Qed.

Lemma Allow_verdict_witness :
  let mb := (allow_run (NewMultiBucketFixedWindowLimiter demo_config) (take 3 demo_calls)).1 in
  (Allow mb "a" (10 * Second + 1)).2 = (false, Second - 1) /\
  forall key', "a" <> key' ->
    key_windows (Allow mb "a" (10 * Second + 1)).1 key' = key_windows mb key'.
Proof.
  intros mb. split; [vm_compute; reflexivity|].
  refine (proj2 (Allow_verdict mb "a" (10 * Second + 1) _ _)).
  - by_decision.
  - by_decision.
Defined.

(** ** [WouldAllow] *)

(** A window that has not expired. *)
Definition current (now : Z) (w : window) : Prop := now - w_start w < w_duration w.
#[export] Instance current_dec now w : Decision (current now w).
Proof. unfold current. apply _. Defined.

Lemma refresh_current w now : current now w -> refresh w now = w.
Proof. unfold current, refresh. intros. by replace (_ >=? _) with false by lia. Qed.

Lemma window_wouldAllow_current w now :
  wf_window w -> current now w -> window_wouldAllow w now = (window_allow w now).2.
Proof.
  intros Hwf Hcur. rewrite window_allow_spec by done. simpl. rewrite refresh_current by done.
  unfold window_wouldAllow, time_add. by case_match.
Qed.

Lemma windows_wouldAllow_current ws now :
  Forall wf_window ws -> Forall (current now) ws ->
  windows_wouldAllow ws now = (windows_allow ws now).2.
Proof.
  induction 1 as [|w ws Hw Hws IH]; intros Hcur; simpl; [done|].
  apply Forall_cons in Hcur as [Hc Hcs]. rewrite window_wouldAllow_current by done.
  destruct (window_allow w now) as [w' [[] wait]]; simpl; [|done].
  rewrite IH by done. by destruct (windows_allow ws now).
Qed.

(** [WouldAllow] predicts [Allow]: for a key the limiter knows, none of whose windows has
    expired, it returns exactly what [Allow] would return (and it has no state to change). An
    unknown key fails open. *)
Theorem WouldAllow_predicts_Allow mb key now ws :
  l_windows mb !! key = Some ws -> Forall wf_window ws -> Forall (current now) ws ->
  WouldAllow mb key now = (Allow mb key now).2 /\
  forall key', l_windows mb !! key' = None -> WouldAllow mb key' now = (true, 0).
Proof.
  intros Hk Hwf Hcur. split; [|intros key' Hk'; unfold WouldAllow; by rewrite Hk'].
  destruct (Allow_key_windows mb key now) as (_ & -> & _).
  unfold WouldAllow, key_windows. rewrite Hk. by apply windows_wouldAllow_current.
Qed.

Lemma WouldAllow_predicts_Allow_witness :
  let mb := (allow_run (NewMultiBucketFixedWindowLimiter demo_config) (take 2 demo_calls)).1 in
  WouldAllow mb "a" (10 * Second + 5) = (Allow mb "a" (10 * Second + 5)).2.
Proof.
  intros mb.
  refine (proj1 (WouldAllow_predicts_Allow mb "a" (10 * Second + 5) (key_windows mb "a") _ _ _)).
  - vm_compute; reflexivity.
  - by_decision.
  - by_decision.
Defined.

(** On an expired window the two differ: [wouldAllow] keeps reporting a full window as
    full and answers with a wait that is not positive, while [allow] resets it and lets the
    request through. *)
Theorem wouldAllow_ignores_expiry w now :
  wf_window w -> w_requests w = w_limit w -> 0 < w_limit w ->
  now - w_start w >= w_duration w ->
  (window_wouldAllow w now).1 = false /\ (window_wouldAllow w now).2 <= 0 /\
  (window_allow w now).2 = (true, 0).
Proof.
  intros Hwf Hfull HL Hexp. unfold window_wouldAllow. rewrite Hfull, Z.ltb_irrefl. simpl.
  split; [done|]. split.
  - unfold time_sub, time_add, min_int64. lia.
  - rewrite window_allow_spec by done. simpl. unfold refresh.
    replace (_ >=? _) with true by lia. simpl. by replace (0 <? w_limit w) with true by lia.
Qed.

Lemma wouldAllow_ignores_expiry_witness :
  (window_wouldAllow (Window 1 Second 1 (5 * Second)) (7 * Second)).2 <= 0.
Proof.
  refine (proj1 (proj2 (wouldAllow_ignores_expiry (Window 1 Second 1 (5 * Second)) (7 * Second) _ _ _ _)));
    by_decision.
Defined.

(** ** Overrides *)

Lemma override_windows_length ws os : length (override_windows ws os) = length ws.
Proof. revert os. induction ws as [|w ws IH]; intros [|o os]; simpl; auto. Qed.

Lemma override_windows_take ws os :
  override_windows ws (take (length ws) os) = override_windows ws os.
Proof. revert os. induction ws as [|w ws IH]; intros [|o os]; simpl; auto. by rewrite IH. Qed.

Lemma override_windows_lookup ws os i w :
  ws !! i = Some w ->
  override_windows ws os !! i =
    Some (match os !! i with
          | Some o => Window (wc_Limit o) (wc_Duration o) (w_requests w) (w_start w)
          | None => w
          end).
Proof.
  revert os i. induction ws as [|w0 ws IH]; intros [|o os] [|i] H; simpl in *; try done;
    simplify_eq; auto.
Qed.

(** An override replaces limit and duration of the key's windows one by one, keeps their
    counts and start times, ignores superfluous entries, does nothing for an unknown key, and
    touches no other key. *)
Theorem OverrideWindows_spec mb key overrides :
  match l_windows mb !! key with
  | None => OverrideWindows mb key overrides = mb
  | Some ws =>
      exists ws', l_windows (OverrideWindows mb key overrides) = <[key := ws']> (l_windows mb) /\
        length ws' = length ws /\
        forall i w, ws !! i = Some w ->
          ws' !! i = Some (match overrides !! i with
                           | Some o => Window (wc_Limit o) (wc_Duration o) (w_requests w) (w_start w)
                           | None => w
                           end)
  end /\ l_cfg (OverrideWindows mb key overrides) = l_cfg mb.
Proof.
  unfold OverrideWindows. destruct (l_windows mb !! key) as [ws|]; [|done]. simpl.
  split; [|done]. eexists. split; [done|].
  replace (override_windows ws (if (length ws <? length overrides)%nat
             then take (length ws) overrides else overrides))
    with (override_windows ws overrides); last first.
  { case_match; [|done]. by rewrite override_windows_take. }
  split; [apply override_windows_length|]. intros. by apply override_windows_lookup.
Qed.

(** ** The implementation satisfies the interface *)

#[export] Instance Limiter_laws : KeyedLimiterLaws Limiter.
Proof.
  split.
  - intros l k k' t t' Hne. by apply Allow_result_other.
  - intros cfg calls key wc s. apply allow_run_bounded.
Qed.
