(* ===== verification/Pattern.v ===== *)
(** * Path patterns of the rate limiter (internal/resttooling/ratelimiter/v2/pattern.go)

    Parsing of patterns such as ["GET /projects/{id}/{rest...}"], matching of requests
    against them, and the comparison that decides which of two patterns is more specific.
    Methods that index the last segment of a pattern panic on a pattern without segments, so
    they are modelled in the [outcome] monad. *)
From S2P Require Import Prelude.

(** ** Data *)

(* go: internal/resttooling/ratelimiter/v2/pattern.go | type segment struct *)
Record segment := Segment { s_s : string; s_identifier : bool; s_multi : bool }.

(* go: internal/resttooling/ratelimiter/v2/pattern.go | type pattern struct *)
Record pattern := Pattern {
  p_pattern : string;
  p_method : string;
  p_segments : list segment
}.

#[export] Instance segment_eq_dec : EqDecision segment.
Proof. solve_decision. Defined.
#[export] Instance pattern_eq_dec : EqDecision pattern.
Proof. solve_decision. Defined.

(* go: internal/resttooling/ratelimiter/v2/pattern.go | type relationship string | L149-L158 *)
Inductive relationship := equivalent | moreGeneral | moreSpecific | disjoint | overlaps.

#[export] Instance relationship_eq_dec : EqDecision relationship.
Proof. solve_decision. Defined.

(** The errors [newPattern] returns, one per [return nil, ...] of its body. *)
Inductive pattern_error :=
| ErrEmptyPattern
| ErrInvalidMethod (method : string)
| ErrMissingSlash
| ErrBadStart
| ErrBadEnd
| ErrMultiNotAtEnd
| ErrEmptyIdentifier
| ErrDuplicateIdentifier (name : string).

#[export] Instance pattern_error_eq_dec : EqDecision pattern_error.
Proof. solve_decision. Defined.

(** ** Parsing *)

Definition valid_methods : list string := ["GET"; "POST"; "PUT"; "DELETE"; "PATCH"; "OPTIONS"].

(* go: internal/resttooling/ratelimiter/v2/pattern.go | func validateMethod *)
Definition validateMethod (method : string) : option pattern_error :=
  if bool_decide (method ∈ valid_methods) then None else Some (ErrInvalidMethod method).

Definition slash : ascii := "/"%char.
Definition lbrace : ascii := "{"%char.
Definition rbrace : ascii := "}"%char.
Definition space : ascii := " "%char.

(** [seg[1 : len(seg)-1]]. *)
Definition strip_braces (seg : string) : string :=
  stake (String.length seg - 2) (sdrop 1 seg).

(** The loop [for len(path) > 0]: every iteration drops at least one byte of [path], so the
    length of the path is enough fuel, and running out of it is the loop's own exit. The
    first byte of [path] is dropped without being looked at. *)
(* go: internal/resttooling/ratelimiter/v2/pattern.go | seenNames := map[string]empty{} | L86-L131 *)
Fixpoint parse_segments (fuel : nat) (path : string) (seenNames : gset string)
    (segs : list segment) : result pattern_error (list segment) :=
  match fuel, path with
  | S fuel', String _ rest =>
      if decide (rest = "") then Ok segs
      else
        let i := match index_byte slash rest with Some i => i | None => String.length rest end in
        let seg := stake i rest in
        let path' := sdrop i rest in
        match index_byte lbrace seg with
        | None => parse_segments fuel' path' seenNames (segs ++ [Segment seg false false])
        | Some (S _) => Err ErrBadStart
        | Some 0 =>
            if negb (bool_decide (last_byte seg = Some rbrace)) then Err ErrBadEnd
            else
              let '(name, multi) := cut_suffix (strip_braces seg) "..." in
              if multi && negb (bool_decide (path' = "")) then Err ErrMultiNotAtEnd
              else if bool_decide (name = "") then Err ErrEmptyIdentifier
              else if bool_decide (name ∈ seenNames) then Err (ErrDuplicateIdentifier name)
              else parse_segments fuel' path' ({[ name ]} ∪ seenNames)
                     (segs ++ [Segment name true multi])
        end
  | _, _ => Ok segs
  end.

(** [strings.Cut(p, " ")] and the method check: the method and path part of a pattern. *)
Definition split_method (p : string) : result pattern_error (string * string) :=
  let '(method, path, found) := cut_byte p space in
  if found then
    match validateMethod method with
    | Some e => Err e
    | None => Ok (method, path)
    end
  else Ok ("", method).

(* go: internal/resttooling/ratelimiter/v2/pattern.go | func newPattern *)
Definition newPattern (p : string) : result pattern_error pattern :=
  if decide (p = "") then Err ErrEmptyPattern
  else
    '(method, path) ← split_method p;
    if contains_byte slash path then
      segs ← parse_segments (String.length path) path ∅ [];
      Ok (Pattern p method segs)
    else Err ErrMissingSlash.

(** ** Comparing *)

(* go: internal/resttooling/ratelimiter/v2/pattern.go | func (p *pattern) lastSegment *)
Definition lastSegment (p : pattern) : outcome segment :=
  match last (p_segments p) with
  | Some s => Returns s
  | None => Panics index_out_of_range
  end.

(* go: internal/resttooling/ratelimiter/v2/pattern.go | func inverseRelationship *)
Definition inverseRelationship (r : relationship) : relationship :=
  match r with
  | moreSpecific => moreGeneral
  | moreGeneral => moreSpecific
  | _ => r
  end.

(* go: internal/resttooling/ratelimiter/v2/pattern.go | func combineRelationships *)
Definition combineRelationships (r1 r2 : relationship) : relationship :=
  match r1 with
  | equivalent => r2
  | disjoint => disjoint
  | overlaps => if decide (r2 = disjoint) then disjoint else overlaps
  | moreGeneral | moreSpecific =>
      if decide (r2 = equivalent) then r1
      else if decide (r2 = inverseRelationship r1) then overlaps
      else r2
  end.

(* go: internal/resttooling/ratelimiter/v2/pattern.go | func compareSegments *)
Definition compareSegments (s1 s2 : segment) : relationship :=
  if s_multi s1 && s_multi s2 then equivalent
  else if s_multi s1 then moreGeneral
  else if s_multi s2 then moreSpecific
  else if s_identifier s1 && s_identifier s2 then equivalent
  else if s_identifier s1 then moreGeneral
  else if s_identifier s2 then moreSpecific
  else if decide (s_s s1 = s_s s2) then equivalent
  else disjoint.

(* go: internal/resttooling/ratelimiter/v2/pattern.go | func (p *pattern) compareMethods *)
Definition compareMethods (p p2 : pattern) : relationship :=
  if decide (p_method p = p_method p2) then equivalent
  else if decide (p_method p = "") then moreGeneral
  else if decide (p_method p2 = "") then moreSpecific
  else disjoint.

(** The loop of [comparePaths] over corresponding segments: the accumulated relationship and
    the two remainders, or [disjoint] when it returned early. *)
(* go: internal/resttooling/ratelimiter/v2/pattern.go | var segs1, segs2 []segment | L201-L209 *)
Fixpoint compare_loop (rel : relationship) (segs1 segs2 : list segment)
    : relationship * list segment * list segment * bool :=
  match segs1, segs2 with
  | s1 :: segs1', s2 :: segs2' =>
      let rel' := combineRelationships rel (compareSegments s1 s2) in
      if decide (rel' = disjoint) then (rel', segs1, segs2, true)
      else compare_loop rel' segs1' segs2'
  | _, _ => (rel, segs1, segs2, false)
  end.

(** [p.lastSegment().multi], which panics on a pattern without segments. *)
Definition last_multi (p : pattern) : outcome bool := s ← lastSegment p; Returns (s_multi s).

(* go: internal/resttooling/ratelimiter/v2/pattern.go | func (p *pattern) comparePaths( *)
Definition comparePaths (p p2 : pattern) : outcome relationship :=
  early ← (if (length (p_segments p) =? length (p_segments p2)) then Returns false
           else m1 ← last_multi p;
                if (m1 : bool) then Returns false
                else m2 ← last_multi p2; Returns (negb m2));
  if (early : bool) then Returns disjoint
  else
    let '(rel, segs1, segs2, stopped) := compare_loop equivalent (p_segments p) (p_segments p2) in
    if (stopped : bool) then Returns rel
    else if (length segs1 =? 0) && (length segs2 =? 0) then Returns rel
    else
      c1 ← (if (length segs1 <? length segs2) then last_multi p else Returns false);
      if (c1 : bool) then Returns (combineRelationships rel moreGeneral)
      else
        c2 ← (if (length segs2 <? length segs1) then last_multi p2 else Returns false);
        if (c2 : bool) then Returns (combineRelationships rel moreSpecific)
        else Returns disjoint.

(* go: internal/resttooling/ratelimiter/v2/pattern.go | func (p *pattern) comparePathsAndMethods *)
Definition comparePathsAndMethods (p p2 : pattern) : outcome relationship :=
  let mrel := compareMethods p p2 in
  if decide (mrel = disjoint) then Returns disjoint
  else prel ← comparePaths p p2; Returns (combineRelationships mrel prel).

(** ** Matching *)

(** The loop [for i, seg := range p.segments]. *)
(* go: internal/resttooling/ratelimiter/v2/pattern.go | for i, seg := range p.segments | L327-L345 *)
Fixpoint match_loop (i : nat) (psegs : list segment) (segments : list string) : outcome bool :=
  match psegs with
  | [] => Returns true
  | seg :: psegs' =>
      if s_multi seg then Returns true
      else if s_identifier seg then match_loop (S i) psegs' segments
      else
        match segments !! i with
        | None => Panics index_out_of_range
        | Some x => if decide (x = s_s seg) then match_loop (S i) psegs' segments else Returns false
        end
  end.

(* go: internal/resttooling/ratelimiter/v2/pattern.go | func (p *pattern) match *)
Definition pattern_match (p : pattern) (method : string) (segments : list string) : outcome bool :=
  if negb (bool_decide (p_method p = "")) && negb (bool_decide (p_method p = method))
  then Returns false
  else
    fits ← (if (length segments =? length (p_segments p)) then Returns true
            else m ← last_multi p;
                 Returns (m && negb (length segments <? length (p_segments p))));
    if (fits : bool) then match_loop 0 (p_segments p) segments else Returns false.

(** ** What patterns mean *)

(** A multi segment only stands at the end. *)
Fixpoint multi_last (segs : list segment) : Prop :=
  match segs with
  | [] => True
  | [_] => True
  | s :: segs' => s_multi s = false /\ multi_last segs'
  end.

Definition wf_pattern (p : pattern) : Prop := p_segments p <> [] /\ multi_last (p_segments p).

#[export] Instance multi_last_dec segs : Decision (multi_last segs).
Proof.
  induction segs as [|s [|s' segs] IH]; simpl in *; [left; done|left; done|].
  apply and_dec; [apply bool_eq_dec|exact IH].
Defined.
#[export] Instance wf_pattern_dec p : Decision (wf_pattern p).
Proof. unfold wf_pattern. apply _. Defined.

(** The requests a pattern matches. *)
Definition matches (p : pattern) (req : string * list string) : Prop :=
  pattern_match p req.1 req.2 = Returns true.

(** What a relationship claims of the sets [A] and [B] of requests two patterns match. *)
Definition related {X : Type} (r : relationship) (A B : X -> Prop) : Prop :=
  match r with
  | equivalent => forall x, A x <-> B x
  | moreGeneral => (forall x, B x -> A x) /\ exists x, A x /\ ~ B x
  | moreSpecific => (forall x, A x -> B x) /\ exists x, B x /\ ~ A x
  | disjoint => forall x, ~ (A x /\ B x)
  | overlaps => (exists x, A x /\ B x) /\ (exists x, A x /\ ~ B x) /\ (exists x, B x /\ ~ A x)
  end.

(** Segment lists as sets of segment lists of request paths. *)
Fixpoint path_match (psegs : list segment) (segs : list string) : Prop :=
  match psegs, segs with
  | [], [] => True
  | s :: psegs', x :: segs' =>
      if s_multi s then True
      else (s_identifier s = true \/ x = s_s s) /\ path_match psegs' segs'
  | _, _ => False
  end.

Definition method_match (pm m : string) : Prop := pm = "" \/ pm = m.

(** ** Printing *)

Definition render_segment (s : segment) : string :=
  if s_identifier s
  then "{" +:+ s_s s +:+ (if s_multi s then "..." else "") +:+ "}"
  else s_s s.

Fixpoint render_path (segs : list segment) : string :=
  match segs with
  | [] => ""
  | s :: segs' => "/" +:+ render_segment s +:+ render_path segs'
  end.

Definition render (method : string) (segs : list segment) : string :=
  if decide (method = "") then render_path segs else method +:+ " " +:+ render_path segs.

(** ** The algebra of relationships *)

(** [Z] is, through the injective pairing [f], the product of [X] and [Y], and [A] is the
    product of [A1] and [A2]. *)
Definition product_of {X Y Z : Type} (f : X -> Y -> Z) (A1 : X -> Prop) (A2 : Y -> Prop)
    (A : Z -> Prop) : Prop :=
  (forall x y, A (f x y) <-> A1 x /\ A2 y) /\ (forall z, A z -> exists x y, z = f x y).

Section product.
Context {X Y Z : Type} (f : X -> Y -> Z).
Context (A1 B1 : X -> Prop) (A2 B2 : Y -> Prop) (A B : Z -> Prop).
Hypothesis (HA : product_of f A1 A2 A) (HB : product_of f B1 B2 B).

Lemma product_subset : (forall x, A1 x -> B1 x) -> (forall y, A2 y -> B2 y) -> forall z, A z -> B z.
Proof.
  destruct HA as [HA1 HA2], HB as [HB1 _]. intros H1 H2 z Hz.
  destruct (HA2 z Hz) as (x & y & ->). apply HA1 in Hz. apply HB1. naive_solver.
Qed.

Lemma product_common : (exists x, A1 x /\ B1 x) -> (exists y, A2 y /\ B2 y) -> exists z, A z /\ B z.
Proof.
  destruct HA as [HA1 _], HB as [HB1 _]. intros (x & ? & ?) (y & ? & ?).
  exists (f x y). rewrite HA1, HB1. done.
Qed.

Lemma product_common_inv : (exists z, A z /\ B z) -> (exists x, A1 x /\ B1 x) /\ (exists y, A2 y /\ B2 y).
Proof.
  destruct HA as [HA1 HA2], HB as [HB1 _]. intros (z & Hz & Hz').
  destruct (HA2 z Hz) as (x & y & ->). apply HA1 in Hz. apply HB1 in Hz'. naive_solver.
Qed.

Lemma product_only : (exists x, A1 x) -> (exists y, A2 y) ->
  (exists x, A1 x /\ ~ B1 x) \/ (exists y, A2 y /\ ~ B2 y) -> exists z, A z /\ ~ B z.
Proof.
  destruct HA as [HA1 _], HB as [HB1 _].
  intros [x0 ?] [y0 ?] [(x & ? & ?)|(y & ? & ?)]; [exists (f x y0)|exists (f x0 y)];
    rewrite HA1, HB1; naive_solver.
Qed.
End product.

Lemma related_common {X} r (A B : X -> Prop) :
  related r A B -> (exists x, A x) -> (exists x, B x) -> r <> disjoint -> exists x, A x /\ B x.
Proof. destruct r; simpl; naive_solver. Qed.

(** Every relationship but [disjoint] is determined by whether each side has members of its
    own. *)
Definition left_only (r : relationship) : bool :=
  match r with moreGeneral | overlaps => true | _ => false end.
Definition right_only (r : relationship) : bool :=
  match r with moreSpecific | overlaps => true | _ => false end.

Lemma related_flags {X} r (A B : X -> Prop) :
  r <> disjoint ->
  related r A B <->
    (r = overlaps -> exists x, A x /\ B x) /\
    (if left_only r then exists x, A x /\ ~ B x else forall x, A x -> B x) /\
    (if right_only r then exists x, B x /\ ~ A x else forall x, B x -> A x).
Proof. destruct r; simpl; naive_solver. Qed.

Lemma combine_flags r1 r2 :
  combineRelationships r1 r2 = disjoint <-> r1 = disjoint \/ r2 = disjoint.
Proof. destruct r1, r2; cbv; naive_solver. Qed.

Lemma combine_left_only r1 r2 :
  combineRelationships r1 r2 <> disjoint ->
  left_only (combineRelationships r1 r2) = left_only r1 || left_only r2 /\
  right_only (combineRelationships r1 r2) = right_only r1 || right_only r2.
Proof. destruct r1, r2; cbv; naive_solver. Qed.

(** The relationship of products is the combination of the relationships. *)
Lemma related_product {X Y Z} (f : X -> Y -> Z) A1 B1 A2 B2 A B r1 r2 :
  product_of f A1 A2 A -> product_of f B1 B2 B ->
  (exists x, A1 x) -> (exists x, B1 x) -> (exists y, A2 y) -> (exists y, B2 y) ->
  related r1 A1 B1 -> related r2 A2 B2 -> related (combineRelationships r1 r2) A B.
Proof.
  intros HA HB nA1 nB1 nA2 nB2 R1 R2.
  destruct (decide (combineRelationships r1 r2 = disjoint)) as [E|E].
  { rewrite E. apply combine_flags in E. intros z [Hz Hz'].
    destruct (product_common_inv f A1 B1 A2 B2 A B HA HB (ex_intro _ z (conj Hz Hz')))
      as [(x & ? & ?) (y & ? & ?)].
    destruct E as [->| ->]; [apply (R1 x)|apply (R2 y)]; done. }
  assert (r1 <> disjoint /\ r2 <> disjoint) as [E1 E2] by (rewrite combine_flags in E; tauto).
  pose proof (related_common _ _ _ R1 nA1 nB1 E1) as C1.
  pose proof (related_common _ _ _ R2 nA2 nB2 E2) as C2.
  apply related_flags in R1 as (_ & L1 & S1), R2 as (_ & L2 & S2); [|done..].
  apply related_flags; [done|]. destruct (combine_left_only _ _ E) as [-> ->].
  split; [intros _; by apply (product_common f A1 B1 A2 B2)|]. split.
  - destruct (left_only r1), (left_only r2); simpl in *;
      first [apply (product_only f A1 B1 A2 B2); auto | apply (product_subset f A1 B1 A2 B2); auto].
  - destruct (right_only r1), (right_only r2); simpl in *;
      first [apply (product_only f B1 A1 B2 A2); auto | apply (product_subset f B1 A1 B2 A2); auto].
Qed.

Lemma combine_assoc r1 r2 r3 :
  combineRelationships r1 (combineRelationships r2 r3) =
  combineRelationships (combineRelationships r1 r2) r3.
Proof. by destruct r1, r2, r3. Qed.

Lemma combine_disjoint_r r : combineRelationships r disjoint = disjoint.
Proof. by destruct r. Qed.

Lemma related_inverse {X} r (A B : X -> Prop) :
  related r A B -> related (inverseRelationship r) B A.
Proof. destruct r; simpl; naive_solver. Qed.

(** Two inhabited sets are in at most one relationship. *)
Lemma related_unique {X} r1 r2 (A B : X -> Prop) :
  (exists x, A x) -> (exists x, B x) -> related r1 A B -> related r2 A B -> r1 = r2.
Proof.
  intros [x Hx] [y Hy] R1 R2. pose proof (R1 : related r1 A B) as R1'.
  destruct r1, r2; try reflexivity; exfalso; simpl in *; firstorder.
Qed.

(** ** Matching, relationally *)

Lemma multi_last_cons s segs :
  multi_last (s :: segs) -> segs <> [] -> s_multi s = false /\ multi_last segs.
Proof. by destruct segs. Qed.

Lemma multi_last_tail s segs : multi_last (s :: segs) -> multi_last segs.
Proof. destruct segs; simpl; naive_solver. Qed.

Lemma path_match_length psegs segs :
  path_match psegs segs -> multi_last psegs ->
  length segs = length psegs \/
  ((length psegs <= length segs)%nat /\ s_multi <$> last psegs = Some true).
Proof.
  revert segs. induction psegs as [|s psegs IH]; intros [|x segs] Hm Hml; simpl in Hm; try done.
  { by left. }
  destruct (s_multi s) eqn:E.
  - destruct psegs as [|s' psegs]; [|by simpl in Hml; destruct Hml; congruence].
    right. simpl. split; [lia|by rewrite E].
  - destruct Hm as [_ Hm].
    destruct (IH segs Hm (multi_last_tail _ _ Hml)) as [Hl|[Hle Hl]]; simpl; [left; lia|].
    right. split; [lia|]. destruct psegs; [done|]. exact Hl.
Qed.

Lemma match_loop_spec i psegs pre segs :
  length pre = i -> multi_last psegs ->
  length segs = length psegs \/
    ((length psegs <= length segs)%nat /\ s_multi <$> last psegs = Some true) ->
  exists b, match_loop i psegs (pre ++ segs) = Returns b /\ (b = true <-> path_match psegs segs).
Proof.
  revert i pre segs. induction psegs as [|s psegs IH]; intros i pre segs Hi Hml Hlen; simpl in *.
  { exists true. split; [done|]. destruct segs; simpl in *; naive_solver. }
  destruct segs as [|x segs]; [simpl in *; lia|].
  destruct (s_multi s) eqn:E; [by exists true|].
  assert (Hlen' : length segs = length psegs \/
    ((length psegs <= length segs)%nat /\ s_multi <$> last psegs = Some true)).
  { destruct Hlen as [Hlen|[Hlen Hl]]; simpl in *; [left; lia|].
    destruct psegs as [|s' psegs]; [simpl in Hl; congruence|].
    right. split; [apply le_S_n; exact Hlen|exact Hl]. }
  destruct (IH (S i) (pre ++ [x]) segs) as (b & Hb & Hbm);
    [rewrite length_app; simpl; lia|by destruct psegs; [|apply Hml]|done|].
  rewrite <- app_assoc in Hb. simpl in Hb.
  destruct (s_identifier s) eqn:Ei; [exists b; naive_solver|].
  rewrite lookup_app_r by lia. replace (i - length pre) with 0 by lia. simpl.
  case_decide as Hx; [exists b; naive_solver|]. exists false. naive_solver.
Qed.

Lemma last_multi_spec p :
  p_segments p <> [] -> exists b, last_multi p = Returns b /\ s_multi <$> last (p_segments p) = Some b.
Proof.
  intros Hne. unfold last_multi, lastSegment.
  destruct (last (p_segments p)) as [s|] eqn:E; [by exists (s_multi s)|].
  apply last_None in E. done.
Qed.


Lemma path_match_multi psegs segs :
  multi_last psegs -> psegs <> [] -> s_multi <$> last psegs = Some true ->
  (length psegs <= length segs)%nat \/ ~ path_match psegs segs.
Proof.
  intros Hml _ _. destruct (decide (length psegs <= length segs)%nat) as [|Hlt]; [by left|right].
  intros Hm. destruct (path_match_length _ _ Hm Hml) as [?|[? _]]; lia.
Qed.

Lemma fits_spec p (segs : list string) :
  wf_pattern p ->
  exists b,
    (if (length segs =? length (p_segments p)) then Returns true
     else m ← last_multi p; Returns (m && negb (length segs <? length (p_segments p))))
    = Returns b /\
    (b = true <-> length segs = length (p_segments p) \/
       ((length (p_segments p) <= length segs)%nat /\ s_multi <$> last (p_segments p) = Some true)).
Proof.
  intros [Hne _]. destruct (Nat.eqb_spec (length segs) (length (p_segments p))) as [E|E].
  { exists true. naive_solver. }
  destruct (last_multi_spec p Hne) as (m & -> & Hl). simpl. eexists. split; [done|].
  rewrite Hl. destruct m; simpl; [|naive_solver].
  destruct (Nat.ltb_spec (length segs) (length (p_segments p))); simpl; naive_solver lia.
Qed.

Lemma pattern_match_spec p m segs :
  wf_pattern p ->
  exists b, pattern_match p m segs = Returns b /\
    (b = true <-> method_match (p_method p) m /\ path_match (p_segments p) segs).
Proof.
  intros Hwf. unfold pattern_match, method_match.
  destruct (negb _ && negb _) eqn:E.
  { apply andb_true_iff in E as [E1%negb_true_iff E2%negb_true_iff].
    apply bool_decide_eq_false in E1, E2. exists false. naive_solver. }
  assert (Hm : p_method p = "" \/ p_method p = m).
  { apply andb_false_iff in E as [E|E]; apply negb_false_iff, bool_decide_eq_true in E; auto. }
  destruct (fits_spec p segs Hwf) as (fits & -> & Hfits). simpl.
  destruct Hwf as [Hne Hml]. destruct fits.
  - destruct (match_loop_spec 0 (p_segments p) [] segs) as (b & Hr & Hb); [done..|by apply Hfits|].
    simpl in Hr. exists b. rewrite Hr, Hb. naive_solver.
  - exists false. split; [done|]. split; [done|]. intros [_ Hp].
    apply Hfits. revert Hp Hml. apply path_match_length.
Qed.

Lemma matches_spec p m segs :
  wf_pattern p -> matches p (m, segs) <-> method_match (p_method p) m /\ path_match (p_segments p) segs.
Proof.
  intros Hwf. unfold matches. simpl.
  destruct (pattern_match_spec p m segs Hwf) as (b & -> & Hb). naive_solver.
Qed.

(** ** Comparison is exact *)

Lemma method_inhabited pm : exists m, method_match pm m.
Proof. exists pm. by right. Qed.

Lemma path_inhabited psegs : exists segs, path_match psegs segs.
Proof.
  induction psegs as [|s psegs [segs IH]]; [by exists []|].
  exists (s_s s :: segs). simpl. destruct (s_multi s); auto.
Qed.

Lemma other_string (s : string) : exists t, s <> t.
Proof. exists (String space s). intros H. apply (f_equal String.length) in H. simpl in H. lia. Qed.

Lemma compareMethods_exact p1 p2 :
  related (compareMethods p1 p2) (method_match (p_method p1)) (method_match (p_method p2)).
Proof.
  unfold compareMethods, method_match. destruct (other_string (p_method p1)) as [t1 ?].
  destruct (other_string (p_method p2)) as [t2 ?].
  case_decide as E; simpl; [by rewrite E|]. case_decide as E1; simpl.
  { split; [auto|]. exists t2. naive_solver congruence. }
  case_decide as E2; simpl; [split; [auto|]; exists t1|]; naive_solver congruence.
Qed.

(** One segment against one path segment. *)
Definition segment_match (s : segment) (x : string) : Prop := s_identifier s = true \/ x = s_s s.

Lemma segment_inhabited s : exists x, segment_match s x.
Proof. exists (s_s s). by right. Qed.

Lemma compareSegments_exact s1 s2 :
  s_multi s1 = false -> s_multi s2 = false ->
  related (compareSegments s1 s2) (segment_match s1) (segment_match s2).
Proof.
  unfold compareSegments, segment_match. intros -> ->. simpl.
  destruct (other_string (s_s s1)) as [t1 ?], (other_string (s_s s2)) as [t2 ?].
  destruct (s_identifier s1), (s_identifier s2); simpl.
  - naive_solver.
  - split; [naive_solver|]. exists t2. naive_solver.
  - split; [naive_solver|]. exists t1. naive_solver.
  - case_decide; simpl; naive_solver congruence.
Qed.

Lemma path_match_product s psegs :
  s_multi s = false ->
  product_of cons (segment_match s) (path_match psegs) (path_match (s :: psegs)).
Proof.
  intros E. split; [intros x segs; simpl; by rewrite E|].
  intros [|x segs]; [done|]. intros _. by exists x, segs.
Qed.

(** The relationship of two segment lists, as a function of the lists alone. *)
Fixpoint compare_lists (m1 m2 : bool) (segs1 segs2 : list segment) : relationship :=
  match segs1, segs2 with
  | [], [] => equivalent
  | [], _ :: _ => if m1 then moreGeneral else disjoint
  | _ :: _, [] => if m2 then moreSpecific else disjoint
  | s1 :: segs1', s2 :: segs2' =>
      combineRelationships (compareSegments s1 s2) (compare_lists m1 m2 segs1' segs2')
  end.

Lemma multi_vs_longer s b segs :
  s_multi s = true -> multi_last (b :: segs) -> segs <> [] ->
  related moreGeneral (path_match [s]) (path_match (b :: segs)).
Proof.
  intros E Hml Hne. destruct (multi_last_cons _ _ Hml Hne) as [Eb Hml'].
  split; [intros [|x l]; simpl; [done|by rewrite E]|].
  exists [""]. simpl. rewrite E, Eb. split; [done|]. intros [_ H]. by destruct segs.
Qed.

Lemma multi_vs_single s b :
  s_multi s = true -> s_multi b = false ->
  related moreGeneral (path_match [s]) (path_match [b]).
Proof.
  intros E Eb. split; [intros [|x l]; simpl; [done|by rewrite E]|].
  exists [""; ""]. simpl. rewrite E, Eb. naive_solver.
Qed.

Lemma single_exact a b :
  related (compareSegments a b) (path_match [a]) (path_match [b]).
Proof.
  destruct (s_multi a) eqn:Ea, (s_multi b) eqn:Eb.
  - unfold compareSegments. rewrite Ea, Eb. simpl. intros [|x l]; simpl; [done|]. by rewrite Ea, Eb.
  - unfold compareSegments. rewrite Ea, Eb. by apply multi_vs_single.
  - unfold compareSegments. rewrite Ea, Eb.
    apply (related_inverse moreGeneral). by apply multi_vs_single.
  - replace (compareSegments a b) with (combineRelationships (compareSegments a b) equivalent)
      by (by destruct (compareSegments a b)).
    apply (related_product cons (segment_match a) (segment_match b) (path_match []) (path_match []));
      auto using path_match_product, segment_inhabited, path_inhabited, compareSegments_exact.
    done.
Qed.

Lemma lengths_differ a b segs :
  s_multi a = false -> segs <> [] -> multi_last (b :: segs) ->
  related disjoint (path_match [a]) (path_match (b :: segs)).
Proof.
  intros E Hne Hml l [H1 H2]. destruct (multi_last_cons _ _ Hml Hne) as [Eb _].
  destruct l as [|x [|y l]]; simpl in *; rewrite ?E, ?Eb in *; destruct segs; naive_solver.
Qed.

Lemma compare_lists_exact segs1 : forall segs2 m1 m2,
  multi_last segs1 -> multi_last segs2 ->
  s_multi <$> last segs1 = Some m1 -> s_multi <$> last segs2 = Some m2 ->
  related (compare_lists m1 m2 segs1 segs2) (path_match segs1) (path_match segs2).
Proof.
  induction segs1 as [|a segs1 IH]; intros [|b segs2] m1 m2 Hml1 Hml2 Hl1 Hl2; try done.
  destruct segs1 as [|a' segs1], segs2 as [|b' segs2].
  - simpl. replace (combineRelationships _ _) with (compareSegments a b)
      by (by destruct (compareSegments a b)). apply single_exact.
  - simpl in Hl1. injection Hl1 as <-.
    destruct (multi_last_cons _ _ Hml2) as [Eb _]; [done|].
    simpl compare_lists. destruct (s_multi a) eqn:Ea.
    + unfold compareSegments. rewrite Ea, Eb. by apply multi_vs_longer.
    + rewrite combine_disjoint_r. by apply lengths_differ.
  - simpl in Hl2. injection Hl2 as <-.
    destruct (multi_last_cons _ _ Hml1) as [Ea _]; [done|].
    simpl compare_lists. destruct (s_multi b) eqn:Eb.
    + unfold compareSegments. rewrite Ea, Eb.
      apply (related_inverse moreGeneral). by apply multi_vs_longer.
    + rewrite combine_disjoint_r. apply (related_inverse disjoint). by apply lengths_differ.
  - destruct (multi_last_cons _ _ Hml1) as [Ea Hml1']; [done|].
    destruct (multi_last_cons _ _ Hml2) as [Eb Hml2']; [done|].
    change (compare_lists m1 m2 (a :: a' :: segs1) (b :: b' :: segs2)) with
      (combineRelationships (compareSegments a b) (compare_lists m1 m2 (a' :: segs1) (b' :: segs2))).
    apply (related_product cons (segment_match a) (segment_match b)
             (path_match (a' :: segs1)) (path_match (b' :: segs2)));
      auto using path_match_product, segment_inhabited, path_inhabited, compareSegments_exact.
Qed.

(** The loop of [comparePaths] together with the tests that follow it computes
    [compare_lists]. *)
Definition after_loop (m1 m2 : bool) (r : relationship * list segment * list segment * bool)
    : relationship :=
  let '(rel, segs1, segs2, stopped) := r in
  if (stopped : bool) then rel
  else if (length segs1 =? 0) && (length segs2 =? 0) then rel
  else if (length segs1 <? length segs2) && m1 then combineRelationships rel moreGeneral
  else if (length segs2 <? length segs1) && m2 then combineRelationships rel moreSpecific
  else disjoint.

Lemma after_loop_spec m1 m2 segs1 : forall segs2 rel,
  after_loop m1 m2 (compare_loop rel segs1 segs2) =
  combineRelationships rel (compare_lists m1 m2 segs1 segs2).
Proof.
  induction segs1 as [|s1 segs1 IH]; intros [|s2 segs2] rel; simpl.
  - by destruct rel.
  - destruct m1; [done|]. by rewrite combine_disjoint_r.
  - destruct m2; [done|]. by rewrite combine_disjoint_r.
  - rewrite combine_assoc. case_decide as E; simpl; [|apply IH].
    rewrite E. done.
Qed.

Lemma compare_lists_length m1 m2 segs1 segs2 :
  length segs1 <> length segs2 -> m1 = false -> m2 = false ->
  compare_lists m1 m2 segs1 segs2 = disjoint.
Proof.
  intros H -> ->. revert segs2 H.
  induction segs1 as [|s1 segs1 IH]; intros [|s2 segs2] H; simpl in *; try done.
  rewrite IH by lia. apply combine_disjoint_r.
Qed.

(** What [comparePaths] does after its length test. *)
Definition loop_tail_of (m1 m2 : bool) (p1 p2 : pattern) : outcome relationship :=
  let '(rel, segs1, segs2, stopped) := compare_loop equivalent (p_segments p1) (p_segments p2) in
  if (stopped : bool) then Returns rel
  else if (length segs1 =? 0) && (length segs2 =? 0) then Returns rel
  else
    c1 ← (if (length segs1 <? length segs2) then Returns m1 else Returns false);
    if (c1 : bool) then Returns (combineRelationships rel moreGeneral)
    else
      c2 ← (if (length segs2 <? length segs1) then Returns m2 else Returns false);
      if (c2 : bool) then Returns (combineRelationships rel moreSpecific)
      else Returns disjoint.

Lemma loop_tail m1 m2 p1 p2 :
  loop_tail_of m1 m2 p1 p2 =
  Returns (after_loop m1 m2 (compare_loop equivalent (p_segments p1) (p_segments p2))).
Proof.
  unfold loop_tail_of, after_loop.
  destruct (compare_loop _ _ _) as [[[rel segs1] segs2] stopped].
  destruct stopped; [done|]. destruct (_ && _); [done|].
  destruct (length segs1 <? length segs2), (length segs2 <? length segs1), m1, m2; done.
Qed.

Lemma comparePaths_spec p1 p2 :
  wf_pattern p1 -> wf_pattern p2 ->
  exists r, comparePaths p1 p2 = Returns r /\
    related r (path_match (p_segments p1)) (path_match (p_segments p2)).
Proof.
  intros [Hne1 Hml1] [Hne2 Hml2].
  destruct (last_multi_spec p1 Hne1) as (m1 & E1 & Hl1).
  destruct (last_multi_spec p2 Hne2) as (m2 & E2 & Hl2).
  exists (compare_lists m1 m2 (p_segments p1) (p_segments p2)).
  split; [|by apply compare_lists_exact].
  unfold comparePaths. rewrite E1, E2. simpl.
  pose proof (after_loop_spec m1 m2 (p_segments p1) (p_segments p2) equivalent) as Ha.
  change (combineRelationships equivalent ?r) with r in Ha. rewrite <- Ha.
  destruct (Nat.eqb_spec (length (p_segments p1)) (length (p_segments p2))) as [El|El]; simpl;
    [apply loop_tail|].
  destruct m1; simpl; [apply loop_tail|]. destruct m2; simpl; [apply loop_tail|].
  rewrite Ha. by rewrite compare_lists_length.
Qed.

Lemma comparePathsAndMethods_spec p1 p2 :
  wf_pattern p1 -> wf_pattern p2 ->
  exists r, comparePathsAndMethods p1 p2 = Returns r /\ related r (matches p1) (matches p2).
Proof.
  intros W1 W2. unfold comparePathsAndMethods.
  assert (P : forall p, wf_pattern p -> product_of pair (method_match (p_method p))
                (path_match (p_segments p)) (matches p)).
  { intros p W. split; [intros m segs; by apply matches_spec|].
    intros [m segs] _. by exists m, segs. }
  pose proof (compareMethods_exact p1 p2) as Rm. case_decide as E.
  - exists disjoint. split; [done|]. rewrite E in Rm. intros [m segs].
    rewrite !matches_spec by done. specialize (Rm m). tauto.
  - destruct (comparePaths_spec p1 p2 W1 W2) as (r & -> & Rp). eexists. split; [done|].
    eapply related_product; eauto using method_inhabited, path_inhabited.
Qed.

Lemma matches_inhabited p : wf_pattern p -> exists req, matches p req.
Proof.
  intros W. destruct (method_inhabited (p_method p)) as [m Hm].
  destruct (path_inhabited (p_segments p)) as [segs Hs].
  exists (m, segs). by apply matches_spec.
Qed.

(** ** Parsing: what is accepted, and that printing is its inverse *)

Definition wf_segment (s : segment) : Prop :=
  index_byte slash (s_s s) = None /\
  if s_identifier s
  then s_s s <> "" /\ (s_multi s = false -> has_suffix (s_s s) "..." = false)
  else s_multi s = false /\ index_byte lbrace (s_s s) = None.

#[export] Instance wf_segment_dec s : Decision (wf_segment s).
Proof. unfold wf_segment. destruct (s_identifier s); apply _. Defined.

(** The identifier names of a list of segments. *)
Definition names (segs : list segment) : list string := s_s <$> filter (fun s => s_identifier s) segs.

Definition wf_segments (segs : list segment) : Prop :=
  Forall wf_segment segs /\ multi_last segs /\ NoDup (names segs).

#[export] Instance wf_segments_dec segs : Decision (wf_segments segs).
Proof. unfold wf_segments. apply _. Defined.

Definition ends_ok (t : string) : Prop := t = "" \/ t = "/".

(** The path from the first slash on. *)
Definition slashed (path : string) : Prop := path = "" \/ exists rest, path = String slash rest.

Lemma names_cons s segs :
  names (s :: segs) = if s_identifier s then s_s s :: names segs else names segs.
Proof. unfold names. rewrite filter_cons. by destruct (s_identifier s). Qed.

Lemma multi_last_cons_intro s segs :
  (segs <> [] -> s_multi s = false) -> multi_last segs -> multi_last (s :: segs).
Proof. destruct segs; simpl; naive_solver. Qed.

Lemma segment_cut rest :
  let i := match index_byte slash rest with Some i => i | None => String.length rest end in
  index_byte slash (stake i rest) = None /\ rest = stake i rest +:+ sdrop i rest /\
  slashed (sdrop i rest).
Proof.
  simpl. unfold slashed. destruct (index_byte slash rest) as [i|] eqn:E.
  - destruct (index_byte_split _ _ _ E) as (H1 & H2 & _).
    split; [done|]. split; [by rewrite stake_sdrop|]. right. eauto.
  - rewrite stake_ge, sdrop_ge by done. split; [done|]. split; [by rewrite string_app_nil_r|]. by left.
Qed.

(** The braces of an identifier segment, and its printed form. *)
Lemma braces_spec seg :
  index_byte lbrace seg = Some 0 -> last_byte seg = Some rbrace ->
  seg = "{" +:+ strip_braces seg +:+ "}".
Proof.
  intros H0 Hl. destruct seg as [|c seg]; [done|]. simpl in H0.
  case_decide as E; [subst c|by destruct (index_byte lbrace seg)].
  destruct seg as [|d seg]; [done|].
  assert (Hl' : last_byte (String d seg) = Some rbrace) by exact Hl.
  apply last_byte_split in Hl'. unfold strip_braces.
  change (String lbrace ?x) with ("{" +:+ x). f_equal.
  change (sdrop 1 ("{" +:+ ?x)) with x. change (String.length ("{" +:+ ?x) - 2) with (String.length x - 1).
  exact Hl'.
Qed.

Lemma strip_braces_app name : strip_braces ("{" +:+ name +:+ "}") = name.
Proof.
  unfold strip_braces. change (sdrop 1 ("{" +:+ ?x)) with x.
  change (String.length ("{" +:+ ?x) - 2) with (String.length x - 1).
  rewrite string_length_app. simpl. replace (_ + 1 - 1) with (String.length name) by lia.
  apply stake_app.
Qed.

Lemma index_byte_braces name : 
  index_byte slash ("{" +:+ name +:+ "}") = None <-> index_byte slash name = None.
Proof. rewrite !index_byte_app_None. simpl. naive_solver. Qed.

(** What parsing [path] into the segments [new] guarantees, with the names of [seen] taken and
    [t] the trailing slash that was dropped. *)
Definition parsed (seen : gset string) (path : string) (new : list segment) (t : string) : Prop :=
  ends_ok t /\ wf_segments new /\ (forall x, x ∈ names new -> x ∉ seen) /\
  sdrop 1 path = sdrop 1 (render_path new +:+ t) /\ (path = "" <-> render_path new +:+ t = "").

Lemma wf_segments_nil : wf_segments [].
Proof. repeat constructor. Qed.

Lemma parsed_stop seen path t :
  ends_ok t -> sdrop 1 path = sdrop 1 t -> (path = "" <-> t = "") -> parsed seen path [] t.
Proof.
  intros. unfold parsed. split_and!; auto using wf_segments_nil. intros x ?%elem_of_nil. done.
Qed.

(** On a path that starts with a slash, the dropped first byte is known. *)
Lemma parsed_slashed seen path new t :
  parsed seen path new t -> slashed path -> path = render_path new +:+ t.
Proof.
  intros (Ht & _ & _ & Hd & He) [->|[r ->]]; [symmetry; by apply He|].
  destruct new as [|s new].
  - destruct Ht as [->| ->]; [by destruct He as [_ He]; specialize (He eq_refl)|].
    simpl in Hd. by rewrite Hd.
  - simpl in Hd. by rewrite Hd.
Qed.

(** The names taken once [s] is parsed. *)
Definition seen_after (s : segment) (seen : gset string) : gset string :=
  if s_identifier s then {[ s_s s ]} ∪ seen else seen.

Lemma parsed_step seen c s path' new t :
  parsed (seen_after s seen) path' new t -> slashed path' ->
  wf_segment s -> (path' <> "" -> s_multi s = false) -> (s_identifier s = true -> s_s s ∉ seen) ->
  parsed seen (String c (render_segment s +:+ path')) (s :: new) t.
Proof.
  intros Hp Hsl Hwf Hmul Hseen. pose proof (parsed_slashed _ _ _ _ Hp Hsl) as Hpath.
  destruct Hp as (Ht & (Hf & Hml & Hnd) & Hnew & Hd & He). unfold seen_after in Hnew.
  assert (Hne : new <> [] -> path' <> "").
  { intros Hn E. apply He in E. by destruct new. }
  unfold parsed, wf_segments. rewrite names_cons. split_and!; try done.
  - by constructor.
  - apply multi_last_cons_intro; auto.
  - destruct (s_identifier s); [|done]. constructor; [|done]. intros Hin. specialize (Hnew _ Hin). set_solver.
  - destruct (s_identifier s); [|done]. intros x [->|Hx]%elem_of_cons; [auto|].
    specialize (Hnew _ Hx). set_solver.
  - simpl. rewrite Hpath. by rewrite string_app_assoc.
Qed.

(** An identifier segment, as parsed. *)
Lemma identifier_spec seg name multi :
  index_byte slash seg = None -> index_byte lbrace seg = Some 0 -> last_byte seg = Some rbrace ->
  cut_suffix (strip_braces seg) "..." = (name, multi) -> name <> "" ->
  wf_segment (Segment name true multi) /\ render_segment (Segment name true multi) = seg.
Proof.
  intros Hs Elb Elast Ecut En. pose proof (braces_spec seg Elb Elast) as Hseg.
  assert (Hstrip : index_byte slash (strip_braces seg) = None)
    by (apply index_byte_braces; by rewrite <- Hseg).
  unfold wf_segment, render_segment. simpl. destruct multi.
  - apply cut_suffix_true in Ecut. rewrite Ecut in Hstrip, Hseg.
    apply index_byte_app_None in Hstrip as [? _]. split; [by split|]. rewrite Hseg.
    by rewrite !string_app_assoc.
  - apply cut_suffix_false in Ecut as [-> Hsuf]. split; [by split|]. by rewrite Hseg at 2.
Qed.

Lemma parse_segments_sound fuel : forall path seen segs out,
  parse_segments fuel path seen segs = Ok out -> String.length path <= fuel ->
  exists new t, out = segs ++ new /\ parsed seen path new t.
Proof.
  induction fuel as [|fuel IH]; intros path seen segs out Hp Hlen.
  { destruct path; [|simpl in Hlen; lia]. simpl in Hp. simplify_eq.
    exists [], "". rewrite app_nil_r. split; [done|]. apply parsed_stop; [by left|done..]. }
  destruct path as [|c rest]; simpl in Hp.
  { simplify_eq. exists [], "". rewrite app_nil_r. split; [done|]. apply parsed_stop; [by left|done..]. }
  case_decide as Er.
  { simplify_eq. exists [], "/". rewrite app_nil_r. split; [done|]. apply parsed_stop; [by right|done..]. }
  destruct (segment_cut rest) as (Hs & Hrest & Hsl). simpl in Hs, Hrest, Hsl.
  set (i := match index_byte slash rest with Some i => i | None => String.length rest end) in *.
  set (seg := stake i rest) in *. set (path' := sdrop i rest) in *.
  assert (Hlen' : String.length path' <= fuel) by (unfold path'; rewrite sdrop_length; simpl in Hlen; lia).
  assert (Hstep : forall s, wf_segment s -> (path' <> "" -> s_multi s = false) ->
    render_segment s = seg -> (s_identifier s = true -> s_s s ∉ seen) ->
    parse_segments fuel path' (seen_after s seen) (segs ++ [s]) = Ok out ->
    exists new t, out = segs ++ new /\ parsed seen (String c rest) new t).
  { intros s Hwf Hmul Hren Hseen Hrec.
    destruct (IH _ _ _ _ Hrec Hlen') as (new & t & -> & Hpar).
    exists (s :: new), t. split; [by rewrite <- app_assoc|]. rewrite Hrest, <- Hren. by apply parsed_step. }
  clearbody seg path'.
  destruct (index_byte lbrace seg) as [[|n]|] eqn:Elb; [|done|by apply (Hstep (Segment seg false false))].
  case_bool_decide as Elast; simpl in Hp; [|done].
  destruct (cut_suffix (strip_braces seg) "...") as [name multi] eqn:Ecut.
  destruct (multi && negb (bool_decide (path' = ""))) eqn:Em; [done|].
  case_bool_decide as En; [done|]. case_bool_decide as Ein; [done|].
  destruct (identifier_spec seg name multi) as [Hwf Hren]; [done..|].
  apply (Hstep (Segment name true multi)); try done. simpl. intros Hne.
  destruct multi; [|done]. rewrite bool_decide_eq_false_2 in Em; done.
Qed.

(** The last segment is not the empty literal, which a trailing slash cannot be told from. *)
Definition ends_nonempty (segs : list segment) : Prop :=
  s_s <$> last segs <> Some "" .

#[export] Instance ends_nonempty_dec segs : Decision (ends_nonempty segs).
Proof. unfold ends_nonempty. apply _. Defined.

Lemma render_no_slash s : wf_segment s -> index_byte slash (render_segment s) = None.
Proof.
  unfold wf_segment, render_segment. intros [H _]. destruct (s_identifier s); [|done].
  rewrite string_app_assoc. rewrite <- string_app_assoc.
  apply index_byte_app_None; split; [done|]. apply index_byte_app_None; split.
  - exact H.
  - by destruct (s_multi s).
Qed.

Lemma render_path_cut s new :
  wf_segment s ->
  let rest := render_segment s +:+ render_path new in
  let i := match index_byte slash rest with Some i => i | None => String.length rest end in
  stake i rest = render_segment s /\ sdrop i rest = render_path new.
Proof.
  intros Hwf%render_no_slash. simpl.
  assert (Hi : match index_byte slash (render_segment s +:+ render_path new) with
               | Some i => i | None => String.length (render_segment s +:+ render_path new) end
               = String.length (render_segment s)).
  { rewrite (index_byte_app_l _ _ _ Hwf). destruct new as [|s' new]; simpl.
    - by rewrite string_app_nil_r.
    - lia. }
  rewrite Hi. split; [apply stake_app|apply sdrop_app].
Qed.

Lemma render_identifier s :
  s_identifier s = true -> wf_segment s ->
  index_byte lbrace (render_segment s) = Some 0 /\ last_byte (render_segment s) = Some rbrace /\
  cut_suffix (strip_braces (render_segment s)) "..." = (s_s s, s_multi s).
Proof.
  unfold wf_segment, render_segment. intros -> (Hs & Hne & Hsuf). rewrite string_app_assoc.
  split; [done|]. rewrite <- string_app_assoc. split.
  { rewrite !string_app_assoc. apply last_byte_app. }
  rewrite (string_app_assoc (s_s s)). rewrite strip_braces_app. destruct (s_multi s).
  - apply cut_suffix_app.
  - rewrite string_app_nil_r. apply cut_suffix_false. auto.
Qed.

Lemma parse_segments_render fuel : forall new seen segs,
  Forall wf_segment new -> multi_last new -> NoDup (names new) -> ends_nonempty new ->
  (forall x, x ∈ names new -> x ∉ seen) -> String.length (render_path new) <= fuel ->
  parse_segments fuel (render_path new) seen segs = Ok (segs ++ new).
Proof.
  induction fuel as [|fuel IH]; intros new seen segs Hwf Hml Hnd Hend Hnew Hlen.
  { destruct new; [by rewrite app_nil_r|simpl in Hlen; lia]. }
  destruct new as [|s new]; [by rewrite app_nil_r|].
  apply Forall_cons in Hwf as [Hs Hwf]. rewrite names_cons in Hnd, Hnew.
  destruct (render_path_cut s new Hs) as [Hcut Hrest]. simpl in Hcut, Hrest.
  assert (Hne : render_segment s +:+ render_path new <> "").
  { destruct new as [|s' new].
    - simpl. rewrite string_app_nil_r. unfold render_segment. destruct (s_identifier s); [done|].
      intros E. apply Hend. simpl. by rewrite E.
    - intros E. apply (f_equal String.length) in E. rewrite string_length_app in E. simpl in E. lia. }
  assert (Hlen' : String.length (render_path new) <= fuel).
  { cbn [render_path] in Hlen. rewrite !string_length_app in Hlen. simpl in Hlen. lia. }
  assert (Hend' : ends_nonempty new).
  { destruct new; [done|]. exact Hend. }
  assert (Hml' : multi_last new) by (by eapply multi_last_tail).
  simpl. change ("" +:+ ?x) with x. rewrite decide_False by done.
  rewrite Hcut, Hrest. replace (segs ++ s :: new) with ((segs ++ [s]) ++ new) by (by rewrite <- app_assoc).
  destruct (s_identifier s) eqn:Ei.
  - destruct (render_identifier s Ei Hs) as (-> & Hl & ->). rewrite bool_decide_eq_true_2 by done. simpl.
    unfold wf_segment in Hs. rewrite Ei in Hs. destruct Hs as (_ & Hsne & _).
    apply NoDup_cons in Hnd as [Hnin Hnd].
    replace (s_multi s && _) with false.
    2: { destruct new as [|s' new]; [by rewrite andb_false_r|].
         destruct (multi_last_cons _ _ Hml) as [-> _]; done. }
    rewrite !bool_decide_eq_false_2; [|by apply Hnew; left|done].
    assert (Hseg : Segment (s_s s) true (s_multi s) = s) by (destruct s; by simpl in *; subst).
    rewrite Hseg. apply IH; try done. intros x Hx.
    assert (x <> s_s s) by (by intros ->). specialize (Hnew x). set_solver.
  - assert (Hr : render_segment s = s_s s) by (unfold render_segment; by rewrite Ei).
    unfold wf_segment in Hs. rewrite Ei in Hs. destruct Hs as (_ & Hm & Hlb).
    rewrite Hr, Hlb. assert (Hseg : Segment (s_s s) false false = s) by (destruct s; by simpl in *; subst).
    rewrite Hseg. by apply IH.
Qed.

Lemma cut_byte_true s c a b : cut_byte s c = (a, b, true) -> s = a +:+ String c b /\ index_byte c a = None.
Proof.
  unfold cut_byte. destruct (index_byte c s) as [i|] eqn:E; [|done]. intros H. simplify_eq.
  destruct (index_byte_split _ _ _ E) as (H1 & H2 & _). split; [|done].
  rewrite <- H2. symmetry. apply stake_sdrop.
Qed.

Lemma validateMethod_None m : validateMethod m = None <-> m ∈ valid_methods.
Proof. unfold validateMethod. case_bool_decide; naive_solver. Qed.

(** Method and path part of a pattern text. *)
Definition with_method (method path : string) : string :=
  if decide (method = "") then path else method +:+ " " +:+ path.

Lemma split_method_sound p m path :
  split_method p = Ok (m, path) -> p = with_method m path /\ (m = "" \/ m ∈ valid_methods).
Proof.
  unfold split_method, with_method. destruct (cut_byte p space) as [[a b] found] eqn:E.
  destruct found.
  - apply cut_byte_true in E as [-> _].
    destruct (validateMethod a) eqn:V; [done|]. intros H. simplify_eq.
    apply validateMethod_None in V. rewrite decide_False; [auto|]. intros ->.
    revert V. vm_compute. by intros V; repeat (apply elem_of_cons in V as [?|V]; [done|]); apply elem_of_nil in V.
  - intros H. simplify_eq. rewrite decide_True by done. split; [|by left].
    revert E. unfold cut_byte. destruct (index_byte space p); naive_solver.
Qed.

Lemma valid_method_no_space m : m ∈ valid_methods -> index_byte space m = None /\ m <> "".
Proof. intros H. repeat (apply elem_of_cons in H as [->|H]; [done|]). by apply elem_of_nil in H. Qed.

Lemma split_method_complete m path :
  (m = "" /\ index_byte space path = None) \/ m ∈ valid_methods ->
  split_method (with_method m path) = Ok (m, path).
Proof.
  unfold split_method, with_method. intros [[-> H]|H].
  - rewrite decide_True by done. unfold cut_byte. by rewrite H.
  - destruct (valid_method_no_space m H) as [Hsp Hne]. rewrite decide_False by done.
    change (" " +:+ path) with (String space path). rewrite cut_byte_app by done.
    apply validateMethod_None in H. by rewrite H.
Qed.

Lemma newPattern_segments p q : newPattern p = Ok q -> wf_segments (p_segments q).
Proof.
  unfold newPattern. case_decide; [done|].
  destruct (split_method p) as [[m path]|]; simpl; [|done]. destruct (contains_byte slash path); [|done].
  destruct (parse_segments _ _ _ _) as [segs|] eqn:Es; [|done]. intros Hq. simplify_eq/=.
  by destruct (parse_segments_sound _ _ _ _ _ Es (le_n _)) as (new & t & -> & _ & Hwf & _).
Qed.

(** C16. Whatever [newPattern] accepts has well-formed parts: it keeps the text, its method is empty
    or one of the six valid ones, a multi segment only stands at the end, identifier names are
    distinct and not empty, literals hold neither a slash nor an opening brace (a closing one they
    may), and the segments print back to the path, up to its first byte (which the parser never
    looks at) and one trailing slash. It is a well-formed pattern, one that has a segment, except
    for the path that is a slash only, which is accepted and has none. *)
Theorem newPattern_sound p q :
  newPattern p = Ok q ->
  p_pattern q = p /\ (p_method q = "" \/ p_method q ∈ valid_methods) /\
  wf_segments (p_segments q) /\
  exists path t, p = with_method (p_method q) path /\ ends_ok t /\ path <> "" /\
    sdrop 1 path = sdrop 1 (render_path (p_segments q) +:+ t) /\
    (wf_pattern q \/ path = "/" /\ p_segments q = []).
Proof.
  unfold newPattern. case_decide as Ep; [done|].
  destruct (split_method p) as [[m path]|] eqn:Em; simpl; [|done].
  destruct (contains_byte slash path) eqn:Ec; [|done].
  destruct (parse_segments _ _ _ _) as [segs|] eqn:Es; [|done]. intros H. simplify_eq/=.
  destruct (split_method_sound _ _ _ Em) as [-> Hm].
  destruct (parse_segments_sound _ _ _ _ _ Es (le_n _)) as (new & t & -> & Ht & Hwf & _ & Hd & _).
  split_and!; try done. exists path, t. split_and!; try done; [by intros ->|].
  destruct new as [|s new]; [right|left; split; [done|by destruct Hwf as (_ & ? & _)]].
  split; [|done]. destruct path as [|c path]; [done|]. assert (path = "") as -> by (simpl in Hd; rewrite Hd; by destruct Ht as [->| ->]).
  unfold contains_byte in Ec. simpl in Ec. case_decide as Hc; [by subst|done].
Qed.

Lemma newPattern_sound_witness :
  exists q, newPattern "GET /projects/{id}/x/{rest...}" = Ok q /\
    p_segments q = [Segment "projects" false false; Segment "id" true false;
                    Segment "x" false false; Segment "rest" true true] /\
    wf_segments (p_segments q).
Proof.
  eexists. split; [vm_compute; reflexivity|]. split; [reflexivity|].
  apply (newPattern_sound "GET /projects/{id}/x/{rest...}"). vm_compute. reflexivity.
Defined.

(** Parsing is the inverse of printing: the printed form of every well-formed non-empty segment
    list, with or without a method, parses back to exactly that list. *)
Theorem newPattern_render method segs :
  (method = "" /\ index_byte space (render_path segs) = None) \/ method ∈ valid_methods ->
  wf_segments segs -> segs <> [] -> ends_nonempty segs ->
  newPattern (render method segs) = Ok (Pattern (render method segs) method segs).
Proof.
  intros Hm (Hwf & Hml & Hnd) Hne Hend.
  assert (Hr : render method segs = with_method method (render_path segs)) by reflexivity.
  assert (Hp : render_path segs <> "") by (by destruct segs).
  unfold newPattern. rewrite Hr. rewrite (split_method_complete _ _ Hm).
  rewrite decide_False.
  2: { unfold with_method. case_decide; [done|]. intros E. apply (f_equal String.length) in E.
       rewrite !string_length_app in E. simpl in E. lia. }
  simpl. replace (contains_byte slash (render_path segs)) with true by (by destruct segs).
  rewrite (parse_segments_render _ segs ∅ []) by (try done; set_solver). done.
Qed.

Lemma newPattern_render_witness :
  newPattern "POST /a/{b}/{c...}" =
    Ok (Pattern "POST /a/{b}/{c...}" "POST"
          [Segment "a" false false; Segment "b" true false; Segment "c" true true]).
Proof.
  apply (newPattern_render "POST" [Segment "a" false false; Segment "b" true false; Segment "c" true true]).
  - right. by_decision.
  - by_decision.
  - done.
  - by_decision.
Defined.

(** C4. On a well-formed pattern [match] never panics, and it accepts a request exactly when the method
    is the pattern's (or the pattern has none) and the segments agree one by one, a final multi
    segment standing for one or more. *)
Theorem pattern_match_exact p m segs :
  wf_pattern p ->
  exists b, pattern_match p m segs = Returns b /\
    (b = true <-> (p_method p = "" \/ p_method p = m) /\ path_match (p_segments p) segs).
Proof. apply pattern_match_spec. Qed.

Lemma pattern_match_exact_witness :
  exists b, pattern_match (Pattern "" "GET" [Segment "a" false false; Segment "r" true true]) "GET" ["a"; "x"; "y"]
              = Returns b /\
    (b = true <-> ("GET" = "" \/ "GET" = "GET") /\
       path_match [Segment "a" false false; Segment "r" true true] ["a"; "x"; "y"]).
Proof.
  apply (pattern_match_exact (Pattern "" "GET" [Segment "a" false false; Segment "r" true true])).
  by_decision.
Defined.

(** C3. [comparePathsAndMethods] is exact: on well-formed patterns it returns without panicking the set
    relationship (equal, proper superset, proper subset, disjoint, or properly overlapping) of
    the two sets of requests the patterns match. *)
Theorem comparePathsAndMethods_exact p1 p2 :
  wf_pattern p1 -> wf_pattern p2 ->
  exists r, comparePathsAndMethods p1 p2 = Returns r /\ related r (matches p1) (matches p2) /\
    forall r', related r' (matches p1) (matches p2) -> r' = r.
Proof.
  intros W1 W2. destruct (comparePathsAndMethods_spec p1 p2 W1 W2) as (r & E & R).
  exists r. split_and!; try done. intros r' R'.
  apply (related_unique r' r (matches p1) (matches p2)); auto using matches_inhabited.
Qed.

Lemma comparePathsAndMethods_exact_witness :
  let p1 := Pattern "" "" [Segment "a" false false; Segment "x" true false] in
  let p2 := Pattern "" "GET" [Segment "y" true false; Segment "b" false false] in
  comparePathsAndMethods p1 p2 = Returns overlaps /\ related overlaps (matches p1) (matches p2).
Proof.
  intros p1 p2. split; [reflexivity|].
  destruct (comparePathsAndMethods_exact p1 p2) as (r & E & R & _); [by_decision..|].
  vm_compute in E. injection E as <-. exact R.
Defined.

(** The pattern of the root path is accepted but has no segment: matching it against any request,
    whose segment list is never empty, panics with an index error. *)
Theorem root_pattern_panics method x segs :
  method ∈ valid_methods ->
  exists q, newPattern (method +:+ " /") = Ok q /\ p_segments q = [] /\
    pattern_match q method (x :: segs) = Panics index_out_of_range.
Proof.
  intros H. exists (Pattern (method +:+ " /") method []).
  repeat (apply elem_of_cons in H as [->|H]; [done|]). by apply elem_of_nil in H.
Qed.

Lemma root_pattern_panics_witness :
  exists q, newPattern "GET /" = Ok q /\ p_segments q = [] /\
    pattern_match q "GET" [""] = Panics index_out_of_range.
Proof. apply (root_pattern_panics "GET" "" []). by_decision. Defined.

(** The first byte of a path is dropped without being a slash. *)
Example first_byte_ignored :
  p_segments <$> newPattern "foo/bar" = Ok [Segment "oo" false false; Segment "bar" false false].
Proof. vm_compute. reflexivity. Qed.
