(* ===== verification/Recovery.v ===== *)
(** * Supervision of goroutines (internal/recoverytooling/recovery.go)

    The loops run a body until the context is done, or until the body has ended the way they
    wait for. The body is a function on the state of the program it may change; whether the
    context is done is read off that state before every attempt. A loop is unrolled with fuel:
    [None] says the fuel was not enough, and the theorems say how much is. *)
From S2P Require Import Prelude.

(** What a loop writes to the log. *)
Inductive log_entry :=
| LogPanic (why : string)
| LogRetry (err : string)
| LogExited
| LogSuppressed.

#[export] Instance log_entry_eq_dec : EqDecision log_entry.
Proof. solve_decision. Defined.

Section loops.
Context {S : Type} (done : S -> bool).

(** [for { select { case <-ctx.Done(): return; default: body } }]: [body] says whether the
    function returns after it. *)
Fixpoint select_loop (fuel : nat) (body : S -> S * list log_entry * bool) (s : S)
    : option (S * list log_entry) :=
  match fuel with
  | 0 => None
  | Datatypes.S fuel' =>
      if done s then Some (s, [])
      else
        let '(s', logs, stop) := body s in
        if (stop : bool) then Some (s', logs)
        else '(s'', logs') ← select_loop fuel' body s'; Some (s'', logs ++ logs')
  end.

(** A call under [defer recover()]: the state the call left, what was logged, and the error it
    returned, if it returned. *)
Definition recovered {A : Type} (s : S) (r : S * outcome A) : S * list log_entry * option A :=
  match r with
  | (s', Returns a) => (s', [], Some a)
  | (s', Panics why) => (s', [LogPanic why], None)
  end.

(* go: internal/recoverytooling/recovery.go | func RecoverOrStop *)
Definition RecoverOrStop (fuel : nat) (exec : S -> S * outcome unit) (s : S)
    : option (S * list log_entry) :=
  select_loop fuel
    (fun s =>
       let '(s', logs, r) := recovered s (exec s) in
       let restart := match r with None => true | Some _ => false end in
       (s', logs, negb restart)) s.

(* go: internal/recoverytooling/recovery.go | func Loop *)
Definition Loop (fuel : nat) (loop : S -> S * outcome unit) (s : S)
    : option (S * list log_entry) :=
  select_loop fuel
    (fun s =>
       let '(s', logs, r) := recovered s (loop s) in
       (s', logs ++ match r with Some _ => [LogExited] | None => [] end, false)) s.

(* go: internal/recoverytooling/recovery.go | func SuppressPanic *)
Definition SuppressPanic (exec : S -> S * outcome unit) (s : S) : S * list log_entry :=
  let '(s', logs, r) := recovered s (exec s) in
  (s', match r with Some _ => logs | None => logs ++ [LogSuppressed] end).

(** [f] returns an error ([Some]) or [nil] ([None]). *)
(* go: internal/recoverytooling/recovery.go | func DoUntilSuccess *)
Definition DoUntilSuccess (fuel : nat) (f : S -> S * outcome (option string)) (s : S)
    : option (S * list log_entry) :=
  select_loop fuel
    (fun s =>
       let '(s', logs, r) := recovered s (f s) in
       match r with
       | None => (s', logs, false)
       | Some (Some err) => (s', logs ++ [LogRetry err], false)
       | Some None => (s', logs, true)
       end) s.

(** ** When and where the loops end *)

(** The state after [n] attempts. *)
Fixpoint attempts (n : nat) (body : S -> S * list log_entry * bool) (s : S) : S :=
  match n with
  | 0 => s
  | Datatypes.S n' => attempts n' body (body s).1.1
  end.

(** The loop goes on from its first [n] attempts. *)
Definition goes_on (n : nat) (body : S -> S * list log_entry * bool) (s : S) : Prop :=
  forall i, i < n -> done (attempts i body s) = false /\ (body (attempts i body s)).2 = false.

Lemma goes_on_S n body s :
  goes_on (Datatypes.S n) body s <->
  done s = false /\ (body s).2 = false /\ goes_on n body (body s).1.1.
Proof.
  unfold goes_on. split.
  - intros H. destruct (H 0) as [H1 H2]; [lia|]. split_and!; [done..|].
    intros i Hi. apply (H (Datatypes.S i)). lia.
  - intros (H1 & H2 & H3) [|i] Hi; [done|]. apply H3. lia.
Qed.

Lemma select_loop_ends n : forall body s fuel,
  goes_on n body s -> n < fuel ->
  (done (attempts n body s) = true ->
     exists logs, select_loop fuel body s = Some (attempts n body s, logs)) /\
  (done (attempts n body s) = false -> (body (attempts n body s)).2 = true ->
     exists logs, select_loop fuel body s = Some (attempts (Datatypes.S n) body s, logs)).
Proof.
  induction n as [|n IH]; intros body s fuel Hgo Hfuel; (destruct fuel as [|fuel]; [lia|]).
  - simpl. destruct (body s) as [[s' logs] stop]. simpl. split; intros ->; [eauto|]. intros ->. eauto.
  - apply goes_on_S in Hgo as (H1 & H2 & H3).
    destruct (IH body (body s).1.1 fuel H3 ltac:(lia)) as [I1 I2]. simpl in *. rewrite H1.
    destruct (body s) as [[s' logs] stop]. simpl in *. rewrite H2.
    split; [intros Hd; destruct (I1 Hd) as [l ->]|intros Hd Hs; destruct (I2 Hd Hs) as [l ->]];
      simpl; eauto.
Qed.

Lemma select_loop_inv fuel : forall body s s' logs,
  select_loop fuel body s = Some (s', logs) ->
  exists n, n < fuel /\ goes_on n body s /\
    ((done (attempts n body s) = true /\ s' = attempts n body s) \/
     (done (attempts n body s) = false /\ (body (attempts n body s)).2 = true /\
      s' = attempts (Datatypes.S n) body s)).
Proof.
  induction fuel as [|fuel IH]; intros body s s' logs H; simpl in H; [done|].
  destruct (done s) eqn:Hd.
  { simplify_eq. exists 0. split; [lia|]. split; [intros i Hi; lia|]. by left. }
  destruct (body s) as [[s1 logs1] stop] eqn:Eb. destruct stop.
  { simplify_eq. exists 0. split; [lia|]. split; [intros i Hi; lia|]. right. simpl. by rewrite Eb. }
  destruct (select_loop fuel body s1) as [[s2 logs2]|] eqn:Es; simpl in H; [|done]. simplify_eq.
  destruct (IH _ _ _ _ Es) as (n & Hn & Hgo & Hend).
  exists (Datatypes.S n). split; [lia|]. split; [apply goes_on_S; by rewrite Eb|].
  simpl. rewrite Eb. exact Hend.
Qed.

(** ** [DoUntilSuccess] *)

(** The attempt made in state [s]: the state it leaves, and whether it succeeded, that is,
    returned without an error. *)
Definition attempt (f : S -> S * outcome (option string)) (s : S) : S := (f s).1.
Definition succeeds (f : S -> S * outcome (option string)) (s : S) : Prop :=
  (f s).2 = Returns None.

Lemma do_until_body f s :
  let body := fun s =>
       let '(s', logs, r) := recovered s (f s) in
       match r with
       | None => (s', logs, false)
       | Some (Some err) => (s', logs ++ [LogRetry err], false)
       | Some None => (s', logs, true)
       end in
  (body s).1.1 = attempt f s /\ ((body s).2 = true <-> succeeds f s).
Proof. unfold attempt, succeeds. simpl. destruct (f s) as [s' [[e|]|w]]; simpl; naive_solver. Qed.

Definition nth_state (f : S -> S * outcome (option string)) (n : nat) (s : S) : S :=
  Nat.iter n (attempt f) s.

Lemma nth_state_S f n s : nth_state f (Datatypes.S n) s = nth_state f n (attempt f s).
Proof. unfold nth_state. rewrite Nat.iter_succ_r. done. Qed.

Lemma do_until_attempts f n s :
  attempts n (fun s =>
       let '(s', logs, r) := recovered s (f s) in
       match r with
       | None => (s', logs, false)
       | Some (Some err) => (s', logs ++ [LogRetry err], false)
       | Some None => (s', logs, true)
       end) s = nth_state f n s.
Proof.
  revert s. induction n as [|n IH]; intros s; [done|]. rewrite nth_state_S. simpl.
  destruct (do_until_body f s) as [H _]. simpl in H. by rewrite H, IH.
Qed.

(** [DoUntilSuccess] calls [f] again and again, and returns exactly at the first of two
    events: the context is found done before an attempt, or an attempt returns without an
    error (a panic counts as a failed attempt and is swallowed). If that happens after [n]
    failed attempts, it does return, in the state reached then, and with any more fuel than
    [n] the result is the same. *)
Theorem DoUntilSuccess_first_success f s n :
  (forall i, i < n -> done (nth_state f i s) = false /\ ~ succeeds f (nth_state f i s)) ->
  done (nth_state f n s) = true \/ succeeds f (nth_state f n s) ->
  forall fuel, n < fuel ->
    fst <$> DoUntilSuccess fuel f s =
      Some (if done (nth_state f n s) then nth_state f n s else nth_state f (Datatypes.S n) s).
Proof.
  intros Hgo Hend fuel Hfuel. unfold DoUntilSuccess.
  match goal with |- context [select_loop _ ?b _] => set (body := b) end.
  assert (Ha : forall k, attempts k body s = nth_state f k s) by (intros; apply do_until_attempts).
  assert (Hb : forall s, (body s).2 = true <-> succeeds f s) by (intros; apply do_until_body).
  assert (Hgo' : goes_on n body s).
  { intros i Hi. rewrite Ha. destruct (Hgo i Hi) as [H1 H2]. split; [done|].
    rewrite <- Hb in H2. by apply not_true_is_false. }
  destruct (select_loop_ends n body s fuel Hgo' Hfuel) as [E1 E2].
  rewrite Ha in E1, E2. destruct (done (nth_state f n s)) eqn:Ed.
  - destruct (E1 eq_refl) as [logs ->]. done.
  - destruct E2 as [logs ->]; [done|apply Hb; naive_solver|].
    change (Some (attempts (Datatypes.S n) body s) = Some (nth_state f (Datatypes.S n) s)). by rewrite Ha.
Qed.

(** Conversely, whenever [DoUntilSuccess] returns, every attempt but possibly the last has
    failed with the context alive, and it stopped because the context was done or the last
    attempt succeeded: it never gives up. *)
Theorem DoUntilSuccess_never_gives_up f s s' logs fuel :
  DoUntilSuccess fuel f s = Some (s', logs) ->
  exists n, (forall i, i < n -> done (nth_state f i s) = false /\ ~ succeeds f (nth_state f i s)) /\
    ((done (nth_state f n s) = true /\ s' = nth_state f n s) \/
     (succeeds f (nth_state f n s) /\ s' = nth_state f (Datatypes.S n) s)).
Proof.
  intros H. destruct (select_loop_inv _ _ _ _ _ H) as (n & _ & Hgo & Hend). exists n.
  unfold goes_on in Hgo. setoid_rewrite do_until_attempts in Hgo. rewrite !do_until_attempts in Hend.
  split.
  - intros i Hi. destruct (Hgo i Hi) as [H1 H2]. split; [done|]. intros Hs.
    apply do_until_body in Hs. simpl in Hs. congruence.
  - destruct Hend as [[H1 H2]|(H1 & H2 & H3)]; [by left|right]. split; [|done].
    by apply do_until_body in H2.
Qed.

(** ** [RecoverOrStop], [Loop] and [SuppressPanic] *)

(** [exec] panics in state [s]. *)
Definition panics (exec : S -> S * outcome unit) (s : S) : Prop := (exec s).2 <> Returns tt.

Lemma recover_attempts (exec : S -> S * outcome unit) n s :
  attempts n (fun s =>
       let '(s', logs, r) := recovered s (exec s) in
       let restart := match r with None => true | Some _ => false end in
       (s', logs, negb restart)) s = Nat.iter n (fun s => (exec s).1) s.
Proof.
  revert s. induction n as [|n IH]; intros s; [done|]. rewrite Nat.iter_succ_r. simpl. rewrite <- IH.
  by destruct (exec s) as [s' [[]|w]].
Qed.

Lemma RecoverOrStop_restarts (exec : S -> S * outcome unit) s n :
  (forall i, i < n -> done (Nat.iter i (fun s => (exec s).1) s) = false /\
                      panics exec (Nat.iter i (fun s => (exec s).1) s)) ->
  done (Nat.iter n (fun s => (exec s).1) s) = false ->
  ~ panics exec (Nat.iter n (fun s => (exec s).1) s) ->
  forall fuel, n < fuel ->
    fst <$> RecoverOrStop fuel exec s = Some (Nat.iter (Datatypes.S n) (fun s => (exec s).1) s).
Proof.
  intros Hgo Hd Hp fuel Hfuel. unfold RecoverOrStop.
  match goal with |- context [select_loop _ ?b _] => set (body := b) end.
  assert (Ha : forall k, attempts k body s = Nat.iter k (fun s => (exec s).1) s)
    by (intros; apply recover_attempts).
  assert (Hb : forall s, (body s).2 = false <-> panics exec s).
  { intros s0. unfold body, panics. destruct (exec s0) as [s1 [[]|w]]; simpl; naive_solver. }
  assert (Hgo' : goes_on n body s).
  { intros i Hi. rewrite Ha, Hb. auto. }
  destruct (select_loop_ends n body s fuel Hgo' Hfuel) as [_ E2]. rewrite Ha in E2.
  destruct E2 as [logs ->]; [done| |].
  { rewrite <- Hb in Hp. by apply not_false_is_true. }
  change (Some (attempts (Datatypes.S n) body s) = Some (Nat.iter (Datatypes.S n) (fun s => (exec s).1) s)).
  by rewrite Ha.
Qed.

(** [SuppressPanic] runs its function once and lets no panic through: the state is the one
    the function left, and a panic shows in the log only. *)
Theorem SuppressPanic_spec exec s :
  (SuppressPanic exec s).1 = (exec s).1 /\
  ((SuppressPanic exec s).2 = [] <-> ~ panics exec s).
Proof.
  unfold SuppressPanic, panics. destruct (exec s) as [s' [[]|w]]; simpl; naive_solver.
Qed.

(** [Loop] only returns when the context is done. *)
Lemma Loop_until_done loop s s' logs fuel :
  Loop fuel loop s = Some (s', logs) -> done s' = true.
Proof.
  intros H. destruct (select_loop_inv _ _ _ _ _ H) as (n & _ & _ & [[H1 ->]|(_ & H2 & _)]); [done|].
  exfalso. revert H2. by destruct (recovered _ _) as [[? ?] ?].
Qed.
End loops.

(** A body that fails twice, panics once and then succeeds, in a context that is never done. *)
Definition flaky (n : nat) : nat * outcome (option string) :=
  (S n, match n with 0 | 1 => Returns (Some "not yet") | 2 => Panics "boom" | _ => Returns None end).

Lemma DoUntilSuccess_first_success_witness :
  fst <$> DoUntilSuccess (fun _ => false) 4 flaky 0 = Some 4.
Proof.
  apply (DoUntilSuccess_first_success (fun _ : nat => false) flaky 0 3).
  - intros i Hi. split; [done|]. destruct i as [|[|[|i]]]; [by vm_compute..|lia].
  - right. reflexivity.
  - lia.
Defined.

Lemma DoUntilSuccess_never_gives_up_witness :
  exists n, (forall i, i < n -> false = false /\ ~ succeeds flaky (nth_state flaky i 0)) /\
    ((false = true /\ 4 = nth_state flaky n 0) \/
     (succeeds flaky (nth_state flaky n 0) /\ 4 = nth_state flaky (S n) 0)).
Proof.
  apply (DoUntilSuccess_never_gives_up (fun _ : nat => false) flaky 0 4
           [LogRetry "not yet"; LogRetry "not yet"; LogPanic "boom"] 4).
  vm_compute. reflexivity.
Defined.
