(* ===== verification/RateLimiterV2.v ===== *)
(** * The rate-limit manager (internal/resttooling/ratelimiter/v2/rate_limiter.go)

    The manager keeps path patterns sorted from specific to general, each with its own keyed
    limiter, and reloads its configuration while it serves. It is written against the
    interface [KeyedLimiter]: what it promises follows from [KeyedLimiterLaws] alone.

    [Allow] takes the read lock and the limiter its own mutex, [parseConfig] the write lock, so
    each is one step of the model. The two readings of the clock in [Allow] are arguments, as
    are the override fetcher, the configuration getter and the structural hash of a
    configuration (github.com/mitchellh/hashstructure). A Go map is ranged over in any order:
    the paths of a configuration are a list, and the theorems quantify over its order. *)
From S2P Require Import Prelude FixedWindow Pattern Recovery.
#[local] Open Scope Z_scope.

(* go: internal/resttooling/ratelimiter/v2/config.go | const ( | L11-L17 *)
Definition Mode : Type := string.
Definition ModeReporting : Mode := "reporting".
Definition ModeEnforcing : Mode := "enforcing".

(* go: internal/resttooling/ratelimiter/v2/config.go | type Config struct *)
Record Config := MkConfig {
  c_Enabled : bool;
  c_Mode : Mode;
  c_Paths : list (string * list WindowConfig)
}.

(** The errors of [parseConfig]. *)
Inductive config_error :=
| GetterError (e : string)
| HashError (e : string)
| PatternParseError (path : string) (e : pattern_error)
| ConflictError (new_pattern existing_path : string).

(** Increments of the Prometheus counters, with the [pattern] and [key] labels (the [app_name]
    label is fixed). *)
(* go: internal/resttooling/ratelimiter/v2/metrics.go | // SeenRequestsTotal is a counter | L9-L40 *)
Inductive counter_inc :=
| SeenRequestsTotal (pattern key : string)
| RejectedRequestsTotal (pattern key : string)
| WouldBeRejectedRequestsTotal (pattern key : string).

Section manager.
Context {L : Type} {K : KeyedLimiter L}.

(* go: internal/resttooling/ratelimiter/v2/rate_limiter.go | type Manager struct *)
Record Manager := MkManager {
  m_enabled : bool;
  m_mode : Mode;
  m_lastConfigHash : Z;
  m_patterns : list pattern;
  m_limiters : list L
}.

Definition set_limiter (m : Manager) (i : nat) (l : L) : Manager :=
  MkManager (m_enabled m) (m_mode m) (m_lastConfigHash m) (m_patterns m) (<[i := l]> (m_limiters m)).

(** ** Serving *)

Section allow.
Context (overrideFetcher : string -> string -> bool * list WindowConfig).

(** The body of [Allow]'s loop for the pattern that matched; [now] and [now'] are the two
    clock readings. *)
(* go: internal/resttooling/ratelimiter/v2/rate_limiter.go | SeenRequestsTotal.WithLabelValues | L86-L133 *)
Definition allow_at (m : Manager) (i : nat) (p : pattern) (key : string) (now now' : Z)
    : Manager * list counter_inc * outcome (bool * Z) :=
  let seen := SeenRequestsTotal (p_pattern p) key in
  match m_limiters m !! i with
  | None => (m, [seen], Panics index_out_of_range)
  | Some l =>
      let '(l1, (ok, wait)) := kl_allow l key now in
      if (ok : bool) then (set_limiter m i l1, [seen], Returns (true, 0))
      else
        let '(hasOverride, overrides) := overrideFetcher key (p_pattern p) in
        let l2 := if (hasOverride : bool) then kl_override l1 key overrides else l1 in
        let '(ok2, wait2) :=
          if (hasOverride : bool) then kl_would_allow l2 key now' else (ok, wait) in
        if hasOverride && ok2 then (set_limiter m i l2, [seen], Returns (true, 0))
        else if decide (m_mode m = ModeReporting)
        then (set_limiter m i l2, [seen; WouldBeRejectedRequestsTotal (p_pattern p) key],
              Returns (true, 0))
        else (set_limiter m i l2, [seen; RejectedRequestsTotal (p_pattern p) key],
              Returns (ok2, wait2))
  end.

(** The loop over the patterns from index [i] on. *)
(* go: internal/resttooling/ratelimiter/v2/rate_limiter.go | for i, p := range m.patterns { | L81-L135 *)
Fixpoint allow_loop (m : Manager) (i : nat) (ps : list pattern) (method : string)
    (segments : list string) (key : string) (now now' : Z)
    : Manager * list counter_inc * outcome (bool * Z) :=
  match ps with
  | [] => (m, [], Returns (true, 0))
  | p :: ps' =>
      match pattern_match p method segments with
      | Panics w => (m, [], Panics w)
      | Returns false => allow_loop m (S i) ps' method segments key now now'
      | Returns true => allow_at m i p key now now'
      end
  end.

(* go: internal/resttooling/ratelimiter/v2/rate_limiter.go | func (m *Manager) Allow( *)
Definition manager_allow (m : Manager) (method path key : string) (now now' : Z)
    : Manager * list counter_inc * outcome (bool * Z) :=
  if negb (m_enabled m) then (m, [], Returns (true, 0))
  else
    match path with
    | EmptyString => (m, [], Panics slice_out_of_range)
    | String _ path' =>
        allow_loop m 0 (m_patterns m) method (split_byte slash path') key now now'
    end.
End allow.

(** ** Loading a configuration *)

(** The inner loop of [parseConfig]: compares the new pattern to the known ones, and finds the
    first one it is more specific than. *)
(* go: internal/resttooling/ratelimiter/v2/rate_limiter.go | insertionIndex := -1 | L169-L189 *)
Fixpoint find_insertion (p : pattern) (idx : nat) (ps : list pattern) (insertionIndex : option nat)
    : outcome (result config_error (option nat)) :=
  match ps with
  | [] => Returns (Ok insertionIndex)
  | p2 :: ps' =>
      relation ← comparePathsAndMethods p p2;
      if decide (relation = equivalent) then Returns (Err (ConflictError (p_pattern p) (p_pattern p2)))
      else if decide (relation = overlaps) then Returns (Err (ConflictError (p_pattern p) (p_pattern p2)))
      else
        find_insertion p (S idx) ps'
          (if decide (relation = moreSpecific)
           then match insertionIndex with None => Some idx | Some _ => insertionIndex end
           else insertionIndex)
  end.

(** [append], [copy] and the assignment at the index. *)
Definition insert_at {A : Type} (i : nat) (x : A) (l : list A) : list A := take i l ++ x :: drop i l.

Definition add_pattern (m : Manager) (i : nat) (p : pattern) (windows : list WindowConfig) : Manager :=
  MkManager (m_enabled m) (m_mode m) (m_lastConfigHash m)
    (insert_at i p (m_patterns m)) (insert_at i (kl_new windows) (m_limiters m)).

(** The loop over [cfg.Paths]. An error leaves behind what was inserted before it. *)
(* go: internal/resttooling/ratelimiter/v2/rate_limiter.go | for path, windows := range cfg.Paths | L157-L205 *)
Fixpoint parse_paths (m : Manager) (paths : list (string * list WindowConfig))
    : Manager * outcome (option config_error) :=
  match paths with
  | [] => (m, Returns None)
  | (path, windows) :: paths' =>
      match newPattern path with
      | Err e => (m, Returns (Some (PatternParseError path e)))
      | Ok p =>
          match find_insertion p 0 (m_patterns m) None with
          | Panics w => (m, Panics w)
          | Returns (Err e) => (m, Returns (Some e))
          | Returns (Ok ins) =>
              let insertionIndex := match ins with Some i => i | None => length (m_patterns m) end in
              parse_paths (add_pattern m insertionIndex p windows) paths'
          end
      end
  end.

Context (cfg_hash : Config -> result string Z).

(* go: internal/resttooling/ratelimiter/v2/rate_limiter.go | func (m *Manager) parseConfig *)
Definition parseConfig (m : Manager) (cfg : Config) : Manager * outcome (option config_error) :=
  match cfg_hash cfg with
  | Err e => (m, Returns (Some (HashError e)))
  | Ok hash => parse_paths (MkManager (c_Enabled cfg) (c_Mode cfg) hash [] []) (c_Paths cfg)
  end.

(* go: internal/resttooling/ratelimiter/v2/rate_limiter.go | func NewManager *)
Definition NewManager (first : result string Config) : outcome (result config_error Manager) :=
  match first with
  | Err e => Returns (Err (GetterError e))
  | Ok cfg =>
      match parseConfig (MkManager false "" 0 [] []) cfg with
      | (m, Returns None) => Returns (Ok m)
      | (_, Returns (Some e)) => Returns (Err e)
      | (_, Panics w) => Panics w
      end
  end.

(** ** Reloading

    The goroutine's state is the manager and the answers [cfgGetter] will give at the ticks to
    come; the context is done when there are no more ticks. *)
Definition watch_state : Type := Manager * list (result string Config).

(* go: internal/resttooling/ratelimiter/v2/rate_limiter.go | func (m *Manager) watchConfig *)
Fixpoint watchConfig (m : Manager) (ticks : list (result string Config))
    : watch_state * outcome (option config_error) :=
  match ticks with
  | [] => ((m, []), Returns None)
  | Err e :: ticks' => ((m, ticks'), Returns (Some (GetterError e)))
  | Ok cfg :: ticks' =>
      match cfg_hash cfg with
      | Err e => ((m, ticks'), Returns (Some (HashError e)))
      | Ok hash =>
          if decide (hash = m_lastConfigHash m) then watchConfig m ticks'
          else let '(m', r) := parseConfig m cfg in ((m', ticks'), r)
      end
  end.

(** The goroutine [NewManager] starts. *)
Definition watch_attempt (s : watch_state) : watch_state * outcome (option string) :=
  let '(s', r) := watchConfig s.1 s.2 in
  (s', match r with
       | Returns None => Returns None
       | Returns (Some _) => Returns (Some "reload failed")
       | Panics w => Panics w
       end).
Definition watch_done (s : watch_state) : bool := match s.2 with [] => true | _ => false end.
Definition watch (fuel : nat) (s : watch_state) : option watch_state :=
  fst <$> DoUntilSuccess watch_done fuel watch_attempt s.
End manager.
Arguments Manager L : clear implicits.
Arguments watch_state L : clear implicits.

(** ** Order of precedence *)

(** [p] may stand before [q]: they share no request, or [p] is strictly more specific. *)
Definition precedes (p q : pattern) : Prop :=
  related disjoint (matches p) (matches q) \/ related moreSpecific (matches p) (matches q).

(** Neither may conflict with the other, whatever their order. *)
Definition compatible (p q : pattern) : Prop := precedes p q \/ precedes q p.

Lemma compatible_sym p q : compatible p q -> compatible q p.
Proof. unfold compatible. tauto. Qed.

(** The relationships that make two patterns conflict. *)
Definition conflicting (r : relationship) : bool :=
  match r with equivalent | overlaps => true | _ => false end.

Lemma compare_cases p q :
  wf_pattern p -> wf_pattern q ->
  exists r, comparePathsAndMethods p q = Returns r /\
    (conflicting r = false <-> compatible p q) /\
    (conflicting r = false -> r <> moreSpecific -> precedes q p) /\
    (r = moreSpecific -> related moreSpecific (matches p) (matches q)).
Proof.
  intros Wp Wq. destruct (comparePathsAndMethods_spec p q Wp Wq) as (r & E & R). exists r.
  split; [done|].
  pose proof (matches_inhabited p Wp) as Ip. pose proof (matches_inhabited q Wq) as Iq.
  assert (U : forall r', related r' (matches p) (matches q) -> r' = r).
  { intros r' R'. by apply (related_unique r' r (matches p) (matches q)). }
  assert (S : forall r', related r' (matches q) (matches p) ->
                         related (inverseRelationship r') (matches p) (matches q)).
  { intros r'. apply related_inverse. }
  split_and!.
  - split.
    + intros Hc. destruct r; try done.
      * right. right. by apply (related_inverse moreGeneral).
      * left. by right.
      * left. by left.
    + intros [[H|H]|[H|H]]; [apply U in H|apply U in H|apply S, U in H|apply S, U in H]; by subst r.
  - intros Hc Hn. destruct r; try done.
    + right. by apply (related_inverse moreGeneral).
    + left. by apply (related_inverse disjoint).
  - by intros ->.
Qed.

Lemma more_specific_trans p q r :
  related moreSpecific (matches p) (matches q) -> related moreSpecific (matches q) (matches r) ->
  related moreSpecific (matches p) (matches r).
Proof. simpl. intros (H1 & x & ? & ?) (H2 & y & ? & ?). split; [eauto|]. exists y. naive_solver. Qed.

Lemma precedes_not_general p q :
  wf_pattern p -> precedes q p -> ~ related moreSpecific (matches p) (matches q).
Proof.
  intros Wp [H|H] H'; simpl in H, H'.
  - destruct (matches_inhabited p Wp) as [x Hx]. apply (H x). destruct H'. auto.
  - destruct H as (H & _), H' as (_ & y & Hy & Hy'). auto.
Qed.

(** What [find_insertion] returns on a sorted list. *)
Lemma find_insertion_spec p ps : forall idx ins,
  wf_pattern p -> Forall wf_pattern ps ->
  (Forall (compatible p) ps /\ exists ins',
     find_insertion p idx ps ins = Returns (Ok ins') /\
     match ins with
     | Some i => ins' = Some i
     | None =>
         match ins' with
         | None => Forall (fun q => precedes q p) ps
         | Some i => exists pre q post, ps = pre ++ q :: post /\ i = (idx + length pre)%nat /\
             Forall (fun q => precedes q p) pre /\ related moreSpecific (matches p) (matches q)
         end
     end) \/
  (~ Forall (compatible p) ps /\ exists q, q ∈ ps /\ 
     find_insertion p idx ps ins = Returns (Err (ConflictError (p_pattern p) (p_pattern q)))).
Proof.
  induction ps as [|q ps IH]; intros idx ins Wp Wps; simpl.
  { left. split; [constructor|]. exists ins. split; [done|]. by destruct ins. }
  apply Forall_cons in Wps as [Wq Wps].
  destruct (compare_cases p q Wp Wq) as (r & -> & Hcomp & Hprec & Hspec). simpl.
  destruct (conflicting r) eqn:Ec.
  { right. split; [intros [Hc _]%Forall_cons; apply Hcomp in Hc; congruence|].
    exists q. split; [left|]. by destruct r. }
  rewrite decide_False by (by intros ->). rewrite decide_False by (by intros ->).
  assert (Hc : compatible p q) by (by apply Hcomp).
  destruct (IH (S idx) (if decide (r = moreSpecific) then match ins with None => Some idx | Some _ => ins end else ins) Wp Wps)
    as [[Hall (ins' & -> & Hins)]|[Hn (q' & Hq' & ->)]].
  - left. split; [by constructor|]. exists ins'. split; [done|]. destruct ins as [i|].
    { by case_decide. }
    case_decide as Er.
    + subst ins'. exists [], q, ps. split; [done|]. split; [simpl; lia|]. split; [constructor|by apply Hspec].
    + specialize (Hprec eq_refl Er). destruct ins' as [i|]; [|by constructor].
      destruct Hins as (pre & q0 & post & -> & -> & Hpre & Hq0).
      exists (q :: pre), q0, post. split; [done|]. split; [simpl; lia|].
      split; [by constructor|done].
  - right. split; [by intros [_ ?]%Forall_cons|]. exists q'. split; [by right|done].
Qed.

(** Inserting where [find_insertion] says keeps the list sorted. *)
Lemma insert_sorted p pre q post :
  wf_pattern p -> Forall wf_pattern post -> Forall (compatible p) post ->
  StronglySorted precedes (pre ++ q :: post) ->
  Forall (fun q => precedes q p) pre -> related moreSpecific (matches p) (matches q) ->
  StronglySorted precedes (pre ++ p :: q :: post).
Proof.
  intros Wp Wpost Hcomp Hs Hpre Hq. induction pre as [|q' pre IH]; simpl in *.
  - apply StronglySorted_inv in Hs as [Hs Hall]. constructor; [by constructor|].
    constructor; [by right|]. rewrite Forall_forall in *. intros x Hx.
    destruct (Hcomp x Hx) as [|[Hd|Hsp]]; [done|left; by apply (related_inverse disjoint)|].
    exfalso. apply (precedes_not_general x q); [auto|auto|].
    by apply more_specific_trans with p.
  - apply StronglySorted_inv in Hs as [Hs Hall]. apply Forall_cons in Hpre as [Hq' Hpre].
    constructor; [auto|]. rewrite !Forall_app, !Forall_cons in *. naive_solver.
Qed.

Lemma append_sorted p ps :
  StronglySorted precedes ps -> Forall (fun q => precedes q p) ps -> StronglySorted precedes (ps ++ [p]).
Proof.
  induction 1 as [|q ps Hs IH Hall]; intros Hp; simpl; [repeat constructor|].
  apply Forall_cons in Hp as [Hq Hp]. constructor; [auto|]. apply Forall_app. split; [done|]. by constructor.
Qed.

Lemma insert_at_app {A} (x : A) l1 l2 : insert_at (length l1) x (l1 ++ l2) = l1 ++ x :: l2.
Proof. unfold insert_at. by rewrite take_app_length, drop_app_length. Qed.

Lemma insert_at_end {A} (x : A) l : insert_at (length l) x l = l ++ [x].
Proof. unfold insert_at. by rewrite firstn_all, drop_all. Qed.

Lemma insert_at_perm {A} (x : A) i l : insert_at i x l ≡ₚ x :: l.
Proof. unfold insert_at. rewrite <- Permutation_middle. by rewrite take_drop. Qed.

Lemma insert_at_zip {A B} (x : A) (y : B) i l k :
  length l = length k -> zip (insert_at i x l) (insert_at i y k) = insert_at i (x, y) (zip l k).
Proof.
  intros H. unfold insert_at. rewrite zip_with_app by (rewrite !length_take; lia). simpl.
  by rewrite zip_with_take, zip_with_drop.
Qed.

(** ** What a loaded manager holds *)

Notation entry := (pattern * list WindowConfig)%type.

Definition entry_of (pw : string * list WindowConfig) : option entry :=
  match newPattern pw.1 with Ok p => Some (p, pw.2) | Err _ => None end.

(** The parsed entries of a configuration, in its order. *)
Definition entries (paths : list (string * list WindowConfig)) : list entry := omap entry_of paths.

Definition all_parse (paths : list (string * list WindowConfig)) : Prop :=
  Forall (fun pw => is_Some (entry_of pw)) paths.

(** No path of the configuration is the bare root. *)
Definition no_root (paths : list (string * list WindowConfig)) : Prop :=
  Forall (fun pw => forall p, newPattern pw.1 = Ok p -> p_segments p <> []) paths.

Definition pairwise_compatible (ps : list pattern) : Prop := ForallOrdPairs compatible ps.

(** A configuration that [parseConfig] should accept, whatever the order of its paths. *)
Definition valid_paths (paths : list (string * list WindowConfig)) : Prop :=
  all_parse paths /\ pairwise_compatible (entries paths).*1.

(** [m] holds the entries [es], sorted, each with a fresh limiter. *)
Definition holds {L} {K : KeyedLimiter L} (es : list entry) (m : Manager L) : Prop :=
  m_patterns m = es.*1 /\ m_limiters m = kl_new <$> es.*2 /\
  StronglySorted precedes es.*1 /\ Forall wf_pattern es.*1.

Lemma entry_wf pw e :
  (forall p, newPattern pw.1 = Ok p -> p_segments p <> []) -> entry_of pw = Some e -> wf_pattern e.1.
Proof.
  unfold entry_of. destruct (newPattern pw.1) as [p|] eqn:E; [|done]. intros H He. simplify_eq/=.
  split; [by apply H|]. apply (newPattern_segments _ _ E).
Qed.

Lemma pairwise_perm ps qs : ps ≡ₚ qs -> pairwise_compatible ps -> pairwise_compatible qs.
Proof.
  unfold pairwise_compatible. induction 1 as [|p ps qs Hp IH|p q ps|]; auto; intros H.
  - inversion H; subst. constructor; [|auto]. by rewrite <- Hp.
  - inversion H as [|? ? H1 H2]; subst. inversion H2; subst. apply Forall_cons in H1 as [Hpq H1].
    constructor; [constructor; [by apply compatible_sym|done]|]. by constructor.
Qed.

Lemma pairwise_sorted ps : StronglySorted precedes ps -> pairwise_compatible ps.
Proof.
  induction 1 as [|p ps _ IH Hall]; constructor; [|done].
  eapply Forall_impl; [exact Hall|]. intros q Hq. by left.
Qed.

Lemma pairwise_head ps p qs :
  pairwise_compatible (ps ++ p :: qs) -> Forall (compatible p) ps.
Proof.
  intros H. apply (pairwise_perm _ (p :: ps ++ qs)) in H; [|by rewrite <- Permutation_middle].
  inversion H as [|? ? H1 _]; subst. by apply Forall_app in H1 as [? _].
Qed.

Lemma fmap_insert_at {A B} (f : A -> B) i x l : f <$> insert_at i x l = insert_at i (f x) (f <$> l).
Proof. unfold insert_at. by rewrite fmap_app, fmap_cons, fmap_take, fmap_drop. Qed.

Section load.
Context {L : Type} {K : KeyedLimiter L}.
Implicit Types m : Manager L.

(** The index [find_insertion] computes keeps the manager's list sorted. *)
Lemma add_pattern_holds es m p w ins :
  holds es m -> wf_pattern p -> Forall (compatible p) es.*1 ->
  match ins with
  | None => Forall (fun q => precedes q p) es.*1
  | Some i => exists pre q post, es.*1 = pre ++ q :: post /\ i = length pre /\
      Forall (fun q => precedes q p) pre /\ related moreSpecific (matches p) (matches q)
  end ->
  let i := match ins with Some i => i | None => length (m_patterns m) end in
  holds (insert_at i (p, w) es) (add_pattern m i p w).
Proof.
  intros (Hp & Hl & Hs & Hw) Wp Hc Hins i. unfold holds. rewrite !fmap_insert_at. simpl.
  split_and!; [by rewrite Hp|by rewrite Hl|..]; subst i.
  - destruct ins as [i|].
    + destruct Hins as (pre & q & post & Heq & -> & Hpre & Hq). rewrite Heq in *.
      rewrite insert_at_app. apply Forall_app in Hw as [_ [_ Hw]%Forall_cons].
      apply Forall_app in Hc as [_ [_ Hc]%Forall_cons]. by apply insert_sorted.
    + rewrite Hp, insert_at_end. by apply append_sorted.
  - rewrite insert_at_perm. by constructor.
Qed.

Lemma parse_paths_spec paths : forall es m,
  no_root paths -> holds es m ->
  let '(m', r) := parse_paths m paths in
  m_enabled m' = m_enabled m /\ m_mode m' = m_mode m /\ m_lastConfigHash m' = m_lastConfigHash m /\
  ((r = Returns None /\ all_parse paths /\ pairwise_compatible (es.*1 ++ (entries paths).*1) /\
    exists es', es' ≡ₚ es ++ entries paths /\ holds es' m') \/
   ((exists e, r = Returns (Some e)) /\
    ~ (all_parse paths /\ pairwise_compatible (es.*1 ++ (entries paths).*1)))).
Proof.
  induction paths as [|[path w] paths IH]; intros es m Hroot Hh; simpl.
  { split_and!; [done..|]. left. rewrite !app_nil_r. split_and!; [done|constructor|..].
    - apply pairwise_sorted. apply Hh.
    - by exists es. }
  apply Forall_cons in Hroot as [Hr Hroot]. unfold entries, all_parse. simpl.
  pose proof (entry_wf (path, w)) as Hwf. unfold entry_of in Hwf |- *. simpl in *.
  destruct (newPattern path) as [p|e] eqn:Ep; last first.
  { split_and!; [done..|]. right. split; [by eexists|]. intros [[[? ?] _]%Forall_cons _].
    simpl in *. by rewrite Ep in *. }
  specialize (Hwf (p, w) Hr eq_refl). simpl in Hwf. pose proof Hh as (Hp & Hl & Hs & Hw).
  rewrite Hp.
  destruct (find_insertion_spec p es.*1 0 None Hwf Hw)
    as [[Hc (ins & -> & Hins)]|[Hn (q & Hq & ->)]]; last first.
  { split_and!; [done..|]. right. split; [by eexists|]. intros [_ H]. apply Hn. simpl in H.
    by apply pairwise_head in H. }
  pose proof (add_pattern_holds es m p w ins Hh Hwf Hc Hins) as Hadd. rewrite Hp in Hadd.
  set (i := match ins with Some i => i | None => _ end) in *.
  specialize (IH (insert_at i (p, w) es) (add_pattern m i p w) Hroot Hadd).
  destruct (parse_paths _ paths) as [m' r]. destruct IH as (E1 & E2 & E3 & IH).
  split_and!; [done..|].
  assert (Hperm : (insert_at i (p, w) es).*1 ++ (entries paths).*1
                  ≡ₚ es.*1 ++ p :: (entries paths).*1).
  { rewrite fmap_insert_at, insert_at_perm. simpl. by rewrite Permutation_middle. }
  destruct IH as [(-> & Hall & Hpair & es' & He & Hh')|[He Hno]]; [left|right].
  - split_and!; [done| |by apply (pairwise_perm _ _ Hperm)|].
    + constructor; [|done]. simpl. rewrite Ep. by eexists.
    + exists es'. split; [|done]. rewrite He, insert_at_perm. simpl. by rewrite Permutation_middle.
  - split; [done|]. intros [[_ Hall]%Forall_cons Hpair]. apply Hno. split; [done|].
    by apply (pairwise_perm _ _ (symmetry Hperm)).
Qed.
End load.

(** ** Which pattern applies to a request *)

(** The index of the first pattern that matches. *)
Fixpoint first_match (ps : list pattern) (method : string) (segments : list string) : option nat :=
  match ps with
  | [] => None
  | p :: ps' =>
      if decide (pattern_match p method segments = Returns true) then Some 0%nat
      else S <$> first_match ps' method segments
  end.

(** The pattern that applies to a request, with its limiter. *)
Definition winner {L : Type} (m : Manager L) (method : string) (segments : list string)
    : option (pattern * L) :=
  i ← first_match (m_patterns m) method segments;
  p ← m_patterns m !! i; l ← m_limiters m !! i; Some (p, l).

Lemma first_match_Some ps method segs i :
  first_match ps method segs = Some i ->
  exists pre p post, ps = pre ++ p :: post /\ i = length pre /\ matches p (method, segs) /\
    Forall (fun q => ~ matches q (method, segs)) pre.
Proof.
  unfold matches. simpl. revert i. induction ps as [|p ps IH]; intros i H; simpl in H; [done|].
  case_decide as E; simplify_eq.
  { exists [], p, ps. split_and!; auto. }
  destruct (first_match ps method segs) as [j|]; simplify_eq/=.
  destruct (IH j eq_refl) as (pre & q & post & -> & -> & Hq & Hpre).
  exists (p :: pre), q, post. split_and!; auto.
Qed.

Lemma first_match_None ps method segs :
  first_match ps method segs = None -> Forall (fun q => ~ matches q (method, segs)) ps.
Proof.
  unfold matches. simpl. induction ps as [|p ps IH]; simpl; intros H; [constructor|].
  case_decide; [done|]. constructor; [done|]. apply IH. by destruct (first_match ps method segs).
Qed.

(** In a sorted list the first match is more specific than every other match. *)
Lemma first_match_specific ps method segs i p :
  StronglySorted precedes ps ->
  first_match ps method segs = Some i -> ps !! i = Some p ->
  matches p (method, segs) /\
  forall q, q ∈ ps -> matches q (method, segs) ->
    q = p \/ related moreSpecific (matches p) (matches q).
Proof.
  intros Hs Hf Hi. destruct (first_match_Some _ _ _ _ Hf) as (pre & p' & post & -> & -> & Hm & Hpre).
  assert (p' = p) as -> by (rewrite list_lookup_middle in Hi by done; congruence).
  split; [done|]. intros q Hq Hqm. apply elem_of_app in Hq as [Hq|[->|Hq]%elem_of_cons]; [|by left|].
  - rewrite Forall_forall in Hpre. by destruct (Hpre q Hq).
  - right. clear -Hs Hq Hm Hqm. induction pre as [|x pre IH]; simpl in Hs;
      apply StronglySorted_inv in Hs as [Hs Hall]; [|auto].
    rewrite Forall_forall in Hall. destruct (Hall q Hq) as [Hd|]; [|done].
    by destruct (Hd (method, segs)).
Qed.

Lemma winner_entry {L} {K : KeyedLimiter L} es (m : Manager L) method segs :
  holds es m ->
  match winner m method segs with
  | Some (p, l) => exists w, (p, w) ∈ es /\ l = kl_new w /\ matches p (method, segs) /\
      forall q, q ∈ es.*1 -> matches q (method, segs) ->
        q = p \/ related moreSpecific (matches p) (matches q)
  | None => forall q, q ∈ es.*1 -> ~ matches q (method, segs)
  end.
Proof.
  intros (Hp & Hl & Hs & _). unfold winner. rewrite Hp, Hl.
  destruct (first_match es.*1 method segs) as [i|] eqn:Ef; simpl.
  - destruct (first_match_Some _ _ _ _ Ef) as (pre & p & post & Heq & -> & _ & _).
    assert (Hi : es.*1 !! length pre = Some p) by (by rewrite Heq, list_lookup_middle).
    rewrite Hi. simpl. rewrite list_lookup_fmap in Hi.
    destruct (es !! length pre) as [[p0 w]|] eqn:Ee; simplify_eq/=.
    rewrite !list_lookup_fmap, Ee. simpl.
    exists w. split; [by eapply list_elem_of_lookup_2|]. split; [done|].
    apply (first_match_specific es.*1 method segs (length pre)); [done..|].
    by rewrite Heq, list_lookup_middle.
  - intros q Hq. apply first_match_None in Ef. rewrite Forall_forall in Ef. auto.
Qed.

Lemma sorted_nodup ps : StronglySorted precedes ps -> Forall wf_pattern ps -> NoDup ps.
Proof.
  induction 1 as [|p ps _ IH Hall]; intros Hw; [constructor|]. apply Forall_cons in Hw as [Wp Hw].
  constructor; [|auto]. intros Hin. rewrite Forall_forall in Hall.
  destruct (matches_inhabited p Wp) as [x Hx].
  destruct (Hall p Hin) as [Hd|(_ & y & Hy & Hy')]; [by destruct (Hd x)|done].
Qed.

Lemma unique_entry (es : list entry) p w w' :
  NoDup es.*1 -> (p, w) ∈ es -> (p, w') ∈ es -> w = w'.
Proof.
  intros Hu [i Hi]%list_elem_of_lookup [j Hj]%list_elem_of_lookup.
  assert (i = j) as ->.
  { eapply NoDup_lookup; [exact Hu|rewrite list_lookup_fmap, Hi; done|rewrite list_lookup_fmap, Hj; done]. }
  congruence.
Qed.

Lemma same_winner (es1 es2 : list entry) p1 w1 p2 w2 req :
  es1 ≡ₚ es2 -> (p1, w1) ∈ es1 -> (p2, w2) ∈ es2 -> matches p1 req -> matches p2 req ->
  (forall q, q ∈ es1.*1 -> matches q req -> q = p1 \/ related moreSpecific (matches p1) (matches q)) ->
  (forall q, q ∈ es2.*1 -> matches q req -> q = p2 \/ related moreSpecific (matches p2) (matches q)) ->
  p2 = p1.
Proof.
  intros P I1 I2 M1 M2 S1 S2.
  destruct (S1 p2) as [|(H1 & _)]; [|done|done|].
  { rewrite P. by apply (list_elem_of_fmap_2 fst _ (p2, w2)). }
  destruct (S2 p1) as [|(_ & y & Hy & Hy')]; [|done|done|].
  { rewrite <- P. by apply (list_elem_of_fmap_2 fst _ (p1, w1)). }
  destruct Hy'. auto.
Qed.

Section properties.
Context {L : Type} {K : KeyedLimiter L} (cfg_hash : Config -> result string Z).
Implicit Types m : Manager L.

Lemma parseConfig_loads m cfg h :
  no_root (c_Paths cfg) -> cfg_hash cfg = Ok h ->
  let '(m', r) := parseConfig cfg_hash m cfg in
  m_enabled m' = c_Enabled cfg /\ m_mode m' = c_Mode cfg /\ m_lastConfigHash m' = h /\
  ((r = Returns None /\ valid_paths (c_Paths cfg) /\
    exists es, es ≡ₚ entries (c_Paths cfg) /\ holds es m') \/
   (exists e, r = Returns (Some e)) /\ ~ valid_paths (c_Paths cfg)).
Proof.
  intros Hroot Hh. unfold parseConfig. rewrite Hh.
  pose proof (parse_paths_spec (c_Paths cfg) [] (MkManager (c_Enabled cfg) (c_Mode cfg) h [] [])
                Hroot) as H.
  destruct (parse_paths _ _) as [m' r]. destruct H as (E1 & E2 & E3 & H); [repeat constructor|].
  simpl in *. unfold valid_paths. tauto.
Qed.

(** C5. Loading a configuration (none of whose paths is the bare root) never panics and succeeds
    exactly on the valid ones: every path parses and no two patterns conflict, whatever the
    order in which the map is ranged over. On success the manager holds one fresh limiter per
    path, patterns and limiters in the same order, no pattern after one that is more general.
    On failure an error is returned, but the switches and the hash of the rejected
    configuration are in force all the same. *)
Theorem parseConfig_spec m cfg h :
  no_root (c_Paths cfg) -> cfg_hash cfg = Ok h ->
  let '(m', r) := parseConfig cfg_hash m cfg in
  m_enabled m' = c_Enabled cfg /\ m_mode m' = c_Mode cfg /\ m_lastConfigHash m' = h /\
  ((r = Returns None /\ valid_paths (c_Paths cfg) /\
    exists es, es ≡ₚ entries (c_Paths cfg) /\ holds es m') \/
   (exists e, r = Returns (Some e)) /\ ~ valid_paths (c_Paths cfg)).
Proof. apply parseConfig_loads. Qed.

(** C6. The limiter that applies to a request does not depend on the order in which the paths of
    a configuration are visited: two managers loaded from the same paths in different orders
    agree, for every request, on the pattern and the fresh limiter, and that pattern is
    strictly more specific than every other pattern that matches. *)
Theorem selection_order_independent m1 m2 cfg1 cfg2 m1' m2' h1 h2 method segs :
  no_root (c_Paths cfg1) -> c_Paths cfg1 ≡ₚ c_Paths cfg2 ->
  cfg_hash cfg1 = Ok h1 -> cfg_hash cfg2 = Ok h2 ->
  parseConfig cfg_hash m1 cfg1 = (m1', Returns None) ->
  parseConfig cfg_hash m2 cfg2 = (m2', Returns None) ->
  winner m1' method segs = winner m2' method segs /\
  forall p l, winner m1' method segs = Some (p, l) ->
    matches p (method, segs) /\
    forall q, q ∈ m_patterns m1' -> matches q (method, segs) ->
      q = p \/ related moreSpecific (matches p) (matches q).
Proof.
  intros Hroot Hperm Hh1 Hh2 H1 H2.
  assert (Hroot2 : no_root (c_Paths cfg2)) by (unfold no_root; by rewrite <- Hperm).
  pose proof (parseConfig_loads m1 cfg1 h1 Hroot Hh1) as L1. rewrite H1 in L1.
  destruct L1 as (_ & _ & _ & [(_ & [_ Hpair] & es1 & P1 & Ho1)|[[? ?] _]]); [|done].
  pose proof (parseConfig_loads m2 cfg2 h2 Hroot2 Hh2) as L2. rewrite H2 in L2.
  destruct L2 as (_ & _ & _ & [(_ & _ & es2 & P2 & Ho2)|[[? ?] _]]); [|done].
  assert (P : es1 ≡ₚ es2).
  { rewrite P1, P2. unfold entries. by rewrite Hperm. }
  assert (Hu : NoDup es1.*1) by (eapply sorted_nodup; apply Ho1).
  pose proof (winner_entry es1 m1' method segs Ho1) as W1.
  pose proof (winner_entry es2 m2' method segs Ho2) as W2.
  assert (Hps : m_patterns m1' = es1.*1) by apply Ho1. rewrite Hps.
  destruct (winner m1' method segs) as [[p1 l1]|], (winner m2' method segs) as [[p2 l2]|].
  - destruct W1 as (w1 & I1 & -> & M1 & S1), W2 as (w2 & I2 & -> & M2 & S2).
    split; [|intros ? ? [= <- <-]; done].
    assert (p2 = p1) as ->.
    { apply (same_winner es1 es2 p1 w1 p2 w2 (method, segs)); done. }
    rewrite <- P in I2. by rewrite (unique_entry es1 p1 w1 w2).
  - destruct W1 as (w1 & I1 & _ & M1 & _). destruct (W2 p1); [|done].
    rewrite <- P. by apply (list_elem_of_fmap_2 fst _ (p1, w1)).
  - destruct W2 as (w2 & I2 & _ & M2 & _). destruct (W1 p2); [|done].
    rewrite P. by apply (list_elem_of_fmap_2 fst _ (p2, w2)).
  - by split.
Qed.

(** ** [Allow], functionally *)

Definition aligned (m : Manager L) : Prop :=
  length (m_patterns m) = length (m_limiters m) /\ Forall wf_pattern (m_patterns m).

Lemma holds_aligned es m : holds es m -> aligned m.
Proof. intros (Hp & Hl & _ & Hw). split; [|by rewrite Hp]. by rewrite Hp, Hl, !length_fmap. Qed.

(** The segments [Allow] computes from a path. *)
Definition path_segments (path : string) : list string := split_byte slash (sdrop 1 path).

(** The index of the limiter that decides about a request, if any. *)
Definition route (m : Manager L) (method path : string) : option nat :=
  if m_enabled m then first_match (m_patterns m) method (path_segments path) else None.

Lemma allow_loop_match ov m method segs key now now' : forall ps i,
  Forall wf_pattern ps ->
  allow_loop ov m i ps method segs key now now' =
    match first_match ps method segs with
    | None => (m, [], Returns (true, 0))
    | Some j =>
        match ps !! j with
        | Some p => allow_at ov m (i + j)%nat p key now now'
        | None => (m, [], Returns (true, 0))
        end
    end.
Proof.
  induction ps as [|p ps IH]; intros i Hw; simpl; [done|]. apply Forall_cons in Hw as [Wp Hw].
  destruct (pattern_match_spec p method segs Wp) as (b & -> & _). destruct b; simpl.
  - by rewrite Nat.add_0_r.
  - rewrite IH by done. destruct (first_match ps method segs) as [j|]; simpl; [|done].
    replace (i + S j)%nat with (S (i + j)) by lia. done.
Qed.

(** The decision of the limiter [l] about one request: its next state, and how the request was
    let through or stopped. *)
Inductive decision := ByLimiter | ByOverride | Stopped (wait : Z).

Definition decide_request (ov : string -> string -> bool * list WindowConfig) (l : L)
    (pat key : string) (now now' : Z) : L * decision :=
  let '(l1, (ok, wait)) := kl_allow l key now in
  if (ok : bool) then (l1, ByLimiter)
  else if (ov key pat).1
  then
    let l2 := kl_override l1 key (ov key pat).2 in
    let '(ok2, wait2) := kl_would_allow l2 key now' in
    (l2, if (ok2 : bool) then ByOverride else Stopped wait2)
  else (l1, Stopped wait).

(** Counters and answer that follow from the decision. *)
Definition answer (mode : Mode) (pat key : string) (d : decision) : list counter_inc * (bool * Z) :=
  match d with
  | ByLimiter | ByOverride => ([SeenRequestsTotal pat key], (true, 0))
  | Stopped wait =>
      if decide (mode = ModeReporting)
      then ([SeenRequestsTotal pat key; WouldBeRejectedRequestsTotal pat key], (true, 0))
      else ([SeenRequestsTotal pat key; RejectedRequestsTotal pat key], (false, wait))
  end.

Lemma allow_at_decision ov m i p l key now now' :
  m_limiters m !! i = Some l ->
  allow_at ov m i p key now now' =
    let '(l', d) := decide_request ov l (p_pattern p) key now now' in
    let '(evs, r) := answer (m_mode m) (p_pattern p) key d in
    (set_limiter m i l', evs, Returns r).
Proof.
  intros Hl. unfold allow_at, decide_request, answer. rewrite Hl.
  destruct (kl_allow l key now) as [l1 [[] wait]]; [done|].
  destruct (ov key (p_pattern p)) as [has os]. destruct has; simpl.
  - destruct (kl_would_allow _ key now') as [[] wait2]; simpl; [done|]. by case_decide.
  - by case_decide.
Qed.

Lemma manager_allow_route ov m method path key now now' :
  aligned m -> path <> "" ->
  manager_allow ov m method path key now now' =
    match route m method path with
    | None => (m, [], Returns (true, 0))
    | Some i =>
        match m_patterns m !! i, m_limiters m !! i with
        | Some p, Some l =>
            let '(l', d) := decide_request ov l (p_pattern p) key now now' in
            let '(evs, r) := answer (m_mode m) (p_pattern p) key d in
            (set_limiter m i l', evs, Returns r)
        | _, _ => (m, [], Returns (true, 0))
        end
    end.
Proof.
  intros [Hlen Hw] Hpath. unfold manager_allow, route. destruct (m_enabled m); simpl; [|done].
  destruct path as [|c path]; [done|]. rewrite allow_loop_match by done.
  change (path_segments (String c path)) with (split_byte slash path).
  destruct (first_match _ method _) as [i|] eqn:Ef; [|done]. simpl.
  destruct (m_patterns m !! i) as [p|] eqn:Ep; [|done].
  destruct (lookup_lt_is_Some_2 (m_limiters m) i) as [l Hl].
  { rewrite <- Hlen. by eapply lookup_lt_Some. }
  rewrite Hl. by apply allow_at_decision.
Qed.

Lemma route_lookup m method path i :
  aligned m -> route m method path = Some i ->
  exists p l, m_patterns m !! i = Some p /\ m_limiters m !! i = Some l /\
    matches p (method, path_segments path).
Proof.
  intros [Hlen Hw] Hr. unfold route in Hr. destruct (m_enabled m); [|done].
  destruct (first_match_Some _ _ _ _ Hr) as (pre & p & post & Heq & -> & Hm & _).
  assert (Hp : m_patterns m !! length pre = Some p) by (by rewrite Heq, list_lookup_middle).
  destruct (lookup_lt_is_Some_2 (m_limiters m) (length pre)) as [l Hl].
  { rewrite <- Hlen. by eapply lookup_lt_Some. }
  eauto.
Qed.

(** C7. [Allow] on every branch, for a manager whose limiters are aligned with well-formed patterns: it
    never panics on a path that is not empty. A disabled manager and a request no pattern
    matches let it through without touching anything. Otherwise only the limiter of the first
    pattern that matches moves; the request is let through, with wait 0, when the limiter says
    so, when an override makes room for it, or when the mode is reporting; else it is stopped
    with the wait the last question to the limiter gave. It is counted as seen once, and as
    rejected (or, in reporting mode, as would-be-rejected) exactly when neither the limiter nor
    an override let it through. *)
Theorem manager_allow_verdict ov m method path key now now' :
  aligned m -> path <> "" ->
  match route m method path with
  | None => manager_allow ov m method path key now now' = (m, [], Returns (true, 0))
  | Some i => exists p l l' d evs r,
      m_patterns m !! i = Some p /\ m_limiters m !! i = Some l /\
      matches p (method, path_segments path) /\
      manager_allow ov m method path key now now' = (set_limiter m i l', evs, Returns r) /\
      decide_request ov l (p_pattern p) key now now' = (l', d) /\
      answer (m_mode m) (p_pattern p) key d = (evs, r) /\
      (forall j, j <> i -> m_limiters (set_limiter m i l') !! j = m_limiters m !! j) /\
      (r.1 = false <-> m_mode m <> ModeReporting /\ exists wait, d = Stopped wait) /\
      (r.1 = true -> r.2 = 0)
  end.
Proof.
  intros Ha Hpath. pose proof (manager_allow_route ov m method path key now now' Ha Hpath) as E.
  destruct (route m method path) as [i|] eqn:Hr; [|done].
  destruct (route_lookup m method path i Ha Hr) as (p & l & Hp & Hl & Hm). rewrite Hp, Hl in E.
  destruct (decide_request ov l (p_pattern p) key now now') as [l' d] eqn:Ed.
  destruct (answer (m_mode m) (p_pattern p) key d) as [evs r] eqn:Er.
  exists p, l, l', d, evs, r. split_and!; try done.
  - intros j Hj. simpl. by rewrite list_lookup_insert_ne.
  - revert Er. unfold answer. destruct d as [| |wait]; [..|case_decide]; naive_solver.
  - revert Er. unfold answer. destruct d as [| |wait]; [..|case_decide]; naive_solver.
Qed.

(** ** The rate bound, end to end *)

Record request := Request {
  r_method : string; r_path : string; r_key : string; r_now : Z; r_now' : Z
}.

(** A sequence of requests, with the limiter each was routed to and its verdict. *)
Fixpoint manager_run (ov : string -> string -> bool * list WindowConfig) (m : Manager L)
    (reqs : list request) : Manager L * list (option nat * (string * Z * bool)) :=
  match reqs with
  | [] => (m, [])
  | r :: reqs' =>
      match manager_allow ov m (r_method r) (r_path r) (r_key r) (r_now r) (r_now' r) with
      | (m', _, Returns (ok, _)) =>
          let '(m'', tr) := manager_run ov m' reqs' in
          (m'', (route m (r_method r) (r_path r), (r_key r, r_now r, ok)) :: tr)
      | (m', _, Panics _) => (m', [])
      end
  end.

(** The part of a trace that concerns the limiter at index [i]. *)
Definition at_limiter (i : nat) (tr : list (option nat * (string * Z * bool)))
    : list (string * Z * bool) :=
  omap (fun e => if decide (e.1 = Some i) then Some e.2 else None) tr.

(** The calls the limiter at index [i] gets. *)
Definition calls_of (m : Manager L) (i : nat) (reqs : list request) : list (string * Z) :=
  omap (fun r => if decide (route m (r_method r) (r_path r) = Some i)
                 then Some (r_key r, r_now r) else None) reqs.

(** A fetcher without overrides. *)
Definition no_override (key pat : string) : bool * list WindowConfig := (false, []).

Lemma route_set_limiter m i l : route (set_limiter m i l) = route m.
Proof. done. Qed.

Lemma aligned_set_limiter m i l : aligned m -> aligned (set_limiter m i l).
Proof. intros [Hlen Hw]. split; [|done]. simpl. by rewrite length_insert. Qed.

(** Enforcing without overrides, the limiter's verdict is the manager's. *)
Lemma manager_allow_plain m r j :
  aligned m -> m_mode m <> ModeReporting -> r_path r <> "" ->
  route m (r_method r) (r_path r) = Some j ->
  exists l l1 ok wait evs w, m_limiters m !! j = Some l /\
    kl_allow l (r_key r) (r_now r) = (l1, (ok, wait)) /\
    manager_allow no_override m (r_method r) (r_path r) (r_key r) (r_now r) (r_now' r)
      = (set_limiter m j l1, evs, Returns (ok, w)).
Proof.
  intros Ha Hmode Hpath Hr. rewrite manager_allow_route, Hr by done.
  destruct (route_lookup m _ _ j Ha Hr) as (p & l & -> & -> & _).
  unfold decide_request, answer, no_override. simpl.
  destruct (kl_allow l (r_key r) (r_now r)) as [l1 [[] wait]] eqn:E; simpl.
  - by exists l, l1, true, wait, [SeenRequestsTotal (p_pattern p) (r_key r)], 0.
  - rewrite decide_False by done.
    by exists l, l1, false, wait, [SeenRequestsTotal (p_pattern p) (r_key r); RejectedRequestsTotal (p_pattern p) (r_key r)], wait.
Qed.

(** What one limiter sees of a run is a run of that limiter on its own calls. *)
Lemma manager_run_project reqs : forall m i l,
  aligned m -> m_mode m <> ModeReporting -> m_limiters m !! i = Some l ->
  Forall (fun r => r_path r <> "") reqs ->
  length (manager_run no_override m reqs).2 = length reqs /\
  at_limiter i (manager_run no_override m reqs).2 = (allow_run l (calls_of m i reqs)).2.
Proof.
  induction reqs as [|r reqs IH]; intros m i l Ha Hmode Hl Hp; [done|].
  apply Forall_cons in Hp as [Hpath Hp]. cbn [manager_run]. unfold calls_of. cbn [omap list_omap].
  destruct (route m (r_method r) (r_path r)) as [j|] eqn:Hr.
  - destruct (manager_allow_plain m r j Ha Hmode Hpath Hr)
      as (l0 & l1 & ok & wait & evs & w & Hlj & Eal & ->).
    assert (Hl' : m_limiters (set_limiter m j l1) !! i = Some (if decide (j = i) then l1 else l)).
    { simpl. case_decide; [subst; apply list_lookup_insert_eq; by eapply lookup_lt_Some|].
      by rewrite list_lookup_insert_ne. }
    destruct (IH (set_limiter m j l1) i _ (aligned_set_limiter _ _ _ Ha) Hmode Hl' Hp) as [IHl IHa].
    unfold calls_of in IHa. rewrite route_set_limiter in IHa.
    destruct (manager_run no_override (set_limiter m j l1) reqs) as [m'' tr].
    simpl in IHl, IHa |- *. split; [by rewrite IHl|]. destruct (decide (j = i)) as [->|Hne].
    + rewrite !decide_True by done. assert (l0 = l) as -> by congruence. simpl. rewrite Eal.
      destruct (allow_run l1 _) as [l2 tr2]. simpl in *. by rewrite <- IHa.
    + rewrite !decide_False by congruence. exact IHa.
  - rewrite manager_allow_route, Hr by done.
    destruct (IH m i l Ha Hmode Hl Hp) as [IHl IHa].
    destruct (manager_run no_override m reqs) as [m'' tr]. simpl in *.
    split; [by rewrite IHl|]. exact IHa.
Qed.

Lemma nondecreasing_weaken last last' ts : last <= last' -> nondecreasing last' ts -> nondecreasing last ts.
Proof. destruct ts; simpl; [done|]. intros ? [? ?]. split; [lia|done]. Qed.

Lemma calls_nondecreasing m i reqs : forall last,
  nondecreasing last (map r_now reqs) -> nondecreasing last (map snd (calls_of m i reqs)).
Proof.
  unfold calls_of. induction reqs as [|r reqs IH]; intros last; simpl; [done|]. intros [H1 H2].
  case_decide; simpl; [split; auto|]. apply IH. by apply nondecreasing_weaken with (r_now r).
Qed.

Lemma loaded_limiter m cfg h m' path p ws :
  no_root (c_Paths cfg) -> cfg_hash cfg = Ok h ->
  parseConfig cfg_hash m cfg = (m', Returns None) ->
  (path, ws) ∈ c_Paths cfg -> newPattern path = Ok p ->
  aligned m' /\ m_mode m' = c_Mode cfg /\
  exists i, m_patterns m' !! i = Some p /\ m_limiters m' !! i = Some (kl_new ws).
Proof.
  intros Hroot Hh H Hin Hp. pose proof (parseConfig_loads m cfg h Hroot Hh) as Hl. rewrite H in Hl.
  destruct Hl as (_ & Hmode & _ & [(_ & _ & es & Hperm & Ho)|[[? ?] _]]); [|done].
  split; [by eapply holds_aligned|]. split; [done|].
  assert (He : (p, ws) ∈ es).
  { rewrite Hperm. apply list_elem_of_omap. exists (path, ws). unfold entry_of. simpl. by rewrite Hp. }
  apply list_elem_of_lookup in He as [i Hi]. exists i. destruct Ho as (-> & -> & _).
  by rewrite !list_lookup_fmap, Hi.
Qed.

Section bound.
Context {KL : KeyedLimiterLaws L}.

(** C2. End to end: an enforcing manager without overrides, fresh from a configuration it could load,
    never lets more than twice a window's limit through. Conditions: no configured path is a slash
    only (matching would panic there), no request has an empty path, the windows of the path have
    durations that are positive, and the clock does not go backwards. Then for every configured
    path and every one of its windows, whatever the interleaving of methods, paths and keys: all
    requests are answered, the path's pattern has an index, and of the requests routed to it under
    one key at most [2 * Limit] are let through in any stretch of time as long as the window. Only
    the laws of the limiter interface are used. *)
Theorem manager_rate_bound m cfg h m' path p ws wc key s reqs :
  no_root (c_Paths cfg) -> cfg_hash cfg = Ok h ->
  parseConfig cfg_hash m cfg = (m', Returns None) -> c_Mode cfg <> ModeReporting ->
  (path, ws) ∈ c_Paths cfg -> newPattern path = Ok p -> Forall wf_config ws -> wc ∈ ws ->
  Forall (fun r => r_path r <> "") reqs -> nondecreasing 0 (map r_now reqs) ->
  let tr := (manager_run no_override m' reqs).2 in
  length tr = length reqs /\
  exists i, m_patterns m' !! i = Some p /\
    count_in s (s + wc_Duration wc) (allowed_times key (at_limiter i tr)) <= 2 * wc_Limit wc.
Proof.
  intros Hroot Hh H Hmode Hin Hp Hwf Hwc Hpaths Hnd tr.
  destruct (loaded_limiter m cfg h m' path p ws Hroot Hh H Hin Hp) as (Ha & Hm & i & Hi & Hl).
  rewrite <- Hm in Hmode.
  destruct (manager_run_project reqs m' i (kl_new ws) Ha Hmode Hl Hpaths) as [Hlen Hproj].
  split; [done|]. exists i. split; [done|]. unfold tr. rewrite Hproj.
  apply kl_bound; auto using calls_nondecreasing.
Qed.
End bound.

(** ** Reloading *)

(** Live reloading works once: when a new configuration has been loaded successfully the watching
    goroutine returns, and every later change of the configuration is ignored. *)
Theorem reload_happens_once m cfg h m' later :
  cfg_hash cfg = Ok h -> h <> m_lastConfigHash m ->
  parseConfig cfg_hash m cfg = (m', Returns None) ->
  forall fuel, (0 < fuel)%nat -> watch cfg_hash fuel (m, Ok cfg :: later) = Some (m', later).
Proof.
  intros Hh Hne Hp [|fuel] Hf; [lia|]. unfold watch, DoUntilSuccess. simpl.
  unfold watch_attempt. simpl. rewrite Hh, decide_False, Hp by done. done.
Qed.

(** A configuration that is rejected half-way is never retried: the paths inserted before the
    conflict stay in force, and because the hash of the rejected configuration has been stored,
    every later tick that still reads the same configuration does nothing. *)
Theorem rejected_config_sticks m cfg h n :
  no_root (c_Paths cfg) -> cfg_hash cfg = Ok h -> h <> m_lastConfigHash m ->
  ~ valid_paths (c_Paths cfg) ->
  let m' := (parseConfig cfg_hash m cfg).1 in
  m_lastConfigHash m' = h /\ m_enabled m' = c_Enabled cfg /\
  forall fuel, (n + 2 < fuel)%nat ->
    watch cfg_hash fuel (m, Ok cfg :: replicate n (Ok cfg)) = Some (m', []).
Proof.
  intros Hroot Hh Hne Hv m'. pose proof (parseConfig_loads m cfg h Hroot Hh) as Hl. subst m'.
  destruct (parseConfig cfg_hash m cfg) as [m' r] eqn:Hp.
  destruct Hl as (He & _ & Hhash & [(_ & ? & _)|[[e ->] _]]); [done|]. split_and!; [done..|].
  intros fuel Hf. simpl.
  assert (Hidle : forall k, watchConfig cfg_hash m' (replicate k (Ok cfg)) = ((m', []), Returns None)).
  { induction k as [|k IH]; simpl; [done|]. by rewrite Hh, decide_True. }
  destruct fuel as [|[|fuel]]; [lia..|]. unfold watch, DoUntilSuccess. simpl.
  unfold watch_attempt. simpl. rewrite Hh, decide_False, Hp by done. simpl.
  destruct (watch_done (m', replicate n (Ok cfg))) eqn:Ed; [|by rewrite Hidle].
  by destruct n.
Qed.
End properties.

(** ** Witnesses *)

Definition demo_hash (cfg : Config) : result string Z := Ok (Z.of_nat (length (c_Paths cfg))).
Definition demo_window : WindowConfig := MkWindowConfig 2 Second.
Definition demo_paths : list (string * list WindowConfig) :=
  [("/projects/{rest...}", [demo_window]); ("GET /projects/{id}", [MkWindowConfig 5 Minute])].
Definition demo_cfg : Config := MkConfig true ModeEnforcing demo_paths.
Definition demo_cfg_rev : Config := MkConfig true ModeEnforcing (reverse demo_paths).
Definition empty_manager : Manager Limiter := MkManager false "" 0 [] [].
Definition demo_manager : Manager Limiter := (parseConfig demo_hash empty_manager demo_cfg).1.

Lemma demo_no_root : no_root demo_paths.
Proof. repeat (constructor; [intros p Hp; vm_compute in Hp; injection Hp as <-; done|]). constructor. Qed.

Lemma parseConfig_spec_witness :
  m_enabled demo_manager = true /\
  (parseConfig demo_hash empty_manager demo_cfg).2 = Returns None /\
  p_pattern <$> m_patterns demo_manager = ["GET /projects/{id}"; "/projects/{rest...}"].
Proof.
  pose proof (parseConfig_spec demo_hash empty_manager demo_cfg 2 demo_no_root eq_refl) as H.
  split; [|vm_compute; by split].
  unfold demo_manager. destruct (parseConfig _ _ _) as [m r]. apply H.
Defined.

Lemma selection_order_independent_witness :
  let m1 := demo_manager in
  let m2 := (parseConfig demo_hash empty_manager demo_cfg_rev).1 in
  winner m1 "GET" ["projects"; "7"] = winner m2 "GET" ["projects"; "7"].
Proof.
  intros m1 m2.
  refine (proj1 (selection_order_independent demo_hash empty_manager empty_manager demo_cfg demo_cfg_rev
                   m1 m2 2 2 "GET" ["projects"; "7"] demo_no_root _ _ _ _ _)).
  - unfold demo_cfg_rev. simpl. symmetry. apply reverse_Permutation.
  - reflexivity.
  - reflexivity.
  - vm_compute. reflexivity.
  - vm_compute. reflexivity.
Defined.

Lemma demo_aligned : aligned demo_manager.
Proof. split; [vm_compute; reflexivity|]. by_decision. Qed.

Lemma manager_allow_verdict_witness :
  exists m' evs r, manager_allow no_override demo_manager "GET" "/projects/7" "k" Hour Hour
    = (m', evs, Returns r) /\ (r.1 = true -> r.2 = 0).
Proof.
  pose proof (manager_allow_verdict no_override demo_manager "GET" "/projects/7" "k" Hour Hour
                demo_aligned ltac:(done)) as H.
  assert (Hr : route demo_manager "GET" "/projects/7" = Some 0%nat) by (vm_compute; reflexivity).
  rewrite Hr in H. destruct H as (p & l & l' & d & evs & r & H).
  exists (set_limiter demo_manager 0 l'), evs, r. split; apply H.
Defined.

Definition demo_request (method path : string) (t : Z) : request := Request method path "k" t t.
Definition demo_requests : list request :=
  [demo_request "POST" "/projects/7" 1; demo_request "GET" "/projects/7" 2;
   demo_request "POST" "/projects/8/x" 3; demo_request "POST" "/projects/9" 4].

Lemma manager_rate_bound_witness :
  exists i, m_patterns demo_manager !! i = Some (Pattern "/projects/{rest...}" ""
              [Segment "projects" false false; Segment "rest" true true]) /\
    count_in 0 (0 + Second)
      (allowed_times "k" (at_limiter i (manager_run no_override demo_manager demo_requests).2)) <= 2 * 2.
Proof.
  refine (proj2 (manager_rate_bound demo_hash empty_manager demo_cfg 2 demo_manager
                   "/projects/{rest...}" _ [demo_window] demo_window "k" 0 demo_requests
                   demo_no_root _ _ _ _ _ _ _ _ _)).
  - reflexivity.
  - vm_compute. reflexivity.
  - done.
  - left.
  - vm_compute. reflexivity.
  - by_decision.
  - left.
  - by_decision.
  - repeat split; by_decision.
Defined.

Lemma reload_happens_once_witness :
  watch demo_hash 3 (empty_manager, [Ok demo_cfg; Ok (MkConfig false ModeReporting [])])
    = Some (demo_manager, [Ok (MkConfig false ModeReporting [])]).
Proof.
  apply (reload_happens_once demo_hash empty_manager demo_cfg 2).
  - reflexivity.
  - done.
  - vm_compute. reflexivity.
  - lia.
Defined.

Definition conflicting_cfg : Config :=
  MkConfig true ModeEnforcing [("/a", [demo_window]); ("/{x}/b", []); ("/{x}/{y}", []); ("/a/{z}", [])].

Lemma rejected_config_sticks_witness :
  let m' := (parseConfig demo_hash empty_manager conflicting_cfg).1 in
  p_pattern <$> m_patterns m' = ["/a"; "/{x}/b"; "/{x}/{y}"] /\
  watch demo_hash 6 (empty_manager, Ok conflicting_cfg :: replicate 3 (Ok conflicting_cfg))
    = Some (m', []).
Proof.
  intros m'. split; [vm_compute; reflexivity|].
  refine (proj2 (proj2 (rejected_config_sticks demo_hash empty_manager conflicting_cfg 4 3 _ _ _ _)) 6%nat _).
  - repeat (constructor; [intros p Hp; vm_compute in Hp; injection Hp as <-; done|]). constructor.
  - reflexivity.
  - done.
  - intros Hv.
    pose proof (parseConfig_loads demo_hash empty_manager conflicting_cfg 4) as H.
    destruct (parseConfig demo_hash empty_manager conflicting_cfg) as [m r] eqn:E.
    vm_compute in E. injection E as <- <-.
    destruct H as (_ & _ & _ & [(? & _)|[_ H]]); [|reflexivity|done|by apply H].
    repeat (constructor; [intros p Hp; vm_compute in Hp; injection Hp as <-; done|]). constructor.
  - lia.
Defined.
