(* ===== verification/Codes.v ===== *)
(** * Vocabularies of errors: semantics, status codes, reasons, error codes

    internal/semerr/semantic.go (the enumeration), internal/status/codes, internal/status/details,
    internal/codeerr/codes.go, and the two translations between semantics and HTTP statuses of
    internal/resttooling/errors.go. *)
From S2P Require Import Prelude.

(* go: internal/semerr/semantic.go | // Semantic meaning of the error | L14-L37 *)
Inductive Semantic :=
| SemanticUnknown
| SemanticNotImplemented
| SemanticUnavailable
| SemanticInvalidInput
| SemanticTimeout
| SemanticInternal
| SemanticAuthentication
| SemanticForbidden
| SemanticFailedPrecondition
| SemanticNotFound
| SemanticAlreadyExists
| SemanticCanceled
| SemanticUnprocessable
| SemanticNotAcceptable
| SemanticResourceLocked
| SemanticTooManyRequests
| SemanticSkipError
| SemanticPartialSuccess.

#[export] Instance Semantic_eq_dec : EqDecision Semantic.
Proof. solve_decision. Defined.

Definition all_semantics : list Semantic :=
  [SemanticUnknown; SemanticNotImplemented; SemanticUnavailable; SemanticInvalidInput;
   SemanticTimeout; SemanticInternal; SemanticAuthentication; SemanticForbidden;
   SemanticFailedPrecondition; SemanticNotFound; SemanticAlreadyExists; SemanticCanceled;
   SemanticUnprocessable; SemanticNotAcceptable; SemanticResourceLocked; SemanticTooManyRequests;
   SemanticSkipError; SemanticPartialSuccess].

(** [OtherCode] stands for the [uint32] values outside the constants of the package. *)
(* go: internal/status/codes/codes.go | // A Code is a status code | L14-L102 *)
Inductive Code :=
| Unknown
| Canceled
| InvalidArgument
| DeadlineExceeded
| NotFound
| AlreadyExists
| PermissionDenied
| TooManyRequests
| FailedPrecondition
| Aborted
| Unimplemented
| Internal
| Unavailable
| Unauthenticated
| Unprocessable
| NotAcceptable
| Locked
| OtherCode (n : N).

#[export] Instance Code_eq_dec : EqDecision Code.
Proof. solve_decision. Defined.

(* go: internal/status/codes/codes.go | func (c Code) String() string *)
Definition Code_String (c : Code) : string :=
  match c with
  | Unknown => "UNKNOWN"
  | Canceled => "CANCELED"
  | InvalidArgument => "INVALID_ARGUMENT"
  | DeadlineExceeded => "DEADLINE_EXCEEDED"
  | NotFound => "NOT_FOUND"
  | AlreadyExists => "ALREADY_EXISTS"
  | PermissionDenied => "PERMISSION_DENIED"
  | TooManyRequests => "TOO_MANY_REQUESTS"
  | FailedPrecondition => "FAILED_PRECONDITION"
  | Aborted => "ABORTED"
  | Unimplemented => "UNIMPLEMENTED"
  | Internal => "INTERNAL"
  | Unavailable => "UNAVAILABLE"
  | Unauthenticated => "UNAUTHENTICATED"
  | Unprocessable => "UNPROCESSABLE"
  | NotAcceptable => "NOT_ACCEPTABLE"
  | Locked => "LOCKED"
  | OtherCode n => "CODE(" +:+ pretty n +:+ ")"
  end.

(* go: internal/status/codes/codes.go | func (c Code) HTTP() int *)
Definition Code_HTTP (c : Code) : N :=
  match c with
  | Unknown => 500
  | Canceled => 499
  | InvalidArgument => 400
  | DeadlineExceeded => 408
  | NotFound => 404
  | AlreadyExists => 409
  | PermissionDenied => 404
  | TooManyRequests => 429
  | FailedPrecondition => 412
  | Aborted => 409
  | Unimplemented => 501
  | Internal => 500
  | Unavailable => 503
  | Unauthenticated => 401
  | Unprocessable => 422
  | NotAcceptable => 406
  | Locked => 423
  | OtherCode _ => 500
  end%N.

(** ** Semantics and HTTP *)

(** The function [HTTPToSemantic] returns is determined by the semantic it wraps with. *)
(* go: internal/resttooling/errors.go | func HTTPToSemantic *)
Definition HTTPToSemantic (s : N) : Semantic :=
  match s with
  | 503 => SemanticUnavailable
  | 408 => SemanticTimeout
  | 406 => SemanticNotAcceptable
  | 422 => SemanticUnprocessable
  | 423 => SemanticResourceLocked
  | 409 => SemanticAlreadyExists
  | 412 => SemanticFailedPrecondition
  | 404 => SemanticNotFound
  | 403 => SemanticForbidden
  | 401 => SemanticAuthentication
  | 400 => SemanticInvalidInput
  | 429 => SemanticTooManyRequests
  | _ => SemanticInternal
  end%N.

(* go: internal/resttooling/errors.go | func SemanticErrorToHTTP *)
Definition SemanticErrorToHTTP (s : Semantic) : N :=
  match s with
  | SemanticInvalidInput => 400
  | SemanticAuthentication => 401
  | SemanticForbidden => 404
  | SemanticNotFound => 404
  | SemanticFailedPrecondition => 412
  | SemanticAlreadyExists => 409
  | SemanticNotImplemented => 400
  | SemanticResourceLocked => 423
  | SemanticTooManyRequests => 429
  | SemanticUnprocessable => 422
  | SemanticNotAcceptable => 406
  | SemanticTimeout => 408
  | SemanticUnavailable => 503
  | SemanticSkipError => 200
  | SemanticPartialSuccess => 207
  | SemanticUnknown | SemanticInternal | SemanticCanceled => 500
  end%N.

(** ** Details of a status *)

(* go: internal/status/details/reason/reason.go | type Reason string | L7-L65 *)
Definition Reason : Type := string.
Definition RoleProtected : Reason := "ROLE_PROTECTED".
Definition ResourceNotFound : Reason := "RESOURCE_NOT_FOUND".
Definition ProjectNotFound : Reason := "PROJECT_NOT_FOUND".
Definition EndpointNotFound : Reason := "ENDPOINT_NOT_FOUND".
Definition BranchNotFound : Reason := "BRANCH_NOT_FOUND".
Definition RateLimitExceeded : Reason := "RATE_LIMIT_EXCEEDED".
Definition NonDefaultBranchComputeTimeExceeded : Reason := "NON_PRIMARY_BRANCH_COMPUTE_TIME_EXCEEDED".
Definition ActiveTimeQuotaExceeded : Reason := "ACTIVE_TIME_QUOTA_EXCEEDED".
Definition ComputeTimeQuotaExceeded : Reason := "COMPUTE_TIME_QUOTA_EXCEEDED".
Definition WrittenDataQuotaExceeded : Reason := "WRITTEN_DATA_QUOTA_EXCEEDED".
Definition DataTransferQuotaExceeded : Reason := "DATA_TRANSFER_QUOTA_EXCEEDED".
Definition LogicalSizeQuotaExceeded : Reason := "LOGICAL_SIZE_QUOTA_EXCEEDED".
Definition RunningOperations : Reason := "RUNNING_OPERATIONS".
Definition ConcurrencyLimitReached : Reason := "CONCURRENCY_LIMIT_REACHED".
Definition LockAlreadyTaken : Reason := "LOCK_ALREADY_TAKEN".
Definition ActiveEndpointsLimitExceeded : Reason := "ACTIVE_ENDPOINTS_LIMIT_EXCEEDED".

(** The metadata of an [ErrorInfo] is opaque. *)
(* go: internal/status/details/details.go | type ErrorInfo struct *)
Record ErrorInfo := MkErrorInfo { ei_Reason : Reason; ei_Metadata : list (string * string) }.

(* go: internal/status/details/details.go | type ErrorDetails struct | L10-L31 *)
Record ErrorDetails := MkErrorDetails {
  d_ErrorInfo : option ErrorInfo;
  d_RetryDelay : option Z;
  d_UserFacingMessage : option string
}.

#[export] Instance ErrorInfo_eq_dec : EqDecision ErrorInfo.
Proof. solve_decision. Defined.
#[export] Instance ErrorDetails_eq_dec : EqDecision ErrorDetails.
Proof. solve_decision. Defined.

Definition no_details : ErrorDetails := MkErrorDetails None None None.

(* go: internal/codeerr/codes.go | type ErrorCode string | L3-L23 *)
Definition ErrorCode : Type := string.

(** ** How the two translations fit together *)

(** Reading back the HTTP status of a semantic gives the semantic again, except for Forbidden
    (deliberately shown as Not Found) and the semantics that have no status of their own: Not
    Implemented reads back as Invalid Input, and Unknown, Canceled, Skip and Partial Success as
    Internal. *)
Theorem HTTPToSemantic_roundtrip s :
  HTTPToSemantic (SemanticErrorToHTTP s) =
    match s with
    | SemanticForbidden => SemanticNotFound
    | SemanticNotImplemented => SemanticInvalidInput
    | SemanticUnknown | SemanticCanceled | SemanticSkipError | SemanticPartialSuccess => SemanticInternal
    | _ => s
    end.
Proof. by destruct s. Qed.
