(* ===== verification/GoErrors.v ===== *)
(** * Error values, and the fields they carry

    Go errors as trees: leaves, wrappers with one cause, and joins. [As] and [Is] follow
    [errors.As] and [errors.Is] of the standard library. The second part is
    internal/clouderr/clouderr.go: errors that carry log fields, and the collection of all
    fields of an error. *)
From S2P Require Import Prelude Codes.

(** ** Log fields *)

(** The types of a zap field that [FieldToString] tells apart; the types it prints alike, by
    the [%v] verb on the field's [Interface], are one constructor. *)
Inductive field_type :=
| InterfaceType
| BinaryType | ByteStringType
| BoolType | StringType
| Int64Type | Int32Type | Int16Type | Int8Type
| Uint64Type | Uint32Type | Uint16Type | Uint8Type | UintptrType
| DurationType | Float64Type | Float32Type | TimeType
| SkipType
| UnknownFieldType.

#[export] Instance field_type_eq_dec : EqDecision field_type.
Proof. solve_decision. Defined.

(** A [zap.Field] (go.uber.org/zap): [f_Interface] is what [%v] prints for its [Interface]
    member. *)
Record Field := MkField {
  f_Key : string;
  f_Type : field_type;
  f_Integer : Z;
  f_String : string;
  f_Interface : string
}.

#[export] Instance Field_eq_dec : EqDecision Field.
Proof. solve_decision. Defined.

(** [zap.String]. *)
Definition StringField (key value : string) : Field := MkField key StringType 0 value "".

(** ** Error values *)

(** Errors without a cause. [LNew] is an [errors.New] value, known by its identity; [LText] an
    anonymous one. The others are the concrete types the code looks for. *)
Inductive leaf :=
| LNew (id : N) (msg : string)
| LText (msg : string)
| LDeadlineExceeded
| LErrno (name : string)
| LPgError (code msg : string)
| LDNSError (err : string) (timeout : bool).

(** The concrete types of [ogenerrors.Error]. *)
Inductive ogen_kind := SecurityError | DecodeParamsError | DecodeRequestError | OtherOgenError.

(** Wrappers around one cause: [fmt.Errorf] and [xerrors.Errorf] with a text, [ErrorWithFields],
    [*semerr.Error], [*codeerr.Error], [*status.Error], [rawError], the errors of ogen, and any
    type with a [Timeout] method (such as [*net.OpError]). *)
Inductive wrapper :=
| WText (pre : string)
| WFields (fields : list Field)
| WSem (s : Semantic) (message : string) (fields : list Field)
| WCode (code : ErrorCode)
| WStatus (code : Code) (details : ErrorDetails)
| WRaw
| WOgen (k : ogen_kind) (text : string)
| WTimeout (text : string) (timeout : bool).

Inductive error :=
| Leaf (l : leaf)
| Wrap (w : wrapper) (e : error)
| Join (es : list error).

#[export] Instance leaf_eq_dec : EqDecision leaf.
Proof. solve_decision. Defined.
#[export] Instance ogen_kind_eq_dec : EqDecision ogen_kind.
Proof. solve_decision. Defined.
#[export] Instance wrapper_eq_dec : EqDecision wrapper.
Proof. solve_decision. Defined.

(** Sentinels of the standard library. *)
Definition ctx_Canceled : leaf := LNew 1 "context canceled".
Definition ECONNRESET : leaf := LErrno "connection reset by peer".
Definition ECONNREFUSED : leaf := LErrno "connection refused".
Definition EPIPE : leaf := LErrno "broken pipe".

Section error_ind.
Variable P : error -> Prop.
Hypothesis (HL : forall l, P (Leaf l)) (HW : forall w e, P e -> P (Wrap w e))
  (HJ : forall es, Forall P es -> P (Join es)).

Fixpoint error_rect' (e : error) : P e :=
  match e with
  | Leaf l => HL l
  | Wrap w e => HW w e (error_rect' e)
  | Join es =>
      HJ es ((fix go es : Forall P es :=
                match es with
                | [] => List.Forall_nil _
                | e :: es' => List.Forall_cons _ _ _ (error_rect' e) (go es')
                end) es)
  end.
End error_ind.

(** The text [Error()] returns. *)
Fixpoint error_text (e : error) : string :=
  match e with
  | Leaf (LNew _ m) | Leaf (LText m) | Leaf (LErrno m) | Leaf (LPgError _ m) | Leaf (LDNSError m _) => m
  | Leaf LDeadlineExceeded => "context deadline exceeded"
  | Wrap w e' =>
      match w with
      | WText pre => pre +:+ ": " +:+ error_text e'
      | WFields _ | WRaw => error_text e'
      | WSem _ _ _ => error_text e'
      | WCode code => code
      | WStatus code _ => Code_String code +:+ ": " +:+ error_text e'
      | WOgen _ text | WTimeout text _ => text
      end
  | Join es => join (String newline "") (map error_text es)
  end.

(** ** [errors.As] and [errors.Is] *)

(** [As view]: the first node, in pre-order, whose value [view] accepts as the target's type.
    The [As] methods of [*semerr.Error] and [*codeerr.Error] search their cause, which is also
    what they unwrap to. *)
(* go: internal/semerr/semantic.go | func (e *Error) As( *)
Fixpoint As {A : Type} (view : error -> option A) (e : error) : option A :=
  match view e with
  | Some a => Some a
  | None =>
      match e with
      | Leaf _ => None
      | Wrap _ e' => As view e'
      | Join es =>
          (fix go es :=
             match es with
             | [] => None
             | e' :: es' => match As view e' with Some a => Some a | None => go es' end
             end) es
      end
  end.

(** [Is target] for a comparable leaf. The [Is] method of [*semerr.Error] compares its cause to
    the target, that of [*codeerr.Error] searches its cause: both are part of the search. *)
(* go: internal/semerr/semantic.go | func (e *Error) Is( *)
Definition Is (target : leaf) (e : error) : bool :=
  match As (fun e => match e with Leaf l => if decide (l = target) then Some tt else None | _ => None end) e with
  | Some _ => true
  | None => false
  end.

(** [Unwrap() error]. *)
Definition Unwrap1 (e : error) : option error :=
  match e with Wrap _ e' => Some e' | _ => None end.

Definition first_some {A : Type} : list (option A) -> option A :=
  fold_right (fun x acc => match x with Some a => Some a | None => acc end) None.

Lemma As_unfold {A} (view : error -> option A) e :
  As view e =
    match view e with
    | Some a => Some a
    | None =>
        match e with
        | Leaf _ => None
        | Wrap _ e' => As view e'
        | Join es => first_some (map (As view) es)
        end
    end.
Proof.
  destruct e as [l|w e|es]; simpl; try done. destruct (view (Join es)); [done|].
  induction es as [|e es IH]; simpl; [done|]. by destruct (As view e).
Qed.

(** The nodes of an error, in pre-order. *)
Fixpoint nodes (e : error) : list error :=
  e :: match e with
       | Leaf _ => []
       | Wrap _ e' => nodes e'
       | Join es => (fix go es := match es with [] => [] | e' :: es' => nodes e' ++ go es' end) es
       end.

Lemma nodes_unfold e :
  nodes e = e :: match e with
                 | Leaf _ => []
                 | Wrap _ e' => nodes e'
                 | Join es => concat (map nodes es)
                 end.
Proof.
  destruct e as [l|w e|es]; simpl; try done. f_equal.
  induction es as [|e es IH]; simpl; [done|]. by rewrite IH.
Qed.

Lemma first_some_concat {A} (view : error -> option A) es :
  first_some (map (fun e => first_some (map view (nodes e))) es) =
  first_some (map view (concat (map nodes es))).
Proof.
  induction es as [|e es IH]; simpl; [done|]. rewrite IH, map_app.
  set (l := map view (nodes e)). set (k := map view _). clearbody l k. clear.
  induction l as [|x l IH]; simpl; [done|]. destruct x; [done|]. exact IH.
Qed.

(** [As] finds the first node in pre-order. *)
Lemma As_nodes {A} (view : error -> option A) e : As view e = first_some (map view (nodes e)).
Proof.
  induction e as [l|w e IH|es IH] using error_rect'; rewrite As_unfold, nodes_unfold; simpl;
    (destruct (view _); [done|]); [done|done|].
  rewrite <- first_some_concat. f_equal. clear -IH.
  induction IH as [|e es He _ IH]; simpl; [done|]. by rewrite He, IH.
Qed.

Lemma first_some_None {A} (l : list (option A)) : first_some l = None <-> Forall (fun x => x = None) l.
Proof.
  induction l as [|[a|] l IH]; simpl; [by split; constructor|..].
  - split; [done|]. intros [? _]%Forall_cons. done.
  - rewrite IH, Forall_cons. naive_solver.
Qed.

Lemma As_None {A} (view : error -> option A) e :
  As view e = None <-> Forall (fun n => view n = None) (nodes e).
Proof. by rewrite As_nodes, first_some_None, Forall_map. Qed.

Lemma Is_spec target e : Is target e = true <-> Leaf target ∈ nodes e.
Proof.
  unfold Is. match goal with |- context [As ?v e] => set (view := v) end.
  destruct (As view e) eqn:E.
  - split; [intros _|done]. rewrite As_nodes in E.
    induction (nodes e) as [|n l IH]; simpl in *; [done|]. unfold view in E at 1.
    destruct n as [l'|w n|es]; [case_decide as Hd|..]; simplify_eq; [by left|right; auto..].
  - split; [done|]. intros Hin. apply As_None in E. rewrite Forall_forall in E.
    specialize (E _ Hin). unfold view in E. by rewrite decide_True in E.
Qed.

(** Wrappers and joins do not hide what is inside. *)
Lemma Is_join_elem target es : Leaf target ∈ es -> Is target (Join es) = true.
Proof.
  intros H. apply Is_spec. rewrite nodes_unfold. right. apply list_elem_of_split in H as (l1 & l2 & ->).
  rewrite map_app, concat_app. apply elem_of_app. right. by left.
Qed.

Lemma Is_wrap target w e : Is target (Wrap w e) = Is target e.
Proof. done. Qed.
