(* ===== verification/Clouderr.v ===== *)
(** * Errors and contexts that carry log fields (internal/clouderr/clouderr.go)

    [WrapWithFields] attaches fields to an error, [UnwrapFields] collects the fields of all the
    errors in a tree, [FieldToString] prints one. [ContextWithFields] keeps fields in a context;
    it is modelled over a heap of backing arrays, because slices of different contexts share
    them. *)
From S2P Require Import Prelude Codes GoErrors.

(** ** Fields of errors *)

(* go: internal/clouderr/clouderr.go | // WithFields constructs error with fields that wraps passed error | L91-L103 *)
Definition WrapWithFields (err : option error) (fields : list Field) : outcome error :=
  match err with
  | None => Panics "cannot wrap nil error"
  | Some e => Returns (match fields with [] => e | _ => Wrap (WFields fields) e end)
  end.

(** [id] is the identity of the error [errors.New] allocates. *)
(* go: internal/clouderr/clouderr.go | func WithFields( *)
Definition WithFields (id : N) (text : string) (fields : list Field) : outcome error :=
  WrapWithFields (Some (Leaf (LNew id text))) fields.

(** [Fields() []zap.Field], for the types that have it. *)
(* go: internal/clouderr/clouderr.go | func (err ErrorWithFields) Fields *)
Definition node_fields (e : error) : list Field :=
  match e with
  | Wrap (WFields fs) _ => fs
  | Wrap (WSem _ _ fs) _ => fs
  | _ => []
  end.

(** What either form of [Unwrap] returns. *)
(* go: internal/clouderr/clouderr.go | func (err ErrorWithFields) Unwrap *)
Definition causes (e : error) : list error :=
  match e with
  | Leaf _ => []
  | Wrap _ e' => [e']
  | Join es => es
  end.

(** [for _, f := range wf.Fields() { fields[f.Key] = f }]. *)
Definition add_fields (fs : list Field) (m : gmap string Field) : gmap string Field :=
  fold_left (fun m f => <[f_Key f := f]> m) fs m.

(** The loop over the queue; every error is taken once, so the size of the error is enough
    fuel. *)
(* go: internal/clouderr/clouderr.go | errs := []error{err} | L110-L125 *)
Fixpoint unwrap_loop (fuel : nat) (errs : list error) (fields : gmap string Field)
    : gmap string Field :=
  match fuel, errs with
  | S fuel', e :: errs' => unwrap_loop fuel' (errs' ++ causes e) (add_fields (node_fields e) fields)
  | _, _ => fields
  end.

Fixpoint size (e : error) : nat :=
  match e with
  | Leaf _ => 1
  | Wrap _ e' => S (size e')
  | Join es => S ((fix go es := match es with [] => 0 | e' :: es' => size e' + go es' end) es)
  end.

Definition sizes (es : list error) : nat := sum_list (map size es).

Lemma size_Join es : size (Join es) = S (sizes es).
Proof. simpl. f_equal. unfold sizes. induction es as [|e es IH]; simpl; [done|]. by rewrite IH. Qed.

(** The map from which [lo.MapToSlice] makes the slice; a slice lists its values in any order. *)
(* go: internal/clouderr/clouderr.go | // UnwrapFields returns a unique list *)
Definition UnwrapFields (err : error) : gmap string Field := unwrap_loop (size err) [err] ∅.

Definition is_slice_of (m : gmap string Field) (l : list Field) : Prop := l ≡ₚ (map_to_list m).*2.

(** ** The field of the deepest error wins *)

(** [n] is an error at depth [d] of [e]. *)
Inductive at_depth : nat -> error -> error -> Prop :=
| at_here e : at_depth 0 e e
| at_cause d e e' n : e' ∈ causes e -> at_depth d e' n -> at_depth (S d) e n.

(** The queue with the depth of each error. *)
Fixpoint bfs (fuel : nat) (q : list (nat * error)) : list (nat * error) :=
  match fuel, q with
  | S fuel', (d, e) :: q' => (d, e) :: bfs fuel' (q' ++ map (pair (S d)) (causes e))
  | _, _ => []
  end.

Definition add_all (l : list (nat * error)) (m : gmap string Field) : gmap string Field :=
  fold_left (fun m n => add_fields (node_fields n.2) m) l m.

Lemma unwrap_loop_bfs fuel : forall q m,
  unwrap_loop fuel (map snd q) m = add_all (bfs fuel q) m.
Proof.
  induction fuel as [|fuel IH]; intros [|[d e] q] m; simpl; try done.
  rewrite <- IH, map_app, map_map. simpl. by rewrite map_id.
Qed.

(** Depths never decrease along a queue that spans at most two levels. *)
Definition two_levels (d : nat) (q : list (nat * error)) : Prop :=
  exists q1 q2, q = q1 ++ q2 /\ Forall (fun n => n.1 = d) q1 /\ Forall (fun n => n.1 = S d) q2.

Lemma bfs_sorted fuel : forall d q,
  two_levels d q -> StronglySorted (fun a b => a.1 <= b.1) (bfs fuel q) /\
                    Forall (fun n => d <= n.1) (bfs fuel q).
Proof.
  induction fuel as [|fuel IH]; intros d q Hq; simpl; [by split; constructor|].
  destruct q as [|[d0 e] q]; [by split; constructor|].
  assert (Hd : exists d1, d <= d1 /\ d0 = d1 /\ two_levels d1 (q ++ map (pair (S d0)) (causes e))).
  { destruct Hq as (q1 & q2 & Heq & H1 & H2).
    assert (Hc : forall x, Forall (fun n => n.1 = S x) (map (pair (S x)) (causes e))).
    { intros x. apply Forall_map. apply Forall_forall. intros. done. }
    destruct q1 as [|n q1]; simplify_eq/=.
    - apply Forall_cons in H2 as [Hd0 H2]. simpl in Hd0. subst d0. exists (S d). split; [lia|].
      split; [done|]. exists q, (map (pair (S (S d))) (causes e)). split_and!; auto.
    - apply Forall_cons in H1 as [Hd0 H1]. simpl in Hd0. subst d0. exists d. split; [lia|].
      split; [done|]. exists q1, (q2 ++ map (pair (S d)) (causes e)).
      split; [by rewrite app_assoc|]. split; [done|]. apply Forall_app. auto. }
  destruct Hd as (d1 & Hle & -> & Hq'). destruct (IH d1 _ Hq') as [Hs Hf].
  split; constructor; try done.
  eapply Forall_impl; [exact Hf|]. simpl. intros; lia.
Qed.

Lemma sizes_causes e : sizes (causes e) < size e.
Proof. destruct e as [l|w e|es]; [unfold sizes; simpl; lia..|rewrite size_Join; simpl; lia]. Qed.

Lemma sizes_app es es' : sizes (es ++ es') = sizes es + sizes es'.
Proof. unfold sizes. rewrite map_app. induction es; simpl; [done|]. lia. Qed.

(** With enough fuel the queue visits every error of the tree, at its depth. *)
Lemma bfs_complete fuel : forall q n d,
  sizes (map snd q) <= fuel ->
  ((d, n) ∈ bfs fuel q <-> exists d0 e k, (d0, e) ∈ q /\ at_depth k e n /\ d = d0 + k).
Proof.
  induction fuel as [|fuel IH]; intros q n d Hsz.
  { destruct q as [|[d0 e] q]; simpl.
    - split; [by intros ?%elem_of_nil|]. intros (? & ? & ? & ?%elem_of_nil & _). done.
    - exfalso. unfold sizes in Hsz. simpl in Hsz. destruct e; simpl in Hsz; lia. }
  destruct q as [|[d0 e] q]; simpl.
  { split; [by intros ?%elem_of_nil|]. intros (? & ? & ? & ?%elem_of_nil & _). done. }
  assert (Hsz' : sizes (map snd (q ++ map (pair (S d0)) (causes e))) <= fuel).
  { rewrite map_app, map_map, map_id, sizes_app. pose proof (sizes_causes e).
    unfold sizes in *. simpl in Hsz. lia. }
  rewrite elem_of_cons, (IH _ _ _ Hsz'). split.
  - intros [[= -> ->]|(d1 & e1 & k & Hin & Hat & ->)].
    + exists d0, e, 0. split_and!; [left|constructor|lia].
    + apply elem_of_app in Hin as [Hin|Hin].
      * exists d1, e1, k. split_and!; [by right|done|done].
      * apply list_elem_of_fmap in Hin as (c & [= -> ->] & Hc).
        exists d0, e, (S k). split_and!; [left|by econstructor|lia].
  - intros (d1 & e1 & k & [[= -> ->]|Hin]%elem_of_cons & Hat & ->).
    + inversion Hat as [|k' ? c ? Hc Hat']; subst; [left; by rewrite Nat.add_0_r|].
      right. exists (S d0), c, k'. split_and!; [|done|lia].
      apply elem_of_app. right. apply list_elem_of_fmap. eauto.
    + right. exists d1, e1, k. split_and!; [|done|done]. apply elem_of_app. by left.
Qed.

Lemma add_fields_lookup fs m k :
  add_fields fs m !! k =
    match last (filter (fun f => f_Key f = k) fs) with Some f => Some f | None => m !! k end.
Proof.
  revert m. unfold add_fields. induction fs as [|f fs IH]; intros m; simpl; [done|].
  rewrite IH, filter_cons. case_decide as E.
  - rewrite last_cons. destruct (last _); [done|]. subst. by rewrite lookup_insert_eq.
  - destruct (last _); [done|]. by rewrite lookup_insert_ne.
Qed.

(** The field under key [k] that a node contributes: the last one of its list. *)
Definition contributes (n : error) (k : string) (f : Field) : Prop :=
  last (filter (fun f => f_Key f = k) (node_fields n)) = Some f.

Lemma add_all_lookup l m k :
  StronglySorted (fun a b => a.1 <= b.1) l ->
  match add_all l m !! k with
  | Some f => (exists d n, (d, n) ∈ l /\ contributes n k f /\
                 forall d' n' f', (d', n') ∈ l -> contributes n' k f' -> d' <= d) \/
              (m !! k = Some f /\ forall d' n' f', (d', n') ∈ l -> ~ contributes n' k f')
  | None => m !! k = None /\ forall d' n' f', (d', n') ∈ l -> ~ contributes n' k f'
  end.
Proof.
  intros Hs. revert m. induction Hs as [|[d n] l Hs IH Hall]; intros m; simpl.
  { destruct (m !! k) eqn:E; [right|]; (split; [done|]; intros ? ? ? ?%elem_of_nil; done). }
  specialize (IH (add_fields (node_fields n) m)). rewrite add_fields_lookup in IH.
  rewrite Forall_forall in Hall.
  destruct (add_all l _ !! k) as [f|]; simpl in *.
  - destruct IH as [(d1 & n1 & Hin & Hc & Hmax)|[Hm Hno]].
    + left. exists d1, n1. split_and!; [by right|done|].
      intros d' n' f' [[= -> ->]|Hin']%elem_of_cons Hc'; [|by eapply Hmax].
      by apply (Hall (d1, n1)).
    + destruct (last (filter _ (node_fields n))) as [f0|] eqn:El.
      * simplify_eq. left. exists d, n. split_and!; [left|done|].
        intros d' n' f' [[= -> ->]|Hin']%elem_of_cons Hc'; [lia|]. by destruct (Hno _ _ _ Hin' Hc').
      * right. split; [done|]. intros d' n' f' [[= -> ->]|Hin']%elem_of_cons Hc'; [|by eapply Hno].
        unfold contributes in Hc'. congruence.
  - destruct IH as [Hm Hno]. destruct (last (filter _ (node_fields n))) as [f0|] eqn:El; [done|].
    split; [done|]. intros d' n' f' [[= -> ->]|Hin']%elem_of_cons Hc'; [|by eapply Hno].
    unfold contributes in Hc'. congruence.
Qed.

Lemma UnwrapFields_lookup e k :
  match UnwrapFields e !! k with
  | Some f => exists d n, at_depth d e n /\ contributes n k f /\
      forall d' n' f', at_depth d' e n' -> contributes n' k f' -> d' <= d
  | None => forall d n f, at_depth d e n -> ~ contributes n k f
  end.
Proof.
  unfold UnwrapFields. change [e] with (map snd [(0, e)]). rewrite unwrap_loop_bfs.
  assert (Hiff : forall d n, (d, n) ∈ bfs (size e) [(0, e)] <-> at_depth d e n).
  { intros d n. rewrite bfs_complete by (unfold sizes; simpl; lia). split.
    - intros (d0 & e0 & k0 & [= -> ->]%list_elem_of_singleton & Hat & ->). done.
    - intros Hat. exists 0, e, d. split_and!; [by apply list_elem_of_singleton|done|done]. }
  pose proof (bfs_sorted (size e) 0 [(0, e)]) as [Hs _].
  { exists [(0, e)], []. split_and!; [done| |constructor]. by constructor. }
  pose proof (add_all_lookup _ ∅ k Hs) as H.
  destruct (add_all _ _ !! k) as [f|].
  - destruct H as [(d & n & Hin & Hc & Hmax)|[Hm _]]; [|done].
    exists d, n. setoid_rewrite Hiff in Hmax. rewrite Hiff in Hin. eauto.
  - destruct H as [_ H]. setoid_rewrite Hiff in H. eauto.
Qed.

(** C17. [UnwrapFields] gathers the fields of every error in the tree, joins included: a key is present
    exactly if some error carries it, and on a collision the field of a deepest error that
    carries the key wins. The loop always empties its queue. *)
Theorem UnwrapFields_deepest_wins e k :
  match UnwrapFields e !! k with
  | Some f => exists d n, at_depth d e n /\ contributes n k f /\
      forall d' n' f', at_depth d' e n' -> contributes n' k f' -> d' <= d
  | None => forall d n f, at_depth d e n -> ~ contributes n k f
  end.
Proof. exact (UnwrapFields_lookup e k). Qed.

(** ** Printing a field *)

Section print.
(** What [%v] prints for a [time.Duration], for the floats with the given bits and for a time
    given in Unix nanoseconds. *)
Context (print_duration print_float64 print_float32 print_time : Z -> string).

Definition hex_digit (n : N) : ascii := ascii_of_N (if (n <? 10)%N then 48 + n else 87 + n).
Fixpoint hex_encode (s : string) : string :=
  match s with
  | EmptyString => EmptyString
  | String c s' =>
      let n := N_of_ascii c in
      String (hex_digit (n / 16)) (String (hex_digit (n mod 16)) (hex_encode s'))
  end.

(** Conversions keep the low bits: [int32(f.Integer)] and its like. *)
(* go: internal/clouderr/clouderr.go | func FieldToString *)
Definition FieldToString (f : Field) : outcome string :=
  let v : outcome string :=
    match f_Type f with
    | InterfaceType => Returns (f_Interface f)
    | BinaryType => Returns (hex_encode (f_Interface f))
    | BoolType => Returns (if (f_Integer f =? 1)%Z then "true" else "false")
    | ByteStringType => Returns (f_Interface f)
    | DurationType => Returns (print_duration (f_Integer f))
    | Float64Type => Returns (print_float64 (wrapu 64 (f_Integer f)))
    | Float32Type => Returns (print_float32 (wrapu 32 (f_Integer f)))
    | Int64Type => Returns (pretty (f_Integer f))
    | Int32Type => Returns (pretty (wraps 32 (f_Integer f)))
    | Int16Type => Returns (pretty (wraps 16 (f_Integer f)))
    | Int8Type => Returns (pretty (wraps 8 (f_Integer f)))
    | StringType => Returns (f_String f)
    | TimeType => Returns (print_time (f_Integer f))
    | Uint64Type => Returns (pretty (wrapu 64 (f_Integer f)))
    | Uint32Type => Returns (pretty (wrapu 32 (f_Integer f)))
    | Uint16Type => Returns (pretty (wrapu 16 (f_Integer f)))
    | Uint8Type => Returns (pretty (wrapu 8 (f_Integer f)))
    | UintptrType => Returns (pretty (wrapu 64 (f_Integer f)))
    | SkipType => Returns "<nil>"
    | UnknownFieldType => Panics "unknown field type"
    end in
  v ← v; Returns (f_Key f +:+ ":" +:+ String dquote "" +:+ v +:+ String dquote "").

(** Only an unknown type makes it panic. *)
Lemma FieldToString_total f : f_Type f <> UnknownFieldType -> exists s, FieldToString f = Returns s.
Proof. unfold FieldToString. destruct (f_Type f); try done; eexists; done. Qed.
End print.

(** ** Fields of contexts

    A slice is a backing array and a length; arrays live in the heap, and [append] writes in
    place while there is capacity. A context is the list of its bindings, innermost first. The
    two variables that serve as keys are values of one empty struct type, hence one key. *)
Record slice := MkSlice { sl_array : nat; sl_len : nat }.
Notation heap := (gmap nat (list (option Field))).

Inductive ctxkey := CtxKey.
(* go: internal/clouderr/clouderr.go | type ctxkey struct{} | L16-L21 *)
Definition logFieldsContextKey : ctxkey := CtxKey.
Definition logFieldKeysMapContextKey : ctxkey := CtxKey.

#[export] Instance ctxkey_eq_dec : EqDecision ctxkey.
Proof. solve_decision. Defined.

Inductive ctx_value := VFields (s : option slice) | VKeys (m : gmap string nat).
Definition context : Type := list (ctxkey * ctx_value).

(** [ctx.Value(key)]: the innermost binding of the key. *)
Definition ctx_Value (ctx : context) (key : ctxkey) : option ctx_value :=
  snd <$> head (filter (fun b => b.1 = key) ctx).

(* go: internal/clouderr/clouderr.go | func FieldsFromContext *)
Definition FieldsFromContext (ctx : context) : option slice :=
  match ctx_Value ctx logFieldsContextKey with
  | Some (VFields s) => s
  | _ => None
  end.

(* go: internal/clouderr/clouderr.go | func logFieldKeyMapFromContext *)
Definition logFieldKeyMapFromContext (ctx : context) : gmap string nat :=
  match ctx_Value ctx logFieldKeysMapContextKey with
  | Some (VKeys m) => m
  | _ => ∅
  end.

Section append.
(** The capacity the runtime gives to a slice that has to hold [n] elements. *)
Context (grow : nat -> nat).

Definition filled {A : Type} (l : list (option A)) : list A :=
  concat (map (fun x => match x with Some a => [a] | None => [] end) l).

Definition contents (h : heap) (s : option slice) : list Field :=
  match s with
  | None => []
  | Some s => filled (take (sl_len s) (default [] (h !! sl_array s)))
  end.

Definition fresh_array (h : heap) : nat := fresh (dom h).

(** [append(s, f)]. *)
Definition slice_append (h : heap) (s : option slice) (f : Field) : heap * slice :=
  let len := match s with Some s => sl_len s | None => 0 end in
  let arr := match s with Some s => default [] (h !! sl_array s) | None => [] end in
  match s with
  | Some s =>
      if decide (len < length arr)
      then (<[sl_array s := <[len := Some f]> arr]> h, MkSlice (sl_array s) (S len))
      else
        let a := fresh_array h in
        (<[a := take len arr ++ Some f :: replicate (grow (S len) - S len) None]> h, MkSlice a (S len))
  | None =>
      let a := fresh_array h in
      (<[a := Some f :: replicate (grow 1 - 1) None]> h, MkSlice a 1)
  end.

(** [lf[idx] = f]. *)
Definition slice_set (h : heap) (s : option slice) (idx : nat) (f : Field) : outcome heap :=
  match s with
  | Some s =>
      if decide (idx < sl_len s)
      then Returns (<[sl_array s := <[idx := Some f]> (default [] (h !! sl_array s))]> h)
      else Panics index_out_of_range
  | None => Panics index_out_of_range
  end.

(** The loop over the new fields. *)
(* go: internal/clouderr/clouderr.go | // dedupe log fields and persist in context | L27-L37 *)
Fixpoint add_context_fields (h : heap) (lkm : gmap string nat) (lf : option slice) (fields : list Field)
    : outcome (heap * gmap string nat * option slice) :=
  match fields with
  | [] => Returns (h, lkm, lf)
  | f :: fields' =>
      match lkm !! f_Key f with
      | Some idx => h' ← slice_set h lf idx f; add_context_fields h' lkm lf fields'
      | None =>
          let '(h', s) := slice_append h lf f in
          add_context_fields h' (<[f_Key f := sl_len s - 1]> lkm) (Some s) fields'
      end
  end.

(* go: internal/clouderr/clouderr.go | func ContextWithFields *)
Definition ContextWithFields (h : heap) (ctx : context) (fields : list Field) : outcome (heap * context) :=
  let lkm := logFieldKeyMapFromContext ctx in
  let lf := FieldsFromContext ctx in
  '(h', lkm', lf') ← add_context_fields h lkm lf fields;
  Returns (h', (logFieldsContextKey, VFields lf') :: (logFieldKeysMapContextKey, VKeys lkm') :: ctx).

(** The fields a context shows. *)
Definition context_fields (h : heap) (ctx : context) : list Field := contents h (FieldsFromContext ctx).

(** ** What contexts remember *)

(** Contexts made by [ContextWithFields] bind the fields innermost. *)
Inductive made : context -> Prop :=
| made_nil : made []
| made_cons s m ctx : made ctx -> made ((CtxKey, VFields s) :: (CtxKey, VKeys m) :: ctx).

Lemma made_keys ctx : made ctx -> logFieldKeyMapFromContext ctx = ∅.
Proof. by destruct 1. Qed.

(** A slice within its array, all of it written. *)
Definition good_slice (h : heap) (s : option slice) : Prop :=
  match s with
  | None => True
  | Some s => exists arr, h !! sl_array s = Some arr /\ sl_len s <= length arr /\
                Forall is_Some (take (sl_len s) arr)
  end.

Lemma filled_length {A} (l : list (option A)) : Forall is_Some l -> length (filled l) = length l.
Proof. unfold filled. induction 1 as [|x l [a ->] _ IH]; simpl; [done|]. by rewrite IH. Qed.

Lemma filled_app {A} (l k : list (option A)) : filled (l ++ k) = filled l ++ filled k.
Proof. unfold filled. by rewrite map_app, concat_app. Qed.

Lemma slice_append_contents h s f :
  good_slice h s ->
  let '(h', s') := slice_append h s f in
  good_slice h' (Some s') /\ contents h' (Some s') = contents h s ++ [f] /\
  sl_len s' = S (length (contents h s)).
Proof.
  intros Hg. unfold slice_append. destruct s as [s|]; simpl in *.
  - destruct Hg as (arr & Harr & Hle & Hall). rewrite Harr. simpl.
    assert (Hlen : length (filled (take (sl_len s) arr)) = sl_len s).
    { rewrite filled_length, length_take by done. lia. }
    assert (Hnew : take (S (sl_len s)) (take (sl_len s) arr ++ Some f :: drop (S (sl_len s)) arr)
                   = take (sl_len s) arr ++ [Some f]).
    { rewrite take_app, length_take, take_ge by (rewrite length_take; lia). f_equal.
      by replace (S (sl_len s) - sl_len s `min` length arr) with 1 by lia. }
    destruct (decide (sl_len s < length arr)) as [Hlt|Hge]; simpl.
    + rewrite lookup_insert_eq. simpl. rewrite insert_take_drop by done. rewrite Hnew.
      rewrite filled_app. split; [|by rewrite Hlen].
      eexists. split; [done|]. rewrite Hnew.
      split; [rewrite length_app, length_take; simpl; rewrite length_drop; lia|].
      apply Forall_app. split; [done|]. by repeat constructor.
    + rewrite lookup_insert_eq. simpl.
      assert (Ht : take (S (sl_len s)) (take (sl_len s) arr ++ Some f :: replicate (grow (S (sl_len s)) - S (sl_len s)) None)
                   = take (sl_len s) arr ++ [Some f]).
      { rewrite take_app, length_take, take_ge by (rewrite length_take; lia). f_equal.
        by replace (S (sl_len s) - sl_len s `min` length arr) with 1 by lia. }
      rewrite Ht, filled_app. split; [|by rewrite Hlen].
      eexists. split; [done|]. rewrite Ht.
      split; [rewrite length_app, length_take; simpl; lia|].
      apply Forall_app. split; [done|]. by repeat constructor.
  - rewrite lookup_insert_eq. simpl. split; [|done].
    eexists. split; [done|]. simpl. split; [lia|]. by repeat constructor.
Qed.

Lemma slice_set_contents h s idx f :
  good_slice h (Some s) -> idx < sl_len s ->
  exists h', slice_set h (Some s) idx f = Returns h' /\ good_slice h' (Some s) /\
    contents h' (Some s) = <[idx := f]> (contents h (Some s)).
Proof.
  intros (arr & Harr & Hle & Hall) Hidx. simpl. rewrite Harr, decide_True by done. simpl.
  eexists. split; [done|]. rewrite lookup_insert_eq. simpl. split.
  - eexists. split; [done|]. rewrite length_insert. split; [done|].
    rewrite take_insert_lt by done. apply Forall_insert; [done|by eexists].
  - rewrite take_insert_lt by done. clear Hle Harr. revert idx Hidx.
    induction (take (sl_len s) arr) as [|x l IH] eqn:E; intros idx Hidx; [done|].
    clear E. apply Forall_cons in Hall as [[a ->] Hall].
    unfold filled in *. destruct idx as [|idx]; simpl; [done|]. f_equal. clear -IH Hall.
    revert idx. clear IH. induction Hall as [|x l [a ->] _ IH]; intros idx; simpl; [done|].
    destruct idx; simpl; [done|]. by rewrite IH.
Qed.

(** The state of the loop: [acc] is what has been added so far, [lkm] knows its keys. *)
Record loop_inv (old acc : list Field) (h : heap) (lkm : gmap string nat) (lf : option slice) : Prop := {
  li_good : good_slice h lf;
  li_contents : contents h lf = old ++ acc;
  li_keys : forall k i, lkm !! k = Some i <->
    exists j f, acc !! j = Some f /\ f_Key f = k /\ i = length old + j
}.

(** The field a list of fields ends up with under a key is the last one. *)
Definition last_field (fields : list Field) (k : string) : option Field :=
  last (filter (fun f => f_Key f = k) fields).

Definition key_field (acc : list Field) (k : string) : option Field :=
  head (filter (fun f => f_Key f = k) acc).

Lemma contents_length h s : good_slice h (Some s) -> length (contents h (Some s)) = sl_len s.
Proof.
  intros (arr & Harr & Hle & Hall). simpl. rewrite Harr. simpl. rewrite filled_length by done.
  rewrite length_take. lia.
Qed.

Lemma loop_inv_append old acc h lkm lf f :
  loop_inv old acc h lkm lf -> lkm !! f_Key f = None ->
  let '(h', s) := slice_append h lf f in
  loop_inv old (acc ++ [f]) h' (<[f_Key f := sl_len s - 1]> lkm) (Some s).
Proof.
  intros [Hg Hc Hk] Hnew. pose proof (slice_append_contents h lf f Hg) as H.
  destruct (slice_append h lf f) as [h' s]. destruct H as (Hg' & Hc' & Hl). split; [done| |].
  - by rewrite Hc', Hc, app_assoc.
  - intros k i. rewrite Hl, Hc, length_app. simpl. rewrite Nat.sub_0_r.
    destruct (decide (f_Key f = k)) as [<-|Hne].
    + rewrite lookup_insert_eq. split.
      * intros [= <-]. exists (length acc), f. rewrite lookup_app_r, Nat.sub_diag by lia. done.
      * intros (j & g & Hj & Hg0 & ->). f_equal. f_equal.
        apply lookup_snoc_Some in Hj as [[_ Hj]|[-> _]]; [|done].
        assert (lkm !! f_Key f = Some (length old + j)) by (apply Hk; eauto). congruence.
    + rewrite lookup_insert_ne by done. rewrite Hk. split.
      * intros (j & g & Hj & Hg0 & ->). exists j, g. split; [|done]. by apply lookup_app_l_Some.
      * intros (j & g & [[_ Hj]|[-> ->]]%lookup_snoc_Some & Hg0 & ->); [eauto|done].
Qed.

Lemma loop_inv_set old acc h lkm lf f idx :
  loop_inv old acc h lkm lf -> lkm !! f_Key f = Some idx ->
  exists h' j, slice_set h lf idx f = Returns h' /\ acc !! j <> None /\
    (exists g, acc !! j = Some g /\ f_Key g = f_Key f) /\
    loop_inv old (<[j := f]> acc) h' lkm lf.
Proof.
  intros [Hg Hc Hk] Hi. pose proof (proj1 (Hk _ _) Hi) as (j & g & Hj & Hgk & ->).
  assert (Hlt : j < length acc) by (by eapply lookup_lt_Some).
  destruct lf as [s|]; last first.
  { simpl in Hc. destruct old, acc; simpl in *; try done; lia. }
  assert (Hls : length old + j < sl_len s).
  { rewrite <- (contents_length h s Hg), Hc, length_app. lia. }
  destruct (slice_set_contents h s (length old + j) f Hg Hls) as (h' & -> & Hg' & Hc').
  exists h', j. split; [done|]. split; [congruence|]. split; [eauto|]. split; [done| |].
  - rewrite Hc', Hc, insert_app_r_alt by lia. by replace (length old + j - length old) with j by lia.
  - intros k i. rewrite Hk. split; intros (j' & g' & Hj' & Hgk' & ->).
    + destruct (decide (j = j')) as [<-|Hne].
      * exists j, f. rewrite list_lookup_insert_eq by done. split_and!; [done|congruence|done].
      * exists j', g'. rewrite list_lookup_insert_ne by done. done.
    + destruct (decide (j = j')) as [<-|Hne].
      * rewrite list_lookup_insert_eq in Hj' by done. simplify_eq. eauto.
      * rewrite list_lookup_insert_ne in Hj' by done. eauto.
Qed.

Lemma loop_inv_nodup old acc h lkm lf : loop_inv old acc h lkm lf -> NoDup (f_Key <$> acc).
Proof.
  intros [_ _ Hk]. apply NoDup_alt. intros i j k Hi Hj.
  apply list_lookup_fmap_Some in Hi as (f & -> & Hi).
  apply list_lookup_fmap_Some in Hj as (g & Hg & Hj).
  assert (H1 : lkm !! f_Key f = Some (length old + i)) by (apply Hk; eauto).
  assert (H2 : lkm !! f_Key f = Some (length old + j)) by (apply Hk; eauto).
  rewrite H1 in H2. simplify_eq. lia.
Qed.

(** [acc'] is [acc] with [f] as the field of its key. *)
Definition replaced (acc : list Field) (f : Field) (acc' : list Field) : Prop :=
  forall g, g ∈ acc' <-> if decide (f_Key g = f_Key f) then g = f else g ∈ acc.

Lemma replaced_append old acc h lkm lf f :
  loop_inv old acc h lkm lf -> lkm !! f_Key f = None -> replaced acc f (acc ++ [f]).
Proof.
  intros [_ _ Hk] Hn g. rewrite elem_of_app, list_elem_of_singleton. case_decide as E; [|naive_solver].
  split; [|auto]. intros [Hg|Hg]; [|done]. exfalso. apply list_elem_of_lookup in Hg as [j Hj].
  assert (lkm !! f_Key f = Some (length old + j)) by (apply Hk; rewrite <- E; eauto). congruence.
Qed.

Lemma replaced_insert acc f j g0 :
  NoDup (f_Key <$> acc) -> acc !! j = Some g0 -> f_Key g0 = f_Key f -> replaced acc f (<[j := f]> acc).
Proof.
  intros Hnd Hj Hg0 g. assert (Hlt : j < length acc) by (by eapply lookup_lt_Some).
  rewrite !list_elem_of_lookup. case_decide as E.
  - split; [|intros ->; exists j; by apply list_lookup_insert_eq].
    intros [i Hi]. destruct (decide (j = i)) as [<-|Hne].
    { rewrite list_lookup_insert_eq in Hi by done. congruence. }
    rewrite list_lookup_insert_ne in Hi by done. destruct Hne.
    apply (NoDup_lookup _ _ _ (f_Key f) Hnd); rewrite list_lookup_fmap, ?Hj, ?Hi; simpl; congruence.
  - rewrite (list_elem_of_lookup acc). split; intros [i Hi]; destruct (decide (j = i)) as [<-|Hne].
    + rewrite list_lookup_insert_eq in Hi by done. congruence.
    + rewrite list_lookup_insert_ne in Hi by done. eauto.
    + congruence.
    + exists i. by rewrite list_lookup_insert_ne.
Qed.

Lemma last_field_cons f fs k :
  last_field (f :: fs) k =
    match last_field fs k with Some g => Some g | None => if decide (f_Key f = k) then Some f else None end.
Proof.
  unfold last_field. rewrite filter_cons. case_decide; [rewrite last_cons|]; by destruct (last _).
Qed.

Lemma add_context_fields_spec fs : forall old acc h lkm lf,
  loop_inv old acc h lkm lf ->
  exists h' lkm' lf' acc', add_context_fields h lkm lf fs = Returns (h', lkm', lf') /\
    loop_inv old acc' h' lkm' lf' /\
    forall g, g ∈ acc' <->
      match last_field fs (f_Key g) with Some g' => g = g' | None => g ∈ acc end.
Proof.
  induction fs as [|f fs IH]; intros old acc h lkm lf Hi; simpl.
  { exists h, lkm, lf, acc. split_and!; [done|done|]. intros g. done. }
  assert (Hstep : exists h1 lkm1 lf1 acc1, loop_inv old acc1 h1 lkm1 lf1 /\ replaced acc f acc1 /\
    match lkm !! f_Key f with
    | Some idx => h' ← slice_set h lf idx f; add_context_fields h' lkm lf fs
    | None => let '(h', s) := slice_append h lf f in
              add_context_fields h' (<[f_Key f := sl_len s - 1]> lkm) (Some s) fs
    end = add_context_fields h1 lkm1 lf1 fs).
  { destruct (lkm !! f_Key f) as [idx|] eqn:E.
    - destruct (loop_inv_set _ _ _ _ _ _ _ Hi E) as (h1 & j & Hset & _ & (g0 & Hj & Hg0) & Hi1).
      exists h1, lkm, lf, (<[j := f]> acc). rewrite Hset.
      split_and!; [done|eapply replaced_insert; eauto using loop_inv_nodup|done].
    - pose proof (loop_inv_append _ _ _ _ _ _ Hi E) as Hi1.
      destruct (slice_append h lf f) as [h1 s1].
      eexists _, _, _, _. split_and!; [exact Hi1|by eapply replaced_append|done]. }
  destruct Hstep as (h1 & lkm1 & lf1 & acc1 & Hi1 & Hr & ->).
  destruct (IH _ _ _ _ _ Hi1) as (h' & lkm' & lf' & acc' & -> & Hi' & Hacc).
  exists h', lkm', lf', acc'. split_and!; [done|done|]. intros g. rewrite Hacc, last_field_cons.
  destruct (last_field fs (f_Key g)); [done|]. rewrite (Hr g).
  destruct (decide (f_Key g = f_Key f)) as [E|E]; [rewrite decide_True by done; done|].
  by rewrite decide_False by congruence.
Qed.

Lemma add_context_first h ctx :
  made ctx -> good_slice h (FieldsFromContext ctx) ->
  loop_inv (context_fields h ctx) [] h (logFieldKeyMapFromContext ctx) (FieldsFromContext ctx).
Proof.
  intros Hm Hg. rewrite made_keys by done. split; [done|by rewrite app_nil_r|].
  intros k i. rewrite lookup_empty. split; [done|]. intros (j & f & Hj & _). done.
Qed.

(** [ContextWithFields] appends: the new context shows the fields of its parent, all of them, and
    then, once each, the keys of the call, each with the last field the call gives it. It does
    not panic. In particular a key the parent already has is not replaced but shown twice: the
    index of known keys is never found again, because both context keys are the same value. *)
Theorem ContextWithFields_appends h ctx fields :
  made ctx -> good_slice h (FieldsFromContext ctx) ->
  exists h' ctx' new, ContextWithFields h ctx fields = Returns (h', ctx') /\
    made ctx' /\ good_slice h' (FieldsFromContext ctx') /\
    context_fields h' ctx' = context_fields h ctx ++ new /\
    NoDup (f_Key <$> new) /\
    forall f, f ∈ new <-> last_field fields (f_Key f) = Some f.
Proof.
  intros Hm Hg. destruct (add_context_fields_spec fields _ _ _ _ _ (add_context_first h ctx Hm Hg))
    as (h' & lkm' & lf' & acc' & E & Hi & Hacc).
  unfold ContextWithFields. rewrite E. simpl.
  eexists _, _, acc'. split; [done|]. split; [by constructor|].
  pose proof (loop_inv_nodup _ _ _ _ _ Hi) as Hnd. destruct Hi as [Hg' Hc _].
  split_and!; [done|done|done|]. intros f. rewrite Hacc.
  destruct (last_field fields (f_Key f)); [naive_solver|]. split; [by intros ?%elem_of_nil|done].
Qed.

(** Sibling contexts share their parent's spare capacity: when the parent's backing array has room,
    deriving a second context from it overwrites the field that the first one added. *)
Theorem sibling_contexts_share h ctx s arr f1 f2 :
  made ctx -> FieldsFromContext ctx = Some s -> h !! sl_array s = Some arr ->
  sl_len s < length arr -> Forall is_Some (take (sl_len s) arr) ->
  exists h1 c1 h2 c2,
    ContextWithFields h ctx [f1] = Returns (h1, c1) /\
    ContextWithFields h1 ctx [f2] = Returns (h2, c2) /\
    context_fields h1 c1 = context_fields h ctx ++ [f1] /\
    context_fields h2 c1 = context_fields h ctx ++ [f2].
Proof.
  intros Hm Hs Harr Hlt Hall.
  assert (Hc : forall h arr, h !! sl_array s = Some arr -> sl_len s < length arr -> forall f,
    ContextWithFields h ctx [f] =
      Returns (<[sl_array s := <[sl_len s := Some f]> arr]> h,
               (CtxKey, VFields (Some (MkSlice (sl_array s) (S (sl_len s))))) ::
               (CtxKey, VKeys {[ f_Key f := sl_len s ]}) :: ctx)).
  { intros h0 arr0 Harr0 Hlt0 f. unfold ContextWithFields. rewrite made_keys, Hs by done. simpl.
    rewrite lookup_empty, Harr0. simpl. rewrite decide_True by done. simpl. by rewrite Nat.sub_0_r. }
  eexists _, _, _, _. split; [by apply Hc|].
  split; [apply (Hc _ (<[sl_len s := Some f1]> arr)); [apply lookup_insert_eq|by rewrite length_insert]|].
  unfold context_fields. rewrite Hs. simpl. rewrite Harr, !lookup_insert_eq. simpl.
  assert (Ht : forall (arr : list (option Field)) f, sl_len s < length arr -> take (S (sl_len s)) (<[sl_len s := Some f]> arr)
             = take (sl_len s) arr ++ [Some f]).
  { intros arr0 f Hlt0. rewrite insert_take_drop by done.
    rewrite take_app, length_take, take_ge by (rewrite length_take; lia). f_equal.
    by replace (S (sl_len s) - sl_len s `min` length arr0) with 1 by lia. }
  rewrite !Ht by (rewrite ?length_insert; lia). rewrite !filled_app.
  by rewrite take_insert_ge by lia.
Qed.
End append.

Definition demo_grow (n : nat) : nat := 2 * n.
Definition kv (k v : string) : Field := StringField k v.
Definition demo_ctx : heap * context :=
  match ContextWithFields demo_grow ∅ [] [kv "a" "1"; kv "a" "2"; kv "b" "3"; kv "c" "4"] with
  | Returns hc => hc
  | Panics _ => (∅, [])
  end.

Lemma demo_ctx_made : made demo_ctx.2 /\ good_slice demo_ctx.1 (FieldsFromContext demo_ctx.2).
Proof.
  split; [apply made_cons; constructor|].
  eexists. split; [vm_compute; reflexivity|]. split; [vm_compute; lia|]. by_decision.
Qed.

Lemma ContextWithFields_appends_witness :
  context_fields demo_ctx.1 demo_ctx.2 = [kv "a" "2"; kv "b" "3"; kv "c" "4"] /\
  exists h' ctx' new,
    ContextWithFields demo_grow demo_ctx.1 demo_ctx.2 [kv "a" "9"] = Returns (h', ctx') /\
    context_fields h' ctx' = context_fields demo_ctx.1 demo_ctx.2 ++ new.
Proof.
  split; [vm_compute; reflexivity|].
  destruct (ContextWithFields_appends demo_grow demo_ctx.1 demo_ctx.2 [kv "a" "9"])
    as (h' & ctx' & new & H1 & _ & _ & H2 & _); [apply demo_ctx_made..|].
  by exists h', ctx', new.
Defined.

Lemma sibling_contexts_share_witness :
  exists h1 c1 h2 c2,
    ContextWithFields demo_grow demo_ctx.1 demo_ctx.2 [kv "user" "alice"] = Returns (h1, c1) /\
    ContextWithFields demo_grow h1 demo_ctx.2 [kv "user" "bob"] = Returns (h2, c2) /\
    context_fields h1 c1 = context_fields demo_ctx.1 demo_ctx.2 ++ [kv "user" "alice"] /\
    context_fields h2 c1 = context_fields demo_ctx.1 demo_ctx.2 ++ [kv "user" "bob"].
Proof.
  eapply (sibling_contexts_share demo_grow).
  - apply demo_ctx_made.
  - vm_compute. reflexivity.
  - vm_compute. reflexivity.
  - vm_compute. lia.
  - by_decision.
Defined.
