(* ===== verification/Semerr.v ===== *)
(** * Semantic errors (internal/semerr)

    A [*semerr.Error] says what an error means to a caller. The texts of such errors are built
    by [golang.org/x/xerrors]; [Xerrors] is what [xerrors.Errorf] makes of a format and no
    operands. *)
From S2P Require Import Prelude Codes GoErrors Clouderr.

(** [xerrors_text format] is the text [xerrors.Errorf(format)] produces. Its law is the part of
    the documentation of package fmt the code relies on: a text without verbs is kept. *)
Class Xerrors : Type := { xerrors_text : string -> string }.
Class XerrorsLaws {X : Xerrors} : Prop := {
  xerrors_plain : forall text, index_byte "%"%char text = None -> xerrors_text text = text
}.

(** [lo.MapToSlice] lists the values of a map in the order the map is ranged over. *)
Class MapOrder : Type := {
  slice_of : gmap string Field -> list Field;
  slice_of_perm : forall m, is_slice_of m (slice_of m)
}.

(* go: internal/semerr/semantic.go | // Error with semantic info | L39-L46 *)
Record Error := MkError {
  e_Semantic : Semantic;
  e_message : string;
  e_fields : list Field;
  e_err : error
}.

(** The pointer as an [error]. *)
Definition to_error (e : Error) : error := Wrap (WSem (e_Semantic e) (e_message e) (e_fields e)) (e_err e).

Definition as_sem (e : error) : option Error :=
  match e with Wrap (WSem s m fs) e' => Some (MkError s m fs e') | _ => None end.

Module semerr.
Section semerr.
Context {X : Xerrors}.

(* go: internal/semerr/semantic.go | func errFmt *)
Definition errFmt (text : string) (err : option error) : error :=
  match err with
  | None => Leaf (LText (xerrors_text text))
  | Some e => Wrap (WText (xerrors_text text)) e
  end.

(* go: internal/semerr/semantic.go | func newError( *)
Definition newError (s : Semantic) (text : string) (fields : list Field) : Error :=
  MkError s text fields (errFmt text None).

(* go: internal/semerr/semantic.go | func wrapError( *)
Definition wrapError (s : Semantic) (err : error) (text : string) (fields : list Field) : Error :=
  MkError s text fields (errFmt text (Some err)).

(* go: internal/semerr/semantic.go | func (e *Error) Fields *)
Definition Fields (e : Error) : list Field := e_fields e.

(* go: internal/semerr/semantic.go | // Error implements error interface | L116-L123 *)
Definition Error_ (e : Error) : string := error_text (e_err e).

(* go: internal/semerr/semantic.go | // Unwrap implements Wrapper interface | L133-L136 *)
Definition Unwrap (e : Error) : error := e_err e.

(* go: internal/semerr/semantic.go | func (e *Error) Message() *)
Definition Message (e : Error) : string := e_message e.

(* go: internal/semerr/semantic.go | // AsSemanticError returns *)
Definition AsSemanticError (err : error) : option Error := As as_sem err.

(* go: internal/semerr/semantic.go | // IsSemanticError returns *)
Definition IsSemanticError (err : error) (semantic : Semantic) : bool :=
  match AsSemanticError err with
  | None => false
  | Some target => bool_decide (e_Semantic target = semantic)
  end.

(* go: internal/semerr/semantic.go | func unknown( *)
Definition unknown (text : string) : Error := newError SemanticUnknown text [].
(* go: internal/semerr/semantic.go | func wrapWithUnknown( *)
Definition wrapWithUnknown (err : error) (text : string) : Error :=
  wrapError SemanticUnknown err text [].
(* go: internal/semerr/semantic.go | func WrapWithCanceled( *)
Definition WrapWithCanceled (err : error) (text : string) (fields : list Field) : Error :=
  wrapError SemanticCanceled err text fields.
(* go: internal/semerr/semantic.go | func isUnknown( *)
Definition isUnknown (err : error) : bool := IsSemanticError err SemanticUnknown.
(* go: internal/semerr/semantic.go | func Internal( *)
Definition Internal (text : string) (fields : list Field) : Error := newError SemanticInternal text fields.
(* go: internal/semerr/semantic.go | func WrapWithInternal( *)
Definition WrapWithInternal (err : error) (text : string) (fields : list Field) : Error :=
  wrapError SemanticInternal err text fields.
(* go: internal/semerr/semantic.go | func NotImplemented( *)
Definition NotImplemented (text : string) (fields : list Field) : Error := newError SemanticNotImplemented text fields.
(* go: internal/semerr/semantic.go | func WrapWithNotImplemented( *)
Definition WrapWithNotImplemented (err : error) (text : string) (fields : list Field) : Error :=
  wrapError SemanticNotImplemented err text fields.
(* go: internal/semerr/semantic.go | func IsNotImplemented( *)
Definition IsNotImplemented (err : error) : bool := IsSemanticError err SemanticNotImplemented.
(* go: internal/semerr/semantic.go | func Unavailable( *)
Definition Unavailable (text : string) (fields : list Field) : Error := newError SemanticUnavailable text fields.
(* go: internal/semerr/semantic.go | func WrapWithUnavailable( *)
Definition WrapWithUnavailable (err : error) (text : string) (fields : list Field) : Error :=
  wrapError SemanticUnavailable err text fields.
(* go: internal/semerr/semantic.go | func WrapWithTimeout( *)
Definition WrapWithTimeout (err : error) (text : string) (fields : list Field) : Error :=
  wrapError SemanticTimeout err text fields.
(* go: internal/semerr/semantic.go | func ResourceLocked( *)
Definition ResourceLocked (text : string) (fields : list Field) : Error := newError SemanticResourceLocked text fields.
(* go: internal/semerr/semantic.go | func WrapWithResourceLocked( *)
Definition WrapWithResourceLocked (err : error) (text : string) (fields : list Field) : Error :=
  wrapError SemanticResourceLocked err text fields.
(* go: internal/semerr/semantic.go | func WrapWithTooManyRequests( *)
Definition WrapWithTooManyRequests (err : error) (text : string) (fields : list Field) : Error :=
  wrapError SemanticTooManyRequests err text fields.
(* go: internal/semerr/semantic.go | func IsResourceLocked( *)
Definition IsResourceLocked (err : error) : bool := IsSemanticError err SemanticResourceLocked.
(* go: internal/semerr/semantic.go | func IsUnavailable( *)
Definition IsUnavailable (err : error) : bool := IsSemanticError err SemanticUnavailable.
(* go: internal/semerr/semantic.go | func IsInternal( *)
Definition IsInternal (err : error) : bool := IsSemanticError err SemanticInternal.
(* go: internal/semerr/semantic.go | func InvalidInput( *)
Definition InvalidInput (text : string) (fields : list Field) : Error := newError SemanticInvalidInput text fields.
(* go: internal/semerr/semantic.go | func WrapWithInvalidInput( *)
Definition WrapWithInvalidInput (err : error) (text : string) (fields : list Field) : Error :=
  wrapError SemanticInvalidInput err text fields.
(* go: internal/semerr/semantic.go | func IsInvalidInput( *)
Definition IsInvalidInput (err : error) : bool := IsSemanticError err SemanticInvalidInput.
(* go: internal/semerr/semantic.go | func Authentication( *)
Definition Authentication (text : string) (fields : list Field) : Error := newError SemanticAuthentication text fields.
(* go: internal/semerr/semantic.go | func WrapWithAuthentication( *)
Definition WrapWithAuthentication (err : error) (text : string) (fields : list Field) : Error :=
  wrapError SemanticAuthentication err text fields.
(* go: internal/semerr/semantic.go | func IsAuthentication( *)
Definition IsAuthentication (err : error) : bool := IsSemanticError err SemanticAuthentication.
(* go: internal/semerr/semantic.go | func Forbidden( *)
Definition Forbidden (text : string) (fields : list Field) : Error := newError SemanticForbidden text fields.
(* go: internal/semerr/semantic.go | func WrapWithForbidden( *)
Definition WrapWithForbidden (err : error) (text : string) (fields : list Field) : Error :=
  wrapError SemanticForbidden err text fields.
(* go: internal/semerr/semantic.go | func IsForbidden( *)
Definition IsForbidden (err : error) : bool := IsSemanticError err SemanticForbidden.
(* go: internal/semerr/semantic.go | func FailedPrecondition( *)
Definition FailedPrecondition (text : string) (fields : list Field) : Error := newError SemanticFailedPrecondition text fields.
(* go: internal/semerr/semantic.go | func WrapWithFailedPrecondition( *)
Definition WrapWithFailedPrecondition (err : error) (text : string) (fields : list Field) : Error :=
  wrapError SemanticFailedPrecondition err text fields.
(* go: internal/semerr/semantic.go | func IsFailedPrecondition( *)
Definition IsFailedPrecondition (err : error) : bool := IsSemanticError err SemanticFailedPrecondition.
(* go: internal/semerr/semantic.go | func NotFound( *)
Definition NotFound (text : string) (fields : list Field) : Error := newError SemanticNotFound text fields.
(* go: internal/semerr/semantic.go | func WrapWithNotFound( *)
Definition WrapWithNotFound (err : error) (text : string) (fields : list Field) : Error :=
  wrapError SemanticNotFound err text fields.
(* go: internal/semerr/semantic.go | func IsNotFound( *)
Definition IsNotFound (err : error) : bool := IsSemanticError err SemanticNotFound.
(* go: internal/semerr/semantic.go | func AlreadyExists( *)
Definition AlreadyExists (text : string) (fields : list Field) : Error := newError SemanticAlreadyExists text fields.
(* go: internal/semerr/semantic.go | func WrapWithAlreadyExists( *)
Definition WrapWithAlreadyExists (err : error) (text : string) (fields : list Field) : Error :=
  wrapError SemanticAlreadyExists err text fields.
(* go: internal/semerr/semantic.go | func IsAlreadyExists( *)
Definition IsAlreadyExists (err : error) : bool := IsSemanticError err SemanticAlreadyExists.
(* go: internal/semerr/semantic.go | func Unprocessable( *)
Definition Unprocessable (text : string) (fields : list Field) : Error := newError SemanticUnprocessable text fields.
(* go: internal/semerr/semantic.go | func WrapWithUnprocessable( *)
Definition WrapWithUnprocessable (err : error) (text : string) (fields : list Field) : Error :=
  wrapError SemanticUnprocessable err text fields.
(* go: internal/semerr/semantic.go | func IsUnprocessable( *)
Definition IsUnprocessable (err : error) : bool := IsSemanticError err SemanticUnprocessable.
(* go: internal/semerr/semantic.go | func NotAcceptable( *)
Definition NotAcceptable (text : string) (fields : list Field) : Error := newError SemanticNotAcceptable text fields.
(* go: internal/semerr/semantic.go | func WrapWithNotAcceptable( *)
Definition WrapWithNotAcceptable (err : error) (text : string) (fields : list Field) : Error :=
  wrapError SemanticNotAcceptable err text fields.
(* go: internal/semerr/semantic.go | func IsNotAcceptable( *)
Definition IsNotAcceptable (err : error) : bool := IsSemanticError err SemanticNotAcceptable.
(* go: internal/semerr/semantic.go | func TooManyRequests( *)
Definition TooManyRequests (text : string) (fields : list Field) : Error := newError SemanticTooManyRequests text fields.
(* go: internal/semerr/semantic.go | func IsTooManyRequests( *)
Definition IsTooManyRequests (err : error) : bool := IsSemanticError err SemanticTooManyRequests.
(* go: internal/semerr/semantic.go | func PartialSuccess( *)
Definition PartialSuccess (text : string) (fields : list Field) : Error := newError SemanticPartialSuccess text fields.
(* go: internal/semerr/semantic.go | func IsPartialSuccess( *)
Definition IsPartialSuccess (err : error) : bool := IsSemanticError err SemanticPartialSuccess.

(* go: internal/semerr/semantic.go | func WrapWithSkipError *)
Definition WrapWithSkipError (err : error) (fields : list Field) : Error :=
  wrapError SemanticSkipError err (error_text err) fields.

(** The value a [recover()] returned: nothing, an error, or a value with its [%v] text. *)
Inductive panic_value := NoPanic | PanicError (e : error) | PanicValue (text : string).

(* go: internal/semerr/semantic.go | func UnwrapPanic *)
Definition UnwrapPanic (p : panic_value) : error :=
  match p with
  | NoPanic => to_error (Internal "panic" [])
  | PanicError e => e
  | PanicValue text => to_error (WrapWithInternal (Leaf (LText text)) "panic" [])
  end.

(** ** The collector *)

(** [errors.Join]: nils are dropped, and a join of nothing is nil. *)
Definition errors_Join (errs : list (option error)) : option error :=
  match omap id errs with [] => None | es => Some (GoErrors.Join es) end.

(* go: internal/semerr/collector.go | var ErrRecoveredPanic *)
Definition ErrRecoveredPanic : leaf := LNew 2 "recovered panic".

(** The collector is the error collected so far; its lock makes every operation one step. *)
(* go: internal/semerr/collector.go | // ErrCollector allows using | L10-L15 *)
Definition ErrCollector : Type := option error.

(* go: internal/semerr/collector.go | func (e *ErrCollector) Join *)
Definition ErrCollector_Join (c : ErrCollector) (err : option error) : ErrCollector :=
  errors_Join [c; err].

(* go: internal/semerr/collector.go | func (e *ErrCollector) Resolve *)
Definition ErrCollector_Resolve (c : ErrCollector) : option error := c.

(* go: internal/semerr/collector.go | func (e *ErrCollector) Recover *)
Definition ErrCollector_Recover (c : ErrCollector) (p : panic_value) : ErrCollector :=
  match p with
  | NoPanic => c
  | _ => ErrCollector_Join (ErrCollector_Join c (Some (UnwrapPanic p))) (Some (Leaf ErrRecoveredPanic))
  end.
End semerr.

Section messages.
Context {O : MapOrder} (print_duration print_float64 print_float32 print_time : Z -> string).

(** [lo.Map(ff, FieldToString)]. *)
Fixpoint fields_to_strings (ff : list Field) : outcome (list string) :=
  match ff with
  | [] => Returns []
  | f :: ff' =>
      s ← FieldToString print_duration print_float64 print_float32 print_time f;
      ss ← fields_to_strings ff'; Returns (s :: ss)
  end.

(* go: internal/semerr/semantic.go | func (e *Error) MessageWithFields *)
Definition MessageWithFields (e : Error) : outcome string :=
  match slice_of (UnwrapFields (to_error e)) with
  | [] => Returns (Message e)
  | ff => ss ← fields_to_strings ff; Returns (Message e +:+ "; " +:+ join ", " ss)
  end.
End messages.
End semerr.

(** ** What the classification finds *)

Lemma AsSemanticError_nodes e :
  semerr.AsSemanticError e = first_some (map as_sem (nodes e)).
Proof. apply As_nodes. Qed.

Lemma as_sem_to_error e : as_sem (to_error e) = Some e.
Proof. by destruct e. Qed.

(** A chain of wrappers none of which is semantic. *)
Fixpoint wraps_plainly (e inner : error) : Prop :=
  e = inner \/
  match e with
  | Wrap w e' => match w with WSem _ _ _ => False | _ => wraps_plainly e' inner end
  | _ => False
  end.

Lemma AsSemanticError_plain e inner :
  wraps_plainly e inner -> semerr.AsSemanticError e = semerr.AsSemanticError inner.
Proof.
  induction e as [l|w e IH|es _] using error_rect'; intros [->|H]; try done.
  unfold semerr.AsSemanticError in *. rewrite As_unfold. simpl.
  destruct w; try done; by apply IH.
Qed.

(** The outermost semantic error decides: however an error made with a semantic is wrapped by
    non-semantic errors, it is classified by that semantic and no other, whatever semantic
    errors it wraps itself. An error without a semantic one inside is not classified at all. *)
Theorem outermost_semantic_decides e s message fields err :
  wraps_plainly e (to_error (MkError s message fields err)) ->
  semerr.AsSemanticError e = Some (MkError s message fields err) /\
  forall s', semerr.IsSemanticError e s' = bool_decide (s = s').
Proof.
  intros H. assert (E : semerr.AsSemanticError e = Some (MkError s message fields err)).
  { rewrite (AsSemanticError_plain _ _ H). done. }
  split; [done|]. intros s'. unfold semerr.IsSemanticError. by rewrite E.
Qed.

#[export] Instance plain_xerrors : Xerrors := { xerrors_text := fun text => text }.

Lemma outermost_semantic_decides_witness :
  let inner := to_error (semerr.NotImplemented "no" []) in
  let e := Wrap (WText "ctx") (Wrap (WFields [kv "a" "1"])
             (to_error (semerr.WrapWithUnavailable inner "later" []))) in
  semerr.IsUnavailable e = true /\ semerr.IsNotImplemented e = false.
Proof.
  intros inner e.
  destruct (outermost_semantic_decides e SemanticUnavailable "later" [] (Wrap (WText "later") inner))
    as [_ H]; [by right; right; left|].
  split; [exact (H SemanticUnavailable)|exact (H SemanticNotImplemented)].
Defined.

Section collector.
Context {X : Xerrors}.
Import semerr.

(** What goroutines do with a collector, in the order the lock lets them. *)
Inductive collector_step := StepJoin (err : option error) | StepRecover (p : panic_value).

Definition collector_run (steps : list collector_step) (c : ErrCollector) : ErrCollector :=
  fold_left (fun c st => match st with
                         | StepJoin err => ErrCollector_Join c err
                         | StepRecover p => ErrCollector_Recover c p
                         end) steps c.

(** [st] hands the collector an error in which [target] is found. *)
Definition step_has (target : leaf) (st : collector_step) : Prop :=
  match st with
  | StepJoin (Some e) => Is target e = true
  | StepJoin None | StepRecover NoPanic => False
  | StepRecover p => Is target (UnwrapPanic p) = true \/ target = ErrRecoveredPanic
  end.

Definition step_idle (st : collector_step) : Prop := st = StepJoin None \/ st = StepRecover NoPanic.

Definition has (target : leaf) (c : ErrCollector) : Prop :=
  match c with Some e => Is target e = true | None => False end.

Lemma Is_Join target es : Is target (GoErrors.Join es) = true <-> exists e, e ∈ es /\ Is target e = true.
Proof.
  rewrite Is_spec, nodes_unfold. setoid_rewrite Is_spec. split.
  - intros [|H]%elem_of_cons; [done|]. apply list_elem_of_In, in_concat in H as (l & Hl & Hn).
    apply in_map_iff in Hl as (e & <- & He). exists e. by rewrite !list_elem_of_In.
  - intros (e & He & Hn). right. apply list_elem_of_In, in_concat. exists (nodes e).
    rewrite in_map_iff, <- list_elem_of_In. split; [|done]. exists e. by rewrite <- list_elem_of_In.
Qed.

Lemma ErrCollector_Join_has target c err :
  has target (ErrCollector_Join c err) <-> has target c \/ has target err.
Proof.
  unfold ErrCollector_Join, errors_Join. destruct c as [e1|], err as [e2|]; simpl;
    rewrite ?Is_Join; [set_solver..|tauto].
Qed.

Lemma ErrCollector_Join_None c err : ErrCollector_Join c err = None <-> c = None /\ err = None.
Proof. destruct c, err; unfold ErrCollector_Join, errors_Join; simpl; naive_solver. Qed.

Lemma collector_step_has target c st :
  has target (collector_run [st] c) <-> has target c \/ step_has target st.
Proof.
  destruct st as [err|[|e|text]]; simpl; rewrite ?ErrCollector_Join_has; simpl.
  - by destruct err.
  - tauto.
  - rewrite (Is_spec target (Leaf _)). simpl. rewrite elem_of_cons, elem_of_nil. naive_solver.
  - rewrite (Is_spec target (Leaf _)). simpl. rewrite elem_of_cons, elem_of_nil. naive_solver.
Qed.

Lemma collector_step_None c st : collector_run [st] c = None <-> c = None /\ step_idle st.
Proof.
  unfold step_idle. destruct st as [err|[|e|text]]; simpl; rewrite ?ErrCollector_Join_None; naive_solver.
Qed.

(** The collector loses nothing, whatever the interleaving: an error is found in what [Resolve]
    returns exactly if it is found in one of the errors joined, in the value of a recovered
    panic, or is the mark that some panic was recovered; and [Resolve] returns nil exactly if
    only nils were joined and nothing panicked. *)
Theorem collector_keeps_all steps target :
  (has target (ErrCollector_Resolve (collector_run steps None)) <-> Exists (step_has target) steps) /\
  (ErrCollector_Resolve (collector_run steps None) = None <-> Forall step_idle steps).
Proof.
  unfold ErrCollector_Resolve. induction steps as [|st steps IH] using rev_ind.
  { split; [|by split]. split; [done|]. by intros ?%Exists_nil. }
  unfold collector_run in *. rewrite fold_left_app. split.
  - rewrite Exists_app, Exists_cons, Exists_nil, <- (proj1 IH). pose proof (collector_step_has target) as H.
    unfold collector_run in H. rewrite H. tauto.
  - rewrite Forall_app, Forall_singleton, <- (proj2 IH). apply collector_step_None.
Qed.
End collector.
