(* ===== verification/Codeerr.v ===== *)
(** * Errors with a code for API clients (internal/codeerr)

    A coded error adds a machine-readable code to its cause; [AsCodeErr] finds the outermost one.
    The list of codes itself is data ([ErrorCode] of Codes). *)
From S2P Require Import Prelude Codes GoErrors.

Module codeerr.
(* go: internal/codeerr/codeerrors.go | type Error struct | L7-L39 *)
Record Error := MkError { ce_code : ErrorCode; ce_err : error }.

Definition to_error (e : Error) : error := Wrap (WCode (ce_code e)) (ce_err e).

(* go: internal/codeerr/codes.go | func Wrap *)
Definition Wrap (code : ErrorCode) (err : error) : Error := MkError code err.

Definition as_code (e : error) : option Error :=
  match e with GoErrors.Wrap (WCode c) e' => Some (MkError c e') | _ => None end.

(* go: internal/codeerr/codeerrors.go | func AsCodeErr *)
Definition AsCodeErr (err : error) : option Error := As as_code err.
End codeerr.

