(* ===== verification/Status.v ===== *)
(** * Statuses (internal/status) and network errors (internal/status/networkerrs)

    A [Status] is a code, an error and details for API clients. [FromError] finds or makes one
    for any error. The SQLSTATE codes are those of the PostgreSQL documentation
    (github.com/jackc/pgerrcode names them). *)
From S2P Require Import Prelude Codes GoErrors Clouderr Semerr.

(* go: internal/status/status.go | // Status represents the status code *)
Record Status := MkStatus { st_code : Code; st_err : error; st_details : ErrorDetails }.

(** [s.Error()]. *)
(* go: internal/status/status.go | // Error wraps a Status in an Error. | L143-L166 *)
Definition Status_Error (s : Status) : error := Wrap (WStatus (st_code s) (st_details s)) (st_err s).

Definition as_status (e : error) : option Status :=
  match e with Wrap (WStatus c d) e' => Some (MkStatus c e' d) | _ => None end.

(** [id] is the identity of the error [errors.New] allocates. *)
(* go: internal/status/status.go | // New creates a new Status | L37-L46 *)
Definition New (id : N) (code : Code) (message : string) : Status :=
  MkStatus code (Wrap WRaw (Leaf (LNew id message))) no_details.

(* go: internal/status/status.go | // Code returns the status code. *)
Definition Status_Code (s : Status) : Code := st_code s.

(* go: internal/status/status.go | // Details returns the details *)
Definition Status_Details (s : Status) : ErrorDetails := st_details s.

(* go: internal/status/status.go | // WithDetails sets the details *)
Definition WithDetails (s : Status) (d : ErrorDetails) : Status := MkStatus (st_code s) (st_err s) d.

(* go: internal/status/status.go | // WithErrorInfo sets *)
Definition WithErrorInfo (s : Status) (ei : ErrorInfo) : Status :=
  WithDetails s (MkErrorDetails (Some ei) (d_RetryDelay (st_details s)) (d_UserFacingMessage (st_details s))).

(* go: internal/status/status.go | // WithReason sets *)
Definition WithReason (s : Status) (r : Reason) : Status :=
  let ei := match d_ErrorInfo (st_details s) with Some ei => ei | None => MkErrorInfo "" [] end in
  WithErrorInfo s (MkErrorInfo r (ei_Metadata ei)).

(* go: internal/status/status.go | // WithRetryDelay sets *)
Definition WithRetryDelay (s : Status) (delay : Z) : Status :=
  WithDetails s (MkErrorDetails (d_ErrorInfo (st_details s)) (Some delay) (d_UserFacingMessage (st_details s))).

(* go: internal/status/status.go | // WithUserFacingMessage sets *)
Definition WithUserFacingMessage (s : Status) (ufm : string) : Status :=
  WithDetails s (MkErrorDetails (d_ErrorInfo (st_details s)) (d_RetryDelay (st_details s)) (Some ufm)).

Section message.
Context {O : MapOrder} (print_duration print_float64 print_float32 print_time : Z -> string).

(** [message(err)]: [MessageWithFields] of a semantic error, [Message] of a raw one, else that
    of the single cause. *)
(* go: internal/status/status.go | func message( *)
Fixpoint message (err : error) : outcome (option string) :=
  match err with
  | Leaf _ | Join _ => Returns None
  | Wrap w e' =>
      match w with
      | WSem s m fs =>
          m ← semerr.MessageWithFields print_duration print_float64 print_float32 print_time (MkError s m fs e');
          Returns (Some m)
      | WRaw => Returns (Some (error_text e'))
      | _ => message e'
      end
  end.

(* go: internal/status/status.go | // Message looks for a type *)
Definition Status_Message (s : Status) : outcome string :=
  m ← message (st_err s); Returns (match m with Some m => m | None => "unknown error" end).
End message.

(** ** Constructors and tests per code *)

(* go: internal/status/helpers.go | func NewUnknown( *)
Definition NewUnknown (id : N) (message : string) : Status := New id Unknown message.
(* go: internal/status/helpers.go | func NewCanceled( *)
Definition NewCanceled (id : N) (message : string) : Status := New id Canceled message.
(* go: internal/status/helpers.go | func NewInvalidArgument( *)
Definition NewInvalidArgument (id : N) (message : string) : Status := New id InvalidArgument message.
(* go: internal/status/helpers.go | func NewDeadlineExceeded( *)
Definition NewDeadlineExceeded (id : N) (message : string) : Status := New id DeadlineExceeded message.
(* go: internal/status/helpers.go | func NewNotFound( *)
Definition NewNotFound (id : N) (message : string) : Status := New id NotFound message.
(* go: internal/status/helpers.go | func NewAlreadyExists( *)
Definition NewAlreadyExists (id : N) (message : string) : Status := New id AlreadyExists message.
(* go: internal/status/helpers.go | func NewPermissionDenied( *)
Definition NewPermissionDenied (id : N) (message : string) : Status := New id PermissionDenied message.
(* go: internal/status/helpers.go | func NewTooManyRequests( *)
Definition NewTooManyRequests (id : N) (message : string) : Status := New id TooManyRequests message.
(* go: internal/status/helpers.go | func NewFailedPrecondition( *)
Definition NewFailedPrecondition (id : N) (message : string) : Status := New id FailedPrecondition message.
(* go: internal/status/helpers.go | func NewAborted( *)
Definition NewAborted (id : N) (message : string) : Status := New id Aborted message.
(* go: internal/status/helpers.go | func NewUnimplemented( *)
Definition NewUnimplemented (id : N) (message : string) : Status := New id Unimplemented message.
(* go: internal/status/helpers.go | func NewInternal( *)
Definition NewInternal (id : N) (message : string) : Status := New id Internal message.
(* go: internal/status/helpers.go | func NewUnavailable( *)
Definition NewUnavailable (id : N) (message : string) : Status := New id Unavailable message.
(* go: internal/status/helpers.go | func NewUnauthenticated( *)
Definition NewUnauthenticated (id : N) (message : string) : Status := New id Unauthenticated message.
(* go: internal/status/helpers.go | func NewUnprocessable( *)
Definition NewUnprocessable (id : N) (message : string) : Status := New id Unprocessable message.
(* go: internal/status/helpers.go | func NewNotAcceptable( *)
Definition NewNotAcceptable (id : N) (message : string) : Status := New id NotAcceptable message.
(* go: internal/status/helpers.go | func NewLocked( *)
Definition NewLocked (id : N) (message : string) : Status := New id Locked message.
(* go: internal/status/helpers.go | func (s *Status) IsUnknown( *)
Definition IsUnknown (s : Status) : bool := bool_decide (st_code s = Unknown).
(* go: internal/status/helpers.go | func (s *Status) IsCanceled( *)
Definition IsCanceled (s : Status) : bool := bool_decide (st_code s = Canceled).
(* go: internal/status/helpers.go | func (s *Status) IsInvalidArgument( *)
Definition IsInvalidArgument (s : Status) : bool := bool_decide (st_code s = InvalidArgument).
(* go: internal/status/helpers.go | func (s *Status) IsDeadlineExceeded( *)
Definition IsDeadlineExceeded (s : Status) : bool := bool_decide (st_code s = DeadlineExceeded).
(* go: internal/status/helpers.go | func (s *Status) IsNotFound( *)
Definition IsNotFound (s : Status) : bool := bool_decide (st_code s = NotFound).
(* go: internal/status/helpers.go | func (s *Status) IsAlreadyExists( *)
Definition IsAlreadyExists (s : Status) : bool := bool_decide (st_code s = AlreadyExists).
(* go: internal/status/helpers.go | func (s *Status) IsPermissionDenied( *)
Definition IsPermissionDenied (s : Status) : bool := bool_decide (st_code s = PermissionDenied).
(* go: internal/status/helpers.go | func (s *Status) IsTooManyRequests( *)
Definition IsTooManyRequests (s : Status) : bool := bool_decide (st_code s = TooManyRequests).
(* go: internal/status/helpers.go | func (s *Status) IsFailedPrecondition( *)
Definition IsFailedPrecondition (s : Status) : bool := bool_decide (st_code s = FailedPrecondition).
(* go: internal/status/helpers.go | func (s *Status) IsAborted( *)
Definition IsAborted (s : Status) : bool := bool_decide (st_code s = Aborted).
(* go: internal/status/helpers.go | func (s *Status) IsUnimplemented( *)
Definition IsUnimplemented (s : Status) : bool := bool_decide (st_code s = Unimplemented).
(* go: internal/status/helpers.go | func (s *Status) IsInternal( *)
Definition IsInternal (s : Status) : bool := bool_decide (st_code s = Internal).
(* go: internal/status/helpers.go | func (s *Status) IsUnavailable( *)
Definition IsUnavailable (s : Status) : bool := bool_decide (st_code s = Unavailable).
(* go: internal/status/helpers.go | func (s *Status) IsUnauthenticated( *)
Definition IsUnauthenticated (s : Status) : bool := bool_decide (st_code s = Unauthenticated).
(* go: internal/status/helpers.go | func (s *Status) IsUnprocessable( *)
Definition IsUnprocessable (s : Status) : bool := bool_decide (st_code s = Unprocessable).
(* go: internal/status/helpers.go | func (s *Status) IsNotAcceptable( *)
Definition IsNotAcceptable (s : Status) : bool := bool_decide (st_code s = NotAcceptable).
(* go: internal/status/helpers.go | func (s *Status) IsLocked( *)
Definition IsLocked (s : Status) : bool := bool_decide (st_code s = Locked).

(** ** User-facing messages *)

(** The message for a reason, if there is one. *)
Definition message_for (r : Reason) : option string :=
  if decide (r = RoleProtected) then
    Some "The role you're attempting to use is protected and cannot be used for password-based authentication. Please pick a different role and try again."
  else
  if decide (r = ResourceNotFound) then
    Some "The requested resource could not be found, or you don't have access to it. Please check the provided ID and try again."
  else
  if decide (r = ProjectNotFound) then
    Some "The requested project could not be found, or you don't have access to it. Please check the provided ID and try again."
  else
  if decide (r = EndpointNotFound) then
    Some "The requested endpoint could not be found, or you don't have access to it. Please check the provided ID and try again."
  else
  if decide (r = BranchNotFound) then
    Some "The requested branch could not be found, or you don't have access to it. Please check the provided ID and try again."
  else
  if decide (r = RateLimitExceeded) then
    Some "You've exceeded the rate limit. Please wait a moment and try again."
  else
  if decide (r = NonDefaultBranchComputeTimeExceeded) then
    Some "You've exceeded the compute time for this branch. Upgrade your plan to increase limits or connect to another branch."
  else
  if decide (r = ActiveTimeQuotaExceeded) then
    Some "Your project has exceeded the active time quota. Upgrade your plan to increase limits."
  else
  if decide (r = ComputeTimeQuotaExceeded) then
    Some "Your account or project has exceeded the compute time quota. Upgrade your plan to increase limits."
  else
  if decide (r = WrittenDataQuotaExceeded) then
    Some "Your project has exceeded the written data quota. Upgrade your plan to increase limits."
  else
  if decide (r = DataTransferQuotaExceeded) then
    Some "Your project has exceeded the data transfer quota. Upgrade your plan to increase limits."
  else
  if decide (r = LogicalSizeQuotaExceeded) then
    Some "Your project has exceeded the logical size quota. Upgrade your plan to increase limits."
  else
  if decide (r = RunningOperations) then
    Some "Your project already has running operations. Please wait until they complete, and then try again."
  else
  if decide (r = ActiveEndpointsLimitExceeded) then
    Some "You have exceeded the limit of concurrently active endpoints. Please suspend some endpoints and try again."
  else
  None.

(* go: internal/status/user_facing_messages.go | // EnrichWithUserFacingMessage *)
Definition EnrichWithUserFacingMessage (s : Status) : Status :=
  match d_UserFacingMessage (st_details s) with
  | Some _ => s
  | None =>
      match d_ErrorInfo (st_details s) with
      | None => s
      | Some ei =>
          match message_for (ei_Reason ei) with
          | Some m => WithUserFacingMessage s m
          | None => s
          end
      end
  end.

(** ** Network errors *)

(* go: internal/status/networkerrs/networkerrs.go | func isConnectionResetByPeer *)
Definition isConnectionResetByPeer (err : error) : bool := Is ECONNRESET err.
(* go: internal/status/networkerrs/networkerrs.go | func isConnectionRefused *)
Definition isConnectionRefused (err : error) : bool := Is ECONNREFUSED err.

(** The [Timeout] methods of the types that have one. *)
Definition timeout_errnos : list string := ["resource temporarily unavailable"; "connection timed out"].
Definition as_timeout (e : error) : option bool :=
  match e with
  | Leaf LDeadlineExceeded => Some true
  | Leaf (LErrno name) => Some (bool_decide (name ∈ timeout_errnos))
  | Leaf (LDNSError _ b) => Some b
  | Wrap (WTimeout _ b) _ => Some b
  | _ => None
  end.

(* go: internal/status/networkerrs/networkerrs.go | func IsNetworkErrTranslatesToUnavailable *)
Definition IsNetworkErrTranslatesToUnavailable (err : error) : bool :=
  if isConnectionResetByPeer err then true
  else if isConnectionRefused err then true
  else match As as_timeout err with Some b => b | None => false end.

(** ** From any error to a status *)

Definition ConnectionException : string := "08000".
Definition ConnectionFailure : string := "08006".
Definition TooManyConnections : string := "53300".
Definition CannotConnectNow : string := "57P03".

Definition as_pg (e : error) : option string :=
  match e with Leaf (LPgError c _) => Some c | _ => None end.

(* go: internal/status/compat.go | // codeFromPGDriver | L62-L85 *)
Definition codeFromPGDriver (err : error) : bool * Code :=
  match As as_pg err with
  | None => (false, Unknown)
  | Some c =>
      if decide (c = ConnectionFailure) then (true, Unavailable)
      else if decide (c = ConnectionException) then (true, Unavailable)
      else if decide (c = TooManyConnections) then (true, Unavailable)
      else if decide (c = CannotConnectNow) then (true, Unavailable)
      else (true, Unknown)
  end.

(* go: internal/status/compat.go | func codeFromNetworkErr *)
Definition codeFromNetworkErr (err : error) : bool * Code :=
  if IsNetworkErrTranslatesToUnavailable err then (true, Unavailable) else (false, Unknown).

(** The code of a semantic, if it has one. *)
Definition code_of_semantic (s : Semantic) : option Code :=
  match s with
  | SemanticAlreadyExists => Some AlreadyExists
  | SemanticAuthentication => Some Unauthenticated
  | SemanticCanceled => Some Canceled
  | SemanticFailedPrecondition => Some FailedPrecondition
  | SemanticForbidden => Some PermissionDenied
  | SemanticInternal => Some Internal
  | SemanticInvalidInput => Some InvalidArgument
  | SemanticNotFound => Some NotFound
  | SemanticNotImplemented => Some Unimplemented
  | SemanticResourceLocked => Some Locked
  | SemanticTooManyRequests => Some TooManyRequests
  | SemanticTimeout => Some DeadlineExceeded
  | SemanticUnavailable => Some Unavailable
  | SemanticUnprocessable => Some Unprocessable
  | SemanticNotAcceptable => Some NotAcceptable
  | SemanticUnknown | SemanticSkipError | SemanticPartialSuccess => None
  end.

(* go: internal/status/compat.go | func codeFromSemerr *)
Definition codeFromSemerr (err : error) : bool * Code :=
  match As as_sem err with
  | None => (false, Unknown)
  | Some serr =>
      match code_of_semantic (e_Semantic serr) with
      | Some c => (true, c)
      | None => (false, Unknown)
      end
  end.

Definition as_ogen (e : error) : option ogen_kind :=
  match e with Wrap (WOgen k _) _ => Some k | _ => None end.

(* go: internal/status/compat.go | func codeFromOgenerr *)
Definition codeFromOgenerr (err : error) : bool * Code :=
  match As as_ogen err with
  | None => (false, Unknown)
  | Some SecurityError => (true, Unauthenticated)
  | Some DecodeParamsError => (true, InvalidArgument)
  | Some DecodeRequestError => (true, InvalidArgument)
  | Some OtherOgenError => (false, Unknown)
  end.

Definition as_dns (e : error) : option string :=
  match e with Leaf (LDNSError err _) => Some err | _ => None end.

(* go: internal/status/compat.go | func codeFromDNSErr *)
Definition codeFromDNSErr (err : error) : bool * Code :=
  match As as_dns err with
  | None => (false, Unknown)
  | Some dnserr =>
      if contains dnserr "operation was canceled" then (true, Canceled) else (false, Unknown)
  end.

(* go: internal/status/compat.go | func codeFromContext *)
Definition codeFromContext (err : error) : bool * Code :=
  if Is ctx_Canceled err then (true, Canceled)
  else if Is LDeadlineExceeded err then (true, DeadlineExceeded)
  else (false, Unknown).

(** The first of the classifiers that knows the error. *)
Fixpoint first_code (fs : list (error -> bool * Code)) (err : error) : Code :=
  match fs with
  | [] => Unknown
  | f :: fs' => let '(ok, code) := f err in if (ok : bool) then code else first_code fs' err
  end.

(* go: internal/status/compat.go | // FromError tries | L17-L60 *)
Definition FromError (err : error) : Status :=
  match As as_status err with
  | Some s => s
  | None =>
      MkStatus
        (first_code [codeFromContext; codeFromDNSErr; codeFromSemerr; codeFromOgenerr;
                     codeFromPGDriver; codeFromNetworkErr] err)
        err no_details
  end.

(** ** Properties *)

(** [FromError] loses nothing and is stable: a status found in the error is returned as it is, in
    particular the status of [s.Error()] is [s]; any other error is kept whole as the cause, so
    that every sentinel and every semantic error in it is still found in the status's error,
    without details. *)
Theorem FromError_keeps err :
  (forall s, FromError (Status_Error s) = s) /\
  match As as_status err with
  | Some s => FromError err = s
  | None => st_err (FromError err) = err /\ st_details (FromError err) = no_details /\
      (forall target, Is target (Status_Error (FromError err)) = Is target err) /\
      semerr.AsSemanticError (Status_Error (FromError err)) = semerr.AsSemanticError err
  end.
Proof.
  split; [by intros [c e d]|]. unfold FromError. by destruct (As as_status err).
Qed.

Lemma codeFromContext_false err :
  Is ctx_Canceled err = false -> Is LDeadlineExceeded err = false -> codeFromContext err = (false, Unknown).
Proof. unfold codeFromContext. by intros -> ->. Qed.

(** An error that is semantic at heart: non-semantic text and field wrappers around a semantic
    error with its own text. *)
Definition plain_semantic {X : Xerrors} (s : Semantic) (text : string) (fields : list Field) : error :=
  to_error (semerr.newError s text fields).

(** An API built on statuses and one built on semantic errors show the same HTTP status for a
    fresh semantic error, one without causes, except for four semantics: Not Implemented (501 against 400), Canceled
    (499 against 500), Skip (500 against 200) and Partial Success (500 against 207). *)
Theorem status_http_agrees {X : Xerrors} s text fields :
  Code_HTTP (st_code (FromError (plain_semantic s text fields))) =
    match s with
    | SemanticNotImplemented => 501
    | SemanticCanceled => 499
    | SemanticSkipError | SemanticPartialSuccess => 500
    | _ => SemanticErrorToHTTP s
    end%N.
Proof. by destruct s. Qed.

(** Cancellation wins over every other meaning: an error without a status in which
    [context.Canceled] is found anywhere, under whatever semantic or other wrappers and joins,
    has the code Canceled; and if only the deadline is found there, Deadline Exceeded. *)
Theorem FromError_context_first err :
  As as_status err = None ->
  (Leaf ctx_Canceled ∈ nodes err -> st_code (FromError err) = Canceled) /\
  (Leaf ctx_Canceled ∉ nodes err -> Leaf LDeadlineExceeded ∈ nodes err ->
   st_code (FromError err) = DeadlineExceeded).
Proof.
  intros E. unfold FromError. rewrite E. simpl. unfold codeFromContext. rewrite <- !Is_spec. split.
  - by intros ->.
  - intros Hn ->. by destruct (Is ctx_Canceled err).
Qed.

Lemma FromError_context_first_witness :
  st_code (FromError (to_error (semerr.WrapWithInternal
    (Join [Leaf (LText "x"); Wrap (WText "get") (Leaf ctx_Canceled)]) "internal error" []))) = Canceled.
Proof.
  refine (proj1 (FromError_context_first (to_error (semerr.WrapWithInternal
    (Join [Leaf (LText "x"); Wrap (WText "get") (Leaf ctx_Canceled)]) "internal error" [])) _) _).
  - reflexivity.
  - apply Is_spec. reflexivity.
Defined.

Lemma Enrich_err s : st_err (EnrichWithUserFacingMessage s) = st_err s.
Proof. unfold EnrichWithUserFacingMessage. by repeat case_match. Qed.

(** Enriching a status only ever fills in a missing message: code, error, reason and an existing
    message stay, it happens once, and a status gets a message exactly if it has none yet and
    its reason is one of the fourteen that have a text. *)
Theorem Enrich_spec s :
  let s' := EnrichWithUserFacingMessage s in
  st_code s' = st_code s /\ st_err s' = st_err s /\
  d_ErrorInfo (st_details s') = d_ErrorInfo (st_details s) /\
  d_RetryDelay (st_details s') = d_RetryDelay (st_details s) /\
  EnrichWithUserFacingMessage s' = s' /\
  (s' <> s <-> d_UserFacingMessage (st_details s) = None /\
     exists ei, d_ErrorInfo (st_details s) = Some ei /\
       ei_Reason ei <> ConcurrencyLimitReached /\ ei_Reason ei <> LockAlreadyTaken /\
       message_for (ei_Reason ei) <> None).
Proof.
  unfold EnrichWithUserFacingMessage. destruct s as [c e [oi rd [m|]]]; simpl.
  { split_and!; try done. split; [done|]. by intros [? _]. }
  destruct oi as [ei|]; simpl; [|split_and!; try done; split; [done|]; by intros (_ & ? & ? & _)].
  destruct (message_for (ei_Reason ei)) as [m|] eqn:E; simpl.
  - split_and!; try done. split; [intros _|done]. split; [done|]. exists ei. rewrite E.
    split_and!; try done; intros Hr; rewrite Hr in E; by vm_compute in E.
  - rewrite E. split_and!; try done. split; [done|]. intros (_ & ei' & [= <-] & _ & _ & H). done.
Qed.
