(* ===== verification/Presenter.v ===== *)
(** * Presenting errors to API clients

    internal/openapiapp/errors.go, with what it uses of internal/resttooling/errors.go and
    internal/sentrytooling/semantic.go: which HTTP status, error code and message a client sees
    for an error, and which errors are reported to Sentry.

    The effects are explicit: the error placeholder of the context, the errors captured by the
    Sentry hub and the log. *)
From S2P Require Import Prelude Codes GoErrors Clouderr Semerr Codeerr Status.

(** ** HTTP codes of semantic errors *)

(* go: internal/resttooling/errors.go | func CodeFromSemanticError *)
Definition CodeFromSemanticError (err : error) : N * bool :=
  match semerr.AsSemanticError err with
  | None => (0%N, false)
  | Some e =>
      if Is ctx_Canceled err then (499%N, true) else (SemanticErrorToHTTP (e_Semantic e), true)
  end.

(** ** Effects *)

(** The value under [errorKey]: absent, of a wrong type, or a pointer to an error. *)
Inductive placeholder := NoPlaceholder | WrongType | Placeholder (err : option error).

Inductive log_line := LogErr (what : string) (err : error) | LogWarn (fields : gmap string Field).

Record effects := MkEffects {
  fx_slot : placeholder;
  fx_hub : bool;
  fx_captured : list error;
  fx_log : list log_line
}.

Definition log_error (what : string) (err : error) (fx : effects) : effects :=
  MkEffects (fx_slot fx) (fx_hub fx) (fx_captured fx) (fx_log fx ++ [LogErr what err]).

(* go: internal/resttooling/errors.go | // WithErrorPlaceholder adds *)
Definition WithErrorPlaceholder (fx : effects) : effects :=
  MkEffects (Placeholder None) (fx_hub fx) (fx_captured fx) (fx_log fx).

(* go: internal/resttooling/errors.go | func SetErrorInContext *)
Definition SetErrorInContext (fx : effects) (err : error) : effects * outcome unit :=
  match fx_slot fx with
  | NoPlaceholder => (log_error "error in detached context" err fx, Returns tt)
  | WrongType => (fx, Panics "error value has invalid type")
  | Placeholder _ => (MkEffects (Placeholder (Some err)) (fx_hub fx) (fx_captured fx) (fx_log fx), Returns tt)
  end.

(* go: internal/resttooling/errors.go | func ErrorMustFromContext *)
Definition ErrorMustFromContext (fx : effects) : outcome (option error) :=
  match fx_slot fx with
  | NoPlaceholder => Panics "error key not found in context"
  | WrongType => Panics "error value has invalid type"
  | Placeholder err => Returns err
  end.

(* go: internal/resttooling/errors.go | func LogAppError *)
Definition LogAppError {X : Xerrors} (fx : effects) (err : error) : effects :=
  let semanticErr := match semerr.AsSemanticError err with
                     | Some e => e
                     | None => semerr.WrapWithInternal err "internal" []
                     end in
  if Is ctx_Canceled err
  then MkEffects (fx_slot fx) (fx_hub fx) (fx_captured fx)
         (fx_log fx ++ [LogWarn (UnwrapFields (to_error semanticErr))])
  else log_error "incoming request finished with error" (to_error semanticErr) fx.

(** ** Sentry *)

Module sentrytooling.
Definition noSkipSentryForSemerrs : list Semantic := [SemanticInternal; SemanticUnknown].
Definition noSkipSentryForStatusCodes : list Code := [Internal; Unknown].

(* go: internal/sentrytooling/semantic.go | // These types of errors will be sent to Sentry | L30-L30 *)
Definition errSkipSentry : leaf := LNew 3 "this skips sentry".

(* go: internal/sentrytooling/semantic.go | // SkipSentry signals *)
Definition SkipSentry (err : error) : error := Join [err; Leaf errSkipSentry].

(* go: internal/sentrytooling/semantic.go | // shouldSkipSentry *)
Definition shouldSkipSentry (err : error) : bool :=
  if Is errSkipSentry err then true
  else match As as_ogen err with
  | Some _ => true
  | None =>
      if Is ctx_Canceled err then true
      else if Is LDeadlineExceeded err then true
      else if Is ECONNRESET err then true
      else if Is EPIPE err then true
      else match As as_status err with
      | Some st => negb (bool_decide (st_code st ∈ noSkipSentryForStatusCodes))
      | None =>
          match semerr.AsSemanticError err with
          | None => false
          | Some serr => negb (bool_decide (e_Semantic serr ∈ noSkipSentryForSemerrs))
          end
      end
  end.

(* go: internal/sentrytooling/semantic.go | // Report is a helper *)
Definition Report (fx : effects) (err : error) : effects :=
  if shouldSkipSentry err then fx
  else if fx_hub fx
  then MkEffects (fx_slot fx) (fx_hub fx) (fx_captured fx ++ [err]) (fx_log fx)
  else log_error "could not get sentry hub from context" err fx.
End sentrytooling.
Import sentrytooling.

(** ** Presenting *)

Section present.
Context {X : Xerrors} {O : MapOrder}.
Context (print_duration print_float64 print_float32 print_time : Z -> string).

(* go: internal/openapiapp/errors.go | // semerrFromPGDriver *)
Definition semerrFromPGDriver (err : error) : option Error :=
  match As as_pg err with
  | None => None
  | Some c =>
      if decide (c ∈ [ConnectionFailure; ConnectionException; TooManyConnections; CannotConnectNow])
      then Some (semerr.WrapWithUnavailable err "please try again later" [])
      else None
  end.

(* go: internal/openapiapp/errors.go | func asDNSError *)
Definition asDNSError (err : error) : option string := As as_dns err.

Definition as_ogen_of (k : ogen_kind) (e : error) : option string :=
  match e with Wrap (WOgen k' text) _ => if decide (k' = k) then Some text else None | _ => None end.

(* go: internal/openapiapp/errors.go | func mapNonSemantic *)
Definition mapNonSemantic (err : error) : Error :=
  if Is ctx_Canceled err then semerr.WrapWithCanceled err "canceled" []
  else match As (as_ogen_of DecodeParamsError) err with
  | Some _ => semerr.WrapWithInvalidInput err ("invalid input: " +:+ error_text err) []
  | None =>
  match As (as_ogen_of DecodeRequestError) err with
  | Some _ => semerr.WrapWithInvalidInput err ("invalid request: " +:+ error_text err) []
  | None =>
  match As (as_ogen_of SecurityError) err with
  | Some parsed => semerr.WrapWithAuthentication err parsed []
  | None =>
  match semerrFromPGDriver err with
  | Some parsed => parsed
  | None =>
  if IsNetworkErrTranslatesToUnavailable err
  then semerr.WrapWithUnavailable err "please try again later" []
  else
  if match asDNSError err with Some e => contains e "operation was canceled" | None => false end
  then semerr.WrapWithCanceled err "dns lookup was canceled" []
  else semerr.WrapWithInternal err "unknown internal server error" []
  end end end end.

(* go: internal/openapiapp/errors.go | func wrapWithSemantic *)
Definition wrapWithSemantic (err : error) : Error :=
  match semerr.AsSemanticError err with
  | None => mapNonSemantic err
  | Some e => e
  end.

(* go: internal/openapiapp/errors.go | func payloadFromSemantic *)
Definition payloadFromSemantic (err : Error) : outcome string :=
  semerr.MessageWithFields print_duration print_float64 print_float32 print_time err.

(** Status code, error code (empty if none) and message. *)
(* go: internal/openapiapp/errors.go | // PresentError returns *)
Definition PresentError (fx : effects) (err : error) : effects * outcome (N * ErrorCode * string) :=
  let '(errorCode, semanticErr) :=
    match codeerr.AsCodeErr err with
    | Some codeErr => (codeerr.ce_code codeErr, wrapWithSemantic (codeerr.ce_err codeErr))
    | None => ("", wrapWithSemantic err)
    end in
  let '(statusCode, ok) := CodeFromSemanticError (to_error semanticErr) in
  if negb ok then (fx, Panics "cannot get statusCode from semantic error")
  else
    let fx1 := Report fx (to_error semanticErr) in
    match SetErrorInContext fx1 (to_error semanticErr) with
    | (fx2, Panics w) => (fx2, Panics w)
    | (fx2, Returns _) => (fx2, m ← payloadFromSemantic semanticErr; Returns (statusCode, errorCode, m))
    end.

(* go: internal/openapiapp/errors.go | // PresentStatus is similar *)
Definition PresentStatus (fx : effects) (err : error) : effects * outcome (Status * ErrorCode) :=
  let st := EnrichWithUserFacingMessage (FromError err) in
  let err := Status_Error st in
  let errorCode := match codeerr.AsCodeErr err with Some c => codeerr.ce_code c | None => "" end in
  let fx1 := Report fx err in
  match SetErrorInContext fx1 err with
  | (fx2, Panics w) => (fx2, Panics w)
  | (fx2, Returns _) => (fx2, Returns (st, errorCode))
  end.

(** ** Properties *)

(** No field of the error has an unknown type. *)
Definition printable (err : error) : Prop :=
  Forall (fun n => Forall (fun f => f_Type f <> UnknownFieldType) (node_fields n)) (nodes err).

Lemma nodes_at_depth d e n : at_depth d e n -> n ∈ nodes e.
Proof.
  induction 1 as [e|d e e' n Hc _ IH]; rewrite nodes_unfold; [left|right].
  destruct e as [l|w e0|es]; simpl in Hc.
  - by apply elem_of_nil in Hc.
  - apply list_elem_of_singleton in Hc as ->. done.
  - apply list_elem_of_In, in_concat. exists (nodes e').
    rewrite in_map_iff, <- list_elem_of_In. split; [|done]. exists e'. by rewrite <- list_elem_of_In.
Qed.

Lemma contributes_elem n k f : contributes n k f -> f ∈ node_fields n.
Proof.
  unfold contributes. intros H. apply last_Some_elem_of in H. by apply list_elem_of_filter in H as [_ ?].
Qed.

Notation print := (FieldToString print_duration print_float64 print_float32 print_time).
Notation strings_of := (semerr.fields_to_strings print_duration print_float64 print_float32 print_time).

Lemma fields_to_strings_total ff :
  Forall (fun f => f_Type f <> UnknownFieldType) ff ->
  exists ss, strings_of ff = Returns ss /\ Forall2 (fun f s => print f = Returns s) ff ss.
Proof.
  induction 1 as [|f ff Hf _ (ss & Hss & IH)]; simpl; [by exists []|].
  destruct (FieldToString_total print_duration print_float64 print_float32 print_time f Hf) as [s Hs].
  rewrite Hs, Hss. simpl. exists (s :: ss). split; [done|]. by constructor.
Qed.

(** Every collected field comes from some error of the tree. *)
Lemma UnwrapFields_from e k f :
  UnwrapFields e !! k = Some f -> exists n, n ∈ nodes e /\ f ∈ node_fields n.
Proof.
  intros H. pose proof (UnwrapFields_lookup e k) as Hd. rewrite H in Hd.
  destruct Hd as (d & n & Hat & Hc & _). exists n.
  split; [by eapply nodes_at_depth|by eapply contributes_elem].
Qed.

(** The message of a semantic error: its own text, followed by the fields of the tree. *)
Lemma MessageWithFields_spec (e : Error) :
  printable (to_error e) ->
  exists ff ss, is_slice_of (UnwrapFields (to_error e)) ff /\
    Forall2 (fun f s => print f = Returns s) ff ss /\
    payloadFromSemantic e =
      Returns (match ss with [] => e_message e | _ => e_message e +:+ "; " +:+ join ", " ss end).
Proof.
  intros Hp. unfold payloadFromSemantic, semerr.MessageWithFields.
  pose proof (slice_of_perm (UnwrapFields (to_error e))) as Hs.
  set (ff := slice_of _) in *. assert (Hty : Forall (fun f => f_Type f <> UnknownFieldType) ff).
  { apply Forall_forall. intros f Hf. rewrite Hs in Hf.
    apply list_elem_of_fmap in Hf as ([k f'] & -> & Hf). apply elem_of_map_to_list in Hf.
    destruct (UnwrapFields_from _ _ _ Hf) as (n & Hn & Hfn).
    unfold printable in Hp. rewrite Forall_forall in Hp. specialize (Hp n Hn).
    rewrite Forall_forall in Hp. by apply Hp. }
  destruct (fields_to_strings_total ff Hty) as (ss & Hss & Hall).
  exists ff, ss. split_and!; [done|done|].
  destruct ff as [|f ff]; inversion Hall; subst; [done|]. by rewrite Hss.
Qed.

(** The error an API client is told about. *)
Definition presented (err : error) : Error :=
  wrapWithSemantic (match codeerr.AsCodeErr err with Some c => codeerr.ce_err c | None => err end).

Definition presented_code (err : error) : ErrorCode :=
  match codeerr.AsCodeErr err with Some c => codeerr.ce_code c | None => "" end.

Lemma CodeFromSemanticError_sem (e : Error) :
  CodeFromSemanticError (to_error e) =
    (if Is ctx_Canceled (to_error e) then 499%N else SemanticErrorToHTTP (e_Semantic e), true).
Proof. unfold CodeFromSemanticError. destruct e; simpl. by case_match. Qed.

(** Presenting, as a composition of total steps. *)
Lemma PresentError_run fx err :
  fx_slot fx <> WrongType -> printable (to_error (presented err)) ->
  exists ff ss fx',
    is_slice_of (UnwrapFields (to_error (presented err))) ff /\
    Forall2 (fun f s => print f = Returns s) ff ss /\
    SetErrorInContext (Report fx (to_error (presented err))) (to_error (presented err)) = (fx', Returns tt) /\
    PresentError fx err =
      (fx', Returns (if Is ctx_Canceled (to_error (presented err)) then 499%N
                     else SemanticErrorToHTTP (e_Semantic (presented err)),
                     presented_code err,
                     match ss with [] => e_message (presented err)
                     | _ => e_message (presented err) +:+ "; " +:+ join ", " ss end)).
Proof.
  intros Hslot Hp. destruct (MessageWithFields_spec _ Hp) as (ff & ss & Hff & Hss & Hm).
  assert (Hset : exists fx', SetErrorInContext (Report fx (to_error (presented err)))
            (to_error (presented err)) = (fx', Returns tt)).
  { unfold SetErrorInContext, Report. destruct (shouldSkipSentry _), fx as [[| |o] [] cap lg];
      simpl in *; try done; eexists; done. }
  destruct Hset as [fx' Hset]. exists ff, ss, fx'. split_and!; try done.
  unfold PresentError, presented, presented_code in *.
  destruct (codeerr.AsCodeErr err) as [c|]; rewrite CodeFromSemanticError_sem; simpl; rewrite Hset, Hm; done.
Qed.

(** *** What a client is told, in terms of the errors of a tree *)

(** The first error of a tree, in pre-order, that [view] accepts, and what it is seen as. *)
Definition first_node {A} (view : error -> option A) (e : error) (a : A) : Prop :=
  exists pre n post, nodes e = pre ++ n :: post /\ Forall (fun n => view n = None) pre /\ view n = Some a.

Definition no_node {A} (view : error -> option A) (e : error) : Prop :=
  Forall (fun n => view n = None) (nodes e).

Lemma As_first {A} (view : error -> option A) e a : As view e = Some a -> first_node view e a.
Proof.
  rewrite As_nodes. unfold first_node. induction (nodes e) as [|n l IH]; cbn; [done|].
  destruct (view n) as [b|] eqn:E.
  - intros [= ->]. by exists [], n, l.
  - intros (pre & m & post & -> & Hp & Hm)%IH. exists (n :: pre), m, post. split_and!; auto.
Qed.

Lemma first_node_As {A} (view : error -> option A) e a : first_node view e a -> As view e = Some a.
Proof.
  rewrite As_nodes. intros (pre & n & post & -> & Hp & Hn). rewrite map_app.
  induction Hp as [|m pre Hm _ IH]; cbn; [by rewrite Hn|by rewrite Hm].
Qed.

Lemma first_node_in {A} (view : error -> option A) e a :
  first_node view e a -> exists n, n ∈ nodes e /\ view n = Some a.
Proof. intros (pre & n & post & -> & _ & Hn). exists n. split; [set_solver|done]. Qed.

(** An error of ogen of kind [k] somewhere in the tree. *)
Definition has_kind (k : ogen_kind) (err : error) : Prop :=
  exists text e, Wrap (WOgen k text) e ∈ nodes err.

Lemma has_kind_As k err : has_kind k err <-> As (as_ogen_of k) err <> None.
Proof.
  split.
  - intros (text & e & Hin) E. apply As_None in E. rewrite Forall_forall in E.
    specialize (E _ Hin). simpl in E. by rewrite decide_True in E.
  - destruct (As _ err) as [t|] eqn:E; [|done]. intros _.
    apply As_first, first_node_in in E as (n & Hin & Hn).
    destruct n as [?|[| | | | | |k' t'|] e'|?]; simpl in Hn; try done. case_decide; simplify_eq. by exists t, e'.
Qed.

(** PostgreSQL says it is not to be reached now, a connection was reset or refused, or the first
    error that can tell whether it is a timeout says that it is one. *)
Definition unavailable (err : error) : Prop :=
  (exists c, first_node as_pg err c /\
     c ∈ [ConnectionFailure; ConnectionException; TooManyConnections; CannotConnectNow]) \/
  Leaf ECONNRESET ∈ nodes err \/ Leaf ECONNREFUSED ∈ nodes err \/ first_node as_timeout err true.

(** HTTP status and text for an error in which there is no semantic error. *)
Inductive told_plain (err : error) : N -> string -> Prop :=
| told_canceled : Leaf ctx_Canceled ∈ nodes err -> told_plain err 499 "canceled"
| told_params :
    Leaf ctx_Canceled ∉ nodes err -> has_kind DecodeParamsError err ->
    told_plain err 400 ("invalid input: " +:+ error_text err)
| told_request :
    Leaf ctx_Canceled ∉ nodes err -> ~ has_kind DecodeParamsError err -> has_kind DecodeRequestError err ->
    told_plain err 400 ("invalid request: " +:+ error_text err)
| told_security text :
    Leaf ctx_Canceled ∉ nodes err -> ~ has_kind DecodeParamsError err -> ~ has_kind DecodeRequestError err ->
    first_node (as_ogen_of SecurityError) err text -> told_plain err 401 text
| told_unavailable :
    Leaf ctx_Canceled ∉ nodes err -> Forall (fun k => ~ has_kind k err) [DecodeParamsError; DecodeRequestError; SecurityError] ->
    unavailable err -> told_plain err 503 "please try again later"
| told_dns dns :
    Leaf ctx_Canceled ∉ nodes err -> Forall (fun k => ~ has_kind k err) [DecodeParamsError; DecodeRequestError; SecurityError] ->
    ~ unavailable err -> first_node as_dns err dns -> contains dns "operation was canceled" = true ->
    told_plain err 500 "dns lookup was canceled"
| told_internal :
    Leaf ctx_Canceled ∉ nodes err -> Forall (fun k => ~ has_kind k err) [DecodeParamsError; DecodeRequestError; SecurityError] ->
    ~ unavailable err -> (forall dns, first_node as_dns err dns -> contains dns "operation was canceled" = false) ->
    told_plain err 500 "unknown internal server error".

(** [told err status text shown]: [text] is followed by the fields of the error [shown]. *)
Inductive told (err : error) : N -> string -> error -> Prop :=
| told_semantic e :
    first_node as_sem err e -> Leaf ctx_Canceled ∉ nodes (to_error e) ->
    told err (SemanticErrorToHTTP (e_Semantic e)) (e_message e) (to_error e)
| told_semantic_canceled e :
    first_node as_sem err e -> Leaf ctx_Canceled ∈ nodes (to_error e) ->
    told err 499 (e_message e) (to_error e)
| told_nothing_semantic status text :
    no_node as_sem err -> told_plain err status text -> told err status text err.

(** The code a client gets, and the error it is told about. *)
Inductive coded (err : error) : ErrorCode -> error -> Prop :=
| coded_first code inner : first_node codeerr.as_code err (codeerr.MkError code inner) -> coded err code inner
| coded_none : no_node codeerr.as_code err -> coded err "" err.

Lemma not_Is target err : Is target err = false <-> Leaf target ∉ nodes err.
Proof. rewrite <- Is_spec. by destruct (Is target err). Qed.

Lemma no_kind k err : As (as_ogen_of k) err = None -> ~ has_kind k err.
Proof. intros E H%has_kind_As. done. Qed.

Lemma a_kind k err text : As (as_ogen_of k) err = Some text -> has_kind k err.
Proof. intros E. by rewrite has_kind_As, E. Qed.

Lemma semerrFromPGDriver_spec err :
  match semerrFromPGDriver err with
  | Some e => e = semerr.WrapWithUnavailable err "please try again later" [] /\ unavailable err
  | None => unavailable err <-> IsNetworkErrTranslatesToUnavailable err = true
  end.
Proof.
  unfold semerrFromPGDriver. destruct (As as_pg err) as [c|] eqn:E; [case_decide as Hc|].
  1: { split; [done|]. left. exists c. split; [by apply As_first|done]. }
  all: unfold unavailable, IsNetworkErrTranslatesToUnavailable, isConnectionResetByPeer, isConnectionRefused;
    rewrite <- !Is_spec; (split; [intros [(c' & Hf%first_node_As & Hin)|H]; [congruence|]|]).
  1,3: destruct (Is ECONNRESET err), (Is ECONNREFUSED err); try done;
    destruct H as [H|[H|H%first_node_As]]; try done; by rewrite H.
  all: destruct (Is ECONNRESET err); [by right; left|]; destruct (Is ECONNREFUSED err); [by right; right; left|];
    destruct (As as_timeout err) as [[]|] eqn:Et; intros; try done; right; right; right; by apply As_first.
Qed.

Lemma mapNonSemantic_told err :
  let e := mapNonSemantic err in
  told_plain err (if Is ctx_Canceled (to_error e) then 499%N else SemanticErrorToHTTP (e_Semantic e)) (e_message e) /\
  exists s text, e = semerr.wrapError s err text [].
Proof.
  pose proof (fun s text => eq_refl : Is ctx_Canceled (to_error (semerr.wrapError s err text [])) = Is ctx_Canceled err) as Hc.
  unfold mapNonSemantic, semerr.WrapWithCanceled, semerr.WrapWithInvalidInput, semerr.WrapWithAuthentication,
    semerr.WrapWithUnavailable, semerr.WrapWithInternal. destruct (Is ctx_Canceled err) eqn:Ec.
  { split; [|by eexists _, _]. cbv zeta. rewrite Hc. by apply told_canceled, Is_spec. }
  assert (Hn : Leaf ctx_Canceled ∉ nodes err) by by apply not_Is.
  destruct (As (as_ogen_of DecodeParamsError) err) eqn:E1.
  { split; [|by eexists _, _]. cbv zeta. rewrite Hc. apply told_params; [done|by eapply a_kind]. }
  apply no_kind in E1. destruct (As (as_ogen_of DecodeRequestError) err) eqn:E2.
  { split; [|by eexists _, _]. cbv zeta. rewrite Hc. apply told_request; [done..|by eapply a_kind]. }
  apply no_kind in E2. destruct (As (as_ogen_of SecurityError) err) eqn:E3.
  { split; [|by eexists _, _]. cbv zeta. rewrite Hc. apply told_security; [done..|by apply As_first]. }
  apply no_kind in E3. pose proof (semerrFromPGDriver_spec err) as Hpg. destruct (semerrFromPGDriver err).
  { destruct Hpg as [-> Hu]. split; [|by eexists _, _]. cbv zeta. unfold semerr.WrapWithUnavailable. rewrite Hc. apply told_unavailable; [done| |done].
    by repeat constructor. }
  destruct (IsNetworkErrTranslatesToUnavailable err).
  { split; [|by eexists _, _]. cbv zeta. rewrite Hc. apply told_unavailable; [done| |by apply Hpg]. by repeat constructor. }
  assert (Hu : ~ unavailable err) by by rewrite Hpg. unfold asDNSError. destruct (As as_dns err) as [dns|] eqn:Ed.
  - destruct (contains dns "operation was canceled") eqn:Hd; (split; [|by eexists _, _]); cbv zeta; rewrite Hc.
    + eapply told_dns; [done| |done|by apply As_first|done]. by repeat constructor.
    + apply told_internal; [done|by repeat constructor|done|]. intros dns' H%first_node_As. congruence.
  - split; [|by eexists _, _]. cbv zeta. rewrite Hc. apply told_internal; [done|by repeat constructor|done|].
    intros dns' H%first_node_As. congruence.
Qed.

Lemma nodes_trans e n m : n ∈ nodes e -> m ∈ nodes n -> m ∈ nodes e.
Proof.
  induction e as [l|w e IH|es IH] using error_rect'; rewrite (nodes_unfold (_ _));
    intros [->|H]%elem_of_cons Hm; try (rewrite <- nodes_unfold; exact Hm).
  - by apply elem_of_nil in H.
  - right. by apply IH.
  - right. rewrite Forall_forall in IH. apply list_elem_of_In, in_concat in H as (l & Hl & Hn).
    apply in_map_iff in Hl as (e & <- & He). apply list_elem_of_In, in_concat. exists (nodes e).
    split; [apply in_map_iff; eauto|]. apply list_elem_of_In.
    rewrite <- list_elem_of_In in He, Hn. by apply IH.
Qed.

Lemma printable_sub e n : n ∈ nodes e -> printable e -> printable n.
Proof.
  unfold printable. rewrite !Forall_forall. intros Hn H m Hm. eapply H, nodes_trans; eauto.
Qed.

Lemma printable_wrap w e : node_fields (Wrap w e) = [] -> printable e -> printable (Wrap w e).
Proof. intros Hw H. unfold printable. rewrite nodes_unfold. constructor; [rewrite Hw; constructor|done]. Qed.

(** What is presented of an error that carries no code is what is told of it. *)
Lemma wrapWithSemantic_told err :
  let e := wrapWithSemantic err in
  exists shown,
    told err (if Is ctx_Canceled (to_error e) then 499%N else SemanticErrorToHTTP (e_Semantic e)) (e_message e) shown /\
    UnwrapFields (to_error e) = UnwrapFields shown /\ (printable err -> printable (to_error e)).
Proof.
  unfold wrapWithSemantic. destruct (semerr.AsSemanticError err) as [e|] eqn:E.
  - exists (to_error e). apply As_first in E. split_and!; [|done|].
    + destruct (Is ctx_Canceled (to_error e)) eqn:Hc.
      * apply told_semantic_canceled; [done|by apply Is_spec].
      * apply told_semantic; [done|by apply not_Is].
    + destruct (first_node_in _ _ _ E) as (n & Hin & Hn). apply printable_sub.
      destruct n as [?|[] ?|?]; simpl in Hn; simplify_eq. exact Hin.
  - exists err. destruct (mapNonSemantic_told err) as [Ht (s & text & He)]. split_and!.
    + apply told_nothing_semantic; [by apply As_None|done].
    + by rewrite He.
    + rewrite He. intros Hp. by apply printable_wrap, printable_wrap.
Qed.

Lemma presented_told err :
  exists inner shown, coded err (presented_code err) inner /\
    told inner (if Is ctx_Canceled (to_error (presented err)) then 499%N
                else SemanticErrorToHTTP (e_Semantic (presented err))) (e_message (presented err)) shown /\
    UnwrapFields (to_error (presented err)) = UnwrapFields shown /\
    (printable err -> printable (to_error (presented err))).
Proof.
  unfold presented, presented_code. destruct (codeerr.AsCodeErr err) as [[code inner]|] eqn:E; simpl.
  - destruct (wrapWithSemantic_told inner) as (shown & H1 & H2 & H3). exists inner, shown.
    apply As_first in E. split_and!; [by constructor|done|done|]. intros Hp. apply H3.
    destruct (first_node_in _ _ _ E) as (n & Hin & Hn). eapply printable_sub; [|exact Hp].
    destruct n as [?|[] ?|?]; simpl in Hn; simplify_eq. eapply nodes_trans; [exact Hin|].
    rewrite nodes_unfold. right. rewrite nodes_unfold. left.
  - destruct (wrapWithSemantic_told err) as (shown & H1 & H2 & H3). exists err, shown.
    split_and!; [|done..]. apply coded_none. by apply As_None.
Qed.

(** C19. Presenting an error never panics, if the context's placeholder is sound and no field in the
    error's tree has an unknown type, and tells the client exactly this. The code is that of the
    outermost coded error, and what follows is about the error it was put around; without a coded
    error there is no code. If there is a semantic error in it, the first in pre-order decides:
    its own text, and the HTTP status of its semantic, or 499 when a cancellation is found in it.
    Otherwise the first of these decides: a cancellation (499), parameters (400) or a request
    (400) that could not be decoded, a failed authentication (401), something unavailable (503),
    anything else (500). The text is fixed in each case, except that the whole text of an error
    of decoding, causes included, and the text of an error of authentication are passed on. The
    text is followed by the fields collected from the tree, in any order. *)
Theorem PresentError_spec fx err :
  fx_slot fx <> WrongType -> printable err ->
  exists fx' status code text inner shown ff ss,
    coded err code inner /\ told inner status text shown /\
    is_slice_of (UnwrapFields shown) ff /\
    Forall2 (fun f s => print f = Returns s) ff ss /\
    PresentError fx err =
      (fx', Returns (status, code, match ss with [] => text | _ => text +:+ "; " +:+ join ", " ss end)).
Proof.
  intros Hslot Hp. destruct (presented_told err) as (inner & shown & Hc & Ht & Hf & Hpr).
  destruct (PresentError_run fx err Hslot (Hpr Hp)) as (ff & ss & fx' & H1 & H2 & _ & H4). rewrite Hf in H1.
  by eexists fx', _, _, _, inner, shown, ff, ss.
Qed.

(** The mark of [SkipSentry] is lost on the way to Sentry: an internal error marked so would be
    skipped if it were reported itself, but presenting it reports the semantic error inside the
    mark, so the event is captured. *)
Theorem skip_sentry_is_lost fx s text fields :
  s ∈ noSkipSentryForSemerrs -> fx_hub fx = true -> fx_slot fx <> WrongType ->
  Forall (fun f => f_Type f <> UnknownFieldType) fields ->
  let e := to_error (semerr.newError s text fields) in
  shouldSkipSentry (SkipSentry e) = true /\
  fx_captured (PresentError fx (SkipSentry e)).1 = fx_captured fx ++ [e].
Proof.
  intros Hs Hhub Hslot Hf e. split.
  { unfold shouldSkipSentry, SkipSentry. by rewrite (proj2 (Is_spec _ _)) by (right; right; right; left). }
  assert (Hpr : presented (SkipSentry e) = semerr.newError s text fields) by reflexivity.
  assert (Hp : printable (to_error (presented (SkipSentry e)))).
  { rewrite Hpr. unfold printable. simpl. repeat constructor; auto. }
  destruct (PresentError_run fx (SkipSentry e) Hslot Hp) as (ff & ss & fx' & _ & _ & Hset & ->).
  rewrite Hpr in Hset. simpl. unfold Report in Hset.
  replace (shouldSkipSentry (to_error (semerr.newError s text fields))) with false in Hset.
  2: { unfold shouldSkipSentry. simpl.
       by rewrite (bool_decide_eq_true_2 (s ∈ noSkipSentryForSemerrs) Hs). }
  rewrite Hhub in Hset. unfold SetErrorInContext in Hset. simpl in Hset.
  destruct (fx_slot fx); simplify_eq/=; done.
Qed.

(** The code of a coded error survives [PresentError], but [PresentStatus] drops it when the code
    was put around a status: the status inside is taken and the wrapper with the code is gone. *)
Theorem present_status_drops_code fx code st :
  fx_slot fx <> WrongType -> codeerr.AsCodeErr (st_err st) = None ->
  let err := codeerr.to_error (codeerr.Wrap code (Status_Error st)) in
  presented_code err = code /\
  exists fx', PresentStatus fx err = (fx', Returns (EnrichWithUserFacingMessage st, "")).
Proof.
  intros Hslot Hc err. split; [done|]. unfold PresentStatus.
  assert (Hfrom : FromError err = st) by (by destruct st). rewrite Hfrom.
  assert (Hcode : codeerr.AsCodeErr (Status_Error (EnrichWithUserFacingMessage st)) = None).
  { unfold codeerr.AsCodeErr. simpl. rewrite Enrich_err. exact Hc. }
  rewrite Hcode. unfold SetErrorInContext, Report.
  destruct (shouldSkipSentry _), fx as [[| |o] [] cap lg]; simpl in *; try done; eexists; done.
Qed.

(** A cancelled DNS lookup is mapped to the semantic Canceled, but the HTTP status of that
    semantic is 500: the client of the semantic API sees an internal server error where the
    client of the status API sees 499. *)
Theorem cancelled_dns_lookup_is_500 dns :
  contains dns "operation was canceled" = true ->
  let err := Leaf (LDNSError dns false) in
  e_Semantic (presented err) = SemanticCanceled /\
  CodeFromSemanticError (to_error (presented err)) = (500%N, true) /\
  Code_HTTP (st_code (FromError err)) = 499%N.
Proof.
  intros H err. assert (Hp : presented err = semerr.WrapWithCanceled err "dns lookup was canceled" []).
  { unfold presented, wrapWithSemantic, mapNonSemantic, asDNSError. simpl. by rewrite H. }
  rewrite Hp. split_and!; try done. unfold FromError. simpl. unfold codeFromDNSErr. simpl. by rewrite H.
Qed.
End present.

Definition demo_print (z : Z) : string := pretty z.
#[export] Instance demo_order : MapOrder := { slice_of m := (map_to_list m).*2; slice_of_perm m := Permutation_refl _ }.
Definition demo_fx : effects := MkEffects (Placeholder None) true [] [].

Definition demo_denied : error :=
  Wrap (WCode "ROLES_LIMIT_EXCEEDED") (Wrap (WText "db")
    (to_error (semerr.WrapWithNotFound (Leaf (LText "secret")) "no such role" [kv "role" "admin"]))).

Lemma PresentError_spec_witness :
  printable demo_denied /\
  exists fx' status code text inner shown ff ss,
    coded demo_denied code inner /\ told inner status text shown /\
    is_slice_of (UnwrapFields shown) ff /\
    Forall2 (fun f s => FieldToString demo_print demo_print demo_print demo_print f = Returns s) ff ss /\
    PresentError demo_print demo_print demo_print demo_print demo_fx demo_denied =
      (fx', Returns (status, code, match ss with [] => text | _ => text +:+ "; " +:+ join ", " ss end)).
Proof.
  assert (Hp : printable demo_denied) by (repeat constructor; done). split; [exact Hp|].
  apply (PresentError_spec demo_print demo_print demo_print demo_print demo_fx demo_denied); [done|exact Hp].
Defined.

Example present_denied :
  (PresentError demo_print demo_print demo_print demo_print demo_fx demo_denied).2 =
  Returns (404%N, "ROLES_LIMIT_EXCEEDED", "no such role; role:" +:+ String dquote ("admin" +:+ String dquote "")).
Proof. vm_compute. reflexivity. Qed.

Lemma skip_sentry_is_lost_witness :
  fx_captured (PresentError demo_print demo_print demo_print demo_print demo_fx
    (SkipSentry (to_error (semerr.Internal "boom" [])))).1 = [to_error (semerr.Internal "boom" [])].
Proof.
  refine (proj2 (skip_sentry_is_lost demo_print demo_print demo_print demo_print demo_fx SemanticInternal "boom" [] _ _ _ _)).
  - left.
  - reflexivity.
  - done.
  - constructor.
Defined.

Lemma present_status_drops_code_witness :
  exists fx', PresentStatus demo_fx
    (codeerr.to_error (codeerr.Wrap "ROLES_LIMIT_EXCEEDED" (Status_Error (NewLocked 7 "locked"))))
    = (fx', Returns (NewLocked 7 "locked", "")).
Proof.
  refine (proj2 (present_status_drops_code demo_fx "ROLES_LIMIT_EXCEEDED" (NewLocked 7 "locked") _ _)).
  - done.
  - reflexivity.
Defined.

Lemma cancelled_dns_lookup_is_500_witness :
  CodeFromSemanticError (to_error (presented (Leaf (LDNSError "lookup db: operation was canceled" false))))
    = (500%N, true).
Proof.
  refine (proj1 (proj2 (cancelled_dns_lookup_is_500 "lookup db: operation was canceled" _))).
  vm_compute. reflexivity.
Defined.
