(* ===== verification/Retry.v ===== *)
(** * The retry library

    What the code relies on of github.com/kamilsk/retry: [retry.Do] and [strategy.Limit] are
    parameters, with their documented behaviour as laws. Rdb.v and RestRetries.v use it. *)
From S2P Require Import Prelude Codes GoErrors.

(** A strategy allows or refuses an attempt, by its number and the last error. *)
Definition strategy : Type := nat -> option error -> bool.

Section retry.
Context {W : Type}.

(** An action may fail with an error or panic. *)
Definition action : Type := W -> W * outcome (option error).

(** What [retry.Do] is documented to do: run the action until it succeeds, as long as all the
    strategies allow another attempt; it returns the last error, or that of the context if the
    context ends first, and a panic of the action goes through. [attempts how act n last w r]: from attempt [n] on, in world
    [w] and with [last] as the last error, the call ends with [r]. *)
Inductive attempts (how : strategy) (act : action)
    : nat -> option error -> W -> W * outcome (option error) -> Prop :=
| at_stop n last w : how n last = false -> attempts how act n last w (w, Returns last)
| at_interrupted n last w e : attempts how act n last w (w, Returns (Some e))
| at_success n last w w' :
    how n last = true -> act w = (w', Returns None) -> attempts how act n last w (w', Returns None)
| at_panic n last w w' why :
    how n last = true -> act w = (w', Panics why) -> attempts how act n last w (w', Panics why)
| at_again n last w w' e r :
    how n last = true -> act w = (w', Returns (Some e)) ->
    attempts how act (S n) (Some e) w' r -> attempts how act n last w r.

(** [retry.Do ctx action how...]; [core] is what it shows the strategies of the last error (it
    may unwrap it). *)
Definition retry_Do_type : Type := list strategy -> action -> W -> W * outcome (option error).

Definition allows (core : error -> error) (hows : list strategy) : strategy :=
  fun n last => forallb (fun s => s n (core <$> last)) hows.

Definition retry_law (core : error -> error) (retry_Do : retry_Do_type) : Prop :=
  forall hows act w, attempts (allows core hows) act 0 None w (retry_Do hows act w).

(** The same when it is known how contexts end: a call is only interrupted where [ended] says
    that the context has ended, with its error. *)
Inductive attempts_until (ended : W -> option error) (how : strategy) (act : action)
    : nat -> option error -> W -> W * outcome (option error) -> Prop :=
| au_stop n last w : how n last = false -> attempts_until ended how act n last w (w, Returns last)
| au_interrupted n last w e : ended w = Some e -> attempts_until ended how act n last w (w, Returns (Some e))
| au_success n last w w' :
    how n last = true -> act w = (w', Returns None) -> attempts_until ended how act n last w (w', Returns None)
| au_panic n last w w' why :
    how n last = true -> act w = (w', Panics why) -> attempts_until ended how act n last w (w', Panics why)
| au_again n last w w' e r :
    how n last = true -> act w = (w', Returns (Some e)) ->
    attempts_until ended how act (S n) (Some e) w' r -> attempts_until ended how act n last w r.

Definition retry_law_until (ended : W -> option error) (core : error -> error) (retry_Do : retry_Do_type) (hows : list strategy) : Prop :=
  forall act w, attempts_until ended (allows core hows) act 0 None w (retry_Do hows act w).
End retry.
Arguments retry_Do_type W : clear implicits.

(** [strategy.Limit(n)] allows [n] attempts. *)
Definition limit_law (Limit : nat -> strategy) : Prop := forall n attempt last, Limit n attempt last = (attempt <? n).
Arguments action W : clear implicits.

(** A call that ends with success has just run its action with success, in a world that has what
    the failed attempts keep. *)
Lemma attempts_success_inv {W : Type} (P : W -> Prop) how (act : action W) n last w w' :
  attempts how act n last w (w', Returns None) ->
  (forall w w' e, P w -> act w = (w', Returns (Some e)) -> P w') ->
  (last = None -> how n None = true) -> P w ->
  exists n' last' w0, P w0 /\ how n' last' = true /\ act w0 = (w', Returns None).
Proof.
  intros H Hstep. remember (w', Returns None) as res eqn:Hres.
  induction H as [n last w Hno| |n last w w1 Hyes Hact| |n last w w1 e r Hyes Hact _ IH]; intros Hfirst HP;
    simplify_eq; [|by eauto 8|].
  - rewrite Hfirst in Hno; done.
  - apply IH; [done|done|eauto].
Qed.

Lemma attempts_success {W : Type} how (act : action W) n last w w' :
  attempts how act n last w (w', Returns None) -> (last = None -> how n None = true) ->
  exists n' last' w0, how n' last' = true /\ act w0 = (w', Returns None).
Proof.
  intros H Hfirst. destruct (attempts_success_inv (fun _ => True) _ _ _ _ _ _ H) as (n' & last' & w0 & _ & Hr); eauto.
Qed.

(** The rule of a call: what every failed attempt keeps holds at the last attempt, and at the
    end of a call that ends without one. *)
Lemma attempts_invariant {W : Type} (P : option error -> W -> Prop) how (act : action W) n last w res :
  attempts how act n last w res ->
  (forall n last w w' e, P last w -> how n last = true -> act w = (w', Returns (Some e)) -> P (Some e) w') ->
  P last w ->
  (exists n' last' w0, P last' w0 /\ how n' last' = true /\ act w0 = res) \/
  (exists n' last' err, P last' res.1 /\ res.2 = Returns err /\
     (err = last' /\ how n' last' = false \/ is_Some err)).
Proof.
  intros H Hstep. induction H as [n last w Hno|n last w e|n last w w1 Hyes Hact|n last w w1 why Hyes Hact
                                |n last w w1 e r Hyes Hact _ IH]; intros HP; [..|eauto].
  - right. exists n, last, last. simpl. auto.
  - right. exists n, last, (Some e). simpl. eauto.
  - left. exists n, last, w. auto.
  - left. exists n, last, w. auto.
Qed.

(** A concrete [retry.Do]: at most [fuel] attempts, then it is interrupted. *)
Fixpoint do_fuel {W : Type} (fuel n : nat) (last : option error)
    (how : strategy) (act : action W) (w : W) : W * outcome (option error) :=
  match fuel with
  | 0 => (w, Returns (Some (Leaf LDeadlineExceeded)))
  | S fuel' =>
      if how n last then
        match act w with
        | (w', Returns (Some e)) => do_fuel fuel' (S n) (Some e) how act w'
        | (w', r) => (w', r)
        end
      else (w, Returns last)
  end.

Definition do_retry {W : Type} (fuel : nat) (core : error -> error) : retry_Do_type W :=
  fun hows act w => do_fuel fuel 0 None (allows core hows) act w.

Lemma do_retry_law {W : Type} fuel core : retry_law (W := W) core (do_retry fuel core).
Proof.
  intros hows act w. unfold do_retry. generalize (allows core hows). intros how.
  generalize 0 (@None error). revert w.
  induction fuel as [|fuel IH]; intros w n last; simpl; [constructor|].
  destruct (how n last) eqn:Hh; [|by constructor].
  destruct (act w) as [w' [[e|]|why]] eqn:Ha; [by eapply at_again|by eapply at_success|by eapply at_panic].
Qed.

(** When the strategies refuse attempt [fuel], it is never interrupted. *)
Lemma do_retry_law_until {W : Type} fuel core hows : (forall last, allows core hows fuel last = false) ->
  retry_law_until (W := W) (fun _ => None) core (do_retry (S fuel) core) hows.
Proof.
  intros Hstop act w. unfold do_retry. revert Hstop. generalize (allows core hows). intros how Hstop.
  assert (H : forall k n last w, k + n = fuel -> attempts_until (fun _ => None) how act n last w (do_fuel (S k) n last how act w)); [|by apply H].
  intros k. induction k as [|k IH]; intros n last w0 Hn; cbn [do_fuel].
  - replace n with fuel by lia. rewrite Hstop. by constructor.
  - destruct (how n last) eqn:Hh; [|by constructor].
    destruct (act w0) as [w' [[e|]|why]] eqn:Ha; [|by apply au_success|by apply au_panic].
    eapply au_again; [done|exact Ha|]. apply IH. lia.
Qed.

Definition do_limit (n : nat) : strategy := fun attempt _ => attempt <? n.
Lemma do_limit_law : limit_law do_limit.
Proof. done. Qed.
