(* ===== verification/RestRetries.v ===== *)
(** * Retries of HTTP requests (internal/resttooling/restretries)

    errors.go, network.go (which network errors are retried), response.go, strategies.go and
    client.go ([NewRetryableRoundTripper], [RoundTrip]), with [EnsureGetBodyMethod] of
    http2tooling and [IsTimeout] of resttimeouts. The inner round tripper, the context and the
    retry library are parameters. A run records what was sent, and which responses were
    discarded, in order. *)
From S2P Require Import Prelude Codes GoErrors Clouderr Status Retry.

(** ** Permanent errors (errors.go) *)

Definition errMustStop : leaf := LNew 6 "request must not be retried".
Definition errTemporary : leaf := LNew 7 "retryable rest timeout error".
Definition io_ErrUnexpectedEOF : leaf := LNew 8 "unexpected EOF".

(** [errors.Join] drops nil errors. *)
(* go: internal/resttooling/restretries/errors.go | func NewPermanentError *)
Definition NewPermanentError (err : option error) : error := Join (option_list err ++ [Leaf errMustStop]).

(* go: internal/resttooling/restretries/errors.go | func IsPermanentError *)
Definition IsPermanentError (err : option error) : bool :=
  match err with Some e => Is errMustStop e | None => false end.

(* go: internal/resttooling/resttimeouts/resttimeouts.go | func IsTimeout *)
Definition IsTimeout (err : error) : bool := Is errTemporary err.

(** ** Requests and responses *)

(** A body: what is left to read, and the error reading it ends with, if any. *)
Record Body := MkBody { b_data : string; b_err : option error }.

(** [StatusCode] and the text of a [http.Response]. *)
Record Response := MkResponse { StatusCode : Z; resp_body : string }.

Section request.
Context {W : Type}.

(** The parts of a [http.Request] the code uses; [GetBody] may change the world. *)
Record Request := MkRequest {
  r_Method : string;
  r_Body : option Body;
  r_GetBody : option (W -> W * result error Body)
}.

(** [EnsureGetBodyMethod] changes the request it is given. *)
(* go: internal/resttooling/http2tooling/http2tooling.go | // EnsureGetBodyMethod ensures *)
Definition EnsureGetBodyMethod (originalReq : Request) : Request * option error :=
  match r_Body originalReq, r_GetBody originalReq with
  | Some body, None =>
      match b_err body with
      | Some err => (MkRequest (r_Method originalReq) (Some (MkBody "" (Some err))) None,
                     Some (Wrap (WText "could not read request body") err))
      | None =>
          let buf := b_data body in
          (MkRequest (r_Method originalReq) (Some (MkBody buf None))
             (Some (fun w => (w, Ok (MkBody buf None)))), None)
      end
  | _, _ => (originalReq, None)
  end.

(** ** Which network errors are retried (network.go) *)

(** [ctx.Err()] of the request's context. *)
Context (ctx_err : W -> option error).

(* go: internal/resttooling/restretries/network.go | func checkContext *)
Definition checkContext (w : W) (err : option error) : option error :=
  match ctx_err w with
  | Some ce =>
      if negb (Is LDeadlineExceeded ce) then
        match err with
        | Some e => Some (Wrap (WText "context canceled with underlying error") e)
        | None => Some ce
        end
      else if match err with Some e => Is ctx_Canceled e | None => false end then err else None
  | None => if match err with Some e => Is ctx_Canceled e | None => false end then err else None
  end.

(* go: internal/resttooling/restretries/network.go | // isConnectionResetByPeer signals *)
Definition isConnectionResetByPeer (err : error) : bool := Is ECONNRESET err.
(* go: internal/resttooling/restretries/network.go | // isConnectionRefused checks *)
Definition isConnectionRefused (err : error) : bool := Is ECONNREFUSED err.

(* go: internal/resttooling/restretries/network.go | func IsTemporaryNetworkErr *)
Definition IsTemporaryNetworkErr (err : error) : bool :=
  if isConnectionResetByPeer err then true
  else if isConnectionRefused err then true
  else match As as_timeout err with Some timeout => timeout | None => false end.

(* go: internal/resttooling/restretries/network.go | // isNetworkTimeout knows *)
Definition isNetworkTimeout (err : error) : bool :=
  if contains (error_text err) "request canceled" then true
  else match As as_timeout err with Some timeout => timeout | None => false end.

(* go: internal/resttooling/restretries/network.go | // according to RFC-7230 *)
Definition idempotentHTTPMethods : list string := ["GET"; "HEAD"; "OPTIONS"].
Definition idempotent (method : string) : bool := bool_decide (method ∈ idempotentHTTPMethods).

(** [RetryByNetwork]: nil, a permanent error, or an error that is retried. *)
Definition RetryByNetwork : Type := option error -> W -> Request -> option error.

Definition retry_if_idempotent (err : error) (req : Request) : option error :=
  if idempotent (r_Method req) then Some err else Some (NewPermanentError (Some err)).

(* go: internal/resttooling/restretries/network.go | // StraightforwardNetworkRetry is *)
Definition StraightforwardNetworkRetry : RetryByNetwork := fun err w req =>
  match err with
  | None => None
  | Some err =>
      match checkContext w (Some err) with
      | Some e => Some (NewPermanentError (Some e))
      | None =>
          if IsTimeout err then Some err
          else if isConnectionResetByPeer err then retry_if_idempotent err req
          else if isConnectionRefused err then retry_if_idempotent err req
          else if Is io_ErrUnexpectedEOF err then retry_if_idempotent err req
          else if isNetworkTimeout err then retry_if_idempotent err req
          else Some err
      end
  end.

(* go: internal/resttooling/restretries/network.go | // UnconditionalNetworkRetry retries *)
Definition UnconditionalNetworkRetry : RetryByNetwork := fun err w req =>
  match err with
  | None => None
  | Some err =>
      match checkContext w (Some err) with
      | Some e => Some (NewPermanentError (Some e))
      | None => Some err
      end
  end.

(* go: internal/resttooling/restretries/network.go | // URISlugBasedNetworkRetry is *)
Definition URISlugBasedNetworkRetry (slugs : list string) (getSlug : W -> string)
    (adhereToRESTIdempotency : bool) : RetryByNetwork := fun err w req =>
  match err with
  | None => None
  | Some err =>
      match checkContext w (Some err) with
      | Some e => Some (NewPermanentError (Some e))
      | None =>
          if IsTimeout err then Some err
          else if idempotent (r_Method req) && adhereToRESTIdempotency then Some err
          else if bool_decide (getSlug w ∈ slugs) then Some err
          else if isConnectionRefused err then Some err
          else Some (NewPermanentError (Some err))
      end
  end.

(** ** Which responses are retried (response.go) *)

(** [RetryByResponse]: a nil response is dereferenced. *)
Definition RetryByResponse : Type := option Response -> W -> outcome (option error).

Definition nil_dereference : string := "runtime error: invalid memory address or nil pointer dereference".

(* go: internal/resttooling/restretries/response.go | // RetryByStatusCodeFunc signals *)
Definition RetryByStatusCodeFunc (shouldRetry : Z -> bool) : RetryByResponse := fun response _ =>
  match response with
  | None => Panics nil_dereference
  | Some response =>
      if shouldRetry (StatusCode response) then
        Returns (Some (Wrap (WFields [MkField "status" Int64Type (StatusCode response) "" ""])
                         (Leaf (LText "response status code is retryable"))))
      else Returns None
  end.

(* go: internal/resttooling/restretries/response.go | // RetryByStatusCode signals that *)
Definition RetryByStatusCode (retryableCodes : list Z) : RetryByResponse :=
  RetryByStatusCodeFunc (fun responseCode => existsb (fun code => (code =? responseCode)%Z) retryableCodes).

(* go: internal/resttooling/restretries/response.go | // RepeatRetriableStatusCodes will *)
Definition RepeatRetriableStatusCodes : RetryByResponse := RetryByStatusCode [503; 429; 502; 423]%Z.

(** ** Strategies (strategies.go) *)

(* go: internal/resttooling/restretries/strategies.go | func mustNotRetryTerminalErrorsStrategy *)
Definition mustNotRetryTerminalErrorsStrategy : strategy := fun _ err => negb (IsPermanentError err).

Section strategies.
(** [strategy.Limit], [strategy.Wait] and the back-off with jitter. *)
Context (Limit : nat -> strategy) (Wait : Z -> strategy) (BackoffWithJitter : Z -> strategy).

(* go: internal/resttooling/restretries/strategies.go | // FibonacciBackoffWithJitterRetryStrategy *)
Definition FibonacciBackoffWithJitterRetryStrategy (initialBackoff : Z) (attempts : nat) : list strategy :=
  [Limit attempts; BackoffWithJitter initialBackoff].

(* go: internal/resttooling/restretries/strategies.go | // FixedIntervalRetryStrategy defines *)
Definition FixedIntervalRetryStrategy (attempts : nat) (interval : Z) : list strategy :=
  [Limit attempts; Wait interval].
End strategies.

(** ** The round tripper (client.go) *)

(** A [RoundTrip] method: the world, what it leaves of the request's body, and the result. *)
Definition transport : Type := W -> Request -> W * option Body * outcome (option Response * option error).

(** What [NewRetryableRoundTripper] can tell of a round tripper: whether it retries, and what
    its [Unwrap] returns, if it has one. *)
Inductive RoundTripper :=
| RTPlain (t : transport)
| RTUnwraps (t : transport) (inner : option RoundTripper)
| RTRetryable (t : transport) (inner : RoundTripper).

Definition method_RoundTrip (rt : RoundTripper) : transport :=
  match rt with RTPlain t | RTUnwraps t _ | RTRetryable t _ => t end.

(* go: internal/resttooling/restretries/client.go | // retryableRoundTripper implements retry logic *)
Record retryableRoundTripper := MkRetryable {
  how : list strategy;
  checkResponse : RetryByResponse;
  checkNetworkError : RetryByNetwork;
  rt : RoundTripper
}.

(* go: internal/resttooling/restretries/client.go | func unwrap( *)
Definition unwrap (rt : RoundTripper) : option RoundTripper :=
  match rt with
  | RTPlain _ => None
  | RTUnwraps _ inner => inner
  | RTRetryable _ inner => Some inner
  end.

(* go: internal/resttooling/restretries/client.go | func isRetryableRoundTripper *)
Fixpoint isRetryableRoundTripper (rt : RoundTripper) : bool :=
  match rt with
  | RTRetryable _ _ => true
  | RTPlain _ => false
  | RTUnwraps _ None => false
  | RTUnwraps _ (Some inner) => isRetryableRoundTripper inner
  end.

(* go: internal/resttooling/restretries/client.go | // NewRetryableRoundTripper returns *)
Definition NewRetryableRoundTripper (rt : RoundTripper) (networkRetry : option RetryByNetwork)
    (how : list strategy) (responseShouldBeRetried : option RetryByResponse) : outcome retryableRoundTripper :=
  if isRetryableRoundTripper rt then Panics "cannot nest multiple retryable roundtrippers"
  else match networkRetry, responseShouldBeRetried with
  | None, _ => Panics "must specify network retry"
  | Some _, None => Panics "must specify a response retry"
  | Some networkRetry, Some responseShouldBeRetried =>
      match how with
      | [] => Panics "must specify at least one retry strategy"
      | _ => Returns (MkRetryable (mustNotRetryTerminalErrorsStrategy :: how)
                        responseShouldBeRetried networkRetry rt)
      end
  end.

(** What a run records: a request sent with a body, with the request as the transport leaves
    it, its result and the world after it; a response drained and closed. *)
Inductive event :=
| ESend (sent : option Body) (after : Request) (resp : option Response) (err : option error) (w : W)
| EDiscard (resp : Response).

(** The request, which all attempts share, and the variable [resp]. *)
Record state := MkState {
  s_world : W; s_req : Request; s_resp : option Response; s_events : list event
}.

Definition set_body (b : option Body) (r : Request) : Request := MkRequest (r_Method r) b (r_GetBody r).
Definition discard (resp : option Response) : list event :=
  match resp with Some r => [EDiscard r] | None => [] end.

(** [r.Body, getBodyErr = r.GetBody()]. *)
Definition get_body (s : state) : state * option error :=
  match r_GetBody (s_req s) with
  | None => (s, None)
  | Some GetBody =>
      match GetBody (s_world s) with
      | (w, Ok b) => (MkState w (set_body (Some b) (s_req s)) (s_resp s) (s_events s), None)
      | (w, Err e) => (MkState w (set_body None (s_req s)) (s_resp s) (s_events s), Some e)
      end
  end.

(** What the checks make of an attempt. *)
Definition verdict (rrt : retryableRoundTripper) (after : Request) (resp : option Response)
    (err : option error) (w : W) : outcome (option error) :=
  match checkNetworkError rrt err w after with
  | Some e => Returns (Some e)
  | None => checkResponse rrt resp w
  end.

(** One attempt: the closure [action] of [RoundTrip]. *)
(* go: internal/resttooling/restretries/client.go | action := func | L31-L61 *)
Definition attempt (rrt : retryableRoundTripper) : action state := fun s =>
  match get_body s with
  | (s, Some getBodyErr) => (s, Returns (Some (NewPermanentError (Some getBodyErr))))
  | (s, None) =>
      let ev := s_events s ++ discard (s_resp s) in
      match method_RoundTrip (rt rrt) (s_world s) (s_req s) with
      | (w, rest, Panics why) => (MkState w (set_body rest (s_req s)) (s_resp s) ev, Panics why)
      | (w, rest, Returns (resp, err)) =>
          let after := set_body rest (s_req s) in
          (MkState w after resp (ev ++ [ESend (r_Body (s_req s)) after resp err w]),
           verdict rrt after resp err w)
      end
  end.

Context (retry_Do : retry_Do_type state).

(* go: internal/resttooling/restretries/client.go | // RoundTrip implements http.RoundTripper with retries | L17-L68 *)
Definition RoundTrip (rrt : retryableRoundTripper) (originalReq : Request) (w : W)
    : state * outcome (option Response * option error) :=
  match EnsureGetBodyMethod originalReq with
  | (req, Some err) => (MkState w req None [], Returns (None, Some (NewPermanentError (Some err))))
  | (req, None) =>
      match retry_Do (how rrt) (attempt rrt) (MkState w req None []) with
      | (s, Returns err) => (s, Returns (s_resp s, err))
      | (s, Panics why) => (s, Panics why)
      end
  end.
End request.

(** ** What a run records *)

Section facts.
Context {W : Type}.
Implicit Types (ev : list (event (W := W))) (req : Request (W := W)).

Definition is_send (e : event (W := W)) : bool := match e with ESend _ _ _ _ _ => true | _ => false end.
Definition sends ev : nat := length (List.filter is_send ev).
Definition obtained ev : list Response :=
  omap (fun e => match e with ESend _ _ (Some r) _ _ => Some r | _ => None end) ev.
Definition discarded ev : list Response :=
  omap (fun e => match e with EDiscard r => Some r | _ => None end) ev.

(** The bodies a request may be sent with, when it is given to [RoundTrip] as [req]. *)
Definition body_of req (sent : option Body) : Prop :=
  match r_GetBody req, r_Body req with
  | Some GetBody, _ => exists w w' b, GetBody w = (w', Ok b) /\ sent = Some b
  | None, Some body => b_err body = None /\ sent = Some (MkBody (b_data body) None)
  | None, None => True
  end.
Definition bodies_ok req ev : Prop :=
  Forall (fun e => match e with ESend sent _ _ _ _ => body_of req sent | _ => True end) ev.

(** An error that is not a permanent error. *)
Definition retried (e : error) : Prop := forall es, e = Join es -> Is errMustStop e = false.

(** The checks asked for a retry after a request; [settled]: after every request but the last. *)
Definition judged_again (rrt : retryableRoundTripper) (e : event (W := W)) : Prop :=
  match e with
  | ESend _ after resp err w => exists e, verdict rrt after resp err w = Returns (Some e) /\ retried e
  | EDiscard _ => True
  end.
Definition settled (rrt : retryableRoundTripper) ev : Prop :=
  exists ev1 ev2, ev = ev1 ++ ev2 /\ Forall (judged_again rrt) ev1 /\ sends ev2 <= 1.

Lemma sends_app ev ev' : sends (ev ++ ev') = sends ev + sends ev'.
Proof. unfold sends. by rewrite List.filter_app, length_app. Qed.

Lemma sends_discard (r : option Response) : sends (discard (W := W) r) = 0.
Proof. by destruct r. Qed.

(** What one attempt does to the record. *)
Lemma attempt_cases rrt (s s' : state (W := W)) r :
  attempt rrt s = (s', r) ->
  r_Method (s_req s') = r_Method (s_req s) /\ r_GetBody (s_req s') = r_GetBody (s_req s) /\
  ((exists e, r = Returns (Some (NewPermanentError (Some e))) /\ s_events s' = s_events s /\ s_resp s' = s_resp s) \/
   (exists why, r = Panics why /\ s_events s' = s_events s ++ discard (s_resp s)) \/
   (exists sent after err w,
      s_events s' = s_events s ++ discard (s_resp s) ++ [ESend sent after (s_resp s') err w] /\
      r = verdict rrt after (s_resp s') err w /\ r_Method after = r_Method (s_req s) /\
      match r_GetBody (s_req s) with
      | Some GetBody => exists w w' b, GetBody w = (w', Ok b) /\ sent = Some b
      | None => True
      end)).
Proof.
  unfold attempt, get_body.
  destruct (r_GetBody (s_req s)) as [GetBody|] eqn:Eg; [destruct (GetBody (s_world s)) as [w0 [b|e]] eqn:Eb|]; simpl;
    [|intros H; simplify_eq/=; rewrite Eg; split_and!; eauto 10|];
    (match goal with |- context [method_RoundTrip ?a ?b ?c] =>
       destruct (method_RoundTrip a b c) as [[w1 rest] [[resp err]|why]] eqn:Et end);
    intros H; simplify_eq/=; rewrite ?Eg; (split; [done|]); (split; [done|]); right;
    [right|left; eauto|right|left; eauto];
    eexists _, _, _, _; rewrite <- app_assoc; split_and!; eauto 10.
Qed.

Lemma settled_resent rrt ev pre sent after resp err w post :
  settled rrt ev -> ev = pre ++ ESend sent after resp err w :: post -> 0 < sends post ->
  exists e, verdict rrt after resp err w = Returns (Some e) /\ retried e.
Proof.
  intros (ev1 & ev2 & -> & Hj & Hs) Heq Hpost. apply app_eq_app in Heq as [l [[-> Heq]|[-> ->]]].
  - destruct l as [|e l]; simplify_eq/=.
    + unfold sends in *. simpl in Hs. lia.
    + apply Forall_app in Hj as [_ [Hj _]%Forall_cons]. exact Hj.
  - rewrite sends_app in Hs. unfold sends in *. simpl in Hs. lia.
Qed.

(** What holds of the record at any time; and of the state between attempts, where [more] is
    the condition for another attempt. *)
Record recorded (rrt : retryableRoundTripper) req ev : Prop := {
  c_bodies : bodies_ok req ev;
  c_methods : Forall (fun e => match e with ESend _ after _ _ _ => r_Method after = r_Method req | _ => True end) ev;
  c_settled : settled rrt ev
}.
Record consistent (rrt : retryableRoundTripper) req (more : Prop) (s : state (W := W)) : Prop := {
  c_recorded : recorded rrt req (s_events s);
  c_method : r_Method (s_req s) = r_Method req;
  c_getbody : r_GetBody (s_req s) = r_GetBody (EnsureGetBodyMethod req).1;
  c_responses : obtained (s_events s) = discarded (s_events s) ++ option_list (s_resp s);
  c_judged : more -> Forall (judged_again rrt) (s_events s)
}.

Definition may_retry (last : option error) : Prop := match last with Some e => retried e | None => True end.

Lemma permanent_not_retried err : ~ retried (NewPermanentError err).
Proof.
  intros H. specialize (H _ eq_refl). apply not_true_iff_false in H. apply H.
  apply Is_spec. rewrite nodes_unfold. right. apply list_elem_of_In, in_concat.
  exists [Leaf errMustStop]. split; [|by left].
  apply in_map_iff. exists (Leaf errMustStop). split; [done|]. apply in_or_app. right. by left.
Qed.

Lemma obtained_app ev ev' : obtained (ev ++ ev') = obtained ev ++ obtained ev'.
Proof. apply omap_app. Qed.
Lemma discarded_app ev ev' : discarded (ev ++ ev') = discarded ev ++ discarded ev'.
Proof. apply omap_app. Qed.
Lemma discard_facts r : obtained (discard (W := W) r) = [] /\ discarded (discard (W := W) r) = option_list r.
Proof. by destruct r. Qed.

(** What [EnsureGetBodyMethod] leaves in [GetBody] gives the bodies of [body_of]. *)
Lemma EnsureGetBodyMethod_body req sent :
  (EnsureGetBodyMethod req).2 = None ->
  match r_GetBody (EnsureGetBodyMethod req).1 with
  | Some GetBody => exists w w' b, GetBody w = (w', Ok b) /\ sent = Some b
  | None => True
  end -> body_of req sent.
Proof.
  unfold EnsureGetBodyMethod, body_of. destruct (r_Body req) as [[d [e|]]|] eqn:Eb, (r_GetBody req) eqn:Eg; simpl;
    try (rewrite ?Eg); try done.
  intros _ (w & w' & b & ? & ->). by simplify_eq.
Qed.

Lemma EnsureGetBodyMethod_method req : r_Method (EnsureGetBodyMethod req).1 = r_Method req.
Proof. unfold EnsureGetBodyMethod. by destruct (r_Body req) as [[d [e|]]|], (r_GetBody req). Qed.

Lemma discard_recorded rrt req r :
  bodies_ok req (discard r) /\ Forall (judged_again rrt) (discard r) /\
  Forall (fun e => match e with ESend _ after _ _ _ => r_Method after = r_Method req | _ => True end) (discard (W := W) r).
Proof. destruct r; split_and!; repeat constructor. Qed.

Lemma attempt_consistent rrt req more s s' r :
  (EnsureGetBodyMethod req).2 = None ->
  consistent rrt req more s -> more -> attempt rrt s = (s', r) ->
  recorded rrt req (s_events s') /\
  (forall err, r = Returns err -> consistent rrt req (match err with Some e => retried e | None => False end) s').
Proof.
  intros Hok [[Hb Hm Hs] Hmeth Hget Hresp Hj] Hmore Ha. specialize (Hj Hmore).
  destruct (attempt_cases _ _ _ _ Ha) as (Hm' & Hg' &
    [(e & -> & He & Hr)|[(why & -> & He)|(sent & after & err & w & He & -> & Hafter & Hsent)]]).
  - rewrite He. split; [by split|]. intros err ?. simplify_eq. split; rewrite ?He; [by split|congruence..| |].
    + by rewrite Hr.
    + by intros ?%permanent_not_retried.
  - rewrite He. destruct (discard_recorded rrt req (s_resp s)) as (H1 & H2 & H3).
    split; [split|done]; [by apply Forall_app|by apply Forall_app|].
    exists (s_events s ++ discard (s_resp s)), []. rewrite app_nil_r.
    split_and!; [done|by apply Forall_app|unfold sends; simpl; lia].
  - rewrite app_assoc in He. destruct (discard_recorded rrt req (s_resp s)) as (H1 & H2 & H3).
    assert (recorded rrt req (s_events s')) as Hrec.
    { rewrite He. split.
      - apply Forall_app. split; [by apply Forall_app|]. constructor; [|done].
        apply EnsureGetBodyMethod_body; [done|]. by rewrite <- Hget.
      - apply Forall_app. split; [by apply Forall_app|]. constructor; [|done]. congruence.
      - eexists _, _. split_and!; [done|by apply Forall_app|]. unfold sends. simpl. lia. }
    split; [done|]. intros err' Hv. split; [done|congruence..| |].
    + rewrite He, !obtained_app, !discarded_app. destruct (discard_facts (s_resp s)) as [-> ->].
      rewrite Hresp, !app_nil_r. simpl. f_equal. by destruct (s_resp s').
    + intros Hre. rewrite He. apply Forall_app. split; [by apply Forall_app|]. constructor; [|done].
      destruct err' as [e|]; [|done]. by exists e.
Qed.
End facts.

(** ** Whole runs *)

Section runs.
Context {W : Type}.
Context (retry_Do : retry_Do_type (state (W := W))) (core : error -> error).
Hypothesis Hlaw : retry_law core retry_Do.
(** A join has no single cause to unwrap. *)
Hypothesis Hcore : forall es, core (Join es) = Join es.

(** The first strategy refuses another attempt after a permanent error. *)
Lemma allows_may_retry hows n last :
  allows core (mustNotRetryTerminalErrorsStrategy :: hows) n last = true -> may_retry last.
Proof.
  intros H. destruct last as [e|]; [|done]. intros es ->. unfold allows in H. simpl in H. rewrite Hcore in H.
  apply andb_true_iff in H as [H _]. unfold mustNotRetryTerminalErrorsStrategy in H.
  by apply negb_true_iff in H.
Qed.

Lemma NewRetryableRoundTripper_fields inner networkRetry hows checkResp rrt :
  NewRetryableRoundTripper (W := W) inner networkRetry hows checkResp = Returns rrt ->
  how rrt = mustNotRetryTerminalErrorsStrategy :: hows /\ rt rrt = inner /\ hows <> [] /\
  networkRetry = Some (checkNetworkError rrt) /\ checkResp = Some (checkResponse rrt).
Proof. unfold NewRetryableRoundTripper. intros H. repeat case_hyp H; simplify_eq/=; done. Qed.

Lemma RoundTrip_consistent inner networkRetry hows checkResp rrt req (w : W) s r :
  NewRetryableRoundTripper inner networkRetry hows checkResp = Returns rrt ->
  RoundTrip retry_Do rrt req w = (s, r) ->
  recorded rrt req (s_events s) /\
  (forall resp err, r = Returns (resp, err) -> resp = s_resp s /\
     obtained (s_events s) = discarded (s_events s) ++ option_list resp).
Proof.
  intros (Hhow & _)%NewRetryableRoundTripper_fields Hrun. unfold RoundTrip in Hrun.
  destruct (EnsureGetBodyMethod req) as [req' [err|]] eqn:Ee.
  { simplify_eq/=. split; [|naive_solver]. split; try constructor. exists [], [].
    split_and!; [done|done|unfold sends; simpl; lia]. }
  assert (Hinit : consistent rrt req True (MkState w req' None [])).
  { pose proof (EnsureGetBodyMethod_method req) as Hm. rewrite Ee in Hm.
    split; simpl; [|done|by rewrite Ee|done|constructor]. split; try constructor.
    exists [], []. split_and!; [done|done|unfold sends; simpl; lia]. }
  assert (Hok : (EnsureGetBodyMethod req).2 = None) by (by rewrite Ee).
  pose proof (Hlaw (how rrt) (attempt rrt) (MkState w req' None [])) as Hrun'.
  rewrite Hhow in Hrun, Hrun'.
  apply (attempts_invariant (fun last s => consistent rrt req (may_retry last) s)) in Hrun';
    [| |exact Hinit].
  2: { intros n last s0 s1 e Hc Hyes Ha.
    destruct (attempt_consistent _ _ _ _ _ _ Hok Hc (allows_may_retry _ _ _ Hyes) Ha) as [_ Hnext].
    exact (Hnext _ eq_refl). }
  destruct (retry_Do _ _ _) as [s1 r1].
  destruct Hrun' as [(n & last & s0 & Hc & Hyes & Ha)|(n & last & err & Hc & Hr & _)]; simpl in *.
  - destruct (attempt_consistent _ _ _ _ _ _ Hok Hc (allows_may_retry _ _ _ Hyes) Ha) as [Hrec Hnext].
    destruct r1 as [err|why]; simplify_eq; [|split; [done|naive_solver]].
    split; [done|]. intros resp err0 ?. simplify_eq. split; [done|].
    exact (c_responses _ _ _ _ (Hnext _ eq_refl)).
  - simplify_eq. split; [exact (c_recorded _ _ _ _ Hc)|]. intros resp err0 ?. simplify_eq. split; [done|].
    exact (c_responses _ _ _ _ Hc).
Qed.

(** C10. A request with a method that is not idempotent is not sent again after a network error,
    under [StraightforwardNetworkRetry], if it was cancelled, reset, refused, cut off or timed
    out: the only network errors it is sent again after are timeouts of a single request set by
    resttimeouts, and errors of none of those kinds. *)
Theorem unsafe_request_not_resent (ctx_err : W -> option error) inner hows checkResp rrt req w s r pre sent after resp err w' post :
  NewRetryableRoundTripper inner (Some (StraightforwardNetworkRetry ctx_err)) hows checkResp = Returns rrt ->
  idempotent (r_Method req) = false ->
  RoundTrip retry_Do rrt req w = (s, r) ->
  s_events s = pre ++ ESend sent after resp (Some err) w' :: post -> 0 < sends post ->
  checkContext ctx_err w' (Some err) = None /\
  (IsTimeout err = true \/
   isConnectionResetByPeer err = false /\ isConnectionRefused err = false /\
   Is io_ErrUnexpectedEOF err = false /\ isNetworkTimeout err = false).
Proof.
  intros Hnew Hm Hrun Hev Hpost.
  destruct (RoundTrip_consistent _ _ _ _ _ _ _ _ _ Hnew Hrun) as [Hrec _].
  destruct (settled_resent _ _ _ _ _ _ _ _ _ (c_settled _ _ _ Hrec) Hev Hpost) as (e & Hv & He).
  assert (Ha : r_Method after = r_Method req).
  { pose proof (c_methods _ _ _ Hrec) as H. rewrite Hev in H.
    apply Forall_app in H as [_ [H _]%Forall_cons]. exact H. }
  apply NewRetryableRoundTripper_fields in Hnew as (_ & _ & _ & Hcn & _). simplify_eq.
  unfold verdict in Hv. rewrite <- Hcn in Hv.
  unfold StraightforwardNetworkRetry, retry_if_idempotent in Hv. rewrite Ha, Hm in Hv.
  destruct (checkContext ctx_err w' (Some err)) as [ce|].
  { simplify_eq. by apply permanent_not_retried in He. }
  split; [done|]. destruct (IsTimeout err); [by left|]. right.
  destruct (isConnectionResetByPeer err), (isConnectionRefused err), (Is io_ErrUnexpectedEOF err),
    (isNetworkTimeout err); simplify_eq; try done; by apply permanent_not_retried in He.
Qed.

(** C11. Every attempt sends the whole body: the data of the request's body when it has no
    [GetBody], and a body [GetBody] returned otherwise. Every response obtained is drained and
    closed exactly once, in order, but for the last one when it is returned; it is returned
    also together with an error. *)
Theorem RoundTrip_bodies inner networkRetry hows checkResp rrt req w s r :
  NewRetryableRoundTripper inner networkRetry hows checkResp = Returns rrt ->
  RoundTrip retry_Do rrt req w = (s, r) ->
  (forall pre sent after resp err w' post,
     s_events s = pre ++ ESend sent after resp err w' :: post -> body_of req sent) /\
  (forall resp err, r = Returns (resp, err) ->
     obtained (s_events s) = discarded (s_events s) ++ option_list resp).
Proof.
  intros Hnew Hrun. destruct (RoundTrip_consistent _ _ _ _ _ _ _ _ _ Hnew Hrun) as [Hrec Hret].
  split; [|intros resp err ?; by apply (Hret resp err)].
  intros pre sent after resp err w' post Hev.
  pose proof (c_bodies _ _ _ Hrec) as H. unfold bodies_ok in H. rewrite Hev in H.
  apply Forall_app in H as [_ [H _]%Forall_cons]. exact H.
Qed.

(** With a limit of zero attempts nothing is sent, and the caller gets no response and no
    error, unless the context ends first. *)
Theorem zero_attempts_send_nothing (Limit : nat -> strategy) (Wait : Z -> strategy) interval
    inner networkRetry checkResp rrt req w s r :
  limit_law Limit ->
  NewRetryableRoundTripper inner networkRetry (FixedIntervalRetryStrategy Limit Wait 0 interval) checkResp = Returns rrt ->
  (EnsureGetBodyMethod req).2 = None ->
  RoundTrip retry_Do rrt req w = (s, r) ->
  s_events s = [] /\ (r = Returns (None, None) \/ exists e, r = Returns (None, Some e)).
Proof.
  intros Hlim (Hhow & _)%NewRetryableRoundTripper_fields Hok. unfold RoundTrip.
  destruct (EnsureGetBodyMethod req) as [req' err]. simpl in Hok. subst err.
  pose proof (Hlaw (how rrt) (attempt rrt) (MkState w req' None [])) as Hrun.
  assert (Hstop : forall n last, allows core (how rrt) n last = false).
  { intros n last. rewrite Hhow. unfold allows. simpl. rewrite Hlim. by destruct (mustNotRetryTerminalErrorsStrategy _ _). }
  destruct (retry_Do (how rrt) (attempt rrt) _) as [s1 r1].
  inversion Hrun; subst; try (by rewrite Hstop in *); intros ?; simplify_eq/=; eauto.
Qed.
End runs.

(** ** Concrete runs *)

(** Single-attempt transports: the world is what the following attempts end with. *)
Definition scripted : transport (W := list (option Response * option error)) := fun w req =>
  match w with
  | [] => (w, None, Returns (Some (MkResponse 200 "ok"), None))
  | r :: w' => (w', None, Returns r)
  end.
Definition no_ctx_err {W : Type} : W -> option error := fun _ => None.
Definition post_request : Request (W := list (option Response * option error)) :=
  MkRequest "POST" (Some (MkBody "data" None)) None.

Definition demo_tripper : outcome retryableRoundTripper :=
  NewRetryableRoundTripper (RTPlain scripted) (Some (StraightforwardNetworkRetry no_ctx_err))
    (FixedIntervalRetryStrategy do_limit (fun _ _ _ => true) 3 1000) (Some RepeatRetriableStatusCodes).

Definition demo_run (script : list (option Response * option error)) :=
  match demo_tripper with
  | Returns rrt => let '(s, r) := RoundTrip (do_retry 10 id) rrt post_request script in (s_events s, r)
  | Panics why => ([], Panics why)
  end.

(** A 503 to the end: the response and an error are both returned. *)
Example exhausted_returns_both :
  (demo_run (replicate 9 (Some (MkResponse 503 "busy"), None))).2 =
  Returns (Some (MkResponse 503 "busy"),
    Some (Wrap (WFields [MkField "status" Int64Type 503 "" ""]) (Leaf (LText "response status code is retryable")))).
Proof. vm_compute. reflexivity. Qed.

(** A POST is not sent again after a reset, but it is after a timeout of resttimeouts. *)
Example reset_POST_sent_once : sends (demo_run [(None, Some (Leaf ECONNRESET))]).1 = 1.
Proof. vm_compute. reflexivity. Qed.
Example timed_out_POST_sent_again :
  sends (demo_run [(None, Some (Join [Leaf errTemporary; Leaf LDeadlineExceeded]))]).1 = 2.
Proof. vm_compute. reflexivity. Qed.

Definition demo_rrt : retryableRoundTripper :=
  match demo_tripper with
  | Returns rrt => rrt
  | Panics _ => MkRetryable [] RepeatRetriableStatusCodes (UnconditionalNetworkRetry no_ctx_err) (RTPlain scripted)
  end.
Definition demo_state (script : list (option Response * option error)) :=
  (RoundTrip (do_retry 10 id) demo_rrt post_request script).1.

Lemma unsafe_request_not_resent_witness :
  sends (s_events (demo_state [(None, Some (Leaf (LText "tls: handshake failure")))])) = 2 /\
  checkContext no_ctx_err (W := list (option Response * option error)) [] (Some (Leaf (LText "tls: handshake failure"))) = None.
Proof.
  split; [vm_compute; reflexivity|].
  eapply (unsafe_request_not_resent (do_retry 10 id) id (do_retry_law 10 id) (fun _ => eq_refl) no_ctx_err
    (RTPlain scripted) (FixedIntervalRetryStrategy do_limit (fun _ _ _ => true) 3 1000)
    (Some RepeatRetriableStatusCodes) demo_rrt post_request
    [(None, Some (Leaf (LText "tls: handshake failure")))] _ _ []).
  - reflexivity.
  - vm_compute. reflexivity.
  - vm_compute. reflexivity.
  - simpl. reflexivity.
  - simpl. apply Nat.lt_0_1.
Defined.

Lemma RoundTrip_bodies_witness :
  obtained (s_events (demo_state [(Some (MkResponse 503 "busy"), None)])) = [MkResponse 503 "busy"; MkResponse 200 "ok"] /\
  discarded (s_events (demo_state [(Some (MkResponse 503 "busy"), None)])) = [MkResponse 503 "busy"] /\
  forall pre sent after resp err w' post,
    s_events (demo_state [(Some (MkResponse 503 "busy"), None)]) = pre ++ ESend sent after resp err w' :: post ->
    body_of post_request sent.
Proof.
  split; [vm_compute; reflexivity|]. split; [vm_compute; reflexivity|].
  refine (proj1 (RoundTrip_bodies (do_retry 10 id) id (do_retry_law 10 id) (fun _ => eq_refl)
    (RTPlain scripted) (Some (StraightforwardNetworkRetry no_ctx_err))
    (FixedIntervalRetryStrategy do_limit (fun _ _ _ => true) 3 1000)
    (Some RepeatRetriableStatusCodes) demo_rrt post_request [(Some (MkResponse 503 "busy"), None)] _ _ _ _)).
  - reflexivity.
  - vm_compute. reflexivity.
Defined.

Lemma zero_attempts_send_nothing_witness :
  exists rrt,
    NewRetryableRoundTripper (RTPlain scripted) (Some (StraightforwardNetworkRetry no_ctx_err))
      (FixedIntervalRetryStrategy do_limit (fun _ _ _ => true) 0 1000) (Some RepeatRetriableStatusCodes) = Returns rrt /\
    s_events (RoundTrip (do_retry 10 id) rrt post_request []).1 = [].
Proof.
  eexists. split; [reflexivity|].
  refine (proj1 (zero_attempts_send_nothing (do_retry 10 id) id (do_retry_law 10 id) do_limit (fun _ _ _ => true)
    1000 (RTPlain scripted) (Some (StraightforwardNetworkRetry no_ctx_err)) (Some RepeatRetriableStatusCodes)
    _ post_request [] _ _ do_limit_law eq_refl eq_refl _)).
  apply surjective_pairing.
Defined.
