(* ===== verification/Rdb.v ===== *)
(** * Transactions and retries (internal/rdb)

    rdb.go ([WithTx], [beginTx], the statement methods), retries.go ([sqlxdbWrapper]), tx.go and
    internal/pgretries. The database session, the function run in the transaction and the
    retry library (Retry.v) are parameters. The world [W] is everything they
    may change; a run also records the protocol events in order. *)
From S2P Require Import Prelude Codes GoErrors Status Retry.

(** ** Which errors are retried *)

Definition AdminShutdown : string := "57P01".
Definition OperatorIntervention : string := "57000".
Definition CrashShutdown : string := "57P02".

Definition retryable_sqlstates : list string :=
  [ConnectionFailure; ConnectionException; AdminShutdown; OperatorIntervention; CrashShutdown;
   TooManyConnections; CannotConnectNow].

Section retryable.
(** [is_op_error] finds a [*net.OpError]; [is_connect_error] is
    [errors.Is(err, &pgconn.ConnectError{})]. *)
Context (is_op_error is_connect_error : error -> bool).

(* go: internal/rdb/internal/pgretries/retryable.go | // isRetryable treats *)
Definition isRetryable (err : error) : bool :=
  if Is ctx_Canceled err || Is LDeadlineExceeded err then false
  else match As as_dns err with
  | Some dnserr => negb (contains dnserr "operation was canceled")
  | None =>
      if is_op_error err then true
      else match As as_pg err with
      | Some code => bool_decide (code ∈ retryable_sqlstates)
      | None => is_connect_error err
      end
  end.

(** [wait] is the library's back-off strategy. *)
(* go: internal/rdb/internal/pgretries/pgretries.go | // Strategy for retrying errors *)
Definition Strategy (wait : strategy) : list strategy :=
  [fun attempt err =>
     match attempt with
     | 0 => true
     | S _ => match err with Some e => isRetryable e | None => false end
     end;
   wait].
End retryable.

(* go: internal/rdb/internal/pgretries/pgretries.go | func NoOp *)
Definition NoOp (Limit : nat -> strategy) : list strategy := [Limit 1].

(** ** Statements outside and inside a transaction (retries.go) *)

Section statements.
Context {W A : Type}.
Context (retry_Do : retry_Do_type (W * option A)) (core : error -> error) (retries : list strategy).

(** A statement of the driver, and a method that runs it. *)
Definition stmt : Type := W -> W * (option A * option error).
Definition method : Type := W -> W * outcome (option A * option error).

(** The method pattern of [sqlxdbWrapper]: the closure keeps its result in the variable [r]. *)
Definition with_retries (op : stmt) : method := fun w =>
  match retry_Do retries
          (fun '(w, r) => let '(w', (r', err)) := op w in ((w', r'), Returns err)) (w, None) with
  | ((w', r), Returns None) => (w', Returns (r, None))
  | ((w', r), Returns (Some e)) => (w', Returns (None, Some e))
  | ((w', r), Panics why) => (w', Panics why)
  end.

(** A statement that only has an error: what it scans goes to the world. *)
Definition error_only (op : W -> W * option error) : stmt := fun w => let '(w', err) := op w in (w', (None, err)).
Definition without_retries (op : stmt) : method := fun w => let '(w', r) := op w in (w', Returns r).

(* go: internal/rdb/retries.go | func (o sqlxdbWrapper) QueryContext( *)
Definition sqlxdb_QueryContext : stmt -> method := with_retries.
(* go: internal/rdb/retries.go | func (o sqlxdbWrapper) QueryxContext( *)
Definition sqlxdb_QueryxContext : stmt -> method := with_retries.
(* go: internal/rdb/retries.go | func (o sqlxdbWrapper) ExecContext( *)
Definition sqlxdb_ExecContext : stmt -> method := with_retries.
(* go: internal/rdb/retries.go | func (o sqlxdbWrapper) PrepareNamedContext( *)
Definition sqlxdb_PrepareNamedContext : stmt -> method := with_retries.
(* go: internal/rdb/retries.go | func (o sqlxdbWrapper) SelectContext( *)
Definition sqlxdb_SelectContext (op : W -> W * option error) : method := with_retries (error_only op).
(* go: internal/rdb/retries.go | func (o sqlxdbWrapper) GetContext( *)
Definition sqlxdb_GetContext (op : W -> W * option error) : method := with_retries (error_only op).
(** A row is not retried: its error only shows when it is scanned. *)
(* go: internal/rdb/retries.go | func (o sqlxdbWrapper) QueryRowxContext( *)
Definition sqlxdb_QueryRowxContext : stmt -> method := without_retries.

(** The executor a context selects: its transaction, if it has one, or the session. *)
(* go: internal/rdb/rdb.go | // TxExecutorFromCtx returns *)
Definition TxExecutorFromCtx (tx : option stmt) (session : method) : method :=
  match tx with
  | Some op => without_retries op
  | None => session
  end.

(* go: internal/rdb/rdb.go | func (d *DB) QueryContext( | L317-L330 *)
Definition DB_QueryContext (tx : option stmt) (session : stmt) : method :=
  TxExecutorFromCtx tx (sqlxdb_QueryContext session).
(* go: internal/rdb/rdb.go | func (d *DB) QueryxContext( | L332-L345 *)
Definition DB_QueryxContext (tx : option stmt) (session : stmt) : method :=
  TxExecutorFromCtx tx (sqlxdb_QueryxContext session).
(* go: internal/rdb/rdb.go | func (d *DB) QueryRowxContext( *)
Definition DB_QueryRowxContext (tx : option stmt) (session : stmt) : method :=
  TxExecutorFromCtx tx (sqlxdb_QueryRowxContext session).
(* go: internal/rdb/rdb.go | func (d *DB) ExecContext( | L358-L371 *)
Definition DB_ExecContext (tx : option stmt) (session : stmt) : method :=
  TxExecutorFromCtx tx (sqlxdb_ExecContext session).
(* go: internal/rdb/rdb.go | func (d *DB) SelectContext( | L373-L387 *)
Definition DB_SelectContext (tx : option (W -> W * option error)) (session : W -> W * option error) : method :=
  TxExecutorFromCtx (error_only <$> tx) (sqlxdb_SelectContext session).
(* go: internal/rdb/rdb.go | func (d *DB) GetContext( | L389-L403 *)
Definition DB_GetContext (tx : option (W -> W * option error)) (session : W -> W * option error) : method :=
  TxExecutorFromCtx (error_only <$> tx) (sqlxdb_GetContext session).

(** What [Get] asks of its destination. The type it asks for [sql.Scanner] is that of the
    [reflect.Value], a struct that is no scanner, and not that of the destination. *)
Record destination := Destination {
  dest_is_pointer : bool; dest_is_nil : bool; dest_elem_is_slice : bool; dest_elem_is_scanner : bool
}.
Definition reflect_Value_is_scanner : bool := false.

(** [bind] is the error of [BindNamed]. *)
(* go: internal/rdb/rdb.go | func (d *DB) Get( | L405-L446 *)
Definition DB_Get (name : string) (bind : option error) (dest : destination)
    (tx_select tx_get : option (W -> W * option error)) (select get : W -> W * option error) : method := fun w =>
  match bind with
  | Some err => (w, Returns (None, Some err))
  | None =>
      if negb (dest_is_pointer dest) || dest_is_nil dest then
        (w, Returns (None, Some (Leaf (LText ("dest arg for " +:+ name +:+ "must be a non-nil pointer")))))
      else if dest_elem_is_slice dest && negb reflect_Value_is_scanner then
        TxExecutorFromCtx (error_only <$> tx_select) (sqlxdb_SelectContext select) w
      else TxExecutorFromCtx (error_only <$> tx_get) (sqlxdb_GetContext get) w
  end.

(* go: internal/rdb/rdb.go | func (d *DB) Exec( | L448-L471 *)
Definition DB_Exec (bind : option error) (tx : option stmt) (session : stmt) : method := fun w =>
  match bind with
  | Some err => (w, Returns (None, Some err))
  | None => TxExecutorFromCtx tx (sqlxdb_ExecContext session) w
  end.

(** A session fails again and again, from one world to another, with these errors; every attempt
    was allowed after the errors before it. *)
Inductive failing (session : stmt) : list error -> W -> W -> Prop :=
| failing_none w : failing session [] w w
| failing_more errs w w1 w2 r e : failing session errs w w1 -> allows core retries (length errs) (last errs) = true ->
    session w1 = (w2, (r, Some e)) -> failing session (errs ++ [e]) w w2.

(** [with_retries] under the law of the library, its attempts being those of the session. *)
Lemma with_retries_spec ended (session : stmt) w : retry_law_until (fun p => ended p.1) core retry_Do retries ->
  let '(w', r) := with_retries session w in
  exists errs wk, failing session errs w wk /\
    ((exists v, allows core retries (length errs) (last errs) = true /\ session wk = (w', (v, None)) /\ r = Returns (v, None)) \/
     (allows core retries (length errs) (last errs) = false /\ w' = wk /\ r = Returns (None, last errs)) \/
     (exists e, w' = wk /\ ended wk = Some e /\ r = Returns (None, Some e))).
Proof.
  intros Hlaw. unfold with_retries. match goal with |- context [retry_Do retries ?a (w, None)] => set (act := a) end.
  specialize (Hlaw act (w, None)). revert Hlaw. generalize (retry_Do retries act (w, None)). intros res Hlaw.
  assert (H : forall n lst p res, attempts_until (fun p => ended p.1) (allows core retries) act n lst p res ->
    forall errs, n = length errs -> lst = last errs -> failing session errs w p.1 -> (errs = [] -> p.2 = None) ->
    let '(w', r) := match res with
      | ((w', r), Returns None) => (w', Returns (r, None))
      | ((w', r), Returns (Some e)) => (w', Returns (None, Some e))
      | ((w', r), Panics why) => (w', Panics why) end in
    exists errs wk, failing session errs w wk /\
      ((exists v, allows core retries (length errs) (last errs) = true /\ session wk = (w', (v, None)) /\ r = Returns (v, None)) \/
       (allows core retries (length errs) (last errs) = false /\ w' = wk /\ r = Returns (None, last errs)) \/
       (exists e, w' = wk /\ ended wk = Some e /\ r = Returns (None, Some e)))).
  2: { exact (H _ _ _ _ Hlaw [] eq_refl eq_refl (failing_none _ _) (fun _ => eq_refl)). }
  clear Hlaw res. intros n lst p res. induction 1 as [n lst [w1 r1] Hno|n lst [w1 r1] e He|n lst [w1 r1] [w2 r2] Hyes Hact
    |n lst [w1 r1] [w2 r2] why Hyes Hact|n lst [w1 r1] [w2 r2] e res Hyes Hact _ IH]; intros errs -> -> Hf Hnone; cbn [fst snd] in *.
  - destruct (last errs) as [e|] eqn:El; exists errs, w1; (split; [done|]); right; left; rewrite El; [done|].
    apply last_None in El. by rewrite Hnone.
  - exists errs, w1. split; [done|]. right. right. by exists e.
  - exists errs, w1. split; [done|]. left. exists r2. unfold act in Hact. destruct (session w1) as [w3 [r3 e3]]. by simplify_eq.
  - unfold act in Hact. destruct (session w1) as [w3 [r3 e3]]. by simplify_eq.
  - apply (IH (errs ++ [e])); [rewrite length_app; cbn; lia|by rewrite last_snoc| |by intros [? ?]%app_nil].
    unfold act in Hact. destruct (session w1) as [w3 [r3 e3]] eqn:Es. simplify_eq. by eapply failing_more.
Qed.

(** C9. A statement inside a transaction runs exactly once, on the transaction, whatever it
    returns. Outside, the session runs it again and again, from the world the last attempt left,
    each attempt being one the retry strategies allow after the errors so far, until it ends in
    one of three ways: an attempt succeeds, and its result is returned; the strategies refuse
    another attempt, and the last error is returned without a result (nothing is run and nothing
    returned when they refuse the first one); or the context has ended, and its error is
    returned. (Named statements: those whose parameters can be bound.) The retry library is assumed to keep to its documentation: it interrupts a call
    only when the context has ended. *)
Theorem statement_retries (run : option stmt -> stmt -> method) ended tx session w :
  run ∈ [DB_QueryContext; DB_QueryxContext; DB_ExecContext; DB_Exec None] ->
  retry_law_until (fun p => ended p.1) core retry_Do retries ->
  let '(w', r) := run tx session w in
  match tx with
  | Some op => (w', r) = ((op w).1, Returns (op w).2)
  | None => exists errs wk, failing session errs w wk /\
     ((exists v, allows core retries (length errs) (last errs) = true /\ session wk = (w', (v, None)) /\ r = Returns (v, None)) \/
      (allows core retries (length errs) (last errs) = false /\ w' = wk /\ r = Returns (None, last errs)) \/
      (exists e, w' = wk /\ ended wk = Some e /\ r = Returns (None, Some e)))
  end.
Proof.
  intros Hrun Hlaw. assert (Hm : run tx session w = TxExecutorFromCtx tx (with_retries session) w).
  { repeat (apply elem_of_cons in Hrun as [->|Hrun]; [reflexivity|]). by apply not_elem_of_nil in Hrun. }
  rewrite Hm. destruct tx as [op|]; cbn [TxExecutorFromCtx].
  { unfold without_retries. by destruct (op w). }
  by apply with_retries_spec.
Qed.
End statements.

(** A scanner type of a slice is still selected into, not got. *)
Example scanner_slice_is_selected :
  DB_Get (A := unit) (do_retry 1 id) [] "read" None (Destination true false true true)
    (Some (fun _ => ("selected", None))) (Some (fun _ => ("got", None)))
    (fun w => (w, None)) (fun w => (w, None)) "" = ("selected", Returns (None, None)).
Proof. reflexivity. Qed.

Definition flaky_session (n : nat) : nat * (option string * option error) :=
  (S n, if n <? 2 then (None, Some (Leaf (LPgError "08006" "connection failure"))) else (Some "row", None)).

Definition nine_times : list strategy := Strategy (fun _ => false) (fun _ => false) (do_limit 9).
Lemma nine_times_stop o : allows id nine_times 9 o = false.
Proof. unfold allows, nine_times, Strategy. cbn [forallb]. unfold do_limit. cbn. by rewrite andb_false_r. Qed.
Lemma statement_retries_witness :
  exists errs wk, failing id nine_times flaky_session errs 0 wk /\ flaky_session wk = (3, (Some "row", None)).
Proof.
  pose proof (statement_retries (do_retry 10 id) id nine_times (DB_QueryContext (do_retry 10 id) nine_times) (fun _ => None) None flaky_session 0
    (list_elem_of_here _ _) (do_retry_law_until 9 id nine_times nine_times_stop)) as H.
   destruct (DB_QueryContext (do_retry 10 id) nine_times None flaky_session 0) as [w' r] eqn:E. vm_compute in E. injection E as <- <-.
  destruct H as (errs & wk & Hf & [(v & _ & Hs & Hr)|[(_ & _ & Hr)|(e & _ & He & _)]]); [|discriminate..].
  exists errs, wk. split; [exact Hf|]. rewrite Hs. by injection Hr as <-.
Defined.

(** ** Transactions *)

Definition ErrTxDone : leaf := LNew 4 "sql: transaction has already been committed or rolled back".
Definition errTransactionAborted : leaf := LNew 5 "transaction was aborted".

Section tx.
Context {W C : Type}.

(** What happens, in order: a transaction is begun (or not), the function registers a callback
    and ends, the transaction is committed or rolled back, a callback is called. *)
Inductive event :=
| EBegin (ok : bool)
| ERegister (c : C)
| EPanic
| ECommit (ok : bool)
| ERollback
| ECallback (c : C).

(** The world, the slice [p] of callbacks, and the events so far. *)
Record state := MkState { s_world : W; s_callbacks : list C; s_events : list event }.

Definition emit (e : event) (s : state) : state :=
  MkState (s_world s) (s_callbacks s) (s_events s ++ [e]).
Definition set_world (w : W) (s : state) : state := MkState w (s_callbacks s) (s_events s).

(** [*sql.Tx] operations, [ctx.Err()], the user's function (its world, the callbacks it
    registers, how it ends), and what a callback does, which may be to panic. *)
Context (db_begin db_commit db_rollback : W -> W * option error) (ctx_err : W -> option error).
Context (call : C -> W -> W * outcome unit).
Context (retry_Do : retry_Do_type state) (core : error -> error) (Limit : nat -> strategy) (retries : list strategy).

Definition is_ctx_error (e : error) : bool := Is ctx_Canceled e || Is LDeadlineExceeded e.

(** [found]: the context carries the slice of callbacks, as the contexts [WithTx] makes do. *)
(* go: internal/rdb/rdb.go | // Register a callback function *)
Definition RegisterAfterCommitCallback (found : bool) (c : C) (s : state) : state * outcome unit :=
  if found then (MkState (s_world s) (s_callbacks s ++ [c]) (s_events s ++ [ERegister c]), Returns tt)
  else (s, Panics "afterCommitCallbacks array not found in context").

(** The user's function: the callbacks it registers, then how it ends. *)
Definition run_F (F : W -> W * list C * outcome (option error)) (s : state) : state * outcome (option error) :=
  let '(w', regs, r) := F (s_world s) in
  let s' := fold_left (fun s c => (RegisterAfterCommitCallback true c s).1) regs (set_world w' s) in
  (match r with Panics _ => emit EPanic s' | Returns _ => s' end, r).

(** The loop over the callbacks: a panic of one ends it. *)
Fixpoint run_callbacks (cs : list C) (s : state) : state * outcome (option error) :=
  match cs with
  | [] => (s, Returns None)
  | c :: cs' =>
      let '(w', r) := call c (s_world s) in
      let s := emit (ECallback c) (set_world w' s) in
      match r with Panics why => (s, Panics why) | Returns _ => run_callbacks cs' s end
  end.

(** [finishTx(err)]. *)
(* go: internal/rdb/rdb.go | // it commits or rollbacks initialized transaction | L219-L288 *)
Definition finishTx (err : option error) (s : state) : state * outcome (option error) :=
  match err with
  | Some err =>
      if is_ctx_error err then (s, Returns (Some err))
      else
        let '(w', e) := db_rollback (s_world s) in
        let s' := emit ERollback (set_world w' s) in
        let failed (e : error) := Wrap (WText "failed to rollback transaction after error") (Join [err; e]) in
        (s', Returns (Some (match e with
                   | None => err
                   | Some e =>
                       if negb (Is ErrTxDone e) then failed e
                       else match ctx_err w' with Some ce => failed ce | None => err end
                   end)))
  | None =>
      let '(w', e) := db_commit (s_world s) in
      match e with
      | Some e =>
          let s' := emit (ECommit false) (set_world w' s) in
          (s', Returns (Some
             (if is_ctx_error e then Wrap (WText "failed to commit transaction") e
              else if Is ErrTxDone e then
                match ctx_err w' with
                | Some ce => Wrap (WText "failed to commit transaction") ce
                | None => Wrap (WText "failed to commit rollbacked transaction (timeout)")
                            (Join [e; Leaf errTransactionAborted])
                end
              else Wrap (WText "failed to commit transaction") (Join [e; Leaf errTransactionAborted]))))
      | None =>
          let s' := emit (ECommit true) (set_world w' s) in
          run_callbacks (s_callbacks s') s'
      end
  end.

(** [beginTx]: an error, or a transaction that [finishTx] ends. *)
(* go: internal/rdb/rdb.go | func (d *DB) beginTx *)
Definition beginTx (s : state) : state * (option error + (option error -> state -> state * outcome (option error))) :=
  match db_begin (s_world s) with
  | (w', Some e) => (emit (EBegin false) (set_world w' s), inl (Some (Wrap (WText "could not open transaction") e)))
  | (w', None) => (emit (EBegin true) (set_world w' s), inr finishTx)
  end.

(** One attempt: the closure [WithTx] hands to [retry.Do]. *)
(* go: internal/rdb/rdb.go | err := retry.Do(ctx, func | L193-L206 *)
Definition tx_attempt (F : W -> W * list C * outcome (option error)) : action state := fun s =>
  match beginTx s with
  | (s', inl err) => (s', Returns err)
  | (s', inr finish) =>
      match run_F F s' with
      | (s'', Panics why) => (s'', Panics why)
      | (s'', Returns err) => finish err s''
      end
  end.

Definition errTxExists : error := Leaf (LText "failed to begin new tx, tx already exists").

(** [active] says whether the context already carries a transaction. *)
(* go: internal/rdb/rdb.go | func (d *DB) WithTx( *)
Definition WithTx (active ContinueActive FIsIdempotent : bool)
    (F : W -> W * list C * outcome (option error)) (s : state) : state * outcome (option error) :=
  if active && negb ContinueActive then (s, Returns (Some errTxExists))
  else if active && ContinueActive then run_F F s
  else
    let s0 := MkState (s_world s) [] (s_events s) in
    let how := if FIsIdempotent then retries else NoOp Limit in
    retry_Do how (tx_attempt F) s0.

(** ** What the events say *)

Definition committed (ev : list event) : nat :=
  length (omap (fun e => match e with ECommit true => Some tt | _ => None end) ev).
Definition called (ev : list event) : list C :=
  omap (fun e => match e with ECallback c => Some c | _ => None end) ev.
Definition registered (ev : list event) : list C :=
  omap (fun e => match e with ERegister c => Some c | _ => None end) ev.
Definition begun (ev : list event) : nat :=
  length (omap (fun e => match e with EBegin _ => Some tt | _ => None end) ev).

(** The events of one attempt and how it ends, when [before] is already registered. *)
Inductive attempt_shape (before : list C) : list event -> outcome (option error) -> Prop :=
| sh_nobegin e : attempt_shape before [EBegin false] (Returns (Some e))
| sh_panic regs why : attempt_shape before (EBegin true :: map ERegister regs ++ [EPanic]) (Panics why)
| sh_cancelled regs e :
    is_ctx_error e = true -> attempt_shape before (EBegin true :: map ERegister regs ++ []) (Returns (Some e))
| sh_rollback regs e : attempt_shape before (EBegin true :: map ERegister regs ++ [ERollback]) (Returns (Some e))
| sh_commit_failed regs e :
    attempt_shape before (EBegin true :: map ERegister regs ++ [ECommit false]) (Returns (Some e))
| sh_commit regs :
    attempt_shape before
      (EBegin true :: map ERegister regs ++ ECommit true :: map ECallback (before ++ regs)) (Returns None)
| sh_callback_panic regs cs c rest w why : before ++ regs = cs ++ c :: rest -> (call c w).2 = Panics why ->
    attempt_shape before
      (EBegin true :: map ERegister regs ++ ECommit true :: map ECallback (cs ++ [c])) (Panics why).

(** The events of all the attempts. *)
Inductive run_shape (before : list C) : list event -> outcome (option error) -> Prop :=
| rs_stopped e : run_shape before [] (Returns (Some e))
| rs_last ev r : attempt_shape before ev r -> run_shape before ev r
| rs_again ev ev' e r :
    attempt_shape before ev (Returns (Some e)) -> run_shape (before ++ registered ev) ev' r ->
    run_shape before (ev ++ ev') r.

Lemma registered_app ev ev' : registered (ev ++ ev') = registered ev ++ registered ev'.
Proof. apply omap_app. Qed.
Lemma called_app ev ev' : called (ev ++ ev') = called ev ++ called ev'.
Proof. apply omap_app. Qed.
Lemma committed_app ev ev' : committed (ev ++ ev') = committed ev + committed ev'.
Proof. unfold committed. by rewrite omap_app, length_app. Qed.
Lemma begun_app ev ev' : begun (ev ++ ev') = begun ev + begun ev'.
Proof. unfold begun. by rewrite omap_app, length_app. Qed.

Lemma registers_facts regs :
  registered (map ERegister regs) = regs /\ called (map ERegister regs) = [] /\
  committed (map ERegister regs) = 0 /\ begun (map ERegister regs) = 0.
Proof. induction regs as [|c regs (H1 & H2 & H3 & H4)]; [done|]. split_and!; [|done..]. cbn. by f_equal. Qed.

Lemma callbacks_facts cs :
  registered (map ECallback cs) = [] /\ called (map ECallback cs) = cs /\
  committed (map ECallback cs) = 0 /\ begun (map ECallback cs) = 0.
Proof. induction cs as [|c cs (H1 & H2 & H3 & H4)]; [done|]. split_and!; [done| |done..]. cbn. by f_equal. Qed.

Lemma run_F_spec F s :
  exists regs w' r, run_F F s =
    (MkState w' (s_callbacks s ++ regs)
       (s_events s ++ map ERegister regs ++ match r with Panics _ => [EPanic] | Returns _ => [] end), r).
Proof.
  unfold run_F. destruct (F (s_world s)) as [[w' regs] r]. exists regs, w', r.
  assert (Hf : forall regs s0, fold_left (fun s c => (RegisterAfterCommitCallback true c s).1) regs s0 =
            MkState (s_world s0) (s_callbacks s0 ++ regs) (s_events s0 ++ map ERegister regs)).
  { induction regs0 as [|c regs0 IH]; intros [w0 p0 e0]; simpl; [by rewrite !app_nil_r|].
    rewrite IH. simpl. by rewrite <- !app_assoc. }
  rewrite Hf. destruct r; simpl; [by rewrite app_nil_r|]. unfold emit. simpl. by rewrite <- app_assoc.
Qed.

Lemma run_callbacks_spec cs s :
  exists w' r done, run_callbacks cs s = (MkState w' (s_callbacks s) (s_events s ++ map ECallback done), r) /\
    match r with
    | Returns err => err = None /\ done = cs
    | Panics why => exists cs1 c rest w, cs = cs1 ++ c :: rest /\ done = cs1 ++ [c] /\ (call c w).2 = Panics why
    end.
Proof.
  revert s. induction cs as [|c cs IH]; intros s; simpl.
  { exists (s_world s), (Returns None), []. rewrite app_nil_r. by destruct s. }
  destruct (call c (s_world s)) as [w1 [[]|why]] eqn:E.
  - destruct (IH (emit (ECallback c) (set_world w1 s))) as (w' & r & done & -> & Hr). exists w', r, (c :: done). simpl.
    rewrite <- app_assoc. split; [done|]. destruct r as [err|why]; [naive_solver|].
    destruct Hr as (cs1 & c1 & rest & w & -> & -> & Hw). by exists (c :: cs1), c1, rest, w.
  - exists w1, (Panics why), [c]. split; [done|]. exists [], c, cs, (s_world s). by rewrite E.
Qed.

Lemma tx_attempt_shape F s s' r :
  tx_attempt F s = (s', r) ->
  exists ev, s_events s' = s_events s ++ ev /\ s_callbacks s' = s_callbacks s ++ registered ev /\
    attempt_shape (s_callbacks s) ev r.
Proof.
  unfold tx_attempt, beginTx. destruct (db_begin (s_world s)) as [w0 [e|]].
  { intros H. simplify_eq/=. exists [EBegin false]. rewrite app_nil_r. split_and!; try done. constructor. }
  destruct (run_F_spec F (emit (EBegin true) (set_world w0 s))) as (regs & w1 & r1 & ->). simpl.
  destruct (registers_facts regs) as (Hr & _ & _ & _).
  destruct r1 as [err|why]; [destruct err as [err|]; simpl|].
  - destruct (is_ctx_error err) eqn:Ec.
    { intros H. simplify_eq/=. exists (EBegin true :: map ERegister regs ++ []).
      split_and!; [by rewrite <- app_assoc| |by constructor].
      change (registered (EBegin true :: ?l)) with (registered l). by rewrite app_nil_r, Hr. }
    destruct (db_rollback w1) as [w2 e2]. simpl. intros H. simplify_eq/=.
    exists (EBegin true :: map ERegister regs ++ [ERollback]).
    split_and!; [by rewrite <- !app_assoc| |by constructor].
    change (registered (EBegin true :: ?l)) with (registered l).
    by rewrite registered_app, Hr, app_nil_r.
  - destruct (db_commit w1) as [w2 [e2|]]; simpl.
    { intros H. simplify_eq/=. exists (EBegin true :: map ERegister regs ++ [ECommit false]).
      split_and!; [by rewrite <- !app_assoc| |by constructor].
      change (registered (EBegin true :: ?l)) with (registered l).
      by rewrite registered_app, Hr, app_nil_r. }
    match goal with |- context [run_callbacks ?cs ?s0] =>
      destruct (run_callbacks_spec cs s0) as (w3 & r2 & done & -> & Hd) end.
    intros H. simplify_eq/=.
    exists (EBegin true :: map ERegister regs ++ ECommit true :: map ECallback done).
    split_and!; [by rewrite <- !app_assoc| |].
    + change (registered (EBegin true :: ?l)) with (registered l). rewrite registered_app, Hr.
      change (registered (ECommit true :: ?l)) with (registered l).
      destruct (callbacks_facts done) as (-> & _). by rewrite app_nil_r.
    + destruct r as [err|why]; [destruct Hd as [-> ->]; constructor|].
      destruct Hd as (cs & c & rest & w & Hcs & -> & Hw). by eapply sh_callback_panic.
  - intros H. simplify_eq/=. exists (EBegin true :: map ERegister regs ++ [EPanic]).
    split_and!; [by rewrite <- app_assoc| |by constructor].
    change (registered (EBegin true :: ?l)) with (registered l).
    by rewrite registered_app, Hr, app_nil_r.
Qed.

Lemma attempts_run_shape F how n last s res :
  attempts how (tx_attempt F) n last s res -> (last = None -> how n None = true) ->
  exists ev, s_events res.1 = s_events s ++ ev /\ run_shape (s_callbacks s) ev res.2.
Proof.
  induction 1 as [n last s Hno|n last s e|n last s s' Hyes Hact|n last s s' why Hyes Hact
                 |n last s s' e r Hyes Hact _ IH]; intros Hfirst; simpl.
  - exists []. rewrite app_nil_r. split; [done|]. destruct last; [constructor|].
    rewrite Hfirst in Hno; done.
  - exists []. rewrite app_nil_r. split; [done|constructor].
  - destruct (tx_attempt_shape _ _ _ _ Hact) as (ev & He & _ & Hs). exists ev. split; [done|by constructor].
  - destruct (tx_attempt_shape _ _ _ _ Hact) as (ev & He & _ & Hs). exists ev. split; [done|by constructor].
  - destruct (tx_attempt_shape _ _ _ _ Hact) as (ev & He & Hc & Hs).
    destruct IH as (ev' & He' & Hs'); [done|]. exists (ev ++ ev').
    rewrite He', He, app_assoc. split; [done|]. rewrite Hc in Hs'. by eapply rs_again.
Qed.

(** What the protocol says of the events of a call and its end: after success, one commit, last but
    for the callbacks, all of them in order; after an error, no commit and no callback; after a
    panic, either it is that of the function and nothing was committed, or that of a callback, when
    the commit and the callbacks up to that one have happened. *)
Definition protocol (before : list C) (ev : list event) (r : outcome (option error)) : Prop :=
  match r with
  | Returns None => exists pre, ev = pre ++ ECommit true :: map ECallback (before ++ registered pre) /\
      committed pre = 0 /\ called pre = []
  | Returns (Some _) => committed ev = 0 /\ called ev = []
  | Panics why =>
      (exists pre regs, ev = pre ++ EBegin true :: map ERegister regs ++ [EPanic] /\ committed ev = 0 /\ called ev = []) \/
      (exists pre cs c rest w, ev = pre ++ ECommit true :: map ECallback (cs ++ [c]) /\ committed pre = 0 /\ called pre = [] /\
         before ++ registered pre = cs ++ c :: rest /\ (call c w).2 = Panics why)
  end.

Lemma attempt_shape_facts before ev r :
  attempt_shape before ev r -> begun ev = 1 /\ protocol before ev r.
Proof.
  destruct 1; try (destruct (registers_facts regs) as (Hr & Hc & Hm & Hb)); unfold protocol;
    change (EBegin true :: ?l) with ([EBegin true] ++ l);
    rewrite ?begun_app, ?committed_app, ?called_app, ?Hb, ?Hm, ?Hc; try (by split_and!).
  - split; [done|]. left. by exists [], regs.
  - split.
    + change (ECommit true :: ?l) with ([ECommit true] ++ l). rewrite begun_app.
      by destruct (callbacks_facts (before ++ regs)) as (_ & _ & _ & ->).
    + exists ([EBegin true] ++ map ERegister regs).
      rewrite registered_app, committed_app, called_app, Hr, Hm, Hc. split_and!; [|done..].
      by rewrite <- app_assoc.
  - split.
    + change (ECommit true :: ?l) with ([ECommit true] ++ l). rewrite begun_app.
      by destruct (callbacks_facts (cs ++ [c])) as (_ & _ & _ & ->).
    + right. exists ([EBegin true] ++ map ERegister regs), cs, c, rest, w.
      rewrite registered_app, committed_app, called_app, Hr, Hm, Hc. split_and!; try done.
Qed.

(** A failed attempt before others does not change what the protocol says. *)
Lemma protocol_again before ev ev' r : committed ev = 0 -> called ev = [] ->
  protocol (before ++ registered ev) ev' r -> protocol before (ev ++ ev') r.
Proof.
  intros Hm Hc. unfold protocol. destruct r as [[e|]|why].
  - rewrite committed_app, called_app, Hm, Hc. done.
  - intros (pre & -> & Hm' & Hc'). exists (ev ++ pre).
    rewrite committed_app, called_app, registered_app, Hm, Hc, Hm', Hc'. split_and!; [|done..]. by rewrite <- !app_assoc.
  - intros [(pre & regs & -> & Hm' & Hc')|(pre & cs & c & rest & w & -> & Hm' & Hc' & Hreg & Hw)].
    + left. exists (ev ++ pre), regs. rewrite committed_app, called_app, Hm, Hc, app_assoc. done.
    + right. exists (ev ++ pre), cs, c, rest, w.
      rewrite committed_app, called_app, registered_app, Hm, Hc, Hm', Hc', <- Hreg, !app_assoc. done.
Qed.

Lemma run_shape_facts before ev r : run_shape before ev r -> protocol before ev r.
Proof.
  induction 1 as [e|before ev r Hs|before ev ev' e r Hs _ IH]; [done|by apply attempt_shape_facts in Hs as [_ ?]|].
  apply attempt_shape_facts in Hs as (_ & Hm & Hc). by apply protocol_again.
Qed.

Lemma attempts_noop F n last s res :
  limit_law Limit -> attempts (allows core (NoOp Limit)) (tx_attempt F) n last s res ->
  exists ev, s_events res.1 = s_events s ++ ev /\ begun ev <= (if n <? 1 then 1 else 0).
Proof.
  intros Hlim. assert (Hone_only : forall n l, allows core (NoOp Limit) n l = (n <? 1)).
  { intros n0 l. unfold allows. simpl. by rewrite Hlim, andb_true_r. }
  assert (Hone : forall n s s' r, (n <? 1) = true -> tx_attempt F s = (s', r) ->
            exists ev, s_events s' = s_events s ++ ev /\ begun ev <= (if n <? 1 then 1 else 0)).
  { intros n0 s0 s' r Hyes Hact. destruct (tx_attempt_shape _ _ _ _ Hact) as (ev & He & _ & Hs).
    apply attempt_shape_facts in Hs as [Hb _]. exists ev. split; [done|].
    rewrite Hyes. lia. }
  intros H. induction H as [n last s Hno|n last s e|n last s s' Hyes Hact|n last s s' why Hyes Hact
                 |n last s s' e r Hyes Hact _ IH]; try rewrite Hone_only in Hyes; simpl in *; try (by eapply Hone; eauto).
  - exists []. rewrite app_nil_r. split; [done|]. cbn. lia.
  - exists []. rewrite app_nil_r. split; [done|]. cbn. lia.
  - assert (n = 0) as -> by (apply Nat.ltb_lt in Hyes; lia).
    destruct (Hone 0 s s' _ eq_refl Hact) as (ev & He & Hb).
    destruct IH as (ev' & He' & Hb').
    exists (ev ++ ev'). rewrite He', He, app_assoc. split; [done|]. rewrite begun_app. simpl in *. lia.
Qed.

Section runs.
Hypothesis Hlaw : retry_law core retry_Do.
Hypothesis Hlim : limit_law Limit.
Hypothesis Hfirst : allows core retries 0 None = true.

Lemma WithTx_run ContinueActive FIsIdempotent F s :
  s_events s = [] ->
  let res := WithTx false ContinueActive FIsIdempotent F s in
  run_shape [] (s_events res.1) res.2 /\ (FIsIdempotent = false -> begun (s_events res.1) <= 1).
Proof.
  destruct s as [w0 p0 e0]. simpl. intros ->. unfold WithTx. simpl.
  pose proof (Hlaw (if FIsIdempotent then retries else NoOp Limit) (tx_attempt F)
                (MkState w0 [] [])) as H.
  split.
  - destruct (attempts_run_shape _ _ _ _ _ _ H) as (ev & He & Hsh).
    { intros _. destruct FIsIdempotent; [done|]. unfold allows. simpl. by rewrite Hlim. }
    simpl in He. rewrite He. exact Hsh.
  - intros ->. destruct (attempts_noop _ _ _ _ _ Hlim H) as (ev & He & Hb). simpl in He. rewrite He. exact Hb.
Qed.


(** A panic of the user's function leaves its transaction open: it goes through [WithTx], and the
    last thing that happens is the panic, after the begin of its transaction and the
    registrations, with neither a rollback nor a commit of that transaction. *)
Theorem panic_leaves_transaction_open ContinueActive FIsIdempotent F s s' why : (forall c w, exists w', call c w = (w', Returns tt)) ->
  s_events s = [] -> WithTx false ContinueActive FIsIdempotent F s = (s', Panics why) ->
  exists pre regs, s_events s' = pre ++ EBegin true :: map ERegister regs ++ [EPanic] /\ committed (s_events s') = 0.
Proof.
  intros Hcall Hs E. destruct (WithTx_run ContinueActive FIsIdempotent F s Hs) as [Hsh _].
  rewrite E in Hsh. apply run_shape_facts in Hsh as [(pre & regs & ? & ? & _)|(pre & cs & c & rest & w & _ & _ & _ & _ & Hw)]; [by exists pre, regs|].
  destruct (Hcall c w) as [w' Hc]. by rewrite Hc in Hw.
Qed.
End runs.
End tx.

(** ** A run that shows the callbacks of an aborted attempt *)

(** The world counts attempts; the first one fails with a serialisable connection error. Every
    attempt registers one callback named by its number. *)
Definition demo_begin (n : nat) : nat * option error := (n, None).
Definition demo_F (n : nat) : nat * list nat * outcome (option error) :=
  (S n, [n], Returns (if n =? 0 then Some (Leaf (LPgError "08006" "connection failure")) else None)).
Definition demo_retries : list strategy := Strategy (fun _ => false) (fun _ => false) (fun _ _ => true).

Definition demo_WithTx : state * outcome (option error) :=
  WithTx demo_begin demo_begin demo_begin (fun _ => None) (fun _ n => (n, Returns tt))
    (do_retry 5 id) do_limit demo_retries false false true demo_F (MkState 0 [] []).


Lemma panic_leaves_transaction_open_witness :
  exists pre regs,
    s_events (WithTx demo_begin demo_begin demo_begin (fun _ => None) (fun (_ : nat) n => (n, Returns tt))
      (do_retry 5 id) do_limit demo_retries false false false
      (fun n => (n, [n], Panics "boom")) (MkState 0 [] [])).1
    = pre ++ EBegin true :: map ERegister regs ++ [EPanic] /\
    committed (s_events (WithTx demo_begin demo_begin demo_begin (fun _ => None) (fun (_ : nat) n => (n, Returns tt))
      (do_retry 5 id) do_limit demo_retries false false false
      (fun n => (n, [n], Panics "boom")) (MkState 0 [] [])).1) = 0.
Proof.
  refine (panic_leaves_transaction_open demo_begin demo_begin demo_begin (fun _ => None) (fun _ n => (n, Returns tt))
    (do_retry 5 id) id do_limit demo_retries (do_retry_law 5 id) do_limit_law eq_refl
    false false (fun n => (n, [n], Panics "boom")) (MkState 0 [] []) _ "boom" _ eq_refl _); [by intros; eexists|].
  vm_compute. reflexivity.
Defined.
