(* ===== verification/Schedule.v ===== *)
(** * Scheduled jobs (internal/scheduletooling)

    cfg.go ([Config]), job.go ([InProcessJob], the latch on concurrent executions), worker
    (the middleware a job runs in, and its metrics), scheduletooling.go and update.go ([Scheduler], its
    tick that follows configuration changes). The scheduler of github.com/reugn/go-quartz is
    the class [Quartz]; configuration sources, job functions and clocks are parameters. *)
From S2P Require Import Prelude Codes GoErrors Semerr.

(** ** Configuration (cfg.go) *)

(** [Interval] and [Timeout] are durations in nanoseconds. *)
(* go: internal/scheduletooling/cfg.go | // Config declares *)
Record Config := MkConfig {
  UniqueName : string;
  Enabled : bool;
  Interval : Z;
  CronExpression : string;
  RunOnStart : bool;
  Timeout : Z
}.
#[export] Instance Config_eq_dec : EqDecision Config.
Proof. solve_decision. Defined.

Definition zero_Config : Config := MkConfig "" false 0 "" false 0.

(** Triggers of quartz; [NilTrigger] is what [NewCronTrigger] returns with an error. *)
Inductive trigger := SimpleTrigger (interval : Z) | CronTrigger (expression : string) | NilTrigger.
#[export] Instance trigger_eq_dec : EqDecision trigger.
Proof. solve_decision. Defined.

Section config.
(** The error of [quartz.NewCronTrigger]. *)
Context (cron_error : string -> option error).

Definition NewCronTrigger (expression : string) : trigger * option error :=
  match cron_error expression with
  | None => (CronTrigger expression, None)
  | Some e => (NilTrigger, Some e)
  end.

(* go: internal/scheduletooling/cfg.go | func (c *Config) Validate *)
Definition Validate (c : Config) : option error :=
  if Enabled c && (bool_decide (Interval c = 0%Z) && bool_decide (CronExpression c = "")) then
    Some (Leaf (LText "interval or cron_expression must be set"))
  else if bool_decide (CronExpression c <> "") then
    match NewCronTrigger (CronExpression c) with
    | (_, Some err) =>
        Some (Wrap (WText "error validating cron expression")
                (Wrap (WFields [StringField "cron_expression" (CronExpression c)]) err))
    | (_, None) => None
    end
  else None.

(* go: internal/scheduletooling/cfg.go | // GetTriggerValidated returns *)
Definition GetTriggerValidated (c : Config) : trigger :=
  if bool_decide (CronExpression c <> "") then (NewCronTrigger (CronExpression c)).1
  else SimpleTrigger (Interval c).

(** [InProcessJob.GetConfig], given what [getFreshConfig] returns. *)
(* go: internal/scheduletooling/job.go | func (j *InProcessJob) GetConfig *)
Definition GetConfig (fresh : Config * option error) : Config * option error :=
  match fresh with
  | (_, Some err) => (zero_Config, Some err)
  | (cfg, None) =>
      match Validate cfg with
      | Some err => (zero_Config, Some err)
      | None => (cfg, None)
      end
  end.

Lemma GetConfig_trigger fresh cfg :
  GetConfig fresh = (cfg, None) ->
  GetTriggerValidated cfg <> NilTrigger /\
  (Enabled cfg = true -> GetTriggerValidated cfg <> SimpleTrigger 0).
Proof.
  unfold GetConfig. destruct fresh as [c [e|]]; [done|]. destruct (Validate c) as [e|] eqn:Ev; [done|].
  intros H. simplify_eq. unfold Validate, GetTriggerValidated, NewCronTrigger in *.
  destruct (Enabled cfg), (decide (Interval cfg = 0%Z)), (decide (CronExpression cfg = "")),
    (cron_error (CronExpression cfg)); simplify_eq/=;
    repeat (first [rewrite bool_decide_true in * by done|rewrite bool_decide_false in * by (try done; naive_solver)]);
    simplify_eq/=; split; naive_solver.
Qed.
End config.

(** ** Running a job (job.go and worker) *)

(** The metrics of one job: the gauge of jobs in progress, the runs, the skips, the statuses
    of finished runs in order, and the panics handed to the report to Sentry, which may skip them. *)
Record metrics := MkMetrics {
  m_in_progress : Z;
  m_runs : nat;
  m_skips : nat;
  m_statuses : list string;
  m_reports : nat
}.

(* go: internal/scheduletooling/worker/collector.go | func errToStatus *)
Definition errToStatus (err : option error) : string :=
  match err with
  | None => "success"
  | Some e => if Is LDeadlineExceeded e then "timeout" else if Is ctx_Canceled e then "canceled" else "unhandled"
  end.

(* go: internal/scheduletooling/worker/collector.go | func (w *wellKnownMetricsCollector) JobStarted | L44-L49 *)
Definition JobStarted (m : metrics) : metrics :=
  MkMetrics (m_in_progress m + 1) (S (m_runs m)) (m_skips m) (m_statuses m) (m_reports m).

(** The function [JobStarted] returns, when there is no panic. *)
(* go: internal/scheduletooling/worker/collector.go | return func(err error) | L49-L59 *)
Definition finished (err : option error) (m : metrics) : metrics :=
  MkMetrics (m_in_progress m - 1) (m_runs m) (m_skips m) (m_statuses m ++ [errToStatus err]) (m_reports m).

(* go: internal/scheduletooling/worker/collector.go | func (w *wellKnownMetricsCollector) SkippedJob *)
Definition SkippedJob (m : metrics) : metrics :=
  MkMetrics (m_in_progress m) (m_runs m) (S (m_skips m)) (m_statuses m) (m_reports m).

(** [handlePanic] recovers the panic, logs it and reports it. *)
(* go: internal/scheduletooling/worker/middlewarerecovery.go | func (j *Middleware) handlePanic *)
Definition handlePanic (panicked : bool) (m : metrics) : metrics :=
  if panicked then MkMetrics (m_in_progress m) (m_runs m) (m_skips m) (m_statuses m) (S (m_reports m)) else m.

(** [Middleware.Execute] after the job's function ended with [r] after [runtime]: [finished] is
    deferred only once the function has returned, and a recovered panic makes the result nil. *)
(* go: internal/scheduletooling/worker/middleware.go | func (j *Middleware) Execute | L49-L65 *)
Definition Middleware_Execute_end (runtime : Z) (r : outcome (option error)) (m : metrics) : metrics * option error :=
  match r with
  | Panics _ => (handlePanic true m, None)
  | Returns err =>
      (handlePanic false (finished err m),
       match err with
       | Some e => Some (Wrap (WFields [MkField "duration" DurationType runtime "" ""])
                           (Wrap (WText "job finished with error") e))
       | None => None
       end)
  end.

(** An [InProcessJob] while it runs. [active] counts the executions between taking the latch
    and leaving it, [reported] the reports of a count that is not positive. *)
Record job_state := MkJobState {
  runningCount : Z;
  j_metrics : metrics;
  active : nat;
  reported : nat
}.

(** The two functions [Execute] updates the count with, under its lock. *)
Definition take_latch (maxRunningCount count : Z) : bool * Z :=
  if (count <? maxRunningCount)%Z then (true, count + 1)%Z else (false, count).
(* go: internal/scheduletooling/job.go | p := recover() | L81-L99 *)
Definition leave_latch (count : Z) : Z * bool :=
  if (count <=? 0)%Z then (0%Z, true) else ((count - 1)%Z, false).

Definition skip_error (maxRunningCount : Z) : error :=
  Wrap (WFields [MkField "max_running" Int64Type maxRunningCount "" ""])
    (Leaf (LText "job skipped because max concurrent running jobs reached")).

(** [Execute] up to the call of the job's function: it runs, or returns an error. *)
(* go: internal/scheduletooling/job.go | func (j *InProcessJob) Execute( | L60-L79 *)
Definition Execute_begin (maxRunningCount : Z) (s : job_state) : job_state * option error :=
  match take_latch maxRunningCount (runningCount s) with
  | (true, count) => (MkJobState count (JobStarted (j_metrics s)) (S (active s)) (reported s), None)
  | (false, count) =>
      (MkJobState count (SkippedJob (j_metrics s)) (active s) (reported s), Some (skip_error maxRunningCount))
  end.

(** [Execute] from the end of the job's function. *)
(* go: internal/scheduletooling/job.go | func (j *InProcessJob) Execute( | L80-L103 *)
Definition Execute_end (runtime : Z) (r : outcome (option error)) (s : job_state) : job_state * option error :=
  let '(m, err) := Middleware_Execute_end runtime r (j_metrics s) in
  let '(count, rep) := leave_latch (runningCount s) in
  (MkJobState count m (pred (active s)) (if rep then S (reported s) else reported s), err).

(** Calls of [Execute] by any number of goroutines: a call begins, or one that runs ends. *)
Inductive job_step (maxRunningCount : Z) : job_state -> outcome (option error) + option error -> job_state -> Prop :=
| step_begin s s' err :
    Execute_begin maxRunningCount s = (s', err) -> job_step maxRunningCount s (inr err) s'
| step_end runtime r s s' err :
    0 < active s -> Execute_end runtime r s = (s', err) -> job_step maxRunningCount s (inl r) s'.

Definition metrics0 : metrics := MkMetrics 0 0 0 [] 0.
Definition job0 : job_state := MkJobState 0 metrics0 0 0.

(** Executions, from a new job: what happened, in order. *)
Inductive job_run (maxRunningCount : Z) : list (outcome (option error) + option error) -> job_state -> Prop :=
| run_new : job_run maxRunningCount [] job0
| run_step tr s l s' :
    job_run maxRunningCount tr s -> job_step maxRunningCount s l s' -> job_run maxRunningCount (tr ++ [l]) s'.

Definition panics (tr : list (outcome (option error) + option error)) : nat :=
  length (List.filter (fun l => match l with inl (Panics _) => true | _ => false end) tr).

Lemma panics_snoc tr l :
  panics (tr ++ [l]) = panics tr + match l with inl (Panics _) => 1 | _ => 0 end.
Proof. unfold panics. rewrite List.filter_app, length_app. by destruct l as [[|]|]. Qed.

Lemma job_run_latch maxRunningCount tr s :
  job_run maxRunningCount tr s ->
  runningCount s = Z.of_nat (active s) /\ reported s = 0 /\ (Z.of_nat (active s) <= Z.max 0 maxRunningCount)%Z /\
  m_in_progress (j_metrics s) = (Z.of_nat (active s) + Z.of_nat (panics tr))%Z.
Proof.
  induction 1 as [|tr s l s' _ (Hc & Hr & Hm & Hg) Hs]; [split_and!; simpl; try done; lia|]. rewrite panics_snoc.
  destruct Hs as [s s' err He|runtime r s s' err Ha He].
  - unfold Execute_begin, take_latch in He. destruct (Z.ltb_spec (runningCount s) maxRunningCount); simplify_eq/=;
      split_and!; try done; lia.
  - unfold Execute_end, Middleware_Execute_end, leave_latch in He.
    destruct (Z.leb_spec (runningCount s) 0); [lia|].
    destruct r as [e|why]; simplify_eq/=; split_and!; try done; lia.
Qed.

(** C13. However many goroutines call [Execute], and however the job's function ends (also by a
    panic), no more than the maximum run at once, the count is exact, so the branch for a count
    that is not positive is never taken, and a call is skipped, with an error, exactly when the
    maximum is running; a panic is swallowed: the call returns nil. *)
Theorem Execute_latch maxRunningCount tr s :
  job_run maxRunningCount tr s ->
  (Z.of_nat (active s) <= Z.max 0 maxRunningCount)%Z /\ runningCount s = Z.of_nat (active s) /\ reported s = 0 /\
  (forall s' err, Execute_begin maxRunningCount s = (s', err) ->
     err = (if (Z.of_nat (active s) <? maxRunningCount)%Z then None else Some (skip_error maxRunningCount))) /\
  (forall runtime why, (Execute_end runtime (Panics why) s).2 = None).
Proof.
  intros (Hc & Hr & Hm & _)%job_run_latch. split_and!; try done.
  - intros s' err. unfold Execute_begin, take_latch. rewrite Hc.
    destruct (Z.ltb_spec (Z.of_nat (active s)) maxRunningCount); naive_solver.
  - intros runtime why. unfold Execute_end. simpl. by destruct (leave_latch _).
Qed.

(** The gauge of jobs in progress never comes down after a panic: at any time it is the number
    of running executions plus the number of all panics so far. *)
Theorem in_progress_counts_panics maxRunningCount tr s :
  job_run maxRunningCount tr s ->
  m_in_progress (j_metrics s) = (Z.of_nat (active s) + Z.of_nat (panics tr))%Z.
Proof. by intros (_ & _ & _ & H)%job_run_latch. Qed.

Lemma demo_job_run : exists s, job_run 1 [inr None; inr (Some (skip_error 1)); inl (Panics "boom")] s /\ active s = 0.
Proof.
  eexists. split.
  - eapply (run_step _ [_; _]); [eapply (run_step _ [_]); [eapply (run_step _ []); [apply run_new|]|]|].
    + by apply step_begin.
    + by apply step_begin.
    + eapply (step_end _ 0%Z (Panics "boom") _ _ None); [simpl; lia|reflexivity].
  - reflexivity.
Defined.

Lemma Execute_latch_witness : exists s, active s = 0 /\ runningCount s = 0%Z /\ reported s = 0.
Proof.
  destruct demo_job_run as (s & Hr & Ha). exists s.
  destruct (Execute_latch 1 _ s Hr) as (_ & Hc & Hrep & _). rewrite Ha in Hc. split_and!; [exact Ha|exact Hc|exact Hrep].
Defined.

Lemma in_progress_counts_panics_witness : exists s, active s = 0 /\ m_in_progress (j_metrics s) = 1%Z.
Proof.
  destruct demo_job_run as (s & Hr & Ha). exists s. split; [exact Ha|].
  rewrite (in_progress_counts_panics 1 _ s Hr). rewrite Ha. reflexivity.
Defined.

(** ** The scheduler (scheduletooling.go, update.go) *)

(** A job is a pointer, [j_id], to an object with a key; its trigger can change. *)
Record Job := MkJob { j_id : nat; j_key : string }.
#[export] Instance Job_eq_dec : EqDecision Job.
Proof. solve_decision. Defined.

Definition ErrJobNotFound : leaf := LNew 9 "job not found".

(** A [quartz.Scheduler]: [scheduled] are the keys of the jobs it executes; [ScheduleJob] asks
    the job's trigger for its first fire time. *)
Class Quartz (Q : Type) := {
  q_Start : Q -> Q;
  DeleteJob : string -> Q -> Q * option error;
  ScheduleJob : string -> trigger -> Q -> Q * option error;
  scheduled : Q -> string -> bool
}.
Class QuartzLaws (Q : Type) `{Quartz Q} := {
  start_scheduled : forall q k, scheduled (q_Start q) k = scheduled q k;
  delete_scheduled : forall key q k,
    scheduled (DeleteJob key q).1 k = (if decide (k = key) then false else scheduled q k);
  schedule_scheduled : forall key t q k, scheduled q key = false ->
    scheduled (ScheduleJob key t q).1 k =
      (if decide (k = key) then match (ScheduleJob key t q).2 with None => true | Some _ => false end
       else scheduled q k)
}.

Section scheduler.
Context {Q : Type} `{Quartz Q}.
Context (cron_error : string -> option error).

(** [oldConfigs] is the variable of the closure [updateSchedules] returns; [triggers] the
    trigger each job object holds; [refused] are the keys of the jobs that quartz did not accept
    when it was last asked to schedule them, as the log says. *)
(* go: internal/scheduletooling/scheduletooling.go | // Scheduler is a wrapper *)
Record Scheduler := MkScheduler {
  collectedJobsToSchedule : list Job;
  jobs : gmap string Job;
  isRunning : bool;
  started : bool;
  oldConfigs : gmap string Config;
  triggers : gmap nat trigger;
  quartz : Q;
  refused : gset string
}.

(** What a job's source of configurations returns at some moment. *)
Definition Source : Type := Job -> Config * option error.

Definition job_config (fresh : Source) (job : Job) : Config * option error := GetConfig cron_error (fresh job).
Definition job_trigger (s : Scheduler) (job : Job) : trigger := default NilTrigger (triggers s !! j_id job).

(* go: internal/scheduletooling/scheduletooling.go | func NewScheduler *)
Definition NewScheduler (triggers : gmap nat trigger) (q : Q) : Scheduler :=
  MkScheduler [] ∅ false false ∅ triggers q ∅.

(* go: internal/scheduletooling/scheduletooling.go | func (s *Scheduler) Add *)
Definition Add (fresh : Source) (job : Job) (s : Scheduler) : Scheduler * option error :=
  if isRunning s then (s, Some (Leaf (LText "already running, can't add job")))
  else match job_config fresh job with
  | (_, Some err) => (s, Some err)
  | (cfg, None) =>
      if negb (Enabled cfg) then (s, None)
      else (MkScheduler (collectedJobsToSchedule s ++ [job]) (jobs s) (isRunning s) (started s)
              (oldConfigs s) (triggers s) (quartz s) (refused s), None)
  end.

Definition set_quartz (q : Q) (s : Scheduler) : Scheduler :=
  MkScheduler (collectedJobsToSchedule s) (jobs s) (isRunning s) (started s) (oldConfigs s) (triggers s) q (refused s).

(** Errors are logged. *)
(* go: internal/scheduletooling/scheduletooling.go | // stopScheduling removes *)
Definition stopScheduling (job : Job) (s : Scheduler) : Scheduler :=
  set_quartz (DeleteJob (j_key job) (quartz s)).1 s.

(* go: internal/scheduletooling/scheduletooling.go | // scheduleSilently starts *)
Definition scheduleSilently (job : Job) (s : Scheduler) : Scheduler :=
  let s := stopScheduling job s in
  let '(q, err) := ScheduleJob (j_key job) (job_trigger s job) (quartz s) in
  MkScheduler (collectedJobsToSchedule s) (<[j_key job := job]> (jobs s)) (isRunning s) (started s)
    (oldConfigs s) (triggers s) q
    match err with Some _ => {[j_key job]} ∪ refused s | None => refused s ∖ {[j_key job]} end.

(* go: internal/scheduletooling/scheduletooling.go | func (s *Scheduler) scheduleCollectedJobs *)
Definition scheduleCollectedJobs (s : Scheduler) : Scheduler :=
  fold_left (fun s job => scheduleSilently job s) (collectedJobsToSchedule s) s.

(** [job.SetTrigger], and the assignment to [oldConfigs]. *)
(* go: internal/scheduletooling/job.go | func (j *InProcessJob) SetTrigger *)
Definition SetTrigger (job : Job) (t : trigger) (s : Scheduler) : Scheduler :=
  MkScheduler (collectedJobsToSchedule s) (jobs s) (isRunning s) (started s)
    (oldConfigs s) (<[j_id job := t]> (triggers s)) (quartz s) (refused s).
Definition remember (job : Job) (c : Config) (s : Scheduler) : Scheduler :=
  MkScheduler (collectedJobsToSchedule s) (jobs s) (isRunning s) (started s)
    (<[j_key job := c]> (oldConfigs s)) (triggers s) (quartz s) (refused s).

(** [updateSchedules] before it returns its closure; [None]: the process exits. *)
(* go: internal/scheduletooling/update.go | // updateSchedules returns | L17-L31 *)
Fixpoint updateSchedules_init (fresh : Source) (js : list Job) (s : Scheduler) : option Scheduler :=
  match js with
  | [] => Some s
  | job :: js' =>
      match job_config fresh job with
      | (_, Some _) => None
      | (newConfig, None) => updateSchedules_init fresh js' (remember job newConfig s)
      end
  end.

(* go: internal/scheduletooling/scheduletooling.go | // Start scheduling. *)
Definition Start (fresh : Source) (s : Scheduler) : option Scheduler :=
  if started s then Some s
  else
    let s := MkScheduler (collectedJobsToSchedule s) (jobs s) true true ∅ (triggers s) (quartz s) (refused s) in
    s ← updateSchedules_init fresh (map snd (map_to_list (jobs s))) s;
    Some (scheduleCollectedJobs (set_quartz (q_Start (quartz s)) s)).

(** The body of the loop over the jobs, at a tick. A configuration error is only logged. *)
(* go: internal/scheduletooling/update.go | for _, job := range s.jobs { | L49-L128 *)
Definition update_job (fresh : Source) (s : Scheduler) (job : Job) : Scheduler :=
  let newConfig := (job_config fresh job).1 in
  let oldConfig := oldConfigs s !! j_key job in
  let s := remember job newConfig s in
  match oldConfig with
  | None =>
      let s := SetTrigger job (GetTriggerValidated cron_error newConfig) s in
      if Enabled newConfig then scheduleSilently job s else stopScheduling job s
  | Some oldConfig =>
      if decide (oldConfig = newConfig) then s
      else if negb (Bool.eqb (Enabled oldConfig) (Enabled newConfig)) then
        if Enabled newConfig then scheduleSilently job s else stopScheduling job s
      else if negb (bool_decide (Interval oldConfig = Interval newConfig)) then
        SetTrigger job (GetTriggerValidated cron_error newConfig) s
      else s
  end.

(** A tick: the jobs in the order the map is ranged over. *)
(* go: internal/scheduletooling/update.go | case <-timer.C: | L33-L133 *)
Definition tick (fresh : Source) (order : list Job) (s : Scheduler) : Scheduler :=
  fold_left (update_job fresh) order s.

Definition is_order (s : Scheduler) (order : list Job) : Prop := order ≡ₚ map snd (map_to_list (jobs s)).
End scheduler.
Arguments Scheduler Q : clear implicits.

(** *** What a tick does *)

Section ticks.
Context {Q : Type} `{QuartzLaws Q}.
Context (cron_error : string -> option error).
Implicit Types (s : Scheduler Q) (job : Job).

Notation upd := (update_job cron_error).
Notation tck := (tick cron_error).
Definition cfg_of (fresh : Source) job : Config := (job_config cron_error fresh job).1.

(** Quartz accepted the job when it was last asked. *)
Definition accepted s (k : string) : bool := negb (bool_decide (k ∈ refused s)).

Lemma scheduleSilently_scheduled job s k : let s' := scheduleSilently job s in
  scheduled (quartz s') k = (if decide (k = j_key job) then accepted s' k else scheduled (quartz s) k) /\
  (k <> j_key job -> accepted s' k = accepted s k).
Proof.
  clear cron_error.
  assert (Hd : scheduled (DeleteJob (j_key job) (quartz s)).1 (j_key job) = false)
    by (rewrite delete_scheduled; by rewrite decide_True).
  unfold scheduleSilently, accepted. cbn zeta.
  pose proof (schedule_scheduled (j_key job) (job_trigger (stopScheduling job s) job) (DeleteJob (j_key job) (quartz s)).1 k Hd) as Hs.
  change (quartz (stopScheduling job s)) with (DeleteJob (j_key job) (quartz s)).1.
  destruct (ScheduleJob _ _ _) as [q err]. cbn [fst snd] in Hs. cbn [quartz refused]. rewrite Hs, delete_scheduled. split.
  - case_decide as Hk; [subst k|done]. destruct err; symmetry; [rewrite bool_decide_true by set_solver|rewrite bool_decide_false by set_solver]; done.
  - intros Hk. f_equal. apply bool_decide_ext. destruct err; cbn; set_solver.
Qed.

Lemma scheduleSilently_rest job s : let s' := scheduleSilently job s in
  jobs s' = <[j_key job := job]> (jobs s) /\ isRunning s' = isRunning s /\ started s' = started s /\
  collectedJobsToSchedule s' = collectedJobsToSchedule s /\ oldConfigs s' = oldConfigs s /\ triggers s' = triggers s.
Proof. unfold scheduleSilently. cbn zeta. by destruct (ScheduleJob _ _ _). Qed.

Lemma stopScheduling_scheduled job s k :
  scheduled (quartz (stopScheduling job s)) k = (if decide (k = j_key job) then false else scheduled (quartz s) k).
Proof. apply delete_scheduled. Qed.

(** The trigger a job has after a tick. *)
Definition next_trigger (old : option Config) (new : Config) (t : option trigger) : option trigger :=
  match old with
  | None => Some (GetTriggerValidated cron_error new)
  | Some old =>
      if decide (old = new) then t
      else if negb (Bool.eqb (Enabled old) (Enabled new)) then t
      else if negb (bool_decide (Interval old = Interval new)) then Some (GetTriggerValidated cron_error new)
      else t
  end.

Record update_effect (fresh : Source) s job s' : Prop := {
  ue_jobs : jobs s' = jobs s;
  ue_flags : isRunning s' = isRunning s /\ started s' = started s /\ collectedJobsToSchedule s' = collectedJobsToSchedule s;
  ue_configs : oldConfigs s' = <[j_key job := cfg_of fresh job]> (oldConfigs s);
  ue_trigger : triggers s' !! j_id job = next_trigger (oldConfigs s !! j_key job) (cfg_of fresh job) (triggers s !! j_id job);
  ue_triggers : forall i, i <> j_id job -> triggers s' !! i = triggers s !! i;
  ue_scheduled : (forall c, oldConfigs s !! j_key job = Some c -> scheduled (quartz s) (j_key job) = Enabled c && accepted s (j_key job)) ->
    scheduled (quartz s') (j_key job) = Enabled (cfg_of fresh job) && accepted s' (j_key job);
  ue_others : forall k, k <> j_key job -> scheduled (quartz s') k = scheduled (quartz s) k /\ accepted s' k = accepted s k
}.

(** Turning a job on or off touches nothing else. *)
Lemma on_off_facts (b : bool) s job :
  jobs s !! j_key job = Some job ->
  let s' := if b then scheduleSilently job s else stopScheduling job s in
  jobs s' = jobs s /\ isRunning s' = isRunning s /\ started s' = started s /\
  collectedJobsToSchedule s' = collectedJobsToSchedule s /\ oldConfigs s' = oldConfigs s /\
  triggers s' = triggers s /\
  forall k, scheduled (quartz s') k = (if decide (k = j_key job) then b && accepted s' k else scheduled (quartz s) k) /\
    (k <> j_key job -> accepted s' k = accepted s k).
Proof.
  intros Hj. destruct b; cbn zeta.
  - destruct (scheduleSilently_rest job s) as (-> & -> & -> & -> & -> & ->). split_and!; try done; [by apply insert_id|].
    intros k. apply scheduleSilently_scheduled.
  - split_and!; try done. intros k. split; [|done]. rewrite stopScheduling_scheduled. by case_decide.
Qed.

Lemma update_job_effect fresh s job :
  jobs s !! j_key job = Some job -> update_effect fresh s job (upd fresh s job).
Proof.
  intros Hj. unfold update_job. fold (cfg_of fresh job).
  destruct (oldConfigs s !! j_key job) as [old|] eqn:Eo.
  - destruct (decide (old = (cfg_of fresh job))) as [Heq|Hne].
    { split; simpl; try done.
      - rewrite Eo. unfold next_trigger. by rewrite decide_True.
      - intros Hs. rewrite (Hs old Eo). by rewrite Heq. }
    destruct (negb (Bool.eqb (Enabled old) (Enabled (cfg_of fresh job)))) eqn:He.
    { destruct (on_off_facts (Enabled (cfg_of fresh job)) (remember job (cfg_of fresh job) s) job Hj) as (H1 & H2 & H3 & H4 & H5 & H6 & H7).
      cbv zeta in *. split; try done.
      - rewrite H6, Eo. unfold next_trigger. by rewrite decide_False, He by done.
      - intros i _. by rewrite H6.
      - intros _. rewrite (proj1 (H7 _)). by rewrite decide_True.
      - intros k Hk. destruct (H7 k) as [-> H8]. rewrite decide_False by done. by auto. }
    apply negb_false_iff, Bool.eqb_prop in He.
    assert (Hn : next_trigger (Some old) (cfg_of fresh job) (triggers s !! j_id job) =
              if negb (bool_decide (Interval old = Interval (cfg_of fresh job))) then Some (GetTriggerValidated cron_error (cfg_of fresh job))
              else triggers s !! j_id job).
    { unfold next_trigger. rewrite decide_False by done. by rewrite He, Bool.eqb_reflx. }
    rewrite <- Eo in Hn. destruct (negb (bool_decide (Interval old = Interval (cfg_of fresh job)))); split; simpl; try done;
      try (rewrite Hn; by rewrite ?lookup_insert_eq);
      try (intros Hs; etransitivity; [exact (Hs old Eo)|by rewrite He]).
    intros i Hid. by rewrite lookup_insert_ne.
  - set (s1 := SetTrigger job (GetTriggerValidated cron_error (cfg_of fresh job)) (remember job (cfg_of fresh job) s)).
    destruct (on_off_facts (Enabled (cfg_of fresh job)) s1 job Hj) as (H1 & H2 & H3 & H4 & H5 & H6 & H7).
    cbv zeta in *. split; try done.
    + rewrite H6, Eo. simpl. by rewrite lookup_insert_eq.
    + intros i Hid. rewrite H6. simpl. by rewrite lookup_insert_ne.
    + intros _. rewrite (proj1 (H7 _)). by rewrite decide_True.
    + intros k Hk. destruct (H7 k) as [-> H8]. rewrite decide_False by done. by auto.
Qed.

(** The jobs are stored under their keys; a job is executed by quartz as its last known
    configuration says. *)
Definition well_keyed s : Prop := forall k job, jobs s !! k = Some job -> j_key job = k.
Definition agrees s : Prop := forall k job c,
  jobs s !! k = Some job -> oldConfigs s !! k = Some c -> scheduled (quartz s) k = Enabled c && accepted s k.

Lemma tick_frame fresh order s :
  (forall job, job ∈ order -> jobs s !! j_key job = Some job) ->
  let s' := tck fresh order s in
  jobs s' = jobs s /\ isRunning s' = isRunning s /\ started s' = started s /\
  collectedJobsToSchedule s' = collectedJobsToSchedule s /\
  (forall k, k ∉ map j_key order -> oldConfigs s' !! k = oldConfigs s !! k /\ scheduled (quartz s') k = scheduled (quartz s) k /\
     accepted s' k = accepted s k) /\
  (forall i, i ∉ map j_id order -> triggers s' !! i = triggers s !! i).
Proof.
  revert s. induction order as [|job order IH]; intros s Hin; [by split_and!|].
  assert (Hj : jobs s !! j_key job = Some job) by (apply Hin; left).
  destruct (update_job_effect fresh s job Hj) as [H1 (H2 & H3 & H4) H5 H6 H7 H8 H9].
  destruct (IH (upd fresh s job)) as (I1 & I2 & I3 & I4 & I5 & I6).
  { intros job' Hjob'. rewrite H1. apply Hin. by right. }
  unfold tick in *. simpl in *. split_and!; try congruence.
  - intros k [Hk1 Hk2]%not_elem_of_cons. destruct (I5 k Hk2) as (-> & -> & ->).
    split; [|by apply H9]. rewrite H5. by rewrite lookup_insert_ne.
  - intros i [Hi1 Hi2]%not_elem_of_cons. rewrite I6 by done. by apply H7.
Qed.

(** After a tick every job it went over runs as its new configuration says, in any order. *)
Lemma tick_jobs fresh order s job :
  (forall job, job ∈ order -> jobs s !! j_key job = Some job) -> NoDup (map j_key order) ->
  agrees s -> job ∈ order ->
  let s' := tck fresh order s in
  oldConfigs s' !! j_key job = Some (cfg_of fresh job) /\ scheduled (quartz s') (j_key job) = Enabled (cfg_of fresh job) && accepted s' (j_key job).
Proof.
  revert s. induction order as [|j order IH]; intros s Hin Hnd Hag Hjob; [by apply not_elem_of_nil in Hjob|].
  simpl in Hnd. apply NoDup_cons in Hnd as [Hj Hnd].
  assert (Hlj : jobs s !! j_key j = Some j) by (apply Hin; left).
  pose proof (update_job_effect fresh s j Hlj) as He.
  assert (Hin' : forall job, job ∈ order -> jobs (upd fresh s j) !! j_key job = Some job).
  { intros j' Hj'. rewrite (ue_jobs _ _ _ _ He). apply Hin. by right. }
  unfold tick in *. simpl. apply elem_of_cons in Hjob as [->|Hjob].
  - destruct (tick_frame fresh order (upd fresh s j) Hin') as (_ & _ & _ & _ & Hf & _).
    destruct (Hf _ Hj) as (Hc & Hs & Hac). unfold tick in *. rewrite Hc, Hs, Hac, (ue_configs _ _ _ _ He), lookup_insert_eq.
    split; [done|]. apply (ue_scheduled _ _ _ _ He). intros c Hc'. by eapply Hag.
  - apply IH; try done. intros k j' c Hk Hc. rewrite (ue_jobs _ _ _ _ He) in Hk.
    rewrite (ue_configs _ _ _ _ He) in Hc. destruct (decide (k = j_key j)) as [->|Hne].
    + rewrite lookup_insert_eq in Hc. simplify_eq. apply (ue_scheduled _ _ _ _ He). intros c Hc. by eapply Hag.
    + rewrite lookup_insert_ne in Hc by done. destruct (ue_others _ _ _ _ He k Hne) as [-> ->]. by eapply Hag.
Qed.
End ticks.

(** *** Schedulers that can be reached *)

Section reachable.
Context {Q : Type} `{QuartzLaws Q}.
Context (cron_error : string -> option error).
Implicit Types (s : Scheduler Q) (job : Job).

Definition enabled_now (fresh : Source) job : bool :=
  match job_config cron_error fresh job with (c, None) => Enabled c | _ => false end.

(** [reachable added s]: [s] after some calls of [Add] and [Start] and some ticks; [added] are
    the jobs that were enabled when they were added. Quartz runs in between. *)
Inductive reachable : list Job -> Scheduler Q -> Prop :=
| r_new ts q : (forall k, scheduled q k = false) -> reachable [] (NewScheduler ts q)
| r_quartz added s q : reachable added s -> (forall k, scheduled q k = scheduled (quartz s) k) -> reachable added (set_quartz q s)
| r_add fresh job added s :
    reachable added s ->
    reachable (if enabled_now fresh job then added ++ [job] else added) (Add cron_error fresh job s).1
| r_start fresh added s s' : reachable added s -> Start cron_error fresh s = Some s' -> reachable added s'
| r_tick fresh order added s :
    reachable added s -> is_order s order -> reachable added (tick cron_error fresh order s).

Record scheduler_inv (added : list Job) s : Prop := {
  i_keyed : well_keyed s;
  i_agrees : agrees s;
  i_known : forall k, scheduled (quartz s) k = true -> is_Some (jobs s !! k);
  i_added : forall k job, jobs s !! k = Some job -> job ∈ added;
  i_collected : forall job, job ∈ collectedJobsToSchedule s -> job ∈ added;
  i_new : started s = false -> jobs s = ∅ /\ oldConfigs s = ∅
}.

Lemma order_jobs s order :
  well_keyed s -> is_order s order ->
  (forall job, job ∈ order <-> jobs s !! j_key job = Some job) /\ NoDup (map j_key order).
Proof.
  intros Hk Ho. unfold is_order in Ho. split.
  - intros job. rewrite Ho, list_elem_of_In, in_map_iff. split.
    + intros ([k j] & <- & Hin). apply list_elem_of_In, elem_of_map_to_list in Hin. simpl.
      by rewrite (Hk _ _ Hin).
    + intros Hj. exists (j_key job, job). split; [done|]. by apply list_elem_of_In, elem_of_map_to_list.
  - rewrite Ho. rewrite map_map. rewrite (map_ext_in _ fst).
    + apply NoDup_fst_map_to_list.
    + intros [k j] Hin. simpl. apply Hk. by apply elem_of_map_to_list, list_elem_of_In.
Qed.

(** Scheduling the collected jobs adds them, and nothing else is executed. *)
Lemma collected_inv added js s :
  scheduler_inv added s -> started s = true -> oldConfigs s = ∅ -> (forall job, job ∈ js -> job ∈ added) ->
  scheduler_inv added (fold_left (fun s job => scheduleSilently job s) js s).
Proof.
  revert s. induction js as [|job js IH]; intros s Hi Hst Hold Hin; [done|]. simpl.
  destruct (scheduleSilently_rest job s) as (R1 & R2 & R3 & R4 & R5 & R6).
  apply IH; [|by rewrite R3|by rewrite R5|intros j Hj; apply Hin; by right].
  destruct Hi as [Hk Ha Hkn Had Hc Hn].
  assert (Hjobs : forall k j, jobs (scheduleSilently job s) !! k = Some j -> k = j_key job /\ j = job \/ jobs s !! k = Some j).
  { intros k j. rewrite R1, lookup_insert_Some. naive_solver. }
  split; rewrite ?R4; try done.
  - intros k j [[-> ->]|Hj]%Hjobs; [done|by apply Hk].
  - intros k j c _. by rewrite R5, Hold, lookup_empty.
  - intros k. destruct (scheduleSilently_scheduled job s k) as [-> _]. rewrite R1. case_decide as Hd.
    + subst. intros _. rewrite lookup_insert_eq. eauto.
    + intros Hs. rewrite lookup_insert_ne by done. by apply Hkn.
  - intros k j [[-> ->]|Hj]%Hjobs; [apply Hin; by left|by eapply Had].
  - by rewrite R3, Hst.
Qed.

Lemma reachable_inv added s : reachable added s -> scheduler_inv added s.
Proof.
  induction 1 as [ts q Hq|added s q _ [Hk Ha Hkn Had Hc Hn] Hq|fresh job added s _ [Hk Ha Hkn Had Hc Hn]
                 |fresh added s s' _ Hi Hstart|fresh order added s _ Hi Ho].
  - split; simpl; try done. intros k Hs. by rewrite Hq in Hs.
  - split; simpl; try done.
    + intros k j c Hj Hc'. rewrite Hq. by eapply Ha.
    + intros k Hs. rewrite Hq in Hs. by apply Hkn.
  - assert (Hsub : forall j : Job, j ∈ added -> j ∈ (if enabled_now fresh job then added ++ [job] else added)).
    { intros j Hj. destruct (enabled_now fresh job); [apply elem_of_app; by left|done]. }
    assert (Hsame : scheduler_inv (if enabled_now fresh job then added ++ [job] else added) s) by (split; eauto).
    unfold Add. destruct (isRunning s); [done|]. unfold enabled_now in *.
    destruct (job_config cron_error fresh job) as [c [e|]]; [done|]. destruct (Enabled c); [|done].
    destruct Hsame. split; try done. simpl. intros j [Hj|Hj%list_elem_of_singleton]%elem_of_app; [by auto|].
    subst. apply elem_of_app. right. by left.
  - unfold Start in Hstart. destruct (started s) eqn:Est; [by simplify_eq|].
    destruct Hi as [Hk Ha Hkn Had Hc Hn]. destruct (Hn Est) as [Hj Ho]. cbn [jobs] in Hstart.
    rewrite Hj, map_to_list_empty in Hstart. simpl in Hstart. simplify_eq.
    apply collected_inv; try done. split; simpl; try done; try (intros k *; rewrite Hj; by intros ?%lookup_empty_Some).
    intros k Hs. rewrite start_scheduled in Hs. rewrite <- Hj. by apply Hkn.
  - destruct Hi as [Hk Ha Hkn Had Hc Hn]. destruct (order_jobs _ _ Hk Ho) as [Hin Hnd].
    destruct (tick_frame cron_error fresh order s (fun j => proj1 (Hin j))) as (H1 & H2 & H3 & H4 & H5 & _).
    assert (Hjob : forall k j, jobs s !! k = Some j -> j ∈ order /\ j_key j = k).
    { intros k j Hj. pose proof (Hk _ _ Hj) as Hkj. subst. split; [by apply Hin|done]. }
    split; rewrite ?H1, ?H4; try done.
    + intros k j. rewrite H1. apply Hk.
    + intros k j c Hj Hc'. rewrite H1 in Hj. destruct (Hjob _ _ Hj) as [Hjo <-].
      destruct (tick_jobs cron_error fresh order s j (fun j => proj1 (Hin j)) Hnd Ha Hjo) as [Hc1 Hs].
      rewrite Hs. congruence.
    + intros k Hs. destruct (decide (k ∈ map j_key order)) as [Hko|Hko].
      * apply list_elem_of_In, in_map_iff in Hko as (j & <- & Hj). apply list_elem_of_In, Hin in Hj. eauto.
      * destruct (H5 k Hko) as (_ & Hs' & _). apply Hkn. congruence.
    + rewrite H3. intros Hst. destruct (Hn Hst) as [Hj Ho']. split; [done|].
      apply map_empty. intros k. destruct (H5 k) as [-> _]; [|by rewrite Ho', lookup_empty].
      intros Hko. apply list_elem_of_In, in_map_iff in Hko as (j & <- & Hj'). apply list_elem_of_In, Hin in Hj'.
      by rewrite Hj, lookup_empty in Hj'.
Qed.

Lemma reachable_tick fresh order added s k :
  reachable added s -> is_order s order -> let s' := tick cron_error fresh order s in
  scheduled (quartz s') k = match jobs s !! k with Some job => Enabled (cfg_of cron_error fresh job) && accepted s' k | None => false end.
Proof.
  intros [Hk Ha Hkn _ _ _]%reachable_inv Ho. destruct (order_jobs _ _ Hk Ho) as [Hin Hnd].
  destruct (tick_frame cron_error fresh order s (fun j => proj1 (Hin j))) as (_ & _ & _ & _ & H5 & _).
  cbn zeta. destruct (jobs s !! k) as [job|] eqn:Ej.
  - pose proof (Hk _ _ Ej) as <-. apply Hin in Ej.
    by destruct (tick_jobs cron_error fresh order s job (fun j => proj1 (Hin j)) Hnd Ha Ej) as [_ ->].
  - destruct (H5 k) as (_ & -> & _).
    { intros (j & Hjk & Hj)%list_elem_of_In%in_map_iff. apply list_elem_of_In, Hin in Hj. congruence. }
    apply not_true_iff_false. intros Hs. destruct (Hkn k Hs). congruence.
Qed.

(** A job whose configuration counts as enabled has a valid one. *)
Lemma cfg_of_enabled fresh job : Enabled (cfg_of cron_error fresh job) = true <->
  exists c, job_config cron_error fresh job = (c, None) /\ Enabled c = true.
Proof.
  unfold cfg_of. destruct (job_config cron_error fresh job) as [c [e|]] eqn:Ec; [|naive_solver].
  unfold job_config, GetConfig in Ec. destruct (fresh job) as [c' [e'|]]; [simplify_eq; naive_solver|].
  destruct (Validate cron_error c'); simplify_eq; naive_solver.
Qed.

(** C12. After a tick of a scheduler, in whatever order it goes over its jobs and whatever calls and
    ticks came before, the jobs that quartz executes are exactly the scheduler's jobs whose fresh
    configuration is valid and enabled, but for those that quartz refused to schedule when it was
    last asked: the failure is logged, and the job is not executed. Of quartz it is assumed that a
    job deleted is not executed, that one it accepts is executed until it is deleted, and that one
    it refuses is not executed. *)
Theorem tick_follows_configs fresh order added s k :
  reachable added s -> is_order s order ->
  let s' := tick cron_error fresh order s in
  scheduled (quartz s') k = true <->
  k ∉ refused s' /\ exists job c, jobs s !! k = Some job /\ job_config cron_error fresh job = (c, None) /\ Enabled c = true.
Proof.
  intros Hr Ho s'. unfold s'. rewrite (reachable_tick _ _ _ _ _ Hr Ho). unfold accepted. fold s'. destruct (jobs s !! k) as [job|]; [|naive_solver].
  rewrite andb_true_iff, negb_true_iff, bool_decide_eq_false, cfg_of_enabled. naive_solver.
Qed.

(** A tick that cannot read the configuration of a job logs that it skips the job, but stops
    executing it. *)
Theorem config_error_stops_job fresh order added s k job c e :
  reachable added s -> is_order s order -> jobs s !! k = Some job -> fresh job = (c, Some e) ->
  scheduled (quartz (tick cron_error fresh order s)) k = false.
Proof.
  intros Hr Ho Hj He. rewrite (reachable_tick _ _ _ _ _ Hr Ho), Hj. unfold cfg_of, job_config. by rewrite He.
Qed.

(** A job that was disabled when it was added is never executed, even if its configuration
    enables it later. *)
Theorem disabled_job_never_scheduled added s k :
  reachable added s -> (forall job, job ∈ added -> j_key job <> k) -> scheduled (quartz s) k = false.
Proof.
  intros [Hk _ Hkn Had _ _]%reachable_inv Hno. apply not_true_iff_false. intros [job Hj]%Hkn.
  apply (Hno job); [by eapply Had|by apply Hk].
Qed.

(** Ticks with the same fresh configurations. *)
Fixpoint ticks (fresh : Source) (orders : list (list Job)) s : Scheduler Q :=
  match orders with
  | [] => s
  | order :: orders' => ticks fresh orders' (tick cron_error fresh order s)
  end.

Lemma tick_trigger fresh order s job :
  (forall j, j ∈ order -> jobs s !! j_key j = Some j) -> NoDup (map j_key order) -> NoDup (map j_id order) ->
  job ∈ order ->
  triggers (tick cron_error fresh order s) !! j_id job =
    next_trigger cron_error (oldConfigs s !! j_key job) (cfg_of cron_error fresh job) (triggers s !! j_id job).
Proof.
  revert s. induction order as [|j order IH]; intros s Hin Hk Hid Hjob; [by apply not_elem_of_nil in Hjob|].
  simpl in Hk, Hid. apply NoDup_cons in Hk as [Hjk Hk]. apply NoDup_cons in Hid as [Hjid Hid].
  assert (Hlj : jobs s !! j_key j = Some j) by (apply Hin; left).
  pose proof (update_job_effect cron_error fresh s j Hlj) as He.
  assert (Hin' : forall job, job ∈ order -> jobs (update_job cron_error fresh s j) !! j_key job = Some job).
  { intros j' Hj'. rewrite (ue_jobs _ _ _ _ _ He). apply Hin. by right. }
  unfold tick in *. simpl. apply elem_of_cons in Hjob as [->|Hjob].
  - destruct (tick_frame cron_error fresh order _ Hin') as (_ & _ & _ & _ & _ & Hf).
    unfold tick in Hf. rewrite (Hf _ Hjid). apply (ue_trigger _ _ _ _ _ He).
  - rewrite IH by done. assert (Hne : j_key job <> j_key j).
    { intros Heq. apply Hjk. rewrite <- Heq. apply list_elem_of_In, in_map, list_elem_of_In, Hjob. }
    assert (Hne' : j_id job <> j_id j).
    { intros Heq. apply Hjid. rewrite <- Heq. apply list_elem_of_In, in_map, list_elem_of_In, Hjob. }
    by rewrite (ue_configs _ _ _ _ _ He), lookup_insert_ne, (ue_triggers _ _ _ _ _ He) by done.
Qed.

(** Distinct job objects have distinct addresses. *)
Definition distinct_pointers s : Prop := forall k1 k2 j1 j2,
  jobs s !! k1 = Some j1 -> jobs s !! k2 = Some j2 -> j_id j1 = j_id j2 -> j1 = j2.

Lemma order_ids s order :
  distinct_pointers s -> well_keyed s -> is_order s order -> NoDup (map j_id order).
Proof.
  intros Hd Hk Ho. destruct (order_jobs _ _ Hk Ho) as [Hin Hnd]. apply NoDup_fmap_2_strong.
  - intros j1 j2 Hj1%Hin Hj2%Hin. by eapply Hd.
  - by eapply NoDup_fmap_1.
Qed.

Lemma order_tick fresh order order' s :
  well_keyed s -> is_order s order -> is_order s order' -> is_order (tick cron_error fresh order s) order' /\
  jobs (tick cron_error fresh order s) = jobs s.
Proof.
  intros Hk Ho Ho'. destruct (order_jobs _ _ Hk Ho) as [Hin Hnd].
  destruct (tick_frame cron_error fresh order s (fun j => proj1 (Hin j))) as (H1 & _).
  unfold is_order. by rewrite H1.
Qed.

(** While the configuration stays as it is known, the trigger stays too. *)
Lemma ticks_keep_trigger fresh orders s k job :
  well_keyed s -> agrees s -> distinct_pointers s -> Forall (is_order s) orders -> jobs s !! k = Some job ->
  oldConfigs s !! k = Some (cfg_of cron_error fresh job) ->
  triggers (ticks fresh orders s) !! j_id job = triggers s !! j_id job.
Proof.
  revert s. induction orders as [|order orders IH]; intros s Hk Ha Hd Hos Hj Hc; [done|]. simpl.
  apply Forall_cons in Hos as [Ho Hos]. pose proof (Hk _ _ Hj) as <-.
  destruct (order_jobs _ _ Hk Ho) as [Hin Hnd].
  assert (Hjo : job ∈ order) by by apply Hin.
  assert (Hjobs : jobs (tick cron_error fresh order s) = jobs s) by by eapply order_tick.
  destruct (tick_jobs cron_error fresh order s job (fun j => proj1 (Hin j)) Hnd Ha Hjo) as [Hc' _].
  rewrite IH; try done.
  - rewrite (tick_trigger fresh order s job) by first [done|intros j; apply Hin|by eapply order_ids].
    rewrite Hc. unfold next_trigger. by rewrite decide_True.
  - intros k j. rewrite Hjobs. apply Hk.
  - intros k j c Hj' Hc1. rewrite Hjobs in Hj'. pose proof (Hk _ _ Hj') as <-. apply Hin in Hj'.
    destruct (tick_jobs cron_error fresh order s j (fun j => proj1 (Hin j)) Hnd Ha Hj') as [Hc2 ->].
    congruence.
  - intros k1 k2 j1 j2. rewrite Hjobs. apply Hd.
  - eapply Forall_impl; [exact Hos|]. intros o Ho'. by eapply order_tick.
  - by rewrite Hjobs.
Qed.

(** When a configuration turns a job on and changes its interval or cron expression at the same
    time, the job runs with its old trigger, for as long as the configuration does not change
    again. *)
Theorem enabling_keeps_old_trigger fresh order orders added s k job old :
  reachable added s -> distinct_pointers s -> is_order s order -> Forall (is_order s) orders ->
  jobs s !! k = Some job -> oldConfigs s !! k = Some old -> Enabled old = false ->
  Enabled (cfg_of cron_error fresh job) = true ->
  let s' := ticks fresh (order :: orders) s in
  scheduled (quartz (tick cron_error fresh order s)) k = accepted (tick cron_error fresh order s) k /\
  triggers s' !! j_id job = triggers s !! j_id job.
Proof.
  intros Hr Hd Ho Hos Hj Hc Hoff Hon. pose proof (r_tick fresh order _ _ Hr Ho) as Hr'.
  apply reachable_inv in Hr as [Hk Ha _ _ _ _], Hr' as [Hk' Ha' _ _ _ _].
  pose proof (Hk _ _ Hj) as <-. destruct (order_jobs _ _ Hk Ho) as [Hin Hnd].
  assert (Hjo : job ∈ order) by by apply Hin.
  assert (Hjobs : jobs (tick cron_error fresh order s) = jobs s) by by eapply order_tick.
  destruct (tick_jobs cron_error fresh order s job (fun j => proj1 (Hin j)) Hnd Ha Hjo) as [Hc' Hs'].
  simpl. split; [by rewrite Hs', Hon|].
  rewrite (ticks_keep_trigger fresh orders _ (j_key job) job); try done.
  - rewrite (tick_trigger fresh order s job) by first [done|intros j; apply Hin|by eapply order_ids].
    rewrite Hc. unfold next_trigger. rewrite decide_False by congruence. by rewrite Hoff, Hon.
  - intros k1 k2 j1 j2. rewrite Hjobs. apply Hd.
  - eapply Forall_impl; [exact Hos|]. intros o Ho'. by eapply order_tick.
  - by rewrite Hjobs.
Qed.
End reachable.

(** ** Concrete runs *)

(** A quartz that is the set of the keys it executes. *)
#[export] Instance set_quartz_ops : Quartz (gset string) := {
  q_Start q := q;
  DeleteJob key q := (q ∖ {[key]}, if decide (key ∈ q) then None else Some (Leaf ErrJobNotFound));
  ScheduleJob key _ q := ({[key]} ∪ q, None);
  scheduled q k := bool_decide (k ∈ q)
}.
#[export] Instance set_quartz_laws : QuartzLaws (gset string).
Proof.
  split.
  - done.
  - intros key q k. simpl. case_decide; apply bool_decide_ext_false || idtac;
      [subst; apply bool_decide_false; set_solver|apply bool_decide_ext; set_solver].
  - intros key t q k _. simpl. case_decide; [subst; apply bool_decide_true; set_solver|apply bool_decide_ext; set_solver].
Qed.
Definition every (seconds : Z) (enabled : bool) : Config := MkConfig "a" enabled (seconds * Second) "" false 0.
Definition no_cron : string -> option error := fun _ => None.
Definition job_a : Job := MkJob 7 "default::a".

(** One job, enabled, started, then turned off by a tick. *)
Definition demo_added : Scheduler (gset string) :=
  (Add no_cron (fun _ => (every 1 true, None)) job_a (NewScheduler {[7 := SimpleTrigger Second]} ∅)).1.
Definition demo_started : Scheduler (gset string) :=
  default demo_added (Start no_cron (fun _ => (every 1 true, None)) demo_added).
Definition demo_off : Scheduler (gset string) := tick no_cron (fun _ => (every 1 false, None)) [job_a] demo_started.

Lemma demo_started_eq : Start no_cron (fun _ => (every 1 true, None)) demo_added = Some demo_started.
Proof. vm_compute. reflexivity. Qed.
Lemma demo_jobs s : jobs s = {["default::a" := job_a]} -> is_order (Q := gset string) s [job_a].
Proof. intros H. unfold is_order. by rewrite H, map_to_list_singleton. Qed.
Lemma demo_started_order : is_order demo_started [job_a].
Proof. apply demo_jobs. vm_compute. reflexivity. Qed.
Lemma demo_off_order : is_order demo_off [job_a].
Proof. apply demo_jobs. vm_compute. reflexivity. Qed.

Lemma demo_off_reachable : reachable no_cron [job_a] demo_off.
Proof.
  apply r_tick; [|apply demo_started_order]. eapply r_start; [|apply demo_started_eq].
  apply (r_add no_cron (fun _ => (every 1 true, None)) job_a []). apply r_new. intros k. reflexivity.
Qed.

Lemma tick_follows_configs_witness :
  scheduled (quartz (tick no_cron (fun _ => (every 5 true, None)) [job_a] demo_off)) "default::a" = true.
Proof.
  apply (tick_follows_configs no_cron _ _ _ _ "default::a" demo_off_reachable demo_off_order). split; [vm_compute; by intros ?|].
  exists job_a, (every 5 true). split_and!; vm_compute; reflexivity.
Defined.

Lemma config_error_stops_job_witness :
  scheduled (quartz demo_started) "default::a" = true /\
  scheduled (quartz (tick no_cron (fun _ => (zero_Config, Some (Leaf (LText "no such file")))) [job_a] demo_off)) "default::a" = false.
Proof.
  split; [vm_compute; reflexivity|].
  apply (config_error_stops_job no_cron _ _ _ _ "default::a" job_a zero_Config
           (Leaf (LText "no such file")) demo_off_reachable demo_off_order); vm_compute; reflexivity.
Defined.

Lemma disabled_job_never_scheduled_witness : scheduled (quartz demo_off) "default::b" = false.
Proof.
  apply (disabled_job_never_scheduled no_cron [job_a] _ "default::b" demo_off_reachable).
  intros job ->%list_elem_of_singleton. done.
Defined.

Lemma enabling_keeps_old_trigger_witness :
  let fresh := fun _ : Job => (every 5 true, @None error) in
  scheduled (quartz (tick no_cron fresh [job_a] demo_off)) "default::a" = true /\
  triggers (ticks no_cron fresh [[job_a]; [job_a]] demo_off) !! 7 = Some (SimpleTrigger Second).
Proof.
  intros fresh.
  apply (enabling_keeps_old_trigger no_cron fresh [job_a] [[job_a]] [job_a] demo_off
           "default::a" job_a (every 1 false) demo_off_reachable).
  - intros k1 k2 j1 j2. change (jobs demo_off) with (jobs demo_started).
    replace (jobs demo_started) with ({["default::a" := job_a]} : gmap string Job) by (vm_compute; reflexivity).
    intros [_ <-]%lookup_singleton_Some [_ <-]%lookup_singleton_Some _. reflexivity.
  - apply demo_off_order.
  - constructor; [apply demo_off_order|constructor].
  - vm_compute. reflexivity.
  - vm_compute. reflexivity.
  - vm_compute. reflexivity.
  - vm_compute. reflexivity.
Defined.
