(* ===== verification/PgArray.v ===== *)
(** * PostgreSQL array literals (internal/rdb/array.go)

    [parseArray] reads the text form of an array, [StringArray] and [Float32Array] convert
    slices to it and back. Bytes are [ascii]; a Go slice that may be nil is an option. The
    position [i] of the parser is the part of the text it has not read yet. All callers pass a
    delimiter of one byte. *)
From S2P Require Import Prelude.

Definition open_brace : ascii := "{"%char.
Definition close_brace : ascii := "}"%char.
Definition comma : ascii := ","%char.
Definition backslash : ascii := "\"%char.

(** The errors, one per message. [OutOfFuel] is not one of them: no run ends with it. *)
Inductive array_error :=
| ExpectedOpen
| Unexpected (c : ascii) (offset : nat)
| ExpectedClose (offset : nat)
| MismatchedDimensions
| TooManyDimensions (dims : list nat)
| NilElement (index : nat)
| BadElement (index : nat)
| CannotConvert
| OutOfFuel.

#[export] Instance array_error_eq_dec : EqDecision array_error.
Proof. solve_decision. Defined.

(** A parsed element: NULL is [None]. *)
Definition elem : Type := option string.

Section parse.
Context (del : ascii).

(** The loop [Open]: the opening braces; [inl] when it ends at a closing one. *)
(* go: internal/rdb/array.go | Open: | L189-L202 *)
Fixpoint parse_open (depth : nat) (rest : string) : (nat * string) + (nat * string) :=
  match rest with
  | EmptyString => inr (depth, rest)
  | String c rest' =>
      if decide (c = open_brace) then parse_open (S depth) rest'
      else if decide (c = close_brace) then inl (depth, rest)
      else inr (depth, rest)
  end.

(** The inside of a quoted element: the element and what follows it, or [None] at the end of
    the text. *)
(* go: internal/rdb/array.go | elem := []byte{} | L214-L233 *)
Fixpoint scan_quoted (escape : bool) (elem : string) (rest : string) : option (string * string) :=
  match rest with
  | EmptyString => None
  | String c rest' =>
      if escape then scan_quoted false (elem +:+ String c "") rest'
      else if decide (c = backslash) then scan_quoted true elem rest'
      else if decide (c = dquote) then Some (elem, rest')
      else scan_quoted false (elem +:+ String c "") rest'
  end.

(** An unquoted element: up to a delimiter or a closing brace, or [None] at the end. *)
(* go: internal/rdb/array.go | for start := i; i < len(src); i++ { | L234-L247 *)
Fixpoint scan_unquoted (elem : string) (rest : string) : option (string * string) :=
  match rest with
  | EmptyString => None
  | String c rest' =>
      if decide (c = del) then Some (elem, rest)
      else if decide (c = close_brace) then Some (elem, rest)
      else scan_unquoted (elem +:+ String c "") rest'
  end.

Definition offset (n : nat) (rest : string) : nat := n - String.length rest.

(** [dims[depth-1] = f(dims[depth-1])]: an index out of range panics. *)
(* go: internal/rdb/array.go | dims[depth-1] = 0 | L213-L213 *)
Definition set_dim (depth : nat) (f : nat -> nat) (dims : list nat) : outcome (list nat) :=
  match depth with
  | 0 => Panics "runtime error: index out of range [-1]"
  | S i => if i <? length dims then Returns (alter f i dims) else Panics "runtime error: index out of range"
  end.

(** The loop [Element]. [n] is the length of the whole text. *)
(* go: internal/rdb/array.go | Element: | L204-L249 *)
Fixpoint parse_element (n depth : nat) (dims : list nat) (elems : list elem) (rest : string)
    : outcome (result array_error (nat * list nat * list elem * string)) :=
  match rest with
  | EmptyString => Returns (Ok (depth, dims, elems, rest))
  | String c rest' =>
      if decide (c = open_brace) then
        if decide (depth = length dims) then Returns (Ok (depth, dims, elems, rest))
        else dims ← set_dim (S depth) (fun _ => 0) dims; parse_element n (S depth) dims elems rest'
      else if decide (c = dquote) then
        Returns match scan_quoted false "" rest' with
                | Some (e, rest'') => Ok (depth, dims, elems ++ [Some e], rest'')
                | None => Ok (depth, dims, elems, "")
                end
      else
        Returns match scan_unquoted "" rest with
                | None => Ok (depth, dims, elems, "")
                | Some (e, rest'') =>
                    match e, rest'' with
                    | EmptyString, String c' _ => Err (Unexpected c' (offset n rest''))
                    | _, _ => Ok (depth, dims, elems ++ [if decide (e = "NULL") then None else Some e], rest'')
                    end
                end
  end.

(** What the loop after an element comes to: a delimiter, the end, or something else. *)
Inductive after_element := Delim (depth : nat) (dims : list nat) (rest : string)
| AtEnd (depth : nat) (dims : list nat)
| Bad (c : ascii) (rest : string).

(* go: internal/rdb/array.go | for i < len(src) { | L251-L263 *)
Fixpoint after_elem (depth : nat) (dims : list nat) (rest : string) : outcome after_element :=
  match rest with
  | EmptyString => Returns (AtEnd depth dims)
  | String c rest' =>
      if bool_decide (c = del) && (0 <? depth) then dims ← set_dim depth S dims; Returns (Delim depth dims rest')
      else if bool_decide (c = close_brace) && (0 <? depth) then
        dims ← set_dim depth S dims; after_elem (depth - 1) dims rest'
      else Returns (Bad c rest)
  end.

(** Elements and delimiters in turn; every delimiter is a byte of the text. *)
Fixpoint parse_elems (fuel n depth : nat) (dims : list nat) (elems : list elem) (rest : string)
    : outcome (result array_error (nat * list nat * list elem)) :=
  match fuel with
  | 0 => Returns (Err OutOfFuel)
  | S fuel' =>
      r ← parse_element n depth dims elems rest;
      match r with
      | Err e => Returns (Err e)
      | Ok (depth, dims, elems, rest) =>
          a ← after_elem depth dims rest;
          match a with
          | Delim depth dims rest => parse_elems fuel' n depth dims elems rest
          | AtEnd depth dims => Returns (Ok (depth, dims, elems))
          | Bad c rest => Returns (Err (Unexpected c (offset n rest)))
          end
      end
  end.

(** The loop [Close]. *)
(* go: internal/rdb/array.go | Close: | L265-L273 *)
Fixpoint parse_close (n depth : nat) (rest : string) : result array_error nat :=
  match rest with
  | EmptyString => Ok depth
  | String c rest' =>
      if bool_decide (c = close_brace) && (0 <? depth) then parse_close n (depth - 1) rest'
      else Err (Unexpected c (offset n rest))
  end.

(** The check of the dimensions; [x % 0] panics. *)
(* go: internal/rdb/array.go | for _, d := range dims { | L277-L283 *)
Fixpoint check_dims (k : nat) (dims : list nat) : outcome bool :=
  match dims with
  | [] => Returns true
  | 0 :: _ => Panics "runtime error: integer divide by zero"
  | d :: dims' => ok ← check_dims k dims'; Returns ((k mod d =? 0) && ok)
  end.

(* go: internal/rdb/array.go | // parseArray extracts *)
Definition parseArray (src : string) : outcome (result array_error (list nat * list elem)) :=
  let n := String.length src in
  match src with
  | String c _ =>
      if decide (c = open_brace) then
        parsed ←
          match parse_open 0 src with
          | inl (depth, rest) => Returns (depth' ← parse_close n depth rest; Ok (depth', [], []))
          | inr (depth, rest) => parse_elems (S n) n depth (replicate depth 0) [] rest
          end;
        match parsed with
        | Err e => Returns (Err e)
        | Ok (depth, dims, elems) =>
            if 0 <? depth then Returns (Err (ExpectedClose n))
            else
              ok ← check_dims (length elems) dims;
              Returns (if (ok : bool) then Ok (dims, elems) else Err MismatchedDimensions)
        end
      else Returns (Err ExpectedOpen)
  | EmptyString => Returns (Err ExpectedOpen)
  end.

(* go: internal/rdb/array.go | func scanLinearArray *)
Definition scanLinearArray (src : string) : outcome (result array_error (list elem)) :=
  r ← parseArray src;
  Returns ('(dims, elems) ← r;
           if 1 <? length dims then Err (TooManyDimensions dims) else Ok elems).
End parse.

(** ** String arrays *)

(** What [Scan] may be given. *)
Inductive scan_source := SrcBytes (b : string) | SrcString (s : string) | SrcNil | SrcOther.

(** The loop over the elements: their strings, or the index of the first nil. *)
Fixpoint elems_to_strings (i : nat) (elems : list elem) : result array_error (list string) :=
  match elems with
  | [] => Ok []
  | None :: _ => Err (NilElement i)
  | Some s :: elems' => l ← elems_to_strings (S i) elems'; Ok (s :: l)
  end.

(** The slice [*a] afterwards; on an error it is unchanged. An empty result keeps [*a] non-nil
    if it was. *)
(* go: internal/rdb/array.go | func (a *StringArray) scanBytes *)
Definition StringArray_scanBytes (a : option (list string)) (src : string)
    : outcome (result array_error (option (list string))) :=
  r ← scanLinearArray comma src;
  Returns (elems ← r;
           match a, elems with
           | Some _, [] => Ok (Some [])
           | _, _ => b ← elems_to_strings 0 elems; Ok (Some b)
           end).

(* go: internal/rdb/array.go | func (a *StringArray) Scan *)
Definition StringArray_Scan (a : option (list string)) (src : scan_source)
    : outcome (result array_error (option (list string))) :=
  match src with
  | SrcBytes b => StringArray_scanBytes a b
  | SrcString s => StringArray_scanBytes a s
  | SrcNil => Returns (Ok None)
  | SrcOther => Returns (Err CannotConvert)
  end.

(** [bytes.IndexAny] for the double quote and the backslash. *)
Fixpoint index_special (v : string) : option nat :=
  match v with
  | EmptyString => None
  | String c v' => if decide (c = dquote \/ c = backslash) then Some 0 else S <$> index_special v'
  end.

(** The loop; every round but the last drops at least one byte of [v]. *)
Fixpoint append_quoted_loop (fuel : nat) (b v : string) : string :=
  match fuel with
  | 0 => b
  | S fuel' =>
      match index_special v with
      | None => b +:+ v
      | Some i =>
          append_quoted_loop fuel' (b +:+ stake i v +:+ String backslash (stake 1 (sdrop i v))) (sdrop (S i) v)
      end
  end.

(* go: internal/rdb/array.go | func appendArrayQuotedBytes *)
Definition appendArrayQuotedBytes (b v : string) : string :=
  append_quoted_loop (S (String.length v)) (b +:+ String dquote "") v +:+ String dquote "".

Fixpoint append_more (b : string) (l : list string) : string :=
  match l with
  | [] => b
  | v :: l' => append_more (appendArrayQuotedBytes (b +:+ String comma "") v) l'
  end.

(* go: internal/rdb/array.go | func (a StringArray) Value *)
Definition StringArray_Value (a : option (list string)) : scan_source :=
  match a with
  | None => SrcNil
  | Some [] => SrcString (String open_brace (String close_brace ""))
  | Some (v :: l) =>
      SrcString (append_more (appendArrayQuotedBytes (String open_brace "") v) l +:+ String close_brace "")
  end.

(** ** Float arrays *)

Section floats.
(** Floats, with the formatting and parsing of package strconv at 32 bits. *)
Context {F : Type} (AppendFloat : F -> string) (ParseFloat : string -> option F).

Fixpoint elems_to_floats (i : nat) (elems : list elem) : result array_error (list F) :=
  match elems with
  | [] => Ok []
  | e :: elems' =>
      match ParseFloat (default "" e) with
      | None => Err (BadElement i)
      | Some x => l ← elems_to_floats (S i) elems'; Ok (x :: l)
      end
  end.

(* go: internal/rdb/array.go | func (a *Float32Array) scanBytes *)
Definition Float32Array_scanBytes (a : option (list F)) (src : string)
    : outcome (result array_error (option (list F))) :=
  r ← scanLinearArray comma src;
  Returns (elems ← r;
           match a, elems with
           | Some _, [] => Ok (Some [])
           | _, _ => b ← elems_to_floats 0 elems; Ok (Some b)
           end).

(* go: internal/rdb/array.go | func (a *Float32Array) Scan *)
Definition Float32Array_Scan (a : option (list F)) (src : scan_source)
    : outcome (result array_error (option (list F))) :=
  match src with
  | SrcBytes b => Float32Array_scanBytes a b
  | SrcString s => Float32Array_scanBytes a s
  | SrcNil => Returns (Ok None)
  | SrcOther => Returns (Err CannotConvert)
  end.

(* go: internal/rdb/array.go | func (a Float32Array) Value *)
Definition Float32Array_Value (a : option (list F)) : scan_source :=
  match a with
  | None => SrcNil
  | Some [] => SrcString (String open_brace (String close_brace ""))
  | Some (v :: l) =>
      SrcString (fold_left (fun b v => b +:+ String comma "" +:+ AppendFloat v) l
                   (String open_brace (AppendFloat v)) +:+ String close_brace "")
  end.
End floats.

(** ** The parser always returns *)

Section total.
Context (del : ascii).

(** The dimensions above the current depth have been counted. *)
Definition dims_inv (depth : nat) (dims : list nat) : Prop :=
  depth <= length dims /\ forall j d, depth <= j -> dims !! j = Some d -> 0 < d.

Lemma scan_quoted_shorter rest : forall esc e e' rest',
  scan_quoted esc e rest = Some (e', rest') -> String.length rest' < String.length rest.
Proof.
  induction rest as [|c rest IH]; intros esc e e' rest'; simpl; [done|].
  destruct esc; [intros Hx%IH; lia|]. repeat case_decide; [intros Hx%IH; lia| |intros Hx%IH; lia].
  intros Hx. simplify_eq. lia.
Qed.

Lemma scan_unquoted_shorter rest : forall e e' rest',
  scan_unquoted del e rest = Some (e', rest') -> String.length rest' <= String.length rest.
Proof.
  induction rest as [|c rest IH]; intros e e' rest'; simpl; [done|].
  repeat case_decide; [intros Hx; simplify_eq; simpl; lia..|]. intros Hx%IH. lia.
Qed.

(** The writes to [dims] are in range. *)
Lemma set_dim_ok depth f dims :
  0 < depth -> depth <= length dims -> set_dim depth f dims = Returns (alter f (depth - 1) dims).
Proof.
  intros Hpos Hle. destruct depth as [|i]; [lia|]. simpl. rewrite Nat.sub_0_r.
  by rewrite (proj2 (Nat.ltb_lt i (length dims))) by lia.
Qed.

Lemma dims_inv_open depth dims :
  dims_inv depth dims -> depth <> length dims ->
  exists dims', set_dim (S depth) (fun _ => 0) dims = Returns dims' /\ dims_inv (S depth) dims'.
Proof.
  intros [Hle Hd] Hne. eexists. split; [apply set_dim_ok; lia|]. split; [rewrite length_alter; lia|].
  intros j d Hj. rewrite list_lookup_alter_ne by lia. apply Hd. lia.
Qed.

Lemma dims_inv_incr depth dims :
  dims_inv depth dims -> 0 < depth ->
  exists dims', set_dim depth S dims = Returns dims' /\ dims_inv depth dims' /\ dims_inv (depth - 1) dims'.
Proof.
  intros [Hle Hd] Hpos. eexists. split; [by apply set_dim_ok|].
  split; (split; [rewrite length_alter; lia|]); intros j d Hj.
  - rewrite list_lookup_alter_ne by lia. by apply Hd.
  - destruct (decide (j = depth - 1)) as [->|Hne].
    + rewrite list_lookup_alter_eq. destruct (dims !! (depth - 1)); [|done]. intros [= <-]. lia.
    + rewrite list_lookup_alter_ne by lia. apply Hd. lia.
Qed.

Lemma parse_element_spec n rest : forall depth dims elems,
  dims_inv depth dims ->
  exists r, parse_element del n depth dims elems rest = Returns r /\
  match r with
  | Ok (depth', dims', _, rest') => dims_inv depth' dims' /\ String.length rest' <= String.length rest
  | Err e => e <> OutOfFuel
  end.
Proof.
  induction rest as [|c rest IH]; intros depth dims elems Hinv; cbn [parse_element];
    [eexists; split; [done|split; [done|lia]]|].
  case_decide.
  { case_decide; [eexists; split; [done|split; [done|simpl; lia]]|].
    destruct (dims_inv_open _ _ Hinv ltac:(done)) as (dims1 & -> & Hinv1). cbn [mbind outcome_bind].
    destruct (IH _ _ elems Hinv1) as (r & -> & Hr). exists r. split; [done|].
    destruct r as [[[[? ?] ?] ?]|]; [|done]. destruct Hr. split; [done|simpl; lia]. }
  case_decide; (eexists; split; [reflexivity|]).
  { destruct (scan_quoted false "" rest) as [[e rest']|] eqn:E; [|split; [done|simpl; lia]].
    apply scan_quoted_shorter in E. split; [done|simpl; lia]. }
  destruct (scan_unquoted del "" (String c rest)) as [[e rest']|] eqn:E; [|split; [done|simpl; lia]].
  apply scan_unquoted_shorter in E. simpl in E. destruct e, rest'; try done; (split; [done|exact E]).
Qed.

Lemma after_elem_spec rest : forall depth dims,
  dims_inv depth dims ->
  exists a, after_elem del depth dims rest = Returns a /\
  match a with
  | Delim depth' dims' rest' => dims_inv depth' dims' /\ String.length rest' < String.length rest
  | AtEnd depth' dims' => dims_inv depth' dims'
  | Bad _ _ => True
  end.
Proof.
  induction rest as [|c rest IH]; intros depth dims Hinv; simpl; [by eexists|].
  destruct (bool_decide (c = del) && (0 <? depth)) eqn:E1.
  { apply andb_true_iff in E1 as [_ Hd%Nat.ltb_lt]. destruct (dims_inv_incr _ _ Hinv Hd) as (dims' & -> & H1 & _).
    eexists. split; [done|]. split; [done|lia]. }
  destruct (bool_decide (c = close_brace) && (0 <? depth)) eqn:E2; [|by eexists].
  apply andb_true_iff in E2 as [_ Hd%Nat.ltb_lt]. destruct (dims_inv_incr _ _ Hinv Hd) as (dims' & -> & _ & H2).
  cbn [mbind outcome_bind]. destruct (IH _ _ H2) as (a & -> & Ha). exists a. split; [done|].
  destruct a; [|done..]. destruct Ha. split; [done|lia].
Qed.

Lemma parse_elems_spec fuel n : forall depth dims elems rest,
  dims_inv depth dims -> String.length rest < fuel ->
  exists r, parse_elems del fuel n depth dims elems rest = Returns r /\
  match r with
  | Ok (depth', dims', _) => dims_inv depth' dims'
  | Err e => e <> OutOfFuel
  end.
Proof.
  induction fuel as [|fuel IH]; intros depth dims elems rest Hinv Hf; [lia|]. simpl.
  destruct (parse_element_spec n rest depth dims elems Hinv) as (r & -> & Hr). cbn [mbind outcome_bind].
  destruct r as [[[[depth1 dims1] elems1] rest1]|e]; [|by eexists].
  destruct Hr as [Hinv1 Hl1]. destruct (after_elem_spec rest1 depth1 dims1 Hinv1) as (a & -> & Ha).
  cbn [mbind outcome_bind]. destruct a; [|by eexists..]. destruct Ha. apply IH; [done|lia].
Qed.

Lemma parse_open_spec rest : forall depth,
  match parse_open depth rest with inl (d, r) | inr (d, r) => String.length r <= String.length rest end.
Proof.
  induction rest as [|c rest IH]; intros depth; simpl; [done|].
  case_decide; [|case_decide; done]. specialize (IH (S depth)).
  destruct (parse_open (S depth) rest) as [[? ?]|[? ?]]; lia.
Qed.

Lemma parse_close_spec n rest : forall depth, parse_close n depth rest <> Err OutOfFuel.
Proof. induction rest as [|c rest IH]; intros depth; simpl; [done|]. case_match; [apply IH|done]. Qed.

Lemma check_dims_total k dims :
  Forall (fun d => 0 < d) dims ->
  exists b, check_dims k dims = Returns b /\ (b = true -> Forall (fun d => 0 < d /\ k mod d = 0) dims).
Proof.
  induction 1 as [|d dims Hd _ (b & IH & Hb)]; simpl; [by eexists|].
  destruct d as [|d]; [lia|]. rewrite IH. eexists. split; [done|].
  intros [Hk%Nat.eqb_eq ?%Hb]%andb_true_iff. by constructor.
Qed.

(** What a successful parse says: the elements can be cut into the dimensions. *)
Definition well_formed (r : result array_error (list nat * list elem)) : Prop :=
  match r with
  | Ok (dims, elems) => Forall (fun d => 0 < d /\ length elems mod d = 0) dims
  | Err e => e <> OutOfFuel
  end.

Lemma parse_opened_spec n rest depth :
  String.length rest <= n ->
  exists r, parse_elems del (S n) n depth (replicate depth 0) [] rest = Returns r /\
    match r with Ok (depth', dims, _) => dims_inv depth' dims | Err e => e <> OutOfFuel end.
Proof.
  intros Hl. apply parse_elems_spec; [|lia].
  split; [by rewrite length_replicate|]. intros j d' Hj [_ Hlt]%lookup_replicate. lia.
Qed.

Lemma parseArray_returns src : exists r, parseArray del src = Returns r /\ well_formed r.
Proof.
  unfold parseArray. destruct src as [|c src]; [by eexists|]. case_decide; [|by eexists].
  pose proof (parse_open_spec (String c src) 0) as Ho. set (n := String.length _) in *.
  destruct (parse_open 0 (String c src)) as [[depth rest]|[depth rest]].
  - cbn [mbind outcome_bind]. pose proof (parse_close_spec n rest depth) as Hc.
    destruct (parse_close n depth rest) as [d|e]; cbn; [|eexists; split; [done|congruence]].
    destruct d; eexists; (split; [done|]); [constructor|done].
  - destruct (parse_opened_spec n rest depth Ho) as (r & -> & Hr). cbn [mbind outcome_bind].
    destruct r as [[[d dims] elems]|e]; [|by eexists].
    destruct (0 <? d) eqn:Ed; [by eexists|]. apply Nat.ltb_ge in Ed.
    destruct (check_dims_total (length elems) dims) as (b & -> & Hb).
    { apply Forall_lookup. intros j x Hx. eapply Hr; [|exact Hx]. lia. }
    destruct b; eexists; (split; [done|]); [by apply Hb|done].
Qed.
End total.

(** C20. On every input and for every one-byte delimiter [parseArray] returns, with a result or an
    error: the loops end, no write to the dimensions is out of their range, also where braces are
    nested deeper after an element than at the beginning, and the remainder by a dimension never
    divides by zero. Where it returns a result, every dimension is positive and divides the
    number of elements. *)
Theorem parseArray_total del src :
  exists r, parseArray del src = Returns r /\
    match r with
    | Ok (dims, elems) => Forall (fun d => 0 < d /\ length elems mod d = 0) dims
    | Err e => e <> OutOfFuel
    end.
Proof. apply parseArray_returns. Qed.

(** ** Printing and reading back *)

(** The reference for [appendArrayQuotedBytes]: every quote and backslash gets a backslash. *)
Fixpoint escape (v : string) : string :=
  match v with
  | EmptyString => EmptyString
  | String c v' =>
      if decide (c = dquote \/ c = backslash) then String backslash (String c (escape v'))
      else String c (escape v')
  end.

Definition quoted (v : string) : string := String dquote (escape v +:+ String dquote "").

Lemma escape_plain v : index_special v = None -> escape v = v.
Proof.
  induction v as [|c v IH]; simpl; [done|]. case_decide; [done|].
  destruct (index_special v); [done|]. intros _. by rewrite IH.
Qed.

Lemma escape_special v i :
  index_special v = Some i ->
  escape v = stake i v +:+ String backslash (stake 1 (sdrop i v)) +:+ escape (sdrop (S i) v) /\
  i < String.length v.
Proof.
  revert i. induction v as [|c v IH]; intros i; simpl; [done|]. case_decide; simpl.
  - intros [= <-]. simpl. split; [done|lia].
  - destruct (index_special v) as [j|]; [|done]. intros [= <-].
    destruct (IH j eq_refl) as [-> Hlt]. split; [done|lia].
Qed.

Lemma append_quoted_loop_spec fuel : forall b v,
  String.length v < fuel -> append_quoted_loop fuel b v = b +:+ escape v.
Proof.
  induction fuel as [|fuel IH]; intros b v Hf; [lia|]. simpl.
  destruct (index_special v) as [i|] eqn:E.
  - destruct (escape_special _ _ E) as [-> Hlt]. destruct v as [|c v]; [simpl in Hlt; lia|].
    simpl. rewrite IH; [by rewrite !string_app_assoc|]. rewrite sdrop_length. simpl in *. lia.
  - by rewrite escape_plain.
Qed.

Lemma appendArrayQuotedBytes_spec b v : appendArrayQuotedBytes b v = b +:+ quoted v.
Proof.
  unfold appendArrayQuotedBytes. rewrite append_quoted_loop_spec by lia.
  by rewrite <- !string_app_assoc.
Qed.

(** The elements after the first, as printed. *)
Fixpoint printed_more (l : list string) : string :=
  match l with
  | [] => String close_brace ""
  | v :: l' => String comma (quoted v +:+ printed_more l')
  end.

Lemma append_more_spec l : forall b,
  append_more b l +:+ String close_brace "" = b +:+ printed_more l.
Proof.
  induction l as [|v l IH]; intros b; simpl; [done|].
  rewrite IH, appendArrayQuotedBytes_spec. by rewrite <- !string_app_assoc.
Qed.

Lemma scan_quoted_escape v tail : forall e,
  scan_quoted false e (escape v +:+ String dquote tail) = Some (e +:+ v, tail).
Proof.
  induction v as [|c v IH]; intros e.
  - simpl. by rewrite string_app_nil_r.
  - assert (Hc : e +:+ String c v = (e +:+ String c "") +:+ v) by (by rewrite <- string_app_assoc).
    simpl. case_decide as E.
    + change (String backslash (String c (escape v)) +:+ ?t) with (String backslash (String c (escape v +:+ t))).
      simpl. by rewrite IH, Hc.
    + change (String c (escape v) +:+ ?t) with (String c (escape v +:+ t)). simpl.
      rewrite decide_False by tauto. rewrite decide_False by tauto. by rewrite IH, Hc.
Qed.

Lemma parse_element_quoted n k elems v tail :
  parse_element comma n 1 [k] elems (quoted v +:+ tail) = Returns (Ok (1, [k], elems ++ [Some v], tail)).
Proof.
  unfold quoted. change (String dquote ?x +:+ tail) with (String dquote (x +:+ tail)). simpl.
  rewrite <- string_app_assoc. change (String dquote "" +:+ tail) with (String dquote tail).
  by rewrite scan_quoted_escape.
Qed.

Lemma parse_elems_printed n l : forall fuel k elems v,
  length l < fuel ->
  parse_elems comma fuel n 1 [k] elems (quoted v +:+ printed_more l)
    = Returns (Ok (0, [k + S (length l)], elems ++ Some v :: (Some <$> l))).
Proof.
  induction l as [|v' l IH]; intros fuel k elems v Hf; (destruct fuel as [|fuel]; [simpl in Hf; lia|]);
    cbn [parse_elems]; rewrite parse_element_quoted; cbn [mbind outcome_bind].
  - simpl. by replace (k + 1) with (S k) by lia.
  - simpl printed_more. cbn [after_elem]. rewrite bool_decide_eq_true_2 by done. simpl.
    rewrite IH by (simpl in Hf; lia).
    replace (S k + S (length l)) with (k + S (S (length l))) by lia. by rewrite <- app_assoc.
Qed.

Lemma elems_to_strings_some i l : elems_to_strings i (Some <$> l) = Ok l.
Proof. revert i. induction l as [|s l IH]; intros i; simpl; [done|]. by rewrite IH. Qed.

Lemma printed_more_length l : length l < String.length (printed_more l).
Proof. induction l as [|v l IH]; simpl; [lia|]. rewrite string_length_app. lia. Qed.

Lemma parseArray_printed v l :
  parseArray comma (String open_brace (quoted v +:+ printed_more l))
    = Returns (Ok ([S (length l)], Some v :: (Some <$> l))).
Proof.
  unfold parseArray. rewrite decide_True by done.
  change (parse_open 0 (String open_brace ?x)) with (parse_open 1 x).
  assert (Ho : parse_open 1 (quoted v +:+ printed_more l) = inr (1, quoted v +:+ printed_more l)) by done.
  rewrite Ho. simpl replicate.
  set (n := String.length (String open_brace (quoted v +:+ printed_more l))).
  rewrite (parse_elems_printed n l (S n) 0 [] v).
  2: { unfold n. simpl. rewrite string_length_app. pose proof (printed_more_length l). lia. }
  cbn [Nat.ltb Nat.leb check_dims mbind outcome_bind app length Nat.add].
  rewrite length_fmap, Nat.Div0.mod_same. done.
Qed.

(** C14. String arrays survive the database: whatever bytes the strings hold (quotes, backslashes,
    braces, commas, the text NULL) and whatever the destination held before, scanning the value
    printed for an array gives that array back; nil gives nil and the empty array the empty
    array. *)
Theorem StringArray_roundtrip a before :
  StringArray_Scan before (StringArray_Value a) = Returns (Ok a).
Proof.
  destruct a as [[|v l]|]; [by destruct before| |done]. unfold StringArray_Value, StringArray_Scan.
  rewrite append_more_spec, appendArrayQuotedBytes_spec.
  change ((String open_brace "" +:+ quoted v) +:+ ?x) with (String open_brace (quoted v +:+ x)).
  unfold StringArray_scanBytes, scanLinearArray. rewrite parseArray_printed. simpl.
  rewrite elems_to_strings_some. simpl. by destruct before.
Qed.
