(* ===== verification/Dsn.v ===== *)
(** * Connection strings (internal/rdb/internal/driver/dsn.go)

    Host, database and user of a connection string, which is a URL, a libpq option string or a
    query. A text is a Go string, cut into the code points it encodes and the bytes that are not
    part of an encoded code point; as [[]rune] it has the replacement character for each of those
    bytes. The URL parser of package net/url and [net.SplitHostPort] are parameters. *)
From S2P Require Import Prelude.

Definition rune : Type := N.
Notation text := (list N).

(** Numbers that are no code points stand for bytes that are not valid UTF-8. *)
Definition is_rune (r : rune) : bool := ((r <? 55296) || ((57344 <=? r) && (r <? 1114112)))%N.
Definition RuneError : rune := 65533%N.
(** [[]rune(s)], whose code points [string] encodes again. *)
Definition to_runes (s : text) : text := map (fun r => if is_rune r then r else RuneError) s.
Definition valid_utf8 (s : text) : Prop := Forall (fun r => is_rune r = true) s.

(** An ASCII text. *)
Fixpoint runes (s : string) : text :=
  match s with EmptyString => [] | String c s' => N_of_ascii c :: runes s' end.

(** [unicode.IsSpace]. *)
Definition is_space (r : rune) : bool :=
  bool_decide (r ∈ [9; 10; 11; 12; 13; 32; 133; 160; 5760; 8232; 8233; 8239; 8287; 12288]%N)
  || ((8192 <=? r) && (r <=? 8202))%N.

Definition r_eq : rune := 61%N.
Definition r_quote : rune := 39%N.
Definition r_backslash : rune := 92%N.
Definition r_semicolon : rune := 59%N.

Inductive dsn_error := MissingEquals (key : text) | MissingAfterBackslash | UnterminatedQuote | DsnOutOfFuel.

#[export] Instance dsn_error_eq_dec : EqDecision dsn_error.
Proof. solve_decision. Defined.

(** ** The scanner: its state is the text that is left *)

(* go: internal/rdb/internal/driver/dsn.go | // newScanner returns *)
Definition newScanner (s : text) : text := to_runes s.

(** [None] is [0, false]. *)
(* go: internal/rdb/internal/driver/dsn.go | // Next returns the next rune. *)
Definition Next (s : text) : option (rune * text) :=
  match s with [] => None | r :: s' => Some (r, s') end.

(* go: internal/rdb/internal/driver/dsn.go | // SkipSpaces returns *)
Fixpoint SkipSpaces (s : text) : option (rune * text) :=
  match s with
  | [] => None
  | r :: s' => if is_space r then SkipSpaces s' else Some (r, s')
  end.

(** Scans the key from its first rune [r] on; the last component is what [Next] or the loop
    condition left in [r], [None] at the end of the text. *)
(* go: internal/rdb/internal/driver/dsn.go | // Scan the key | L101-L107 *)
Fixpoint scan_key (r : rune) (s key : text) : text * option rune * text :=
  if is_space r || (r =? r_eq)%N then (key, Some r, s)
  else match s with
       | [] => (key ++ [r], None, [])
       | r' :: s' => scan_key r' s' (key ++ [r])
       end.

(** An unquoted value from its first rune on. *)
(* go: internal/rdb/internal/driver/dsn.go | for !(unicode.IsSpace(r) || r == ';') { | L130-L141 *)
Fixpoint scan_value (r : rune) (s val : text) : result dsn_error (text * text) :=
  if is_space r || (r =? r_semicolon)%N then Ok (val, s)
  else if (r =? r_backslash)%N then
    match s with
    | [] => Err MissingAfterBackslash
    | [r'] => Ok (val ++ [r'], [])
    | r' :: r'' :: s'' => scan_value r'' s'' (val ++ [r'])
    end
  else
    match s with
    | [] => Ok (val ++ [r], [])
    | r' :: s' => scan_value r' s' (val ++ [r])
    end.

(** A quoted value, after the opening quote. A backslash at the very end stands for rune 0, and
    the quote is then unterminated. *)
(* go: internal/rdb/internal/driver/dsn.go | quote: | L143-L157 *)
Fixpoint scan_quoted_value (s val : text) : result dsn_error (text * text) :=
  match s with
  | [] => Err UnterminatedQuote
  | r :: s' =>
      if (r =? r_quote)%N then Ok (val, s')
      else if (r =? r_backslash)%N then
        match s' with
        | [] => Err UnterminatedQuote
        | r' :: s'' => scan_quoted_value s'' (val ++ [r'])
        end
      else scan_quoted_value s' (val ++ [r])
  end.

Definition values : Type := gmap text text.

(** The loop; every round reads at least one rune. On an error the values read so far stay. *)
Fixpoint opts_loop (fuel : nat) (s : text) (o : gmap text text) : gmap text text * option dsn_error :=
  match fuel with
  | 0 => (o, Some DsnOutOfFuel)
  | S fuel' =>
      match SkipSpaces s with
      | None => (o, None)
      | Some (r, s1) =>
          let '(key, r1, s2) := scan_key r s1 [] in
          let at_eq :=
            match r1 with
            | Some r1 => if (r1 =? r_eq)%N then Some (r1, s2) else SkipSpaces s2
            | None => SkipSpaces s2
            end in
          match at_eq with
          | Some (r2, s3) =>
              if negb (r2 =? r_eq)%N then (o, Some (MissingEquals key))
              else
                match SkipSpaces s3 with
                | None => (<[key := []]> o, None)
                | Some (r3, s4) =>
                    match (if (r3 =? r_quote)%N then scan_quoted_value s4 [] else scan_value r3 s4 []) with
                    | Err e => (o, Some e)
                    | Ok (val, s5) => opts_loop fuel' s5 (<[key := val]> o)
                    end
                end
          | None => (o, Some (MissingEquals key))
          end
      end
  end.

(* go: internal/rdb/internal/driver/dsn.go | // parseOpts parses *)
Definition parseOpts (name : text) (o : gmap text text) : gmap text text * option dsn_error :=
  let s := newScanner name in opts_loop (S (length s)) s o.

(** ** URLs *)

(** A [url.URL], as far as it is looked at; the query holds the first value of every key. *)
Record url := Url {
  u_Scheme : text;
  u_User : option (text * option text);
  u_Host : text;
  u_Path : text;
  u_Query : gmap text text
}.

Section url.
Context (url_Parse : text -> option url) (url_ParseQuery : text -> option (gmap text text)).
Context (SplitHostPort : text -> option (text * text)).

Definition accrue (k : string) (v : text) (kvs : gmap text text) : gmap text text :=
  if decide (v = []) then kvs else <[runes k := v]> kvs.

(** Query parameters come last and replace what the URL itself says; empty ones do not. *)
(* go: internal/rdb/internal/driver/dsn.go | func parseURL *)
Definition parseURL (dsn : text) : option (gmap text text) :=
  match url_Parse dsn with
  | None => None
  | Some u =>
      if decide (u_Scheme u = []) then None
      else
        let kvs1 := match u_User u with
                    | Some (name, pw) => accrue "password" (default [] pw) (accrue "user" name ∅)
                    | None => ∅
                    end in
        let kvs2 := match SplitHostPort (u_Host u) with
                    | None => accrue "host" (u_Host u) kvs1
                    | Some (host, port) => accrue "port" port (accrue "host" host kvs1)
                    end in
        let kvs3 := if decide (u_Path u = []) then kvs2 else accrue "database" (drop 1 (u_Path u)) kvs2 in
        Some (filter (fun kv => kv.2 <> []) (u_Query u) ∪ kvs3)
  end.

Definition get (v : gmap text text) (k : string) : text := default [] (v !! runes k).

(* go: internal/rdb/internal/driver/dsn.go | func parseDSN *)
Definition parseDSN (dsn : text) : text * text * text :=
  let v :=
    match parseURL dsn with
    | Some v => v
    | None =>
        match parseOpts dsn ∅ with
        | (v, None) => v
        | (_, Some _) => default ∅ (url_ParseQuery dsn)
        end
    end in
  let host := if decide (get v "host" = []) then get v "server" else get v "host" in
  let host := if decide (get v "port" = []) then host else host ++ [58%N] ++ get v "port" in
  let user := if decide (get v "user" = []) then get v "user id" else get v "user" in
  (host, get v "database", user).
End url.

(** ** Option strings read back *)

(** [opts_loop] never runs out of fuel. *)
Lemma SkipSpaces_shorter s r s' : SkipSpaces s = Some (r, s') -> length s' < length s.
Proof. induction s as [|r0 s IH]; simpl; [done|]. case_match; [intros Hx%IH; lia|]. intros Hx. simplify_eq. lia. Qed.

Lemma scan_key_shorter s : forall r key k r1 s', scan_key r s key = (k, r1, s') -> length s' <= length s.
Proof.
  induction s as [|r0 s IH]; intros r key k r1 s'; simpl; case_match; intros Hx; simplify_eq; simpl; try lia.
  apply IH in Hx. lia.
Qed.

Lemma scan_value_shorter n : forall s r val v s',
  length s <= n -> scan_value r s val = Ok (v, s') -> length s' <= length s.
Proof.
  induction n as [|n IH]; intros s r val v s' Hn Hx; destruct s as [|r0 s]; simpl in *; try lia;
    repeat case_match; simplify_eq; simpl in *; try lia; apply IH in Hx; simpl in *; lia.
Qed.

Lemma scan_quoted_value_shorter n : forall s val v s',
  length s <= n -> scan_quoted_value s val = Ok (v, s') -> length s' <= length s.
Proof.
  induction n as [|n IH]; intros s val v s' Hn Hx; destruct s as [|r0 s]; simpl in *; try lia; try done;
    repeat case_match; simplify_eq; simpl in *; try lia; apply IH in Hx; simpl in *; lia.
Qed.

Lemma opts_loop_fuel fuel : forall s o, length s < fuel -> (opts_loop fuel s o).2 <> Some DsnOutOfFuel.
Proof.
  induction fuel as [|fuel IH]; intros s o Hf; [lia|]. simpl.
  destruct (SkipSpaces s) as [[r s1]|] eqn:E1; [|done]. apply SkipSpaces_shorter in E1.
  destruct (scan_key r s1 []) as [[key r1] s2] eqn:E2. apply scan_key_shorter in E2.
  match goal with |- context [match ?x with Some _ => _ | None => (o, Some (MissingEquals key)) end] =>
    destruct x as [[r2 s3]|] eqn:E3 end; [|done].
  assert (length s3 <= length s2).
  { destruct r1 as [r1|]; [case_match; [simplify_eq; lia|]|]; apply SkipSpaces_shorter in E3; lia. }
  destruct (negb (r2 =? r_eq)%N); [simpl; congruence|]. destruct (SkipSpaces s3) as [[r3 s4]|] eqn:E4; [|done]. apply SkipSpaces_shorter in E4.
  match goal with |- context [match ?x with Ok _ => _ | Err e => _ end] => destruct x as [[val s5]|e] eqn:E5 end.
  - apply IH. assert (length s5 <= length s4); [|lia].
    case_match; [by eapply scan_quoted_value_shorter|by eapply scan_value_shorter].
  - simpl. intros [= ->]. revert E5. clear. case_match.
    + generalize (@nil N). induction s4 as [s4 IHs] using (induction_ltof1 _ length).
      intros val. destruct s4 as [|r0 s4]; simpl; [done|]. repeat case_match; try done; apply IHs; unfold ltof; simpl; lia.
    + match goal with H : _ = false |- _ => clear H end. revert r3. generalize (@nil N). induction s4 as [s4 IHs] using (induction_ltof1 _ length).
      intros val r3. destruct s4 as [|r0 s4]; simpl; repeat case_match; try done; apply IHs; unfold ltof; simpl; lia.
Qed.

(** An option as libpq prints it: the value in quotes, quotes and backslashes escaped. *)
Fixpoint escape_value (v : text) : text :=
  match v with
  | [] => []
  | r :: v' => (if (r =? r_quote)%N || (r =? r_backslash)%N then [r_backslash; r] else [r]) ++ escape_value v'
  end.

Definition print_opt (kv : text * text) : text :=
  kv.1 ++ [r_eq; r_quote] ++ escape_value kv.2 ++ [r_quote].

(** Options are separated by a space. *)
Fixpoint print_opts (kvs : list (text * text)) : text :=
  match kvs with
  | [] => []
  | [kv] => print_opt kv
  | kv :: kvs' => print_opt kv ++ 32%N :: print_opts kvs'
  end.

(** A key: not empty, without white space and equals signs. *)
Definition good_key (k : text) : Prop :=
  k <> [] /\ Forall (fun r => is_space r = false /\ (r =? r_eq)%N = false) k.

Lemma scan_quoted_value_escape v : forall tail val,
  scan_quoted_value (escape_value v ++ r_quote :: tail) val = Ok (val ++ v, tail).
Proof.
  induction v as [|r v IH]; intros tail val; simpl; [by rewrite app_nil_r|].
  assert (Hs : val ++ r :: v = (val ++ [r]) ++ v) by (by rewrite <- app_assoc).
  destruct (r =? r_quote)%N eqn:E1; [simpl; by rewrite IH, Hs|].
  destruct (r =? r_backslash)%N eqn:E2; simpl; [by rewrite IH, Hs|]. by rewrite E1, E2, IH, Hs.
Qed.

Lemma scan_key_good k : forall r tail key,
  Forall (fun r => is_space r = false /\ (r =? r_eq)%N = false) (r :: k) ->
  scan_key r (k ++ r_eq :: tail) key = (key ++ r :: k, Some r_eq, tail).
Proof.
  induction k as [|r' k IH]; intros r tail key Hk; apply Forall_cons in Hk as [[H1 H2] Hk]; simpl;
    rewrite H1, H2; simpl.
  - by destruct tail.
  - rewrite IH by done. by rewrite <- app_assoc.
Qed.

Lemma opts_loop_print kvs : forall fuel s o,
  Forall (fun kv => good_key kv.1) kvs -> length (print_opts kvs) < fuel ->
  (s = print_opts kvs \/ s = 32%N :: print_opts kvs) ->
  opts_loop fuel s o = (fold_left (fun o kv => <[kv.1 := kv.2]> o) kvs o, None).
Proof.
  induction kvs as [|[k v] kvs IH]; intros fuel s o Hk Hf Hs; (destruct fuel as [|fuel]; [lia|]).
  { destruct Hs as [->| ->]; done. }
  apply Forall_cons in Hk as [[Hne Hgood] Hk]. simpl in Hne, Hgood. destruct k as [|r k]; [done|].
  set (more := match kvs with [] => [] | _ => 32%N :: print_opts kvs end).
  set (rest := escape_value v ++ r_quote :: more).
  assert (Hp : print_opts ((r :: k, v) :: kvs) = r :: k ++ r_eq :: r_quote :: rest).
  { unfold rest, more. destruct kvs as [|kv' kvs]; [done|].
    cbn [print_opts]. unfold print_opt at 1. simpl. f_equal. rewrite <- app_assoc. simpl.
    do 3 f_equal. by rewrite <- app_assoc. }
  assert (Hskip : SkipSpaces s = Some (r, k ++ r_eq :: r_quote :: rest)).
  { apply Forall_cons in Hgood as [[Hr _] _]. destruct Hs as [->| ->]; rewrite Hp; simpl; by rewrite Hr. }
  cbn [opts_loop]. rewrite Hskip, (scan_key_good k r _ [] Hgood). simpl. unfold rest.
  rewrite scan_quoted_value_escape. simpl. apply IH; [done| |unfold more; destruct kvs; auto].
  rewrite Hp in Hf. unfold rest in Hf. simpl in Hf. rewrite length_app in Hf. simpl in Hf.
  rewrite length_app in Hf. unfold more in Hf. destruct kvs; simpl in *; lia.
Qed.

Lemma to_runes_valid s : valid_utf8 s -> to_runes s = s.
Proof. unfold to_runes. induction 1 as [|r s Hr _ IH]; [done|]. cbn. by rewrite Hr, IH. Qed.

Lemma to_runes_runes s : to_runes (runes s) = runes s.
Proof.
  apply to_runes_valid. induction s as [|c s IH]; [constructor|]. constructor; [|exact IH].
  unfold is_rune. destruct (N.ltb_spec (N_of_ascii c) 55296); [done|]. pose proof (N_ascii_bounded c). lia.
Qed.

(** The replacement character is none of the characters the syntax is made of. *)
Lemma replaced_rune_plain r : is_rune r = false -> is_space r = false /\ forall c, (c < 128)%N -> (r =? c)%N = false.
Proof.
  unfold is_rune. intros Hr. assert (55296 <= r)%N by (apply N.ltb_ge; destruct (r <? 55296)%N; done). split.
  - unfold is_space. apply orb_false_iff. split.
    + apply bool_decide_eq_false. rewrite !elem_of_cons, elem_of_nil. lia.
    + apply andb_false_iff. right. apply N.leb_gt. lia.
  - intros c Hc. apply N.eqb_neq. lia.
Qed.

Lemma to_runes_escape v : to_runes (escape_value v) = escape_value (to_runes v).
Proof.
  induction v as [|r v IH]; [done|]. cbn [escape_value]. unfold to_runes in *. rewrite map_app, IH. cbn [map escape_value]. f_equal.
  destruct (is_rune r) eqn:Hr.
  - by destruct ((r =? r_quote)%N || (r =? r_backslash)%N); cbn; rewrite Hr.
  - destruct (replaced_rune_plain r Hr) as [_ Hc]. rewrite !Hc by done. cbn. by rewrite Hr.
Qed.

Lemma to_runes_print kvs : to_runes (print_opts kvs) = print_opts (map (fun kv => (to_runes kv.1, to_runes kv.2)) kvs).
Proof.
  assert (Hone : forall kv, to_runes (print_opt kv) = print_opt (to_runes kv.1, to_runes kv.2)).
  { intros [k v]. unfold print_opt. unfold to_runes at 1. rewrite !map_app. fold (to_runes k). cbn [fst snd]. rewrite <- to_runes_escape. reflexivity. }
  induction kvs as [|kv kvs IH]; [done|]. destruct kvs as [|kv' kvs]; [apply Hone|].
  cbn [print_opts map] in *. unfold to_runes at 1. rewrite map_app. fold (to_runes (print_opt kv)). rewrite Hone. f_equal. cbn. f_equal. exact IH.
Qed.

Lemma good_key_runes k : good_key k -> good_key (to_runes k).
Proof.
  intros [Hne Hk]. split; [by destruct k|]. unfold to_runes. apply Forall_map. eapply Forall_impl; [exact Hk|].
  intros r Hr. cbn. by destruct (is_rune r).
Qed.

Lemma parseOpts_print kvs o :
  Forall (fun kv => good_key kv.1) kvs ->
  parseOpts (print_opts kvs) o = (fold_left (fun o kv => <[to_runes kv.1 := to_runes kv.2]> o) kvs o, None).
Proof.
  intros Hk. unfold parseOpts, newScanner. rewrite to_runes_print.
  rewrite (opts_loop_print (map (fun kv => (to_runes kv.1, to_runes kv.2)) kvs)); [|apply Forall_map; eapply Forall_impl; [exact Hk|]; intros kv; apply good_key_runes|lia|by left].
  f_equal. clear Hk. revert o. induction kvs as [|kv kvs IH]; intros o; [done|]. cbn. apply IH.
Qed.

(** A libpq option string is read back exactly: for any keys without white space and equals signs
    and any values at all (spaces, quotes, backslashes and semicolons included), parsing the
    options printed with quoted values gives every key its last value, and no error; a byte that
    is not valid UTF-8 comes back as the replacement character. *)
Theorem parseOpts_roundtrip kvs o :
  Forall (fun kv => good_key kv.1) kvs ->
  parseOpts (print_opts kvs) o = (fold_left (fun o kv => <[to_runes kv.1 := to_runes kv.2]> o) kvs o, None).
Proof. apply parseOpts_print. Qed.

Lemma parseOpts_roundtrip_witness :
  parseOpts (runes "user='a \'b' password='x;\\'") ∅ =
    (<[runes "password" := runes "x;\"]> (<[runes "user" := runes "a 'b"]> ∅), None).
Proof.
  apply (parseOpts_roundtrip [(runes "user", runes "a 'b"); (runes "password", runes "x;\")] ∅).
  repeat (constructor; [split; [done|by_decision]|]). constructor.
Defined.

(** [parseOpts] returns on every text. *)
Theorem parseOpts_total name o : (parseOpts name o).2 <> Some DsnOutOfFuel.
Proof. apply opts_loop_fuel. lia. Qed.
