(* ===== verification/ConnString.v ===== *)
(** * Connection strings made by the code (internal/sqltooling/conn.go)

    [KVConnectionString] prints a libpq option string; Dsn.v is what reads it back. *)
From S2P Require Import Prelude Dsn.

(** [strings.Replace(s, old, new, n)] for a single code point [old]. *)
Fixpoint Replace (n : nat) (old : rune) (new s : text) : text :=
  match n, s with
  | 0, _ => s
  | _, [] => []
  | S n', r :: s' => if (r =? old)%N then new ++ Replace n' old new s' else r :: Replace n old new s'
  end.

(* go: internal/sqltooling/conn.go | func escapeForPostgres *)
Definition escapeForPostgres (v : text) : text :=
  Replace 100 r_quote [r_backslash; r_quote] (Replace 100 r_backslash [r_backslash; r_backslash] v).

(* go: internal/sqltooling/conn.go | type ConnStringKV struct *)
Record ConnStringKV := MkConnStringKV {
  Host : text;
  Database : text;
  User : text;
  Password : text;
  Port : Z;
  SSLMode : text
}.

(** The pairs [KVConnectionString] collects, in order. *)
Definition kvPairs (cs : ConnStringKV) : list (text * text) :=
  [(runes "host", Host cs); (runes "database", Database cs); (runes "user", User cs);
   (runes "password", Password cs); (runes "port", runes (pretty (Port cs)));
   (runes "sslmode", if decide (SSLMode cs = []) then runes "disable" else SSLMode cs);
   (runes "client_encoding", runes "UTF8")].

Fixpoint join_text (sep : text) (l : list text) : text :=
  match l with
  | [] => []
  | [t] => t
  | t :: l' => t ++ sep ++ join_text sep l'
  end.

(** [fmt.Sprintf] of a key and an escaped value in quotes. *)
Definition print_pair (kv : text * text) : text :=
  kv.1 ++ [r_eq; r_quote] ++ escapeForPostgres kv.2 ++ [r_quote].

(* go: internal/sqltooling/conn.go | // https://www.postgresql.org/docs/14/libpq-connect.html#id-1.7.3.8.3.5 *)
Definition KVConnectionString (cs : ConnStringKV) : text := join_text [32%N] (map print_pair (kvPairs cs)).

(** ** The escaping is limited *)

Definition occurrences (r : rune) (v : text) : nat := length (List.filter (N.eqb r) v).

Lemma Replace_all n old new s :
  occurrences old s <= n -> Replace n old new s = concat (map (fun r => if (r =? old)%N then new else [r]) s).
Proof.
  revert n. induction s as [|r s IH]; intros n Hn; [by destruct n|].
  unfold occurrences in *. simpl in *. rewrite (N.eqb_sym old r) in Hn.
  destruct (r =? old)%N eqn:E; simpl in *.
  - destruct n as [|n]; [lia|]. by rewrite IH by lia.
  - destruct n as [|n]; [|by rewrite IH by lia].
    assert (Hs : concat (map (fun r => if (r =? old)%N then new else [r]) s) = s).
    { rewrite <- (IH 0) by lia. by destruct s. }
    by rewrite Hs.
Qed.

(** The values the escaping works for. *)
Definition escapable (v : text) : Prop := occurrences r_backslash v <= 100 /\ occurrences r_quote v <= 100.

Lemma occurrences_app r v w : occurrences r (v ++ w) = occurrences r v + occurrences r w.
Proof. unfold occurrences. by rewrite List.filter_app, length_app. Qed.
Lemma occurrences_cons r r' v : occurrences r (r' :: v) = (if (r =? r')%N then 1 else 0) + occurrences r v.
Proof. unfold occurrences. cbn [List.filter]. by destruct (r =? r')%N. Qed.

Lemma occurrences_replaced v :
  occurrences r_quote (concat (map (fun r => if (r =? r_backslash)%N then [r_backslash; r_backslash] else [r]) v)) =
  occurrences r_quote v.
Proof.
  induction v as [|r v IH]; [done|]. cbn [map concat]. rewrite occurrences_app, IH, (occurrences_cons _ r v).
  f_equal. destruct (r =? r_backslash)%N eqn:E; [by apply N.eqb_eq in E as ->|].
  unfold occurrences. cbn [List.filter]. by destruct (r_quote =? r)%N.
Qed.

Lemma escapeForPostgres_escapes v : escapable v -> escapeForPostgres v = escape_value v.
Proof.
  intros [Hb Hq]. unfold escapeForPostgres. rewrite (Replace_all 100 r_backslash) by done.
  rewrite Replace_all by (by rewrite occurrences_replaced). clear Hb Hq.
  induction v as [|r v IH]; [done|]. simpl. rewrite map_app, concat_app, IH.
  destruct (r =? r_backslash)%N eqn:E1.
  - apply N.eqb_eq in E1 as ->. done.
  - simpl. destruct (r =? r_quote)%N eqn:E2; [|done]. by apply N.eqb_eq in E2 as ->.
Qed.

Lemma print_pairs kvs :
  Forall (fun kv => escapable kv.2) kvs -> join_text [32%N] (map print_pair kvs) = print_opts kvs.
Proof.
  induction kvs as [|[k v] kvs IH]; [done|]. intros [Hv Hk]%Forall_cons. simpl in Hv.
  assert (Hp : print_pair (k, v) = print_opt (k, v)).
  { unfold print_pair, print_opt. simpl. by rewrite escapeForPostgres_escapes. }
  destruct kvs as [|kv kvs]; [exact Hp|]. cbn [map join_text print_opts]. rewrite Hp.
  f_equal. simpl. f_equal. by apply IH.
Qed.

(** Decimal numbers need no escaping. *)
Definition plain (s : string) : Prop := occurrences r_backslash (runes s) = 0 /\ occurrences r_quote (runes s) = 0.

Lemma plain_escapable s : plain s -> escapable (runes s).
Proof. intros [H1 H2]. unfold escapable. lia. Qed.

Lemma plain_cons c s :
  (N_of_ascii c =? r_backslash)%N = false -> (N_of_ascii c =? r_quote)%N = false -> plain s -> plain (String c s).
Proof.
  intros Hb Hq [H1 H2]. unfold plain. cbn [runes]. rewrite !occurrences_cons, H1, H2.
  by rewrite (N.eqb_sym r_backslash), (N.eqb_sym r_quote), Hb, Hq.
Qed.

Lemma pretty_N_char_plain x s : plain s -> plain (String (pretty_N_char x) s).
Proof. intros Hs. unfold pretty_N_char. repeat case_match; by apply plain_cons. Qed.

Lemma pretty_N_go_plain x : forall s, plain s -> plain (pretty_N_go x s).
Proof.
  induction (N.lt_wf_0 x) as [x _ IH]. intros s Hs. destruct (decide (0 < x)%N) as [Hx|Hx].
  - rewrite pretty_N_go_step by done. apply IH; [by apply N.div_lt|]. by apply pretty_N_char_plain.
  - assert (x = 0%N) as -> by lia. by rewrite pretty_N_go_0.
Qed.

Lemma pretty_Z_plain (z : Z) : plain (pretty z).
Proof.
  destruct z as [|p|p]; [done| |].
  - change (pretty (Z.pos p)) with (pretty (Npos p)). unfold pretty, pretty_N.
    case_decide; [done|]. by apply pretty_N_go_plain.
  - change (pretty (Z.neg p)) with (String "-" (pretty (Npos p))). apply plain_cons; [done|done|].
    unfold pretty, pretty_N. case_decide; [done|]. by apply pretty_N_go_plain.
Qed.

Lemma pretty_N_go_nonempty x : forall s, s <> "" -> pretty_N_go x s <> "".
Proof.
  induction (N.lt_wf_0 x) as [x _ IH]. intros s Hs. destruct (decide (0 < x)%N) as [Hx|Hx].
  - rewrite pretty_N_go_step by done. apply IH; [by apply N.div_lt|]. done.
  - assert (x = 0%N) as -> by lia. by rewrite pretty_N_go_0.
Qed.

Lemma pretty_Z_nonempty (z : Z) : runes (pretty z) <> [].
Proof.
  assert (Hne : forall s, s <> "" -> runes s <> []) by (by intros [|c s]). apply Hne.
  destruct z as [|p|p]; [done| |done].
  change (pretty (Z.pos p)) with (pretty (Npos p)). unfold pretty, pretty_N.
  case_decide; [done|]. rewrite pretty_N_go_step by lia. by apply pretty_N_go_nonempty.
Qed.

(** ** What the code prints, the code reads back *)

Lemma kvPairs_escapable cs :
  escapable (Host cs) -> escapable (Database cs) -> escapable (User cs) -> escapable (Password cs) ->
  escapable (SSLMode cs) -> Forall (fun kv => escapable kv.2) (kvPairs cs).
Proof.
  intros H1 H2 H3 H4 H5. unfold kvPairs. rewrite !Forall_cons. cbn [snd].
  refine (conj H1 (conj H2 (conj H3 (conj H4 (conj (plain_escapable _ (pretty_Z_plain _)) (conj _ (conj _ _))))))).
  - case_decide; [by apply plain_escapable|done].
  - by apply plain_escapable.
  - constructor.
Qed.

Lemma kvPairs_keys cs : Forall (fun kv => good_key kv.1) (kvPairs cs).
Proof. repeat (constructor; [split; [done|by_decision]|]). constructor. Qed.

Section read_back.
Context (url_Parse : text -> option url) (url_ParseQuery : text -> option (gmap text text)).
Context (SplitHostPort : text -> option (text * text)).
(** A scheme ends with a colon and holds no equals sign, so a text that starts with a key and an
    equals sign has no scheme. *)
Hypothesis no_scheme : forall s, match url_Parse (runes "host=" ++ s) with Some u => u_Scheme u = [] | None => True end.

(** Looks concrete keys up in a map of options. *)
Ltac read_options :=
  repeat (first [rewrite lookup_insert_eq | rewrite lookup_insert_ne by (vm_compute; discriminate) | rewrite lookup_empty]).

Lemma KVConnectionString_read cs :
  escapable (Host cs) -> escapable (Database cs) -> escapable (User cs) -> escapable (Password cs) ->
  escapable (SSLMode cs) ->
  parseDSN url_Parse url_ParseQuery SplitHostPort (KVConnectionString cs) =
    (to_runes (Host cs) ++ [58%N] ++ runes (pretty (Port cs)), to_runes (Database cs), to_runes (User cs)).
Proof.
  intros H1 H2 H3 H4 H5. unfold parseDSN.
  assert (Hurl : parseURL url_Parse SplitHostPort (KVConnectionString cs) = None).
  { assert (exists s, KVConnectionString cs = runes "host=" ++ s) as [s ->] by (eexists; reflexivity).
    pose proof (no_scheme s) as Hs. unfold parseURL. destruct (url_Parse _) as [u|]; [|done].
    by rewrite decide_True. }
  rewrite Hurl. unfold KVConnectionString. rewrite print_pairs by by apply kvPairs_escapable.
  rewrite parseOpts_print by apply kvPairs_keys. cbn [kvPairs fold_left fst snd]. rewrite !to_runes_runes.
  unfold get. read_options. unfold default, id.
  rewrite decide_False by apply pretty_Z_nonempty.
  destruct (decide (to_runes (Host cs) = [])) as [->|], (decide (to_runes (User cs) = [])) as [->|]; reflexivity.
Qed.

(** C15. A connection string the code makes is read back by the code's own parser, as long as no
    field holds more than a hundred quotes or a hundred backslashes: host with port, database and
    user come out as they went in (quotes, backslashes, white space and equals signs included), but
    for bytes that are not valid UTF-8, each of which comes back as the replacement character; so
    fields of valid UTF-8 come back unchanged. Of the URL parser it is assumed that a text that
    starts with host= has no scheme. *)
Theorem KVConnectionString_roundtrip cs :
  escapable (Host cs) -> escapable (Database cs) -> escapable (User cs) -> escapable (Password cs) ->
  escapable (SSLMode cs) ->
  let back := parseDSN url_Parse url_ParseQuery SplitHostPort (KVConnectionString cs) in
  back = (to_runes (Host cs) ++ [58%N] ++ runes (pretty (Port cs)), to_runes (Database cs), to_runes (User cs)) /\
  (valid_utf8 (Host cs) -> valid_utf8 (Database cs) -> valid_utf8 (User cs) ->
   back = (Host cs ++ [58%N] ++ runes (pretty (Port cs)), Database cs, User cs)).
Proof.
  intros H1 H2 H3 H4 H5. cbv zeta. rewrite KVConnectionString_read by done. split; [done|].
  intros V1 V2 V3. by rewrite !to_runes_valid.
Qed.
End read_back.

(** A parser of URLs that knows no scheme. *)
Definition no_url (s : text) : option url := None.
Definition no_query (s : text) : option (gmap text text) := None.
Definition no_port (s : text) : option (text * text) := None.
Definition demo_cs : ConnStringKV :=
  MkConnStringKV (runes "db 1") (runes "a'b\") (runes "o'neil") (runes "p=w") 5432 [].

Lemma KVConnectionString_roundtrip_witness :
  KVConnectionString demo_cs =
    runes "host='db 1' database='a\'b\\' user='o\'neil' password='p=w' port='5432' sslmode='disable' client_encoding='UTF8'" /\
  parseDSN no_url no_query no_port (KVConnectionString demo_cs) = (runes "db 1:5432", runes "a'b\", runes "o'neil").
Proof.
  split; [vm_compute; reflexivity|].
  refine (proj2 (KVConnectionString_roundtrip no_url no_query no_port (fun _ => I) demo_cs _ _ _ _ _) _ _ _);
    first [split; vm_compute; repeat constructor|repeat (constructor; [reflexivity|]); constructor].
Defined.

(** The hundred-and-first quote ends the value: here a database name sets the host. *)
Definition evil_database : text := replicate 100 r_quote ++ runes "' host='evil".
Example database_sets_host :
  parseDSN no_url no_query no_port
    (KVConnectionString (MkConnStringKV (runes "db") evil_database (runes "u") (runes "p") 5432 [])) =
  (runes "evil:5432", replicate 100 r_quote, runes "u").
Proof. vm_compute. reflexivity. Qed.
