(* ===== verification/Urls.v ===== *)
(** * URLs (package net/url)

    The escaping of the parts of a URL, its inverse, and the printing of a URL, as far as the
    repository uses them. *)
From S2P Require Import Prelude.

Definition upper_hex (n : N) : ascii := ascii_of_N (if (n <? 10)%N then 48 + n else 55 + n).
Definition alphanumeric (c : ascii) : bool :=
  let n := N_of_ascii c in ((97 <=? n) && (n <=? 122) || (65 <=? n) && (n <=? 90) || (48 <=? n) && (n <=? 57))%N.
Definition one_of (s : string) (c : ascii) : bool := match index_byte c s with Some _ => true | None => false end.
Definition unreserved (c : ascii) : bool := alphanumeric c || one_of "-_.~" c.
Definition percent (c : ascii) : string :=
  let n := N_of_ascii c in String "%" (String (upper_hex (n / 16)) (String (upper_hex (n mod 16)) "")).
Fixpoint encode (f : ascii -> string) (s : string) : string :=
  match s with "" => "" | String c s' => f c +:+ encode f s' end.
Definition escape (keep : ascii -> bool) : string -> string := encode (fun c => if keep c then String c "" else percent c).

(** [QueryEscape], and the escaping of a user or password, of a host and of a path. *)
Definition QueryEscape : string -> string := encode (fun c => if decide (c = " "%char) then "+" else if unreserved c then String c "" else percent c).
Definition keep_user (c : ascii) : bool := unreserved c || one_of "$&+,;=" c.
Definition keep_host (c : ascii) : bool := alphanumeric c || one_of ("-_.~!$&'()*+,;=:[]<>" +:+ String dquote "") c.
Definition keep_path (c : ascii) : bool := unreserved c || one_of "$&+,/:;=@" c.

Definition hex_value (c : ascii) : option N :=
  let n := N_of_ascii c in
  if ((48 <=? n) && (n <=? 57))%N then Some (n - 48)%N
  else if ((65 <=? n) && (n <=? 70))%N then Some (n - 55)%N
  else if ((97 <=? n) && (n <=? 102))%N then Some (n - 87)%N
  else None.
(** [unescape]; a plus is a space in a query. *)
Fixpoint unescape (query : bool) (s : string) : option string :=
  match s with
  | "" => Some ""
  | String "%" (String a (String b s')) =>
      h ← hex_value a; l ← hex_value b; t ← unescape query s'; Some (String (ascii_of_N (h * 16 + l)) t)
  | String "%" _ => None
  | String c s' => t ← unescape query s'; Some (String (if query && bool_decide (c = "+"%char) then " "%char else c) t)
  end.

Lemma hex_upper n : (n < 16)%N -> hex_value (upper_hex n) = Some n.
Proof.
  intros Hn. assert (n ∈ [0;1;2;3;4;5;6;7;8;9;10;11;12;13;14;15]%N) as H by (repeat rewrite elem_of_cons; lia).
  repeat (apply elem_of_cons in H as [->|H]; [reflexivity|]). by apply elem_of_nil in H.
Qed.

Lemma unescape_percent q c s : unescape q (percent c +:+ s) = (t ← unescape q s; Some (String c t)).
Proof.
  change (percent c +:+ s) with (String "%" (String (upper_hex (N_of_ascii c / 16)) (String (upper_hex (N_of_ascii c mod 16)) s))).
  cbn [unescape]. assert (Hc : (N_of_ascii c < 256)%N) by apply N_ascii_bounded.
  rewrite !hex_upper by (apply N.mod_lt; done) || (apply N.Div0.div_lt_upper_bound; lia). cbn [mbind option_bind].
  replace (N_of_ascii c / 16 * 16 + N_of_ascii c mod 16)%N with (N_of_ascii c) by (rewrite N.mul_comm; apply N.Div0.div_mod).
  by rewrite ascii_N_embedding.
Qed.

Lemma unescape_plain q c s : c <> "%"%char -> (q = true -> c <> "+"%char) -> unescape q (String c s) = (t ← unescape q s; Some (String c t)).
Proof.
  intros Hc Hq. transitivity (t ← unescape q s; Some (String (if q && bool_decide (c = "+"%char) then " "%char else c) t)).
  - destruct c as [[] [] [] [] [] [] [] []]; try done.
  - destruct q; cbn; [rewrite bool_decide_false by auto|]; done.
Qed.

(** What was escaped is read back. *)
Lemma unescape_escape keep s : keep "%"%char = false -> unescape false (escape keep s) = Some s.
Proof.
  intros Hk. induction s as [|c s IH]; [done|]. unfold escape in *. cbn [encode]. destruct (keep c) eqn:Ec.
  - change (String c "" +:+ ?t) with (String c t). rewrite unescape_plain by (intros; congruence). by rewrite IH.
  - rewrite unescape_percent. by rewrite IH.
Qed.

Lemma QueryUnescape_QueryEscape s : unescape true (QueryEscape s) = Some s.
Proof.
  induction s as [|c s IH]; [done|]. unfold QueryEscape in *. cbn [encode]. case_decide as Hsp.
  - subst c. change ("+" +:+ ?t) with (String "+" t). cbn [unescape]. rewrite IH. done.
  - destruct (unreserved c) eqn:Ec.
    + change (String c "" +:+ ?t) with (String c t). rewrite unescape_plain by (intros; intros ->; discriminate Ec). by rewrite IH.
    + rewrite unescape_percent. by rewrite IH.
Qed.

(** A byte that is not kept, and is neither the percent sign nor a digit of a code, is not in an
    escaped text. *)
Lemma percent_free c x : c <> "%"%char -> alphanumeric c = false -> index_byte c (percent x) = None.
Proof.
  intros H1 H2. unfold percent. cbn [index_byte]. rewrite decide_False by congruence.
  assert (Hh : forall n, (n < 16)%N -> c <> upper_hex n).
  { intros n Hn ->. assert (n ∈ [0;1;2;3;4;5;6;7;8;9;10;11;12;13;14;15]%N) as H by (repeat rewrite elem_of_cons; lia).
    repeat (apply elem_of_cons in H as [->|H]; [discriminate H2|]). by apply elem_of_nil in H. }
  assert (Hx : (N_of_ascii x < 256)%N) by apply N_ascii_bounded.
  rewrite !decide_False; [done|..]; intros E; symmetry in E; revert E; apply Hh; [apply N.mod_lt; done|apply N.Div0.div_lt_upper_bound; lia].
Qed.

Lemma encode_free f c s : (forall x, index_byte c (f x) = None) -> index_byte c (encode f s) = None.
Proof. intros Hf. induction s as [|x s IH]; [done|]. cbn [encode]. by apply index_byte_app_None. Qed.

Lemma escape_free keep c s : keep c = false -> c <> "%"%char -> alphanumeric c = false -> index_byte c (escape keep s) = None.
Proof.
  intros Hk H1 H2. apply encode_free. intros x. destruct (keep x) eqn:Ex; [|by apply percent_free].
  cbn. rewrite decide_False; [done|]. intros ->. congruence.
Qed.

Lemma QueryEscape_free c s : unreserved c = false -> c <> "%"%char -> c <> "+"%char -> index_byte c (QueryEscape s) = None.
Proof.
  intros Hu H1 H2. assert (Ha : alphanumeric c = false) by (unfold unreserved in Hu; by apply orb_false_iff in Hu as [? _]).
  apply encode_free. intros x. case_decide; [cbn; by rewrite decide_False by congruence|]. destruct (unreserved x) eqn:Ex; [|by apply percent_free].
  cbn. rewrite decide_False; [done|]. intros ->. congruence.
Qed.

(** ** Printing a URL *)

(** A user with an optional password. *)
Record URL := { Scheme : string; User : option (string * option string); Host : string; Path : string; RawQuery : string }.
Definition Userinfo_String (u : string * option string) : string :=
  escape keep_user u.1 +:+ match u.2 with Some p => ":" +:+ escape keep_user p | None => "" end.
Definition EscapedPath (path : string) : string := if decide (path = "*") then "*" else escape keep_path path.
Definition URL_String (u : URL) : string :=
  (if decide (Scheme u = "") then "" else Scheme u +:+ ":") +:+
  (if decide (Scheme u = "" /\ Host u = "" /\ User u = None) then ""
   else (if decide (Host u = "" /\ Path u = "" /\ User u = None) then "" else "//") +:+
        match User u with Some ui => Userinfo_String ui +:+ "@" | None => "" end +:+ escape keep_host (Host u)) +:+
  (let path := EscapedPath (Path u) in
   (if bool_decide (path <> "") && negb (has_prefix path "/") && bool_decide (Host u <> "") then "/" else "") +:+ path) +:+
  (if decide (RawQuery u = "") then "" else "?" +:+ RawQuery u).

(** [Values.Encode] of parameters with sorted keys. *)
Definition Encode (params : list (string * string)) : string := join "&" (map (fun kv => QueryEscape kv.1 +:+ "=" +:+ QueryEscape kv.2) params).
