(* ===== verification/Texts.v ===== *)
(** * Texts

    The functions of package strings the models below use, on sequences of runes, and the lemmas
    about them: trimming, searching, replacing, joining and splitting. *)
From S2P Require Import Prelude Dsn.

Definition newline_rune : rune := 10%N.
Section trim.
Implicit Types (cut : rune -> bool) (s : text).

Fixpoint trim_left cut s : text :=
  match s with r :: s' => if cut r then trim_left cut s' else s | [] => [] end.
Definition trim_right cut s : text := reverse (trim_left cut (reverse s)).
(** [strings.Trim] with a set of runes to cut. *)
Definition trim cut s : text := trim_right cut (trim_left cut s).
End trim.

Definition dquote_rune : rune := 34%N.
Section texts.
Implicit Types s old new : text.

(** [strings.Contains] and [strings.Replace] of the first occurrence. *)
Fixpoint contains_text s sub : bool :=
  bool_decide (sub `prefix_of` s) || match s with [] => false | _ :: s' => contains_text s' sub end.
Fixpoint replace_first s old new : text :=
  if decide (old `prefix_of` s) then new ++ drop (length old) s
  else match s with [] => [] | r :: s' => r :: replace_first s' old new end.
Fixpoint join_texts (sep : text) (l : list text) : text :=
  match l with [] => [] | [s] => s | s :: l' => s ++ sep ++ join_texts sep l' end.
End texts.

(** [strings.Split] at a rune; the result is never empty. *)
Fixpoint split_text (c : rune) (s : text) : list text :=
  match s with
  | [] => [[]]
  | r :: s' =>
      if decide (r = c) then [] :: split_text c s'
      else match split_text c s' with w :: ws => (r :: w) :: ws | [] => [[r]] end
  end.

Section text_lemmas.
Implicit Types s t sub : text.

Lemma trim_left_split cut s : exists p, s = p ++ trim_left cut s /\ Forall (fun r => cut r = true) p.
Proof.
  induction s as [|r s (p & Hp & Hc)]; [by exists []|]. cbn. destruct (cut r) eqn:E.
  - exists (r :: p). cbn. split; [by f_equal|by constructor].
  - by exists [].
Qed.

Lemma trim_left_head cut s r : head (trim_left cut s) = Some r -> cut r = false.
Proof. induction s as [|x s IH]; [done|]. cbn. destruct (cut x) eqn:E; [done|]. by intros [= <-]. Qed.

Lemma trim_left_id cut s : (forall r, head s = Some r -> cut r = false) -> trim_left cut s = s.
Proof. destruct s as [|r s]; [done|]. cbn. intros H. by rewrite (H r eq_refl). Qed.

Lemma trim_split cut s : exists p q, s = p ++ trim cut s ++ q /\ Forall (fun r => cut r = true) (p ++ q).
Proof.
  destruct (trim_left_split cut s) as (p & Hp & Hcp).
  destruct (trim_left_split cut (reverse (trim_left cut s))) as (q & Hq & Hcq).
  exists p, (reverse q). unfold trim, trim_right. split.
  - rewrite Hp at 1. f_equal. apply (f_equal reverse) in Hq. by rewrite reverse_involutive, reverse_app in Hq.
  - apply Forall_app. split; [done|]. by apply Forall_reverse.
Qed.

Lemma trim_last cut s r : last (trim cut s) = Some r -> cut r = false.
Proof. unfold trim, trim_right. rewrite last_reverse. apply trim_left_head. Qed.

Lemma trim_head cut s r : head (trim cut s) = Some r -> cut r = false.
Proof.
  unfold trim, trim_right. rewrite head_reverse. intros H. apply (trim_left_head cut s).
  set (u := trim_left cut s) in *. destruct (trim_left_split cut (reverse u)) as (q & Hq & _).
  apply (f_equal reverse) in Hq. rewrite reverse_involutive, reverse_app in Hq. rewrite Hq.
  rewrite <- head_reverse in H. by destruct (reverse (trim_left cut (reverse u))).
Qed.

Lemma trim_id cut s : (forall r, head s = Some r -> cut r = false) -> (forall r, last s = Some r -> cut r = false) -> trim cut s = s.
Proof.
  intros H1 H2. unfold trim, trim_right. rewrite (trim_left_id cut s H1).
  rewrite trim_left_id; [by rewrite reverse_involutive|]. intros r. rewrite head_reverse. apply H2.
Qed.

Lemma trim_left_padded cut p s : Forall (fun r => cut r = true) p -> trim_left cut (p ++ s) = trim_left cut s.
Proof. induction 1 as [|r p Hr _ IH]; [done|]. cbn. by rewrite Hr. Qed.

(** What was padded with runes to cut is what is left. *)
Lemma trim_padded cut p s q :
  Forall (fun r => cut r = true) p -> Forall (fun r => cut r = true) q -> s <> [] ->
  (forall r, head s = Some r -> cut r = false) -> (forall r, last s = Some r -> cut r = false) ->
  trim cut (p ++ s ++ q) = s.
Proof.
  intros Hp Hq Hs Hh Hl. unfold trim, trim_right. rewrite trim_left_padded by done.
  rewrite (trim_left_id cut (s ++ q)) by (destruct s; [done|]; exact Hh).
  rewrite reverse_app, trim_left_padded by (by apply Forall_reverse).
  rewrite trim_left_id; [by rewrite reverse_involutive|]. intros r. rewrite head_reverse. apply Hl.
Qed.

Lemma contains_text_app s1 s2 sub : contains_text s2 sub = true -> contains_text (s1 ++ s2) sub = true.
Proof.
  intros H. induction s1 as [|r s1 IH]; [done|]. cbn [app contains_text]. rewrite IH. apply orb_true_r.
Qed.

Lemma contains_rune_false s r : contains_text s [r] = false -> Forall (fun x => x <> r) s.
Proof.
  induction s as [|x s IH]; [constructor|]. cbn [contains_text]. rewrite orb_false_iff, bool_decide_eq_false.
  intros [H1 H2]. constructor; [|by apply IH]. intros ->. apply H1. by exists s.
Qed.

Lemma contains_rune_true s r : r ∈ s -> contains_text s [r] = true.
Proof.
  intros H. apply list_elem_of_split in H as (s1 & s2 & ->). apply contains_text_app. cbn [contains_text].
  rewrite bool_decide_eq_true_2; [done|]. by exists s2.
Qed.

Lemma replace_first_prefix old new s : replace_first (old ++ s) old new = new ++ s.
Proof.
  destruct old as [|o old].
  - destruct s; cbn; by rewrite decide_True by (by eexists).
  - cbn [app replace_first]. rewrite decide_True by (by exists s). f_equal. cbn [length drop]. apply drop_app_length.
Qed.

Lemma split_text_nonempty c s : split_text c s <> [].
Proof. destruct s as [|r s]; cbn; [done|]. case_decide; [done|]. by destruct (split_text c s). Qed.

Lemma split_text_runes c s : Forall (fun l => Forall (fun r => r <> c) l) (split_text c s).
Proof.
  induction s as [|r s IH]; cbn [split_text]; [repeat constructor|]. case_decide; [by repeat constructor|].
  destruct (split_text c s) as [|w ws]; [by repeat constructor|]. apply Forall_cons in IH as [Hw Hws]. by repeat constructor.
Qed.

Lemma split_text_app c w s : Forall (fun r => r <> c) w -> split_text c (w ++ c :: s) = w :: split_text c s.
Proof.
  induction 1 as [|r w Hr _ IH]; cbn [app split_text]; [by rewrite decide_True|]. rewrite decide_False by done. by rewrite IH.
Qed.

Lemma split_text_single c w : Forall (fun r => r <> c) w -> split_text c w = [w].
Proof. induction 1 as [|r w Hr _ IH]; cbn [split_text]; [done|]. rewrite decide_False by done. by rewrite IH. Qed.

(** Splitting what was joined, and joining what was split. *)
Lemma split_join c ls : ls <> [] -> Forall (fun l => Forall (fun r => r <> c) l) ls -> split_text c (join_texts [c] ls) = ls.
Proof.
  intros Hn H. induction H as [|l ls Hl Hls IH]; [done|]. destruct ls as [|l' ls]; [by apply split_text_single|].
  change (join_texts [c] (l :: l' :: ls)) with (l ++ c :: join_texts [c] (l' :: ls)). rewrite split_text_app by done. by rewrite IH.
Qed.
Lemma join_split c s : join_texts [c] (split_text c s) = s.
Proof.
  induction s as [|r s IH]; [done|]. cbn [split_text]. pose proof (split_text_nonempty c s) as Hn.
  destruct (split_text c s) as [|w ws] eqn:E; [done|]. case_decide as Hr.
  - subst r. change (join_texts [c] ([] :: w :: ws)) with (c :: join_texts [c] (w :: ws)). by rewrite IH.
  - destruct ws as [|w' ws]; cbn [join_texts] in *; [by rewrite IH|].
    change ((r :: w) ++ ?x) with (r :: (w ++ x)). by rewrite IH.
Qed.
End text_lemmas.
