(* ===== verification/Decimal.v ===== *)
(** * Decimal numbers

    [strconv.ParseInt] in base 10, and that it reads what is printed. *)
From S2P Require Import Prelude.

(** The value of a sequence of digits after [acc]. *)
Fixpoint digits (acc : N) (s : string) : option N :=
  match s with
  | EmptyString => Some acc
  | String c s' =>
      let d := N_of_ascii c in
      if decide (48 <= d <= 57)%N then digits (acc * 10 + (d - 48)) s' else None
  end.
Definition unsigned (s : string) : option N := match s with EmptyString => None | _ => digits 0 s end.

(** [strconv.ParseInt(s, 10, bits)]: an optional sign, digits, and the bounds. *)
Definition ParseInt (bits : Z) (s : string) : option Z :=
  n ← match s with
      | String "-" s' => (fun n => - Z.of_N n)%Z <$> unsigned s'
      | String "+" s' => Z.of_N <$> unsigned s'
      | _ => Z.of_N <$> unsigned s
      end;
  if decide (- 2 ^ (bits - 1) <= n < 2 ^ (bits - 1))%Z then Some n else None.

Section numbers.
Local Open Scope N_scope.

Lemma pretty_N_char_code d : d < 10 -> N_of_ascii (pretty_N_char d) = 48 + d.
Proof.
  intros Hd. assert (d ∈ [0; 1; 2; 3; 4; 5; 6; 7; 8; 9]) as H.
  { repeat rewrite elem_of_cons. lia. }
  repeat (apply elem_of_cons in H as [->|H]; [reflexivity|]). by apply elem_of_nil in H.
Qed.

Lemma digits_cons acc d s : d < 10 -> digits acc (String (pretty_N_char d) s) = digits (acc * 10 + d) s.
Proof.
  intros Hd. cbn [digits]. rewrite (pretty_N_char_code d Hd), decide_True by lia. f_equal. lia.
Qed.

Lemma digits_go x s : digits 0 (pretty_N_go x s) = digits x s.
Proof.
  revert s. induction (N.lt_wf_0 x) as [x _ IH]. intros s. destruct (decide (0 < x)) as [Hx|Hx].
  - rewrite pretty_N_go_step by done. rewrite IH by (apply N.div_lt; lia).
    assert (x `mod` 10 < 10) by (apply N.mod_lt; lia). rewrite digits_cons by done. f_equal.
    rewrite (N.div_mod x 10) at 3 by lia. lia.
  - assert (x = 0) as -> by lia. by rewrite pretty_N_go_0.
Qed.

Lemma digits_pretty n : digits 0 (pretty n) = Some n.
Proof. unfold pretty, pretty_N. case_decide as H0; [by subst|]. by rewrite digits_go. Qed.

Lemma pretty_nonempty (n : N) : pretty n <> "".
Proof. intros E. pose proof (digits_pretty n) as Hd. rewrite E in Hd. injection Hd as <-. discriminate E. Qed.

Lemma unsigned_pretty n : unsigned (pretty n) = Some n.
Proof.
  unfold unsigned. pose proof (pretty_nonempty n). pose proof (digits_pretty n).
  by destruct (pretty n) as [|c s].
Qed.

(** A number begins with a digit. *)
Lemma digits_head c s n : digits 0 (String c s) = Some n -> 48 <= N_of_ascii c.
Proof. cbn [digits]. destruct (decide (48 <= N_of_ascii c <= 57)) as [[H _]|]; [done|discriminate]. Qed.

Lemma pretty_head (n : N) : exists c s, pretty n = String c s /\ 48 <= N_of_ascii c.
Proof.
  pose proof (pretty_nonempty n). pose proof (digits_pretty n) as Hd.
  destruct (pretty n) as [|c s]; [done|]. exists c, s. split; [done|]. by eapply digits_head.
Qed.

(** A number, with or without a sign. *)
Lemma ParseInt_pretty bits (n : N) :
  ParseInt bits (pretty n) = if decide (Z.of_N n < 2 ^ (bits - 1))%Z then Some (Z.of_N n) else None.
Proof.
  unfold ParseInt.
  assert (match pretty n with
          | String "-" s' => (fun n => - Z.of_N n)%Z <$> unsigned s'
          | String "+" s' => Z.of_N <$> unsigned s'
          | _ => Z.of_N <$> unsigned (pretty n)
          end = Some (Z.of_N n)) as ->.
  { pose proof (unsigned_pretty n) as Hu. destruct (pretty_head n) as (c & s & E & Hc). rewrite E in *.
    rewrite Hu. by destruct c as [[] [] [] [] [] [] [] []]; try done; cbn in Hc; lia. }
  cbn -[Z.sub Z.pow]. pose proof (Z.pow_nonneg 2 (bits - 1)). repeat case_decide; (lia || done).
Qed.
End numbers.
