(* ===== verification/Semaphore.v ===== *)
(** * Semaphores per key (internal/rate/semaphore.go, internal/ratetooling)

    The limiter keeps one weighted semaphore of golang.org/x/sync per key; [Exec] takes one unit
    of it, runs the function it is given and gives the unit back. The library's semaphore is a
    parameter: its operations, what can be observed of it, and its documented behaviour. Calls of
    [Exec] interleave: a run is a list of events, one for each atomic part of some call. *)
From S2P Require Import Prelude GoErrors.

(** ** Counting in finite maps *)

Section map_count.
Context {K V : Type} `{Countable K}.
Implicit Types m : gmap K V.

Definition map_count (P : V -> bool) m : nat := size (filter (fun kv => P kv.2 = true) m).

Lemma map_count_insert P m k v : m !! k = None ->
  map_count P (<[k := v]> m) = map_count P m + (if P v then 1 else 0).
Proof.
  intros Hk. unfold map_count. destruct (P v) eqn:E.
  - rewrite map_filter_insert_True by done. rewrite map_size_insert_None; [lia|].
    apply map_lookup_filter_None. by left.
  - rewrite map_filter_insert_False by (cbn; congruence). rewrite delete_id by done. lia.
Qed.

Lemma map_count_delete P m k v : m !! k = Some v ->
  map_count P m = map_count P (delete k m) + (if P v then 1 else 0).
Proof.
  intros Hk. rewrite <- (insert_delete_id m k v Hk) at 1.
  apply map_count_insert, lookup_delete_eq.
Qed.

Lemma map_count_update P m k u v : m !! k = Some u ->
  map_count P (<[k := v]> m) + (if P u then 1 else 0) = map_count P m + (if P v then 1 else 0).
Proof.
  intros Hk. rewrite (map_count_delete P m k u Hk), <- insert_delete_eq.
  rewrite map_count_insert by apply lookup_delete_eq. lia.
Qed.

Lemma map_count_ext P Q m : (forall k v, m !! k = Some v -> P v = Q v) -> map_count P m = map_count Q m.
Proof.
  intros HPQ. unfold map_count. f_equal. apply map_filter_ext. intros k v Hk. cbn. by rewrite (HPQ k v Hk).
Qed.

Lemma map_count_pos P m : 0 < map_count P m -> exists k v, m !! k = Some v /\ P v = true.
Proof.
  unfold map_count. intros Hs.
  destruct (map_choose (filter (fun kv => P kv.2 = true) m)) as (k & v & Hkv).
  { intros E. rewrite E, map_size_empty in Hs. lia. }
  apply map_lookup_filter_Some in Hkv as [??]. by exists k, v.
Qed.
End map_count.

(** ** The library *)

(** The weight of every call. *)
Definition weight : Z := 1.

(** [semaphore.Weighted] as seen by calls of weight [weight]: callers are numbers. [Acquire]
    says whether the caller holds the semaphore, or is blocked until a [Release] lists it among
    the callers that hold it now, or its context ends ([Leave]). The last three fields are what
    can be observed: the size, the total weight held, the callers that are queued. *)
Record Weighted_ops (Sem : Type) := {
  NewWeighted : Z -> Sem;
  Acquire : Sem -> nat -> Sem * bool;
  Leave : Sem -> nat -> Sem;
  Release : Sem -> Sem * list nat;
  sem_size : Sem -> Z;
  sem_held : Sem -> Z;
  sem_queue : Sem -> list nat
}.
Arguments NewWeighted {Sem}. Arguments Acquire {Sem}. Arguments Leave {Sem}.
Arguments Release {Sem}. Arguments sem_size {Sem}. Arguments sem_held {Sem}. Arguments sem_queue {Sem}.

(** Its behaviour: units are never over-committed; blocked callers are served in the order they
    came; a call that can never succeed blocks without a place in the queue; a caller that gives
    up leaves the semaphore as it was. *)
Record Weighted_laws {Sem : Type} (o : Weighted_ops Sem) : Prop := {
  new_law : forall n, sem_size o (NewWeighted o n) = n /\ sem_held o (NewWeighted o n) = 0%Z /\
    sem_queue o (NewWeighted o n) = [];
  acquire_law : forall s t s' b, Acquire o s t = (s', b) ->
    sem_size o s' = sem_size o s /\
    if decide (sem_held o s + weight <= sem_size o s /\ sem_queue o s = [])%Z
    then b = true /\ sem_held o s' = (sem_held o s + weight)%Z /\ sem_queue o s' = []
    else b = false /\ sem_held o s' = sem_held o s /\
         sem_queue o s' = sem_queue o s ++ (if decide (weight <= sem_size o s)%Z then [t] else []);
  leave_law : forall s t, sem_size o (Leave o s t) = sem_size o s /\
    sem_held o (Leave o s t) = sem_held o s /\
    sem_queue o (Leave o s t) = filter (fun u => u <> t) (sem_queue o s);
  release_law : forall s s' ts, Release o s = (s', ts) -> (weight <= sem_held o s)%Z ->
    let room := Z.to_nat (sem_size o s - (sem_held o s - weight)) in
    sem_size o s' = sem_size o s /\
    ts = take room (sem_queue o s) /\ sem_queue o s' = drop room (sem_queue o s) /\
    sem_held o s' = (sem_held o s - weight + Z.of_nat (length ts))%Z
}.

(** ** The limiter *)

(* go: internal/rate/semaphore.go | // SemaphoreConfig configures *)
Record SemaphoreConfig := { RequestsInFlight : Z }.
(* go: internal/rate/semaphore.go | // DefaultSemaphoreConfig returns *)
Definition DefaultSemaphoreConfig : SemaphoreConfig := {| RequestsInFlight := 1 |}.

(** The map holds pointers: a semaphore is a place in the heap, a list of semaphores. *)
(* go: internal/rate/semaphore.go | // SemaphoreLimiter is a rate limiter *)
Record SemaphoreLimiter := { container : gmap string nat; cfg : SemaphoreConfig }.
(* go: internal/rate/semaphore.go | // NewSemaphoreLimiter creates *)
Definition NewSemaphoreLimiter (c : SemaphoreConfig) : SemaphoreLimiter := {| container := ∅; cfg := c |}.

(** Where a call of [Exec] is. A call ends with the error of its context, or with what the
    function it ran returned, or with the panic of that function. *)
Inductive phase :=
| Calling (key : string)
| Have (key : string) (r : nat)
| Waiting (key : string) (r : nat)
| Running (key : string) (r : nat)
| Refused (err : error)
| Ran (res : outcome (option error)).

(** What can happen next: a call begins, looks its semaphore up, asks for it (and may find its
    context done), is given up because its context ends, or its function ends. *)
Inductive event :=
| Call (t : nat) (key : string)
| Get (t : nat)
| Ask (t : nat)
| GiveUp (t : nat) (err : error)
| Finish (t : nat) (res : outcome (option error)).

Section limiter.
Context {Sem : Type} (o : Weighted_ops Sem).

Record state := State { limiter : SemaphoreLimiter; heap : list Sem; threads : gmap nat phase }.

(** The whole method runs under the mutex. *)
(* go: internal/rate/semaphore.go | func (s *SemaphoreLimiter) getSemaphore *)
Definition getSemaphore (s : SemaphoreLimiter) (h : list Sem) (key : string)
    : SemaphoreLimiter * list Sem * nat :=
  match container s !! key with
  | Some value => (s, h, value)
  | None =>
      let r := length h in
      ({| container := <[key := r]> (container s); cfg := cfg s |},
       h ++ [NewWeighted o (RequestsInFlight (cfg s))], r)
  end.

(** Blocked callers that hold the semaphore now go on to run. *)
Fixpoint wake (ts : list nat) (m : gmap nat phase) : gmap nat phase :=
  match ts with
  | [] => m
  | t :: ts' => wake ts' (match m !! t with Some (Waiting k r) => <[t := Running k r]> m | _ => m end)
  end.

(** One atomic part of a call; the deferred [Release] comes after the function however it ends. *)
(* go: internal/rate/semaphore.go | // Exec executes the given function *)
Definition Exec_step (st : state) (ev : event) : option state :=
  let '(State l h ths) := st in
  match ev with
  | Call t key =>
      match ths !! t with None => Some (State l h (<[t := Calling key]> ths)) | Some _ => None end
  | Get t =>
      match ths !! t with
      | Some (Calling key) =>
          let '(l', h', r) := getSemaphore l h key in Some (State l' h' (<[t := Have key r]> ths))
      | _ => None
      end
  | Ask t =>
      match ths !! t with
      | Some (Have key r) =>
          s ← h !! r;
          let '(s', acquired) := Acquire o s t in
          Some (State l (<[r := s']> h)
                  (<[t := if (acquired : bool) then Running key r else Waiting key r]> ths))
      | _ => None
      end
  | GiveUp t err =>
      match ths !! t with
      | Some (Have _ _) => Some (State l h (<[t := Refused err]> ths))
      | Some (Waiting _ r) =>
          s ← h !! r; Some (State l (<[r := Leave o s t]> h) (<[t := Refused err]> ths))
      | _ => None
      end
  | Finish t res =>
      match ths !! t with
      | Some (Running _ r) =>
          s ← h !! r;
          let '(s', ts) := Release o s in
          Some (State l (<[r := s']> h) (wake ts (<[t := Ran res]> ths)))
      | _ => None
      end
  end.

Fixpoint run (st : state) (evs : list event) : option state :=
  match evs with
  | [] => Some st
  | ev :: evs' => st' ← Exec_step st ev; run st' evs'
  end.

Definition start (c : SemaphoreConfig) : state := State (NewSemaphoreLimiter c) [] ∅.

Definition is_running (r : nat) (p : phase) : bool :=
  match p with Running _ r' => bool_decide (r' = r) | _ => false end.
Definition is_running_key (key : string) (p : phase) : bool :=
  match p with Running k _ => bool_decide (k = key) | _ => false end.

(** How many functions run for the key; how many calls on semaphore [r] end in a run. *)
Definition in_flight (key : string) (st : state) : nat := map_count (is_running_key key) (threads st).
Definition finishes (r : nat) (st : state) (ev : event) : nat :=
  match ev with
  | Finish t _ => match threads st !! t with Some p => if is_running r p then 1 else 0 | None => 0 end
  | _ => 0
  end.
Fixpoint finished (r : nat) (st : state) (evs : list event) : nat :=
  match evs with
  | [] => 0
  | ev :: evs' =>
      finishes r st ev + match Exec_step st ev with Some st' => finished r st' evs' | None => 0 end
  end.

(** The function of the call was started. *)
Definition has_run (p : phase) : bool := match p with Running _ _ | Ran _ => true | _ => false end.
End limiter.
Arguments State {Sem}. Arguments limiter {Sem}. Arguments heap {Sem}. Arguments threads {Sem}.
Arguments start {Sem}. Arguments in_flight {Sem}.

(** ** The copy of the limiter in internal/ratetooling

    Its methods are those above, word for word. *)

(* go: internal/ratetooling/perstringsemaphore.go | type SemaphoreBasedConfig *)
Definition SemaphoreBasedConfig : Type := SemaphoreConfig.
(* go: internal/ratetooling/perstringsemaphore.go | func DefaultSemaphoreBasedConfig *)
Definition DefaultSemaphoreBasedConfig : SemaphoreBasedConfig := {| RequestsInFlight := 1 |}.
(* go: internal/ratetooling/perstringsemaphore.go | type SemaphoreBasedLimiter *)
Definition SemaphoreBasedLimiter : Type := SemaphoreLimiter.
(* go: internal/ratetooling/perstringsemaphore.go | func NewSemaphoreBasedLimiter *)
Definition NewSemaphoreBasedLimiter (c : SemaphoreBasedConfig) : SemaphoreBasedLimiter :=
  {| container := ∅; cfg := c |}.
(* go: internal/ratetooling/perstringsemaphore.go | func (p *SemaphoreBasedLimiter) getSemaphore *)
Definition SemaphoreBased_getSemaphore {Sem} : Weighted_ops Sem -> SemaphoreBasedLimiter -> list Sem -> string ->
    SemaphoreBasedLimiter * list Sem * nat := getSemaphore.
(* go: internal/ratetooling/perstringsemaphore.go | func (p *SemaphoreBasedLimiter) Exec *)
Definition SemaphoreBased_Exec_step {Sem} : Weighted_ops Sem -> @state Sem -> event -> option (@state Sem) := Exec_step.

(** ** Waking blocked callers *)

Section wake.
Implicit Types (m : gmap nat phase) (ts : list nat).

Definition all_waiting (r : nat) ts m : Prop := forall u, u ∈ ts -> exists k, m !! u = Some (Waiting k r).

Lemma all_waiting_cons r t ts m k : NoDup (t :: ts) -> all_waiting r (t :: ts) m ->
  all_waiting r ts (<[t := Running k r]> m).
Proof.
  intros Hnd Hw u Hu. apply NoDup_cons in Hnd as [Ht _].
  rewrite lookup_insert_ne by (intros <-; done). apply Hw. by constructor.
Qed.

Lemma wake_ne ts m u : u ∉ ts -> wake ts m !! u = m !! u.
Proof.
  revert m. induction ts as [|t ts IH]; intros m Hu; cbn [wake]; [done|].
  apply not_elem_of_cons in Hu as [Hne Hu]. rewrite IH by done.
  destruct (m !! t) as [[]|]; try done. by apply lookup_insert_ne.
Qed.

Lemma wake_eq ts m u k r : NoDup ts -> all_waiting r ts m -> u ∈ ts -> m !! u = Some (Waiting k r) ->
  wake ts m !! u = Some (Running k r).
Proof.
  revert m. induction ts as [|t ts IH]; intros m Hnd Hw Hu Hm; [by apply elem_of_nil in Hu|].
  cbn [wake]. destruct (Hw t) as [k' Hk']; [by constructor|]. rewrite Hk'.
  pose proof Hnd as Hnd'. apply NoDup_cons in Hnd' as [Ht Hnd'].
  apply elem_of_cons in Hu as [->|Hu].
  - rewrite wake_ne by done. rewrite Hm in Hk'. simplify_eq. apply lookup_insert_eq.
  - apply IH; [done|by apply (all_waiting_cons r)|done|].
    rewrite lookup_insert_ne; [done|]. by intros <-.
Qed.

Lemma wake_count ts m r r' : NoDup ts -> all_waiting r ts m ->
  map_count (is_running r') (wake ts m) =
  map_count (is_running r') m + (if decide (r' = r) then length ts else 0).
Proof.
  revert m. induction ts as [|t ts IH]; intros m Hnd Hw; cbn [wake length]; [case_decide; lia|].
  destruct (Hw t) as [k Hk]; [by constructor|]. rewrite Hk.
  rewrite IH; [|by apply NoDup_cons in Hnd as [_ ?]|by apply all_waiting_cons].
  pose proof (map_count_update (is_running r') m t _ (Running k r) Hk) as E. cbn [is_running] in E.
  case_decide; case_bool_decide; try congruence; lia.
Qed.

Lemma wake_waiting ts m r u k r' : NoDup ts -> all_waiting r ts m ->
  wake ts m !! u = Some (Waiting k r') <-> u ∉ ts /\ m !! u = Some (Waiting k r').
Proof.
  intros Hnd Hw. destruct (decide (u ∈ ts)) as [Hu|Hu].
  - destruct (Hw u Hu) as [k' Hk']. rewrite (wake_eq ts m u k' r) by done. naive_solver.
  - rewrite wake_ne by done. naive_solver.
Qed.
End wake.

(** ** The invariant *)

Section invariant.
Context {Sem : Type} (o : Weighted_ops Sem) (laws : Weighted_laws o).
Implicit Types (s : Sem) (ths : gmap nat phase).

(** What holds of semaphore [r]: it counts the running functions, within its size, and its queue
    holds the blocked callers; it is full if there are any. *)
Record sem_inv (c : SemaphoreConfig) ths (r : nat) s : Prop := {
  si_size : sem_size o s = RequestsInFlight c;
  si_held : sem_held o s = Z.of_nat (map_count (is_running r) ths);
  si_bound : (sem_held o s <= Z.max 0 (RequestsInFlight c))%Z;
  si_nodup : NoDup (sem_queue o s);
  si_queue : all_waiting r (sem_queue o s) ths;
  si_waiting : (1 <= RequestsInFlight c)%Z -> forall t k, ths !! t = Some (Waiting k r) -> t ∈ sem_queue o s;
  si_full : sem_queue o s <> [] -> (1 <= RequestsInFlight c)%Z /\ sem_held o s = RequestsInFlight c
}.

Definition place (p : phase) : option (string * nat) :=
  match p with Have k r | Waiting k r | Running k r => Some (k, r) | _ => None end.

(** What holds of the whole: keys have semaphores of their own, every call uses that of its key. *)
Record invariant (c : SemaphoreConfig) (st : state) : Prop := {
  in_cfg : cfg (limiter st) = c;
  in_container : forall k r, container (limiter st) !! k = Some r -> r < length (heap st);
  in_injective : forall k1 k2 r, container (limiter st) !! k1 = Some r -> container (limiter st) !! k2 = Some r -> k1 = k2;
  in_threads : forall t p k r, threads st !! t = Some p -> place p = Some (k, r) -> container (limiter st) !! k = Some r;
  in_heap : forall r s, heap st !! r = Some s -> sem_inv c (threads st) r s
}.

Lemma sem_inv_ext c ths ths' r s :
  map_count (is_running r) ths' = map_count (is_running r) ths ->
  (forall t k, ths' !! t = Some (Waiting k r) <-> ths !! t = Some (Waiting k r)) ->
  sem_inv c ths r s -> sem_inv c ths' r s.
Proof.
  intros Hc Hw [H1 H2 H3 H4 H5 H6 H7]. split; try done.
  - by rewrite Hc.
  - intros u Hu. destruct (H5 u Hu) as [k Hk]. exists k. by apply Hw.
  - intros Hs t k Ht. apply (H6 Hs t k). by apply Hw.
Qed.

(** A thread that neither ran nor waited at [r], before and after. *)
Definition apart (r : nat) (p : phase) : Prop :=
  is_running r p = false /\ forall k, p <> Waiting k r.

Lemma sem_inv_apart c ths r s t p :
  (forall q, ths !! t = Some q -> apart r q) -> apart r p ->
  sem_inv c ths r s -> sem_inv c (<[t := p]> ths) r s.
Proof.
  intros Hop [Hp1 Hp2]. apply sem_inv_ext.
  - destruct (ths !! t) as [q|] eqn:Ht.
    + pose proof (map_count_update (is_running r) ths t q p Ht) as E.
      destruct (Hop q eq_refl) as [Hq _]. rewrite Hp1, Hq in E. lia.
    + rewrite map_count_insert by done. rewrite Hp1. lia.
  - intros u k. destruct (decide (u = t)) as [->|Hne].
    + rewrite lookup_insert_eq. split; intros E; [by simplify_eq; destruct (Hp2 k)|].
      destruct (Hop _ E) as [_ Hq]. by destruct (Hq k).
    + by rewrite lookup_insert_ne by done.
Qed.

Lemma in_place c st t p k r : invariant c st -> threads st !! t = Some p -> place p = Some (k, r) ->
  exists s, heap st !! r = Some s /\ sem_inv c (threads st) r s.
Proof.
  intros I Ht Hp. pose proof (in_container _ _ I _ _ (in_threads _ _ I _ _ _ _ Ht Hp)) as Hr.
  destruct (lookup_lt_is_Some_2 (heap st) r Hr) as [s Hs]. exists s. split; [done|]. by apply (in_heap _ _ I).
Qed.

(** A step that only moves thread [t], away from every semaphore or to one it has a place at. *)
Lemma invariant_idle c l h ths t p :
  (forall r q, ths !! t = Some q -> apart r q) -> (forall r, apart r p) ->
  (forall k r, place p = Some (k, r) -> container l !! k = Some r) ->
  invariant c (State l h ths) -> invariant c (State l h (<[t := p]> ths)).
Proof.
  intros Hq Hp Hpl [I1 I2 I3 I4 I5]. split; cbn in *; try done.
  - intros u p' k r Hu Hp'. destruct (decide (u = t)) as [->|Hne].
    + rewrite lookup_insert_eq in Hu. simplify_eq. by apply Hpl.
    + rewrite lookup_insert_ne in Hu by done. by apply (I4 u p' k r).
  - intros r s Hs. apply sem_inv_apart; eauto.
Qed.

(** A step that changes semaphore [r] and threads at [r] only. *)
Lemma invariant_local c l h ths r s' ths' :
  sem_inv c ths' r s' ->
  (forall r', r' <> r -> map_count (is_running r') ths' = map_count (is_running r') ths /\
     forall t k, ths' !! t = Some (Waiting k r') <-> ths !! t = Some (Waiting k r')) ->
  (forall t p' kr, ths' !! t = Some p' -> place p' = Some kr -> exists p, ths !! t = Some p /\ place p = Some kr) ->
  invariant c (State l h ths) -> invariant c (State l (<[r := s']> h) ths').
Proof.
  intros Hr Hother Hpl [I1 I2 I3 I4 I5]. split; cbn in *; try done.
  - intros k r' Hk. rewrite length_insert. by apply (I2 k).
  - intros t p' k r' Ht Hp'. destruct (Hpl t p' (k, r') Ht Hp') as (p & Hp & Hpp). by apply (I4 t p).
  - intros r' s Hs. destruct (decide (r' = r)) as [->|Hne].
    + apply list_lookup_insert_Some in Hs as [(_ & <- & _)|[? _]]; done.
    + rewrite list_lookup_insert_ne in Hs by done. destruct (Hother r' Hne) as [Hc Hw].
      apply (sem_inv_ext c ths); auto.
Qed.

(** The same for a step that moves one thread within [r], or out of it. *)
Lemma invariant_move c l h ths t q r k s' p' :
  ths !! t = Some q -> place q = Some (k, r) -> (place p' = Some (k, r) \/ place p' = None) ->
  sem_inv c (<[t := p']> ths) r s' ->
  invariant c (State l h ths) -> invariant c (State l (<[r := s']> h) (<[t := p']> ths)).
Proof.
  intros Ht Hq Hp Hr. apply invariant_local; [done| |].
  - intros r' Hne.
    assert (forall p'', place p'' = Some (k, r) \/ place p'' = None ->
      is_running r' p'' = false /\ forall k', p'' <> Waiting k' r') as Hap.
    { intros p'' Hp''. destruct p''; cbn; destruct Hp''; simplify_eq/=; try done;
        rewrite ?bool_decide_eq_false_2 by congruence; split; congruence. }
    destruct (Hap q (or_introl Hq)) as [Hq1 Hq2], (Hap p' Hp) as [Hp1 Hp2]. split.
    + pose proof (map_count_update (is_running r') ths t q p' Ht) as E. rewrite Hq1, Hp1 in E. lia.
    + intros u k'. destruct (decide (u = t)) as [->|?].
      * rewrite lookup_insert_eq, Ht. split; intros E; simplify_eq; [by destruct (Hp2 k')|by destruct (Hq2 k')].
      * by rewrite lookup_insert_ne by done.
  - intros u p'' kr Hu Hp''. destruct (decide (u = t)) as [->|?].
    + rewrite lookup_insert_eq in Hu. simplify_eq. exists q. split; [done|]. destruct Hp; congruence.
    + rewrite lookup_insert_ne in Hu by done. eauto.
Qed.

Lemma getSemaphore_inv c l h ths key l' h' r : invariant c (State l h ths) ->
  getSemaphore o l h key = (l', h', r) ->
  invariant c (State l' h' ths) /\ container l' !! key = Some r.
Proof.
  intros [I1 I2 I3 I4 I5]. unfold getSemaphore. cbn in *.
  destruct (container l !! key) as [v|] eqn:E; intros H; simplify_eq; [by split|].
  assert (forall k r, container l !! k = Some r -> r <> length h) as Hne by (intros k r ? ->; by apply I2 in H; lia).
  split; [|cbn; apply lookup_insert_eq]. split; cbn.
  - done.
  - intros k r. rewrite length_app. cbn. rewrite lookup_insert. case_decide; intros ?; simplify_eq; [lia|].
    assert (r < length h) by eauto. lia.
  - intros k1 k2 r. rewrite !lookup_insert. repeat case_decide; intros ? ?; simplify_eq; eauto;
      exfalso; eapply Hne; eauto.
  - intros t p k r Ht Hp. rewrite lookup_insert. case_decide as Hk; [|by eapply I4].
    subst. by rewrite (I4 t p k r Ht Hp) in E.
  - intros r s Hs. apply lookup_app_Some in Hs as [Hs|[Hlen Hs]]; [by apply I5|].
    apply list_lookup_singleton_Some in Hs as [Hr <-].
    destruct (new_law o laws (RequestsInFlight (cfg l))) as (Hn1 & Hn2 & Hn3).
    assert (forall t p k, ths !! t = Some p -> place p <> Some (k, r)) as Hno.
    { intros t p k Ht Hp. apply (I4 t p k r) in Ht; [|done]. apply I2 in Ht. lia. }
    assert (map_count (is_running r) ths = 0) as Hc.
    { destruct (map_count (is_running r) ths) eqn:Ec; [done|].
      destruct (map_count_pos (is_running r) ths) as (t & p & Ht & Hp); [lia|].
      destruct p; try done. apply bool_decide_eq_true in Hp. subst. by destruct (Hno t _ key0 Ht). }
    split; rewrite ?Hn1, ?Hn2, ?Hn3, ?Hc; try done; [lia|constructor| |].
    + intros u Hu. by apply elem_of_nil in Hu.
    + intros _ t k Ht. by destruct (Hno t _ k Ht).
Qed.

Lemma sem_inv_ask c ths r s t k s' b : sem_inv c ths r s -> ths !! t = Some (Have k r) ->
  Acquire o s t = (s', b) -> sem_inv c (<[t := if (b : bool) then Running k r else Waiting k r]> ths) r s'.
Proof.
  intros [H1 H2 H3 H4 H5 H6 H7] Ht Ha. destruct (acquire_law o laws _ _ _ _ Ha) as [L1 L2].
  assert (t ∉ sem_queue o s) as Hnq by (intros Hu; destruct (H5 t Hu); congruence).
  pose proof (map_count_update (is_running r) ths t _
                (if b then Running k r else Waiting k r) Ht) as E. cbn in E.
  unfold weight in *. case_decide as Hd.
  - destruct L2 as (-> & L2 & L3), Hd as [Hd Hq]. cbn in E. rewrite bool_decide_eq_true_2 in E by done.
    split; rewrite ?L1, ?L2, ?L3; try done; try lia.
    + constructor.
    + intros u Hu. by apply elem_of_nil in Hu.
    + intros Hs u k'. rewrite lookup_insert. case_decide; intros ?; simplify_eq.
      rewrite <- Hq. by apply (H6 Hs u k').
  - destruct L2 as (-> & L2 & L3). cbn in E.
    split; rewrite ?L1, ?L2, ?L3; try done; try lia.
    + case_decide; [|by rewrite app_nil_r]. apply NoDup_app. split_and!; [done| |apply NoDup_singleton].
      intros u Hu ->%list_elem_of_singleton. done.
    + intros u Hu. rewrite lookup_insert. destruct (decide (t = u)) as [|Hut]; [by eexists|]. apply H5.
      apply elem_of_app in Hu as [?|Hu]; [done|]. case_decide; [|by apply elem_of_nil in Hu].
      apply list_elem_of_singleton in Hu. congruence.
    + intros Hs u k'. rewrite elem_of_app, decide_True by lia. rewrite lookup_insert.
      destruct (decide (t = u)); intros ?; simplify_eq; [right; apply list_elem_of_here|left; by apply (H6 Hs u k')].
    + intros Hne. case_decide; [|rewrite app_nil_r in Hne; by apply H7].
      destruct (sem_queue o s) as [|u q] eqn:Eq; [|by apply H7]. split; [lia|].
      destruct (decide (sem_held o s + 1 <= sem_size o s)%Z); [naive_solver|lia].
Qed.

Lemma sem_inv_leave c ths r s t k err : sem_inv c ths r s -> ths !! t = Some (Waiting k r) ->
  sem_inv c (<[t := Refused err]> ths) r (Leave o s t).
Proof.
  intros [H1 H2 H3 H4 H5 H6 H7] Ht. destruct (leave_law o laws s t) as (L1 & L2 & L3).
  pose proof (map_count_update (is_running r) ths t _ (Refused err) Ht) as E. cbn in E.
  split; rewrite ?L1, ?L2, ?L3; try done; try lia.
  - by apply NoDup_filter.
  - intros u [Hut Hu]%list_elem_of_filter. rewrite lookup_insert_ne by done. by apply H5.
  - intros Hs u k'. rewrite lookup_insert. case_decide; intros ?; simplify_eq.
    apply list_elem_of_filter. split; [done|]. by apply (H6 Hs u k').
  - intros Hne. apply H7. intros E'. by rewrite E' in Hne.
Qed.

Lemma sem_inv_release c ths r s t k s' ts res : sem_inv c ths r s -> ths !! t = Some (Running k r) ->
  Release o s = (s', ts) ->
  sem_queue o s = ts ++ sem_queue o s' /\ (ts = [] -> sem_queue o s = []) /\
  sem_inv c (wake ts (<[t := Ran res]> ths)) r s'.
Proof.
  intros [H1 H2 H3 H4 H5 H6 H7] Ht Hrel.
  pose proof (map_count_update (is_running r) ths t _ (Ran res) Ht) as E. cbn in E.
  rewrite bool_decide_eq_true_2 in E by done.
  destruct (release_law o laws _ _ _ Hrel) as (L1 & L2 & L3 & L4); [unfold weight; lia|].
  cbn in L2, L3. unfold weight in *. set (room := Z.to_nat (sem_size o s - (sem_held o s - 1))) in *.
  assert (sem_queue o s = ts ++ sem_queue o s') as Hq by (rewrite L2, L3; symmetry; apply take_drop).
  assert (NoDup ts /\ NoDup (sem_queue o s') /\ forall u, u ∈ ts -> u ∉ sem_queue o s') as (Hn1 & Hn2 & Hn3).
  { rewrite Hq in H4. apply NoDup_app in H4. naive_solver. }
  assert (forall u, u ∈ sem_queue o s -> exists k, (<[t := Ran res]> ths) !! u = Some (Waiting k r)) as Hw.
  { intros u Hu. destruct (H5 u Hu) as [k' Hk']. exists k'. rewrite lookup_insert_ne; [done|]. intros <-. congruence. }
  assert (all_waiting r ts (<[t := Ran res]> ths)) as Hw'.
  { intros u Hu. apply Hw. rewrite Hq. apply elem_of_app. by left. }
  assert (sem_queue o s <> [] -> room = 1) as Hroom by (intros Hne; apply H7 in Hne; lia).
  split_and!; [done| |split; rewrite ?L1; try done].
  - intros ->. destruct (sem_queue o s) as [|u q] eqn:Eq; [done|]. by rewrite Hroom in L2.
  - rewrite wake_count with (r := r) by done. rewrite decide_True by done. lia.
  - destruct (sem_queue o s) as [|u q] eqn:Eq; rewrite L2 in L4; [rewrite take_nil in L4; cbn in L4; lia|].
    rewrite (Hroom ltac:(done)) in L4. cbn in L4. rewrite take_0 in L4. cbn in L4. lia.
  - intros u Hu. destruct (Hw u) as [k' Hk']; [rewrite Hq; apply elem_of_app; by right|].
    exists k'. apply (wake_waiting ts _ r); [done..|]. split; [|done]. intros Hu'. by apply (Hn3 u).
  - intros Hs u k' Hu. apply (wake_waiting ts _ r) in Hu as [Hnu Hu]; [|done..].
    rewrite lookup_insert in Hu. destruct (decide (t = u)); [done|].
    pose proof (H6 Hs u k' Hu) as Hin. rewrite Hq in Hin. apply elem_of_app in Hin. naive_solver.
  - intros Hne. assert (sem_queue o s <> []) as Hne' by (rewrite Hq; by destruct ts).
    destruct (H7 Hne') as [? Hh]. split; [done|]. rewrite L4, L2, (Hroom Hne').
    destruct (sem_queue o s); [done|]. cbn. rewrite take_0. cbn. lia.
Qed.

Lemma invariant_finish c l h ths t k r s s' ts res :
  ths !! t = Some (Running k r) -> sem_inv c ths r s -> sem_queue o s = ts ++ sem_queue o s' ->
  sem_inv c (wake ts (<[t := Ran res]> ths)) r s' ->
  invariant c (State l h ths) -> invariant c (State l (<[r := s']> h) (wake ts (<[t := Ran res]> ths))).
Proof.
  intros Ht Hs Hq Hs' I.
  assert (NoDup ts /\ all_waiting r ts (<[t := Ran res]> ths)) as [Hnd Hw].
  { destruct Hs as [_ _ _ H4 H5 _ _]. rewrite Hq in H4. apply NoDup_app in H4 as [? _]. split; [done|].
    intros u Hu. destruct (H5 u) as [k' Hk']; [rewrite Hq; apply elem_of_app; by left|].
    exists k'. rewrite lookup_insert_ne; [done|]. intros <-. congruence. }
  apply (invariant_local c l h ths r); [done| | |done].
  - intros r' Hne. rewrite wake_count with (r := r) by done. rewrite decide_False by done.
    pose proof (map_count_update (is_running r') ths t _ (Ran res) Ht) as E. cbn in E.
    rewrite bool_decide_eq_false_2 in E by congruence. split; [lia|].
    intros u k'. rewrite (wake_waiting ts _ r u k' r') by done. rewrite lookup_insert.
    destruct (decide (t = u)) as [<-|]; [naive_solver|]. split; [naive_solver|]. intros Hu. split; [|done].
    intros Hin. destruct (Hw u Hin) as [k'' Hk'']. rewrite lookup_insert_ne in Hk'' by done. congruence.
  - intros u p' kr Hu Hp'. destruct (decide (u ∈ ts)) as [Hin|Hin].
    + destruct (Hw u Hin) as [k' Hk']. rewrite (wake_eq ts _ u k' r) in Hu by done. simplify_eq/=.
      rewrite lookup_insert in Hk'. destruct (decide (t = u)); [done|]. by exists (Waiting k' r).
    + rewrite wake_ne, lookup_insert in Hu by done. destruct (decide (t = u)); simplify_eq; eauto.
Qed.

Lemma invariant_step c st ev st' : invariant c st -> Exec_step o st ev = Some st' -> invariant c st'.
Proof.
  intros I. pose proof (fun t => in_place c st t) as Hpl. pose proof (in_threads _ _ I) as Hth.
  destruct st as [l h ths]. cbn in *. destruct ev as [t key|t|t|t err|t res]; cbn [Exec_step].
  all: destruct (ths !! t) as [p|] eqn:Ht; [|try done]; [try destruct p as [k|k r|k r|k r|e|e]; try done|..].
  - intros [= <-]. apply invariant_idle; [congruence|done|done|done].
  - destruct (getSemaphore o l h k) as [[l' h'] r] eqn:Hg. intros [= <-].
    destruct (getSemaphore_inv _ _ _ _ _ _ _ _ I Hg) as [I' Hk].
    apply invariant_idle; [by intros ? q; rewrite Ht; intros [= <-]|done|by intros ? ? [= <- <-]|done].
  - destruct (Hpl t _ k r I Ht eq_refl) as (s & Hs & Hsi). rewrite Hs. cbn.
    destruct (Acquire o s t) as [s' b] eqn:Ha. intros [= <-].
    apply (invariant_move c l h ths t (Have k r) r k); [done|done|left; by destruct b| |done].
    by apply (sem_inv_ask c ths r s).
  - intros [= <-]. apply invariant_idle; [by intros ? q; rewrite Ht; intros [= <-]|done|done|done].
  - destruct (Hpl t _ k r I Ht eq_refl) as (s & Hs & Hsi). rewrite Hs. cbn. intros [= <-].
    apply (invariant_move c l h ths t (Waiting k r) r k); [done|done|by right| |done].
    by apply (sem_inv_leave c ths r s t k).
  - destruct (Hpl t _ k r I Ht eq_refl) as (s & Hs & Hsi). rewrite Hs. cbn.
    destruct (Release o s) as [s' ts] eqn:Hr. intros [= <-].
    destruct (sem_inv_release c ths r s t k s' ts res Hsi Ht Hr) as (Hq & _ & Hsi').
    by apply (invariant_finish c l h ths t k r s s' ts res).
Qed.

Lemma invariant_run c st evs st' : invariant c st -> run o st evs = Some st' -> invariant c st'.
Proof.
  revert st. induction evs as [|ev evs IH]; intros st I; cbn [run]; [by intros [= <-]|].
  destruct (Exec_step o st ev) as [st1|] eqn:E; cbn; [|done].
  apply IH. by apply (invariant_step c st ev).
Qed.

Lemma invariant_start c : invariant c (start c).
Proof. split; cbn; try done. Qed.

(** ** Progress of blocked callers *)

Lemma filter_lookup_le (t : nat) (l : list nat) i u : l !! i = Some u -> u <> t ->
  exists j, j <= i /\ filter (fun v => v <> t) l !! j = Some u.
Proof.
  revert i. induction l as [|x l IH]; intros [|i] Hi Hu; simplify_eq/=.
  - exists 0. by rewrite filter_cons_True.
  - destruct (IH i Hi Hu) as (j & Hj & Hf). destruct (decide (x = t)) as [->|Hx].
    + exists j. rewrite filter_cons_False by naive_solver. split; [lia|done].
    + exists (S j). rewrite filter_cons_True by done. split; [lia|done].
Qed.

Lemma queue_release c ths r s u k s' ts res pos t (h : list Sem) :
  sem_inv c ths r s -> h !! r = Some s -> sem_queue o s !! pos = Some t -> ths !! u = Some (Running k r) ->
  sem_queue o s = ts ++ sem_queue o s' -> (ts = [] -> sem_queue o s = []) ->
  (exists k, wake ts (<[u := Ran res]> ths) !! t = Some (Running k r)) \/
  (exists s1 pos', <[r := s']> h !! r = Some s1 /\ sem_queue o s1 !! pos' = Some t /\ pos' + 1 <= pos).
Proof.
  intros [_ _ _ H4 H5 _ _] Hh Hq Hu Hts Hnil. rewrite Hts in Hq, H4. apply NoDup_app in H4 as (Hnd & _ & _).
  assert (all_waiting r ts (<[u := Ran res]> ths)) as Hw.
  { intros v Hv. destruct (H5 v) as [k' Hk']; [rewrite Hts; apply elem_of_app; by left|].
    exists k'. rewrite lookup_insert_ne; [done|]. intros <-. congruence. }
  apply lookup_app_Some in Hq as [Hq|[Hlen Hq]].
  - left. assert (t ∈ ts) as Ht by (by eapply list_elem_of_lookup_2).
    destruct (Hw t Ht) as [k' Hk']. exists k'. by apply wake_eq.
  - right. exists s', (pos - length ts). rewrite list_lookup_insert_eq by (by eapply lookup_lt_Some).
    split_and!; [done|done|]. destruct ts; [|cbn in *; lia]. rewrite Hnil in Hts by done. cbn in Hts. rewrite <- Hts in Hq. done.
Qed.

(** After a step the caller runs, or it has its place in the queue, a better one after a
    release. *)
Lemma queue_step c st ev st' r s pos t :
  invariant c st -> heap st !! r = Some s -> sem_queue o s !! pos = Some t ->
  Exec_step o st ev = Some st' -> (forall err, ev <> GiveUp t err) ->
  (exists k, threads st' !! t = Some (Running k r)) \/
  (exists s' pos', heap st' !! r = Some s' /\ sem_queue o s' !! pos' = Some t /\
     pos' + finishes r st ev <= pos).
Proof.
  intros I Hs Hq Hst Hev. destruct (in_heap _ _ I r s Hs) as [_ _ _ _ H5 _ H7].
  pose proof (fun t => in_place c st t) as Hpl. destruct st as [l h ths]. cbn [heap threads] in *.
  assert (forall l' ths', (exists s' pos', heap (State l' h ths') !! r = Some s' /\
    sem_queue o s' !! pos' = Some t /\ pos' + 0 <= pos)) as Hstay by (intros; exists s, pos; cbn; split_and!; [done..|lia]).
  destruct ev as [u key|u|u|u err|u res]; cbn [Exec_step finishes] in *.
  all: destruct (ths !! u) as [p|] eqn:Hu; [|try done]; [try destruct p as [k|k r'|k r'|k r'|e|e]; try done|..].
  all: try (injection Hst as <-; right; by apply Hstay).
  - unfold getSemaphore in Hst. destruct (container l !! k); injection Hst as <-; right; [by apply Hstay|].
    exists s, pos. cbn. split_and!; [by apply lookup_app_l_Some|done|lia].
  - destruct (Hpl u _ k r' I Hu eq_refl) as (s1 & Hs1 & _). rewrite Hs1 in Hst. cbn in Hst.
    destruct (Acquire o s1 u) as [s' b] eqn:Ha. injection Hst as <-. right.
    destruct (decide (r' = r)) as [->|Hne]; cbn; [|rewrite list_lookup_insert_ne by done; by apply (Hstay l ths)].
    rewrite Hs in Hs1. simplify_eq. destruct (acquire_law o laws _ _ _ _ Ha) as [_ L].
    rewrite decide_False in L by (intros [_ E]; rewrite E in Hq; done).
    exists s', pos. rewrite list_lookup_insert_eq by (by eapply lookup_lt_Some).
    destruct L as (_ & _ & ->). split_and!; [done|by apply lookup_app_l_Some|lia].
  - destruct (Hpl u _ k r' I Hu eq_refl) as (s1 & Hs1 & _). rewrite Hs1 in Hst. cbn in Hst. injection Hst as <-. right.
    destruct (decide (r' = r)) as [->|Hne]; cbn; [|rewrite list_lookup_insert_ne by done; by apply (Hstay l ths)].
    rewrite Hs in Hs1. simplify_eq. destruct (leave_law o laws s1 u) as (_ & _ & L).
    destruct (filter_lookup_le u _ _ _ Hq) as (j & Hj & Hf); [by intros <-; destruct (Hev err)|].
    exists (Leave o s1 u), j. rewrite list_lookup_insert_eq by (by eapply lookup_lt_Some).
    rewrite L. split_and!; [done|done|lia].
  - destruct (Hpl u _ k r' I Hu eq_refl) as (s1 & Hs1 & Hsi). rewrite Hs1 in Hst. cbn in Hst.
    destruct (Release o s1) as [s' ts] eqn:Hr. injection Hst as <-. cbn. rewrite Hu. cbn [is_running].
    destruct (decide (r' = r)) as [->|Hne].
    + rewrite Hs in Hs1. simplify_eq. rewrite bool_decide_eq_true_2 by done.
      destruct (sem_inv_release c ths r s1 u k s' ts res Hsi Hu Hr) as (Hts & Hnil & _).
      by apply (queue_release c ths r s1 u k s' ts res pos).
    + rewrite bool_decide_eq_false_2, list_lookup_insert_ne by done. right. by apply (Hstay l ths).
Qed.

Lemma has_run_step st ev st' t p : threads st !! t = Some p -> has_run p = true ->
  Exec_step o st ev = Some st' -> exists p', threads st' !! t = Some p' /\ has_run p' = true.
Proof.
  intros Ht Hp Hst. destruct st as [l h ths]. cbn in Ht.
  assert (forall u q, ths !! u = Some q -> has_run q = false -> u <> t) as Hne by (intros; congruence).
  assert (forall l' h' u q, u <> t -> exists p', threads (State l' h' (<[u := q]> ths) : @state Sem) !! t = Some p' /\ has_run p' = true) as Hkeep.
  { intros l' h' u q Hu. exists p. cbn. by rewrite lookup_insert_ne. }
  destruct ev as [u key|u|u|u err|u res]; cbn [Exec_step] in Hst.
  all: destruct (ths !! u) as [q|] eqn:Hu; [|try done]; [try destruct q as [k|k r'|k r'|k r'|e|e]; try done|..].
  - injection Hst as <-. apply Hkeep. congruence.
  - destruct (getSemaphore o l h k) as [[l' h'] r]. injection Hst as <-. apply Hkeep. by apply (Hne u _ Hu).
  - destruct (h !! r'); cbn in Hst; [|done]. destruct (Acquire o s u) as [s' b]. injection Hst as <-.
    apply Hkeep. by apply (Hne u _ Hu).
  - injection Hst as <-. apply Hkeep. by apply (Hne u _ Hu).
  - destruct (h !! r'); cbn in Hst; [|done]. injection Hst as <-. apply Hkeep. by apply (Hne u _ Hu).
  - destruct (h !! r'); cbn in Hst; [|done]. destruct (Release o s) as [s' ts]. injection Hst as <-. cbn.
    assert (exists q, (<[u := Ran res]> ths) !! t = Some q /\ has_run q = true) as Hq.
    { rewrite lookup_insert. destruct (decide (u = t)); [by eexists|by exists p]. }
    clear - Hq. revert Hq. generalize (<[u := Ran res]> ths). induction ts as [|v ts IH]; intros m Hm; cbn [wake]; [done|].
    apply IH. destruct Hm as (q & Hq & Hr). destruct (m !! v) as [[]|] eqn:Hv; eauto.
    exists q. rewrite lookup_insert_ne; [done|]. intros ->. rewrite Hv in Hq. by simplify_eq.
Qed.

Lemma has_run_run st evs st' t p : threads st !! t = Some p -> has_run p = true ->
  run o st evs = Some st' -> exists p', threads st' !! t = Some p' /\ has_run p' = true.
Proof.
  revert st p. induction evs as [|ev evs IH]; intros st p Ht Hp; cbn [run]; [intros [= <-]; eauto|].
  destruct (Exec_step o st ev) as [st1|] eqn:E; cbn; [|done].
  destruct (has_run_step st ev st1 t p Ht Hp E) as (p' & ? & ?). eauto.
Qed.

Lemma queue_run c evs st st' r s pos t :
  invariant c st -> heap st !! r = Some s -> sem_queue o s !! pos = Some t ->
  run o st evs = Some st' -> (forall err, GiveUp t err ∉ evs) -> pos < finished o r st evs ->
  exists p, threads st' !! t = Some p /\ has_run p = true.
Proof.
  revert st s pos. induction evs as [|ev evs IH]; intros st s pos I Hs Hq; cbn [run finished]; [lia|].
  destruct (Exec_step o st ev) as [st1|] eqn:E; cbn; [|done]. intros Hrun Hev Hpos.
  destruct (queue_step c st ev st1 r s pos t I Hs Hq E) as [[k Hk]|(s' & pos' & Hs' & Hq' & Hle)].
  - intros err ->. apply (Hev err). by left.
  - by apply (has_run_run st1 evs st' t (Running k r)).
  - apply (IH st1 s' pos'); [by apply (invariant_step c st ev)|done..| |lia].
    intros err Hin. apply (Hev err). by right.
Qed.
End invariant.

(** ** An instance of the library for concrete runs *)

Record fifo := Fifo { f_size : Z; f_held : Z; f_queue : list nat }.

Definition fifo_ops : Weighted_ops fifo := {|
  NewWeighted n := Fifo n 0 [];
  Acquire s t :=
    if decide (f_held s + weight <= f_size s /\ f_queue s = [])%Z
    then (Fifo (f_size s) (f_held s + weight) [], true)
    else (Fifo (f_size s) (f_held s) (f_queue s ++ (if decide (weight <= f_size s)%Z then [t] else [])), false);
  Leave s t := Fifo (f_size s) (f_held s) (filter (fun u => u <> t) (f_queue s));
  Release s :=
    let room := Z.to_nat (f_size s - (f_held s - weight)) in
    let ts := take room (f_queue s) in
    (Fifo (f_size s) (f_held s - weight + Z.of_nat (length ts)) (drop room (f_queue s)), ts);
  sem_size := f_size; sem_held := f_held; sem_queue := f_queue
|}.

Lemma fifo_laws : Weighted_laws fifo_ops.
Proof.
  split; cbn; try done.
  - intros s t s' b. destruct (decide (_ /\ _)); intros ?; by simplify_eq.
  - intros s s' ts ? _. simplify_eq. by cbn.
Qed.

(** Three calls for one key, one for another, with one request in flight per key. *)
Definition trace1 : list event :=
  [Call 1 "a"; Call 2 "a"; Call 3 "b"; Call 4 "a"; Get 1; Get 2; Get 3; Get 4; Ask 1; Ask 2; Ask 3; Ask 4].
Definition trace2 : list event :=
  [Finish 1 (Panics "boom"); Finish 3 (Returns None); Finish 2 (Returns None)].
Definition state1 : state := default (start DefaultSemaphoreConfig) (run fifo_ops (start DefaultSemaphoreConfig) trace1).

(** ** Theorems *)

(** C29. At any moment of any interleaving of calls, the functions running for one key are at
    most as many as the configured number of requests in flight, and none for a number below
    one: one key has one semaphore, whose units are given back however a function ends. *)
Theorem Exec_in_flight_bound {Sem} (o : Weighted_ops Sem) c evs st key :
  Weighted_laws o -> run o (start c) evs = Some st ->
  (Z.of_nat (in_flight key st) <= Z.max 0 (RequestsInFlight c))%Z.
Proof.
  intros laws Hrun. pose proof (invariant_run o laws c _ _ _ (invariant_start o c) Hrun) as I.
  destruct (container (limiter st) !! key) as [r|] eqn:Hk.
  - destruct (lookup_lt_is_Some_2 (heap st) r) as [s Hs]; [by apply (in_container _ _ _ I key)|].
    destruct (in_heap _ _ _ I r s Hs) as [_ Hh Hb _ _ _ _]. rewrite Hh in Hb. unfold in_flight.
    rewrite (map_count_ext (is_running_key key) (is_running r)); [done|].
    intros t p Ht. destruct p as [| | |k r'| |]; try done. cbn. apply bool_decide_ext.
    pose proof (in_threads _ _ _ I t _ k r' Ht eq_refl) as Hr. split; intros ->; [congruence|].
    by apply (in_injective _ _ _ I k key r).
  - destruct (in_flight key st) eqn:E; [lia|].
    destruct (map_count_pos (is_running_key key) (threads st)) as (t & p & Ht & Hp); [unfold in_flight in E; lia|].
    destruct p as [| | |k r'| |]; try done. apply bool_decide_eq_true in Hp. subst.
    pose proof (in_threads _ _ _ I t _ key r' Ht eq_refl). congruence.
Qed.

Lemma Exec_in_flight_bound_witness :
  in_flight "a" state1 = 1 /\ (Z.of_nat (in_flight "a" state1) <= Z.max 0 (RequestsInFlight DefaultSemaphoreConfig))%Z.
Proof.
  split; [by vm_compute|]. apply (Exec_in_flight_bound fifo_ops DefaultSemaphoreConfig trace1); [apply fifo_laws|by vm_compute].
Defined.

(** C30. No call starves when at least one request may be in flight (when the configured number is
    zero or less no function ever runs, and a call waits until its context ends): while a call
    waits for its key, some function runs for it; the call has a place in the queue, and once more
    functions of that key have ended than wait before it, its own function has been started,
    unless its context ended first. Of the weighted semaphore it is assumed that it serves its
    queue in order. *)
Theorem Exec_no_starvation {Sem} (o : Weighted_ops Sem) c evs st t key r :
  Weighted_laws o -> (1 <= RequestsInFlight c)%Z -> run o (start c) evs = Some st ->
  threads st !! t = Some (Waiting key r) ->
  (exists u k, threads st !! u = Some (Running k r)) /\
  exists s pos, heap st !! r = Some s /\ sem_queue o s !! pos = Some t /\
    forall evs' st', run o st evs' = Some st' -> (forall err, GiveUp t err ∉ evs') ->
      pos < finished o r st evs' -> exists p, threads st' !! t = Some p /\ has_run p = true.
Proof.
  intros laws Hc Hrun Ht. pose proof (invariant_run o laws c _ _ _ (invariant_start o c) Hrun) as I.
  destruct (in_place o c st t _ key r I Ht eq_refl) as (s & Hs & [_ H2 _ _ _ H6 H7]).
  pose proof (H6 Hc t key Ht) as Hin. split.
  - destruct (map_count_pos (is_running r) (threads st)) as (u & p & Hu & Hp).
    + destruct H7; [by intros E; rewrite E in Hin; apply elem_of_nil in Hin|]. lia.
    + destruct p as [| | |k r'| |]; try done. cbn in Hp. apply bool_decide_eq_true in Hp. subst. eauto.
  - apply list_elem_of_lookup in Hin as [pos Hpos]. exists s, pos. split_and!; [done..|].
    intros evs' st' Hrun' Hev Hlt. by apply (queue_run o laws c evs' st st' r s pos t).
Qed.

Lemma Exec_no_starvation_witness :
  finished fifo_ops 0 state1 trace2 = 2 /\
  (exists u k, threads state1 !! u = Some (Running k 0)) /\
  exists s pos, heap state1 !! 0 = Some s /\ sem_queue fifo_ops s !! pos = Some 4 /\
    forall evs' st', run fifo_ops state1 evs' = Some st' -> (forall err, GiveUp 4 err ∉ evs') ->
      pos < finished fifo_ops 0 state1 evs' -> exists p, threads st' !! 4 = Some p /\ has_run p = true.
Proof.
  split; [by vm_compute|].
  apply (Exec_no_starvation fifo_ops DefaultSemaphoreConfig trace1 state1 4 "a" 0);
    [apply fifo_laws|done|by vm_compute|by vm_compute].
Defined.
