(* ===== verification/RateLimiterV1.v ===== *)
(** * The older rate limiters (internal/resttooling/ratelimiter, internal/resttooling/dynamicratelimiter)

    Managers of token buckets: one bucket per entry of the configuration, shared by the handlers
    of the entry; or one bucket per key, made when the key is first seen. A goroutine replaces
    the buckets when the configuration changes. The bucket of golang.org/x/time/rate and the
    hash of a configuration are parameters. *)
From S2P Require Import Prelude Recovery.

(** ** The token bucket *)

(** [NewLimiter d b] is [rate.NewLimiter(rate.Every(d), b)]; [Allow now] takes a token if there is
    one at that time. *)
Record bucket_ops (L : Type) := { NewLimiter : Z -> Z -> L; Take : Z -> L -> L * bool }.
Arguments NewLimiter {L}. Arguments Take {L}.

Section bucket.
Context {L : Type} (o : bucket_ops L).

Fixpoint take_all (times : list Z) (l : L) : L * list bool :=
  match times with
  | [] => (l, [])
  | now :: times' => let '(l', b) := Take o now l in let '(l'', bs) := take_all times' l' in (l'', b :: bs)
  end.

(** How many requests were granted from time [t] on, for a time [T]. *)
Definition granted_within (t T : Z) (times : list Z) (bs : list bool) : nat :=
  length (filter (fun tb => (t <= tb.1 <= t + T)%Z /\ tb.2 = true) (zip times bs)).

Fixpoint ascending (times : list Z) : Prop :=
  match times with
  | [] => True
  | t :: times' => match times' with [] => True | t' :: _ => (t <= t')%Z end /\ ascending times'
  end.

(** The promise of a token bucket: in any stretch of time no more than the burst and what is
    refilled meanwhile. *)
Definition bucket_law : Prop := forall d b times t T,
  (0 < d)%Z -> (0 <= b)%Z -> (0 <= T)%Z -> ascending times ->
  (Z.of_nat (granted_within t T times (take_all times (NewLimiter o d b)).2) <= b + T / d)%Z.
End bucket.

(** ** Configurations (ratelimiter/config.go) *)

(* go: internal/resttooling/ratelimiter/config.go | // RateLimitConfig is a config *)
Record RateLimitConfig := { Period : Z; Requests : Z; Burst : Z }.
(* go: internal/resttooling/ratelimiter/config.go | type RateLimitByHandlersConfig *)
Record RateLimitByHandlersConfig := { Handlers : list string; Config : RateLimitConfig }.
(* go: internal/resttooling/ratelimiter/config.go | type RateLimitersConfig *)
Record RateLimitersConfig := { ByHandlers : list RateLimitByHandlersConfig; WorkersCount : Z }.

(** Unsigned and signed integers of 64 bits. *)
Definition valid_config (c : RateLimitConfig) : Prop :=
  is_int64 (Period c) /\ is_uint64 (Requests c) /\ is_uint64 (Burst c).

Definition divide_error : string := "runtime error: integer divide by zero".

(** [a / b] of two unsigned integers, and of two durations. *)
Definition udiv (a b : Z) : outcome Z := if decide (b = 0)%Z then Panics divide_error else Returns (a / b)%Z.
Definition sdiv (a b : Z) : outcome Z :=
  if decide (b = 0)%Z then Panics divide_error else Returns (wraps 64 (Z.quot a b)).

(** ** One bucket per entry (ratelimiter/rate_limiter.go) *)

Section manager.
Context {L : Type} (o : bucket_ops L).

(* go: internal/resttooling/ratelimiter/rate_limiter.go | const AllHandlers *)
Definition AllHandlers : string := "all".

(** The map holds pointers to limiters, so that handlers of one entry share one. *)
(* go: internal/resttooling/ratelimiter/rate_limiter.go | type managerImpl *)
Record managerImpl := { limiters : gmap string nat; buckets : list L; lastConfigHash : Z }.

Definition with_buckets (rt : managerImpl) (bs : list L) : managerImpl :=
  {| limiters := limiters rt; buckets := bs; lastConfigHash := lastConfigHash rt |}.

(** The bucket a request for the handler is counted in. *)
Definition bucket_of (rt : managerImpl) (handler : string) : option nat :=
  match limiters rt !! handler with Some r => Some r | None => limiters rt !! AllHandlers end.

(* go: internal/resttooling/ratelimiter/rate_limiter.go | func (rt *managerImpl) Allow *)
Definition Allow (handler : string) (now : Z) (rt : managerImpl) : managerImpl * bool :=
  match bucket_of rt handler with
  | None => (rt, true)
  | Some r =>
      match buckets rt !! r with
      | Some l => let '(l', b) := Take o now l in (with_buckets rt (<[r := l']> (buckets rt)), b)
      | None => (rt, true)
      end
  end.

(** The bucket of an entry: two divisions, one of them by the number of workers. *)
Definition entry_limiter (workers : Z) (c : RateLimitConfig) : outcome L :=
  per_worker ← udiv (Requests c) workers;
  interval ← sdiv (Period c) (wraps 64 per_worker);
  Returns (NewLimiter o interval (wraps 64 (Burst c))).

Definition add_handlers (r : nat) (handlers : list string) (m : gmap string nat) : gmap string nat :=
  foldl (fun m handler => <[handler := r]> m) m handlers.

(* go: internal/resttooling/ratelimiter/rate_limiter.go | func buildLimiters *)
Fixpoint buildLimiters_from (workers : Z) (entries : list RateLimitByHandlersConfig) (m : gmap string nat) (bs : list L)
    : outcome (gmap string nat * list L) :=
  match entries with
  | [] => Returns (m, bs)
  | e :: entries' =>
      l ← entry_limiter workers (Config e);
      buildLimiters_from workers entries' (add_handlers (length bs) (Handlers e) m) (bs ++ [l])
  end.
Definition buildLimiters (c : RateLimitersConfig) : outcome (gmap string nat * list L) :=
  buildLimiters_from (WorkersCount c) (ByHandlers c) ∅ [].

(** What [cfgGetter] answers, and the hash of a configuration. *)
Context (Hash : RateLimitersConfig -> result string Z).

(* go: internal/resttooling/ratelimiter/rate_limiter.go | func NewRateLimitManager | L43-L70 *)
Definition NewRateLimitManager (got : result string RateLimitersConfig) : outcome (result string managerImpl) :=
  match got with
  | Err err => Returns (Err err)
  | Ok c =>
      match Hash c with
      | Err err => Returns (Err ("error while hashing rate limiters config: " +:+ err))
      | Ok hash =>
          '(m, bs) ← buildLimiters c;
          Returns (Ok {| limiters := m; buckets := bs; lastConfigHash := hash |})
      end
  end.

(** One tick: an error ends the function, a panic too; otherwise the loop goes on. *)
Definition update_tick (got : result string RateLimitersConfig) (rt : managerImpl)
    : managerImpl * outcome (option string) :=
  match got with
  | Err err => (rt, Returns (Some err))
  | Ok c =>
      match Hash c with
      | Err err => (rt, Returns (Some ("error while hashing rate limiters config: " +:+ err)))
      | Ok hash =>
          if decide (hash = lastConfigHash rt) then (rt, Returns None)
          else match buildLimiters c with
               | Panics why => (rt, Panics why)
               | Returns (m, bs) => ({| limiters := m; buckets := bs; lastConfigHash := hash |}, Returns None)
               end
      end
  end.

(** The loop over the ticks to come; when there are none left the context is done. *)
(* go: internal/resttooling/ratelimiter/rate_limiter.go | func (rt *managerImpl) updateLimitersOnConfigChange *)
Fixpoint updateLimitersOnConfigChange (ticks : list (result string RateLimitersConfig)) (rt : managerImpl)
    : (managerImpl * list (result string RateLimitersConfig)) * outcome (option string) :=
  match ticks with
  | [] => ((rt, []), Returns None)
  | got :: ticks' =>
      match update_tick got rt with
      | (rt', Returns None) => updateLimitersOnConfigChange ticks' rt'
      | (rt', r) => ((rt', ticks'), r)
      end
  end.

(** The goroutine of the manager, and its ticks left. *)
Definition watch (fuel : nat) (ticks : list (result string RateLimitersConfig)) (rt : managerImpl) :=
  DoUntilSuccess (fun _ => false) fuel
    (fun s : managerImpl * list (result string RateLimitersConfig) => updateLimitersOnConfigChange s.2 s.1) (rt, ticks).

(** A run of requests. *)
Fixpoint allow_all (calls : list (string * Z)) (rt : managerImpl) : managerImpl * list bool :=
  match calls with
  | [] => (rt, [])
  | (handler, now) :: calls' =>
      let '(rt', b) := Allow handler now rt in let '(rt'', bs) := allow_all calls' rt' in (rt'', b :: bs)
  end.
End manager.
Arguments limiters {L}. Arguments buckets {L}. Arguments lastConfigHash {L}.
Arguments bucket_of {L}.

(** ** One bucket per key (dynamicratelimiter/rate_limiter.go) *)

Section dynamic.
Context {L : Type} (o : bucket_ops L).

(* go: internal/resttooling/dynamicratelimiter/rate_limiter.go | type managerImpl *)
Record dynamicImpl := { dyn_limiters : gmap string L; config : RateLimitConfig; dyn_lastConfigHash : Z }.

(* go: internal/resttooling/dynamicratelimiter/rate_limiter.go | func newLimiter *)
Definition newLimiter (c : RateLimitConfig) : outcome L :=
  interval ← sdiv (Period c) (wraps 64 (Requests c));
  Returns (NewLimiter o interval (wraps 64 (Burst c))).

(* go: internal/resttooling/dynamicratelimiter/rate_limiter.go | // Apply rate limit *)
Definition dyn_Allow (key : string) (now : Z) (rt : dynamicImpl) : dynamicImpl * outcome bool :=
  if decide (Period (config rt) = 0)%Z then (rt, Returns true)
  else
    match match dyn_limiters rt !! key with Some l => Returns l | None => newLimiter (config rt) end with
    | Panics why => (rt, Panics why)
    | Returns l =>
        let '(l', b) := Take o now l in
        ({| dyn_limiters := <[key := l']> (dyn_limiters rt); config := config rt; dyn_lastConfigHash := dyn_lastConfigHash rt |},
         Returns b)
    end.

Context (Hash : RateLimitConfig -> result string Z).

(* go: internal/resttooling/dynamicratelimiter/rate_limiter.go | func NewRateLimitManager *)
Definition dyn_NewRateLimitManager (got : result string RateLimitConfig) : result string dynamicImpl :=
  match got with
  | Err err => Err err
  | Ok c =>
      match Hash c with
      | Err err => Err ("error while hashing rate limiter config: " +:+ err)
      | Ok hash => Ok {| dyn_limiters := ∅; config := c; dyn_lastConfigHash := hash |}
      end
  end.

Definition dyn_update_tick (got : result string RateLimitConfig) (rt : dynamicImpl) : dynamicImpl * option string :=
  match got with
  | Err err => (rt, Some err)
  | Ok c =>
      match Hash c with
      | Err err => (rt, Some ("error while hashing rate limiter config: " +:+ err))
      | Ok hash =>
          if decide (hash = dyn_lastConfigHash rt) then (rt, None)
          else ({| dyn_limiters := ∅; config := c; dyn_lastConfigHash := hash |}, None)
      end
  end.

(* go: internal/resttooling/dynamicratelimiter/rate_limiter.go | func (rt *managerImpl) updateLimitersOnConfigChange *)
Fixpoint dyn_updateLimitersOnConfigChange (ticks : list (result string RateLimitConfig)) (rt : dynamicImpl)
    : (dynamicImpl * list (result string RateLimitConfig)) * outcome (option string) :=
  match ticks with
  | [] => ((rt, []), Returns None)
  | got :: ticks' =>
      match dyn_update_tick got rt with
      | (rt', None) => dyn_updateLimitersOnConfigChange ticks' rt'
      | (rt', Some err) => ((rt', ticks'), Returns (Some err))
      end
  end.

Fixpoint dyn_allow_all (calls : list (string * Z)) (rt : dynamicImpl) : dynamicImpl * list (outcome bool) :=
  match calls with
  | [] => (rt, [])
  | (key, now) :: calls' =>
      let '(rt', b) := dyn_Allow key now rt in let '(rt'', bs) := dyn_allow_all calls' rt' in (rt'', b :: bs)
  end.
End dynamic.
Arguments dyn_limiters {L}. Arguments config {L}. Arguments dyn_lastConfigHash {L}.

(** ** Theorems *)

Section manager_theorems.
Context {L : Type} (o : bucket_ops L).
Implicit Types (rt : @managerImpl L).

Lemma udiv_returns a b q : udiv a b = Returns q <-> b <> 0%Z /\ q = (a / b)%Z.
Proof. unfold udiv. case_decide; naive_solver. Qed.

Lemma entry_limiter_spec workers c : (0 <= workers)%Z -> valid_config c ->
  entry_limiter o workers c =
    if decide (workers = 0 \/ Requests c < workers)%Z then Panics divide_error
    else Returns (NewLimiter o (wraps 64 (Z.quot (Period c) (wraps 64 (Requests c / workers)))) (wraps 64 (Burst c))).
Proof.
  intros Hw (_ & Hr & _). unfold entry_limiter, udiv. destruct (decide (workers = 0)%Z) as [->|Hn]; cbn [mbind outcome_bind].
  { by rewrite decide_True by auto. }
  unfold sdiv. unfold is_uint64, uint64_mod in Hr.
  assert (0 <= Requests c / workers < 2 ^ 64)%Z as Hq.
  { split; [apply Z.div_pos; lia|]. eapply Z.le_lt_trans; [|apply Hr]. apply Z.div_le_upper_bound; nia. }
  assert (wraps 64 (Requests c / workers) = 0 <-> Requests c / workers = 0)%Z as Hz.
  { unfold wraps. rewrite Z.mod_small by lia. case_match eqn:E; [done|]. apply Z.ltb_ge in E. cbn in E. lia. }
  case_decide as H0.
  - rewrite decide_True; [done|]. right. apply Hz in H0. apply Z.div_small_iff in H0; lia.
  - rewrite decide_False; [done|]. intros [?|Hlt]; [done|]. apply H0, Hz, Z.div_small. lia.
Qed.

Lemma buildLimiters_from_spec workers entries m bs :
  (0 <= workers)%Z -> Forall (fun e => valid_config (Config e)) entries ->
  match buildLimiters_from o workers entries m bs with
  | Panics why => why = divide_error /\ Exists (fun e => workers = 0 \/ Requests (Config e) < workers)%Z entries
  | Returns (m', bs') =>
      Forall (fun e => workers <> 0 /\ workers <= Requests (Config e))%Z entries /\
      bs' = bs ++ map (fun e => NewLimiter o (wraps 64 (Z.quot (Period (Config e)) (wraps 64 (Requests (Config e) / workers)))) (wraps 64 (Burst (Config e)))) entries
  end.
Proof.
  intros Hw. revert m bs. induction entries as [|e entries IH]; intros m bs Hv; cbn [buildLimiters_from].
  { split; [constructor|]. cbn. by rewrite app_nil_r. }
  apply Forall_cons in Hv as [He Hv]. rewrite entry_limiter_spec by done.
  destruct (decide (workers = 0 \/ Requests (Config e) < workers)%Z) as [Hd|Hd]; cbn [mbind outcome_bind].
  - split; [done|]. by constructor.
  - match goal with |- context [buildLimiters_from _ _ _ ?m' ?bs'] => specialize (IH m' bs' Hv) end.
    destruct (buildLimiters_from _ _ _ _ _) as [[m' bs']|why].
    + destruct IH as [H1 ->]. split; [constructor; [lia|done]|]. by rewrite <- app_assoc.
    + destruct IH as [-> H]. split; [done|]. by constructor.
Qed.

(** A configuration brings the manager down, when it starts or reloads, exactly if an entry
    grants fewer requests than there are workers, or if there are entries and no workers: the
    share of a worker is computed in integers, and it divides the period. *)
Theorem buildLimiters_panics c :
  (0 <= WorkersCount c)%Z -> Forall (fun e => valid_config (Config e)) (ByHandlers c) ->
  (exists why, buildLimiters o c = Panics why) <->
  Exists (fun e => WorkersCount c = 0 \/ Requests (Config e) < WorkersCount c)%Z (ByHandlers c).
Proof.
  intros Hw Hv. pose proof (buildLimiters_from_spec (WorkersCount c) (ByHandlers c) ∅ [] Hw Hv) as H.
  unfold buildLimiters. destruct (buildLimiters_from _ _ _ _ _) as [[m bs]|why].
  - destruct H as [H _]. split; [by intros [? ?]|]. intros He. exfalso. revert He. apply Forall_not_Exists.
    eapply Forall_impl; [exact H|]. cbn. lia.
  - destruct H as [_ H]. split; [done|]. intros _. eauto.
Qed.

(** A run never moves a handler to another bucket, and what it does to a bucket is what the
    requests counted in it do. *)
Lemma Allow_limiters handler now rt : limiters (Allow o handler now rt).1 = limiters rt.
Proof.
  unfold Allow. destruct (bucket_of rt handler) as [r|]; [|done]. destruct (buckets rt !! r); [|done].
  by destruct (Take o now _).
Qed.

Definition counted_in rt (r : nat) (cb : (string * Z) * bool) : Prop := bucket_of rt cb.1.1 = Some r.
#[local] Instance counted_in_dec rt r cb : Decision (counted_in rt r cb).
Proof. unfold counted_in. apply _. Defined.

Lemma allow_all_bucket calls rt r l : buckets rt !! r = Some l ->
  let sub := filter (counted_in rt r) (zip calls (allow_all o calls rt).2) in
  (take_all o (map (fun cb => cb.1.2) sub) l).2 = map snd sub.
Proof.
  revert rt l. induction calls as [|[handler now] calls IH]; intros rt l Hl; [done|]. cbn [allow_all].
  pose proof (Allow_limiters handler now rt) as Hlim.
  destruct (Allow o handler now rt) as [rt' b] eqn:E. cbn in Hlim.
  assert (forall cb, counted_in rt' r cb <-> counted_in rt r cb) as Hc.
  { intros cb. unfold counted_in, bucket_of. by rewrite Hlim. }
  specialize (IH rt'). destruct (allow_all o calls rt') as [rt'' bs]. cbn [zip fst snd] in *.
  rewrite (list_filter_iff _ (counted_in rt r) (zip calls bs) Hc) in IH.
  rewrite filter_cons. unfold Allow in E. unfold counted_in at 1. cbn [fst snd].
  destruct (decide (bucket_of rt handler = Some r)) as [Hr|Hr].
  - rewrite decide_True by done. rewrite Hr, Hl in E. destruct (Take o now l) as [l' b'] eqn:Et. simplify_eq.
    cbn [map take_all fst snd]. rewrite Et. specialize (IH l').
    destruct (take_all o _ l') as [l'' bs'] eqn:Ea. cbn [snd fst] in *. f_equal. apply IH. cbn.
    apply list_lookup_insert_eq. by eapply lookup_lt_Some.
  - rewrite decide_False by done. apply IH. destruct (bucket_of rt handler) as [r'|]; [|by simplify_eq].
    destruct (buckets rt !! r') as [l0|] eqn:El0; [|by simplify_eq]. destruct (Take o now l0) as [l0' b0]. simplify_eq. cbn.
    rewrite list_lookup_insert_ne; [done|]. intros ->. by apply Hr.
Qed.

Lemma ascending_filter {A} (P : A -> Prop) `{forall a, Decision (P a)} (f : A -> Z) l :
  ascending (map f l) -> ascending (map f (filter P l)).
Proof.
  assert (forall l, ascending l -> forall t l', l = t :: l' -> Forall (fun u => (t <= u)%Z) l') as Hhead.
  { clear. induction l as [|t l IH]; intros Ha t0 l' E; [done|]. simplify_eq. destruct l' as [|t' l']; [constructor|].
    destruct Ha as [Ht Ha]. constructor; [done|]. eapply Forall_impl; [by apply (IH Ha t' l')|]. cbn. lia. }
  induction l as [|a l IH]; intros Ha; [done|]. assert (ascending (map f l)) as Ha' by (by destruct Ha).
  rewrite filter_cons. case_decide; [|by apply IH]. cbn [map ascending]. split; [|by apply IH].
  pose proof (Hhead _ Ha (f a) (map f l) eq_refl) as Hall.
  destruct (map f (filter P l)) as [|t' ts] eqn:E; [done|].
  assert (t' ∈ map f (filter P l)) as Hin by (rewrite E; by left).
  apply list_elem_of_fmap in Hin as (x & -> & Hx). apply list_elem_of_filter in Hx as [_ Hx].
  rewrite Forall_forall in Hall. apply Hall. by apply list_elem_of_fmap_2.
Qed.

Lemma granted_within_map {A} t T (f : A -> Z) (g : A -> bool) l :
  granted_within t T (map f l) (map g l) = length (filter (fun a => (t <= f a <= t + T)%Z /\ g a = true) l).
Proof.
  unfold granted_within. rewrite zip_with_fmap_l, zip_with_fmap_r. induction l as [|a l IH]; [done|].
  cbn [zip_with zip]. rewrite !filter_cons. cbn [fst snd]. case_decide; cbn [length]; [by f_equal|done].
Qed.

Lemma allow_all_length calls rt : length (allow_all o calls rt).2 = length calls.
Proof.
  revert rt. induction calls as [|[handler now] calls IH]; intros rt; [done|]. cbn [allow_all].
  destruct (Allow o handler now rt) as [rt' b]. specialize (IH rt'). destruct (allow_all o calls rt') as [rt'' bs]. cbn in *. by f_equal.
Qed.

Lemma ascending_zip {R} (calls : list (string * Z)) (bs : list R) : length bs = length calls ->
  map (fun cb => cb.1.2) (zip calls bs) = map snd calls.
Proof.
  revert bs. induction calls as [|c calls IH]; intros [|b bs] Hl; try done. cbn. f_equal. apply IH. by injection Hl.
Qed.

(** The handlers of one entry of the configuration share its limit: however requests for them
    are mixed with others, in any stretch of time a manager grants them together no more than
    the burst of the entry and one request for each interval, which is the period over the share
    of one worker. *)
Theorem entry_rate_bound c rt i e calls t T :
  bucket_law o -> (0 <= WorkersCount c)%Z -> Forall (fun e => valid_config (Config e)) (ByHandlers c) ->
  buildLimiters o c = Returns (limiters rt, buckets rt) -> ByHandlers c !! i = Some e ->
  let d := (Period (Config e) / (Requests (Config e) / WorkersCount c))%Z in
  (0 < d)%Z -> (Requests (Config e) < 2 ^ 63)%Z -> (Burst (Config e) < 2 ^ 63)%Z -> (0 <= T)%Z -> ascending (map snd calls) ->
  (Z.of_nat (length (filter (fun cb => bucket_of rt cb.1.1 = Some i /\ (t <= cb.1.2 <= t + T)%Z /\ cb.2 = true)
     (zip calls (allow_all o calls rt).2))) <= Burst (Config e) + T / d)%Z.
Proof.
  intros Hlaw Hw Hv Hb Hi d Hd Hreq Hburst HT Hasc.
  pose proof (buildLimiters_from_spec (WorkersCount c) (ByHandlers c) ∅ [] Hw Hv) as H. unfold buildLimiters in Hb.
  rewrite Hb in H. destruct H as [Hok Hbs]. cbn [app] in Hbs.
  assert (buckets rt !! i = Some (NewLimiter o d (Burst (Config e)))) as Hl.
  { rewrite Hbs, list_lookup_fmap, Hi. cbn. rewrite Forall_forall in Hv.
    apply list_elem_of_lookup_2 in Hi. destruct (Hv e Hi) as ((_ & Hp) & (Hr & _) & (Hbu & _)).
    rewrite Forall_forall in Hok. destruct (Hok e Hi) as [Hw0 Hwr].
    assert (0 < Requests (Config e) / WorkersCount c)%Z as Hq by (apply Z.div_str_pos; lia).
    assert (Requests (Config e) / WorkersCount c <= Requests (Config e))%Z by (apply Z.div_le_upper_bound; nia).
    assert (0 < Period (Config e))%Z as Hpos.
    { destruct (decide (0 < Period (Config e))%Z); [done|]. exfalso. subst d.
      assert (Period (Config e) / (Requests (Config e) / WorkersCount c) <= 0)%Z; [|lia].
      apply Z.div_le_upper_bound; lia. }
    assert (d <= Period (Config e))%Z by (subst d; apply Z.div_le_upper_bound; nia).
    unfold max_int64 in Hp. rewrite (wraps_small (Requests _ / _)) by (unfold is_int64, min_int64, max_int64; lia).
    rewrite Z.quot_div_nonneg by lia. fold d. rewrite !wraps_small by (unfold is_int64, min_int64, max_int64; lia). done. }
  pose proof (allow_all_bucket calls rt i _ Hl) as Hsub. cbn in Hsub.
  set (sub := filter (counted_in rt i) (zip calls (allow_all o calls rt).2)) in *.
  assert (0 <= Burst (Config e))%Z as Hb0.
  { rewrite Forall_forall in Hv. apply list_elem_of_lookup_2 in Hi. by destruct (Hv e Hi) as (_ & _ & (? & _)). }
  assert (ascending (map (fun cb => cb.1.2) sub)) as Hasc'.
  { apply ascending_filter. rewrite ascending_zip; [done|]. apply allow_all_length. }
  pose proof (Hlaw d (Burst (Config e)) (map (fun cb => cb.1.2) sub) t T Hd Hb0 HT Hasc') as Hbound.
  rewrite Hsub in Hbound. rewrite (granted_within_map t T (fun cb => cb.1.2) snd sub) in Hbound.
  unfold sub in Hbound. rewrite list_filter_filter in Hbound. etransitivity; [|exact Hbound].
  apply Z.eq_le_incl. do 2 f_equal. apply list_filter_iff. intros cb. unfold counted_in. tauto.
Qed.

Section watching.
Context (Hash : RateLimitersConfig -> result string Z).

Definition after_ticks (ticks : list (result string RateLimitersConfig)) rt : managerImpl :=
  foldl (fun rt got => (update_tick o Hash got rt).1) rt ticks.

Lemma updateLimiters_spec ticks rt :
  let '((rt', ticks'), r) := updateLimitersOnConfigChange o Hash ticks rt in
  after_ticks ticks rt = after_ticks ticks' rt' /\ (r = Returns None -> ticks' = []) /\
  (r <> Returns None -> length ticks' < length ticks).
Proof.
  revert rt. induction ticks as [|got ticks IH]; intros rt; cbn [updateLimitersOnConfigChange]; [done|].
  destruct (update_tick o Hash got rt) as [rt' [[err|]|why]] eqn:E.
  - split_and!; [|done|cbn; lia]. unfold after_ticks. cbn. by rewrite E.
  - specialize (IH rt'). destruct (updateLimitersOnConfigChange o Hash ticks rt') as [[rt'' ticks'] r].
    destruct IH as (I1 & I2 & I3). split_and!; [|done|intros Hr; specialize (I3 Hr); cbn; lia].
    rewrite <- I1. unfold after_ticks. cbn. by rewrite E.
  - split_and!; [|done|cbn; lia]. unfold after_ticks. cbn. by rewrite E.
Qed.

(** The manager goes on following the configuration through every error and panic: once the
    context ends the goroutine has returned, and it has seen every tick; a tick whose
    configuration cannot be read, hashed or built leaves the limiters as they were, and the
    next one is looked at all the same. *)
Theorem watch_keeps_up fuel ticks rt : length ticks < fuel ->
  exists logs, watch o Hash fuel ticks rt = Some ((after_ticks ticks rt, []), logs).
Proof.
  unfold watch, DoUntilSuccess. revert fuel rt. induction ticks as [ticks IH] using (induction_ltof1 _ length).
  unfold ltof in IH. intros [|fuel] rt Hf; [lia|]. cbn [select_loop fst snd].
  pose proof (updateLimiters_spec ticks rt) as Hs.
  destruct (updateLimitersOnConfigChange o Hash ticks rt) as [[rt' ticks'] r].
  destruct Hs as (-> & Hnil & Hlt). destruct r as [[err|]|why]; cbn [recovered].
  - destruct (IH ticks' ltac:(by apply Hlt) fuel rt') as [logs Hl]; [by specialize (Hlt ltac:(done)); lia|].
    eexists. rewrite Hl. cbn. reflexivity.
  - rewrite (Hnil eq_refl). eexists. reflexivity.
  - destruct (IH ticks' ltac:(by apply Hlt) fuel rt') as [logs Hl]; [by specialize (Hlt ltac:(done)); lia|].
    eexists. rewrite Hl. cbn. reflexivity.
Qed.
End watching.
End manager_theorems.

Section dynamic_theorems.
Context {L : Type} (o : bucket_ops L).
Implicit Types (rt : @dynamicImpl L).

(** A limit of no requests, with a period, does not refuse the requests: every first request
    of a key panics on a division by zero; and that is the only way [Allow] can panic. *)
Theorem dyn_Allow_panics key now rt : is_uint64 (Requests (config rt)) ->
  (exists why, (dyn_Allow o key now rt).2 = Panics why) <->
  Period (config rt) <> 0%Z /\ Requests (config rt) = 0%Z /\ dyn_limiters rt !! key = None.
Proof.
  intros Hr. assert (wraps 64 (Requests (config rt)) = 0 <-> Requests (config rt) = 0)%Z as Hz.
  { unfold is_uint64, uint64_mod in Hr. unfold wraps. rewrite Z.mod_small by lia. case_match eqn:E; [done|].
    apply Z.ltb_ge in E. cbn in E. lia. }
  unfold dyn_Allow. case_decide as Hp; [split; [by intros [? ?]|naive_solver]|].
  destruct (dyn_limiters rt !! key) as [l|] eqn:E.
  - destruct (Take o now l). split; [by intros [? ?]|naive_solver].
  - unfold newLimiter, sdiv. case_decide as Hd; cbn [mbind outcome_bind].
    + split; [intros _; split_and!; [done|by apply Hz|done]|eauto].
    + destruct (Take o now _). split; [by intros [? ?]|]. intros (_ & H0 & _). by apply Hz in H0.
Qed.

Lemma dyn_allow_all_length calls rt : length (dyn_allow_all o calls rt).2 = length calls.
Proof.
  revert rt. induction calls as [|[key now] calls IH]; intros rt; [done|]. cbn [dyn_allow_all].
  destruct (dyn_Allow o key now rt) as [rt' b]. specialize (IH rt'). destruct (dyn_allow_all o calls rt') as [rt'' bs]. cbn in *. by f_equal.
Qed.

Lemma granted_within_returns {A} t T (f : A * outcome bool -> Z) sub bs : map snd sub = map Returns bs ->
  granted_within t T (map f sub) bs = length (filter (fun cb => (t <= f cb <= t + T)%Z /\ cb.2 = Returns true) sub).
Proof.
  unfold granted_within. revert bs. induction sub as [|[a r] sub IH]; intros [|b bs] E; try done.
  cbn [map snd] in E. injection E as -> E. cbn [map zip zip_with]. rewrite !filter_cons. cbn [fst snd].
  specialize (IH bs E). cbn [zip zip_with] in IH. destruct (decide ((t <= f (a, Returns b) <= t + T)%Z /\ b = true)) as [[H1 ->]|Hn].
  - rewrite decide_True by done. cbn [length]. by f_equal.
  - rewrite decide_False by naive_solver. done.
Qed.

Definition for_key (key : string) (cb : (string * Z) * outcome bool) : Prop := cb.1.1 = key.
#[local] Instance for_key_dec key cb : Decision (for_key key cb).
Proof. unfold for_key. apply _. Defined.

Lemma dyn_allow_all_bucket calls rt key : Period (config rt) <> 0%Z -> forall l,
  match dyn_limiters rt !! key with Some l' => l' = l | None => newLimiter o (config rt) = Returns l end ->
  let sub := filter (for_key key) (zip calls (dyn_allow_all o calls rt).2) in
  map snd sub = map Returns (take_all o (map (fun cb => cb.1.2) sub) l).2.
Proof.
  revert rt. induction calls as [|[k now] calls IH]; intros rt Hp l Hl; [done|]. cbn [dyn_allow_all].
  assert (config (dyn_Allow o k now rt).1 = config rt) as Hc.
  { unfold dyn_Allow. rewrite decide_False by done.
    destruct (match dyn_limiters rt !! k with Some _ => _ | None => _ end) as [l0|]; [|done]. by destruct (Take o now l0). }
  destruct (dyn_Allow o k now rt) as [rt' b] eqn:E. cbn in Hc. unfold dyn_Allow in E. rewrite decide_False in E by done.
  specialize (IH rt'). rewrite Hc in IH. specialize (IH Hp).
  destruct (dyn_allow_all o calls rt') as [rt'' bs]. cbn [zip snd] in *.
  change (zip ((k, now) :: calls) (b :: bs)) with (((k, now), b) :: zip calls bs). rewrite filter_cons. unfold for_key at 1. cbn [fst snd].
  destruct (decide (k = key)) as [->|Hk].
  - rewrite decide_True by done. cbn [map take_all fst snd].
    assert (match dyn_limiters rt !! key with Some l => Returns l | None => newLimiter o (config rt) end = Returns l) as Hget
      by (destruct (dyn_limiters rt !! key); by subst).
    rewrite Hget in E. destruct (Take o now l) as [l' b'] eqn:Et. simplify_eq. cbn in IH.
    specialize (IH l'). rewrite lookup_insert_eq in IH. destruct (take_all o _ l') as [l'' bs'] eqn:Ea. cbn [map snd]. f_equal. by apply IH.
  - rewrite decide_False by done. apply IH.
    destruct (match dyn_limiters rt !! k with Some _ => _ | None => _ end) as [l0|]; [|by simplify_eq].
    destruct (Take o now l0) as [l0' b0]. simplify_eq. cbn. by rewrite lookup_insert_ne by done.
Qed.

(** Keys are limited independently of each other: whatever other keys are asked for in
    between, a key that is new when the configuration is loaded is granted, in any stretch of
    time, no more than the burst and one request for each interval. *)
Theorem dyn_rate_bound rt key calls t T :
  bucket_law o -> valid_config (config rt) -> dyn_limiters rt !! key = None ->
  (0 < Requests (config rt) < 2 ^ 63)%Z -> (Burst (config rt) < 2 ^ 63)%Z ->
  let d := (Period (config rt) / Requests (config rt))%Z in
  (0 < d)%Z -> (0 <= T)%Z -> ascending (map snd calls) ->
  (Z.of_nat (length (filter (fun cb => cb.1.1 = key /\ (t <= cb.1.2 <= t + T)%Z /\ cb.2 = Returns true)
     (zip calls (dyn_allow_all o calls rt).2))) <= Burst (config rt) + T / d)%Z.
Proof.
  intros Hlaw ((_ & Hp) & _ & (Hb & _)) Hkey Hr Hbu d Hd HT Hasc.
  assert (0 < Period (config rt))%Z as Hpos.
  { destruct (decide (0 < Period (config rt))%Z); [done|]. exfalso. subst d.
    assert (Period (config rt) / Requests (config rt) <= 0)%Z; [|lia]. apply Z.div_le_upper_bound; lia. }
  assert (d <= Period (config rt))%Z by (subst d; apply Z.div_le_upper_bound; nia).
  unfold max_int64 in Hp.
  assert (newLimiter o (config rt) = Returns (NewLimiter o d (Burst (config rt)))) as Hnew.
  { unfold newLimiter, sdiv. rewrite (wraps_small (Requests _)) by (unfold is_int64, min_int64, max_int64; lia).
    rewrite decide_False by lia. cbn [mbind outcome_bind]. rewrite Z.quot_div_nonneg by lia. fold d.
    by rewrite !wraps_small by (unfold is_int64, min_int64, max_int64; lia). }
  pose proof (dyn_allow_all_bucket calls rt key ltac:(lia) (NewLimiter o d (Burst (config rt)))) as Hsub.
  rewrite Hkey in Hsub. specialize (Hsub Hnew). cbn in Hsub.
  set (sub := filter (for_key key) (zip calls (dyn_allow_all o calls rt).2)) in *.
  assert (ascending (map (fun cb => cb.1.2) sub)) as Hasc'.
  { apply ascending_filter. rewrite ascending_zip; [done|]. apply dyn_allow_all_length. }
  pose proof (Hlaw d (Burst (config rt)) (map (fun cb => cb.1.2) sub) t T Hd Hb HT Hasc') as Hbound.
  etransitivity; [|exact Hbound]. apply Z.eq_le_incl. f_equal.
  rewrite (granted_within_returns t T (fun cb => cb.1.2) sub _ Hsub). unfold sub. rewrite list_filter_filter.
  f_equal. apply list_filter_iff. intros cb. unfold for_key. tauto.
Qed.
End dynamic_theorems.

(** ** A bucket for concrete runs, by the time at which it would be full again *)

Record tat_bucket := Tat { tb_interval : Z; tb_burst : Z; tb_tat : Z }.
Definition tat_ops : bucket_ops tat_bucket := {|
  NewLimiter d b := Tat d b 0;
  Take now l :=
    let tat := (Z.max (tb_tat l) now + tb_interval l)%Z in
    if decide (tat <= now + tb_burst l * tb_interval l)%Z then (Tat (tb_interval l) (tb_burst l) tat, true) else (l, false)
|}.

Lemma tat_bound d b times t T tat : (0 < d)%Z -> (0 <= b)%Z -> (0 <= T)%Z ->
  (Z.of_nat (granted_within t T times (take_all tat_ops times (Tat d b tat)).2) * d <= Z.max 0 (t + T + b * d - Z.max tat t))%Z.
Proof.
  intros Hd Hb HT. revert tat. induction times as [|now times IH]; intros tat; [cbn; lia|].
  cbn [take_all Take tat_ops tb_tat tb_interval tb_burst].
  destruct (decide (Z.max tat now + d <= now + b * d)%Z) as [Hg|Hg].
  - specialize (IH (Z.max tat now + d)%Z). destruct (take_all tat_ops times _) as [l' bs]. cbn [snd] in *.
    unfold granted_within in *. cbn [zip zip_with]. rewrite filter_cons. cbn [fst snd].
    case_decide as Hw; cbn [length]; [|lia]. destruct Hw as [Hw _]. lia.
  - specialize (IH tat). destruct (take_all tat_ops times _) as [l' bs]. cbn [snd] in *.
    unfold granted_within in *. cbn [zip zip_with]. rewrite filter_cons. cbn [fst snd].
    rewrite decide_False by (by intros [_ ?]). exact IH.
Qed.

Lemma tat_law : bucket_law tat_ops.
Proof.
  intros d b times t T Hd Hb HT _. pose proof (tat_bound d b times t T 0 Hd Hb HT) as H. cbn [NewLimiter tat_ops].
  set (n := Z.of_nat _) in *. assert (n * d <= T + b * d)%Z by nia.
  assert (n - b <= T / d)%Z by (apply Z.div_le_lower_bound; nia). lia.
Qed.

Definition demo_config : RateLimitersConfig := {|
  ByHandlers := [{| Handlers := ["a"; "b"]; Config := {| Period := 100; Requests := 20; Burst := 3 |} |};
                 {| Handlers := ["all"]; Config := {| Period := 100; Requests := 10; Burst := 1 |} |}];
  WorkersCount := 2 |}.
Definition demo_manager : managerImpl :=
  match buildLimiters tat_ops demo_config with
  | Returns (m, bs) => {| limiters := m; buckets := bs; lastConfigHash := 1 |}
  | Panics _ => {| limiters := ∅; buckets := []; lastConfigHash := 0 |}
  end.
Definition demo_calls : list (string * Z) := [("a", 100); ("b", 100); ("c", 100); ("a", 101); ("b", 101); ("c", 102); ("a", 111)]%Z.

Example demo_verdicts : (allow_all tat_ops demo_calls demo_manager).2 = [true; true; true; true; false; false; true].
Proof. vm_compute. reflexivity. Qed.

Lemma demo_valid : Forall (fun e => valid_config (Config e)) (ByHandlers demo_config).
Proof. repeat constructor; by vm_compute. Qed.

Lemma buildLimiters_panics_witness :
  (exists why, buildLimiters tat_ops demo_config = Panics why) <->
  Exists (fun e => WorkersCount demo_config = 0 \/ Requests (Config e) < WorkersCount demo_config)%Z (ByHandlers demo_config).
Proof. apply (buildLimiters_panics tat_ops demo_config); [done|apply demo_valid]. Defined.

Lemma demo_built : buildLimiters tat_ops demo_config = Returns (limiters demo_manager, buckets demo_manager).
Proof. vm_compute. reflexivity. Qed.

Lemma entry_rate_bound_witness :
  (Z.of_nat (length (filter (fun cb => bucket_of demo_manager cb.1.1 = Some 0%nat /\ (100 <= cb.1.2 <= 100 + 9)%Z /\ cb.2 = true)
     (zip demo_calls (allow_all tat_ops demo_calls demo_manager).2))) <= 3 + 9 / (100 / (20 / 2)))%Z.
Proof.
  apply (entry_rate_bound tat_ops demo_config demo_manager 0
    {| Handlers := ["a"; "b"]; Config := {| Period := 100; Requests := 20; Burst := 3 |} |} demo_calls 100 9);
    [apply tat_law|done|apply demo_valid|apply demo_built|done|done|done|done|done|]. cbn. lia.
Defined.

(** The first configuration has more workers than requests, the second cannot be read. *)
Definition demo_ticks : list (result string RateLimitersConfig) :=
  [Ok {| ByHandlers := ByHandlers demo_config; WorkersCount := 30 |}; Err "no file"; Ok {| ByHandlers := []; WorkersCount := 2 |}].

Lemma watch_keeps_up_witness :
  exists logs, watch tat_ops (fun c => Ok (WorkersCount c)) 4 demo_ticks demo_manager =
    Some ((after_ticks tat_ops (fun c => Ok (WorkersCount c)) demo_ticks demo_manager, []), logs).
Proof. apply (watch_keeps_up tat_ops). cbn. lia. Defined.

Lemma dyn_Allow_panics_witness :
  let rt : @dynamicImpl tat_bucket := {| dyn_limiters := ∅; config := {| Period := 5; Requests := 0; Burst := 1 |}; dyn_lastConfigHash := 0 |} in
  (exists why, (dyn_Allow tat_ops "k" 0 rt).2 = Panics why) <->
  Period (config rt) <> 0%Z /\ Requests (config rt) = 0%Z /\ dyn_limiters rt !! "k" = None.
Proof. intros rt. apply (dyn_Allow_panics tat_ops). by vm_compute. Defined.

Lemma dyn_rate_bound_witness :
  let rt : @dynamicImpl tat_bucket := {| dyn_limiters := ∅; config := {| Period := 100; Requests := 10; Burst := 2 |}; dyn_lastConfigHash := 0 |} in
  (Z.of_nat (length (filter (fun cb => cb.1.1 = "a" /\ (100 <= cb.1.2 <= 100 + 9)%Z /\ cb.2 = Returns true)
     (zip demo_calls (dyn_allow_all tat_ops demo_calls rt).2))) <= 2 + 9 / (100 / 10))%Z.
Proof.
  intros rt. apply (dyn_rate_bound tat_ops rt "a" demo_calls 100 9);
    [apply tat_law|by vm_compute|done|done|done|done|done|]. cbn. lia.
Defined.
