(* ===== verification/Concurrent.v ===== *)
(** * Values, maps and caches under a lock (internal/concurrent)

    A Go map is a place in a heap, so that a map handed to [Set] is shared with the caller. The
    lock of an object is a flag: a method that panics between [Lock] and [Unlock] leaves it set,
    and every later call on the object blocks. A lock makes a method atomic, so that concurrent
    use is a sequence of calls. *)
From S2P Require Import Prelude GoErrors.

(** How a call ends: it answers, it panics, or it waits for a lock nobody will give back. *)
Inductive reply (A : Type) :=
| Answers (a : A)
| Dies (why : string)
| Blocks.
Arguments Answers {A} a.
Arguments Dies {A} why.
Arguments Blocks {A}.

#[export] Instance reply_fmap : FMap reply := fun A B f r =>
  match r with Answers a => Answers (f a) | Dies w => Dies w | Blocks => Blocks end.

Definition nil_map_write : string := "assignment to entry in nil map".

(** ** value.go *)

Section value.
Context {V : Type}.

(* go: internal/concurrent/value.go | type Value *)
Record Value := { mu_held : bool; value : V }.
(* go: internal/concurrent/value.go | func NewValue *)
Definition NewValue (v : V) : Value := {| mu_held := false; value := v |}.

(* go: internal/concurrent/value.go | func (v *Value[V]) Get *)
Definition Value_Get (c : Value) : Value * reply V :=
  if mu_held c then (c, Blocks) else (c, Answers (value c)).

(** The unlock is not deferred: it does not happen if [f] panics. *)
(* go: internal/concurrent/value.go | func (v *Value[V]) Update *)
Definition Value_Update (f : V -> outcome V) (c : Value) : Value * reply unit :=
  if mu_held c then (c, Blocks)
  else match f (value c) with
       | Returns v => ({| mu_held := false; value := v |}, Answers tt)
       | Panics why => ({| mu_held := true; value := value c |}, Dies why)
       end.

Definition Value_updates (fs : list (V -> outcome V)) (c : Value) : Value :=
  foldl (fun c f => (Value_Update f c).1) c fs.
End value.
Arguments Value V : clear implicits.

(** ** map.go *)

Section map.
Context {K V : Type} `{Countable K}.

(** [cache] is a pointer to a map of the heap; [None] is the nil map. *)
(* go: internal/concurrent/map.go | type Map *)
Record Map := { m_held : bool; cache : option nat }.

(** The map behind a pointer; reading the nil map finds nothing. *)
Definition deref (h : list (gmap K V)) (p : option nat) : gmap K V :=
  match p with Some r => default ∅ (h !! r) | None => ∅ end.

(** [for k, v := range m]: the order is the runtime's. *)
Context (range : gmap K V -> list (K * V)).

(* go: internal/concurrent/map.go | func NewMap *)
Definition NewMap (h : list (gmap K V)) : Map * list (gmap K V) :=
  ({| m_held := false; cache := Some (length h) |}, h ++ [∅]).

(* go: internal/concurrent/map.go | func (c *Map[K, V]) Get *)
Definition Map_Get (key : K) (c : Map) (h : list (gmap K V)) : reply (option V) :=
  if m_held c then Blocks else Answers (deref h (cache c) !! key).

(* go: internal/concurrent/map.go | func (c *Map[K, V]) Add *)
Definition Map_Add (key : K) (v : V) (c : Map) (h : list (gmap K V)) : Map * list (gmap K V) * reply unit :=
  if m_held c then (c, h, Blocks)
  else match cache c with
       | None => ({| m_held := true; cache := None |}, h, Dies nil_map_write)
       | Some r => (c, <[r := <[key := v]> (deref h (Some r))]> h, Answers tt)
       end.

(** The caller's map itself is kept. *)
(* go: internal/concurrent/map.go | func (c *Map[K, V]) Set *)
Definition Map_Set (m : option nat) (c : Map) : Map * reply unit :=
  if m_held c then (c, Blocks) else ({| m_held := false; cache := m |}, Answers tt).

(* go: internal/concurrent/map.go | func (c *Map[K, V]) InitBulk *)
Definition Map_InitBulk (keys : list K) (values : list V) (c : Map) (h : list (gmap K V))
    : Map * list (gmap K V) * reply unit :=
  if decide (length keys <> length values) then (c, h, Dies "keys and values length mismatch")
  else if m_held c then (c, h, Blocks)
  else ({| m_held := false; cache := Some (length h) |},
        h ++ [foldl (fun m kv => <[kv.1 := kv.2]> m) ∅ (zip keys values)], Answers tt).

(* go: internal/concurrent/map.go | func (c *Map[K, V]) Remove *)
Definition Map_Remove (key : K) (c : Map) (h : list (gmap K V)) : list (gmap K V) * reply unit :=
  if m_held c then (h, Blocks)
  else match cache c with
       | None => (h, Answers tt)
       | Some r => (<[r := delete key (deref h (Some r))]> h, Answers tt)
       end.

(* go: internal/concurrent/map.go | func (c *Map[K, V]) Len *)
Definition Map_Len (c : Map) (h : list (gmap K V)) : reply nat :=
  if m_held c then Blocks else Answers (size (deref h (cache c))).

(* go: internal/concurrent/map.go | func (c *Map[K, V]) GetAll *)
Definition Map_GetAll (c : Map) (h : list (gmap K V)) : reply (list V) :=
  if m_held c then Blocks else Answers (range (deref h (cache c))).*2.

(** The calls on one object, and a write to a map of the heap by somebody else. *)
Inductive map_op :=
| OpGet (key : K) | OpAdd (key : K) (v : V) | OpSet (m : option nat)
| OpInitBulk (keys : list K) (values : list V) | OpRemove (key : K) | OpLen | OpGetAll
| Elsewhere (r : nat) (m : gmap K V).

Inductive map_answer :=
| AUnit | AFound (v : option V) | ALen (n : nat) | AAll (l : list V).

Definition Map_call (op : map_op) (c : Map) (h : list (gmap K V)) : Map * list (gmap K V) * reply map_answer :=
  match op with
  | OpGet key => (c, h, AFound <$> Map_Get key c h)
  | OpAdd key v => let '(c', h', r) := Map_Add key v c h in (c', h', (fun _ => AUnit) <$> r)
  | OpSet m => let '(c', r) := Map_Set m c in (c', h, (fun _ => AUnit) <$> r)
  | OpInitBulk keys values =>
      let '(c', h', r) := Map_InitBulk keys values c h in (c', h', (fun _ => AUnit) <$> r)
  | OpRemove key => let '(h', r) := Map_Remove key c h in (c, h', (fun _ => AUnit) <$> r)
  | OpLen => (c, h, ALen <$> Map_Len c h)
  | OpGetAll => (c, h, AAll <$> Map_GetAll c h)
  | Elsewhere r m => (c, <[r := m]> h, Answers AUnit)
  end.

Fixpoint Map_calls (ops : list map_op) (c : Map) (h : list (gmap K V)) : list (reply map_answer) :=
  match ops with
  | [] => []
  | op :: ops' => let '(c', h', r) := Map_call op c h in r :: Map_calls ops' c' h'
  end.

(** The specification: one finite map, nothing shared, no locks. [given] is what the map passed
    to [Set] holds at that moment. *)
Definition spec_call (op : map_op) (given : option nat -> gmap K V) (g : gmap K V) : gmap K V * reply map_answer :=
  match op with
  | OpGet key => (g, Answers (AFound (g !! key)))
  | OpAdd key v => (<[key := v]> g, Answers AUnit)
  | OpSet m => (given m, Answers AUnit)
  | OpInitBulk keys values =>
      if decide (length keys <> length values) then (g, Dies "keys and values length mismatch")
      else (foldl (fun m kv => <[kv.1 := kv.2]> m) ∅ (zip keys values), Answers AUnit)
  | OpRemove key => (delete key g, Answers AUnit)
  | OpLen => (g, Answers (ALen (size g)))
  | OpGetAll => (g, Answers (AAll (range g).*2))
  | Elsewhere _ _ => (g, Answers AUnit)
  end.

(** Runs of the specification beside the heap, for the contents of maps given to [Set]. *)
Fixpoint spec_calls (ops : list map_op) (c : Map) (h : list (gmap K V)) (g : gmap K V) : list (reply map_answer) :=
  match ops with
  | [] => []
  | op :: ops' =>
      let '(g', r) := spec_call op (deref h) g in
      let '(c', h', _) := Map_call op c h in
      r :: spec_calls ops' c' h' g'
  end.

(** Whoever shares a map given to [Set] leaves it alone, and nobody gives the nil map. *)
Fixpoint unshared (ops : list map_op) (c : Map) (h : list (gmap K V)) : Prop :=
  match ops with
  | [] => True
  | op :: ops' =>
      match op with
      | OpSet m => match m with Some r => r < length h | None => False end
      | Elsewhere r _ => cache c <> Some r
      | _ => True
      end /\ let '(c', h', _) := Map_call op c h in unshared ops' c' h'
  end.
End map.

(** ** map_with_default.go *)

Section map_with_constructor.
Context {K V W : Type} `{Countable K}.

(** [W] is what the constructor may change. *)
(* go: internal/concurrent/map_with_default.go | type MapWithConstructor *)
Record MapWithConstructor := { constructor : W -> W * outcome V; mc_cache : gmap K V }.
(* go: internal/concurrent/map_with_default.go | func NewMapWithConstructor *)
Definition NewMapWithConstructor (f : W -> W * outcome V) : MapWithConstructor :=
  {| constructor := f; mc_cache := ∅ |}.

(** The unlock is deferred, so the lock is free afterwards in every case. *)
(* go: internal/concurrent/map_with_default.go | func (c *MapWithConstructor[K, V]) Get *)
Definition MapWithConstructor_Get (key : K) (c : MapWithConstructor) (w : W)
    : MapWithConstructor * W * outcome V :=
  match mc_cache c !! key with
  | Some v => (c, w, Returns v)
  | None =>
      match constructor c w with
      | (w', Returns v) => ({| constructor := constructor c; mc_cache := <[key := v]> (mc_cache c) |}, w', Returns v)
      | (w', Panics why) => (c, w', Panics why)
      end
  end.

Fixpoint constructor_gets (keys : list K) (c : MapWithConstructor) (w : W) : MapWithConstructor * W * list (outcome V) :=
  match keys with
  | [] => (c, w, [])
  | key :: keys' =>
      let '(c', w', r) := MapWithConstructor_Get key c w in
      let '(c'', w'', rs) := constructor_gets keys' c' w' in (c'', w'', r :: rs)
  end.
End map_with_constructor.

(** ** timeout_cache.go, single_timeout_cache.go *)

Section timeout_cache.
Context {K V W : Type} `{Countable K}.

(* go: internal/concurrent/timeout_cache.go | type cacheValue *)
Record cacheValue := { val : V; cv_validUntil : Z }.

(** The clocks read the world, in which time passes. *)
(* go: internal/concurrent/timeout_cache.go | // TimeoutCache is a cache *)
Record TimeoutCache := { tc_m : Map; now : K -> W -> Z; validUntil : K -> W -> Z }.
(* go: internal/concurrent/timeout_cache.go | func NewTimeoutCache *)
Definition NewTimeoutCache (now validUntil : K -> W -> Z) (h : list (gmap K cacheValue))
    : TimeoutCache * list (gmap K cacheValue) :=
  let '(m, h') := NewMap h in ({| tc_m := m; now := now; validUntil := validUntil |}, h').

(** A fetcher changes the world and returns, with a value even beside an error. *)
Definition fetcher_of : Type := K -> W -> W * (V * option error).

(** The second half of [Get]: fetch, and keep what was fetched without an error. *)
Definition TimeoutCache_fetch (key : K) (fetcher : fetcher_of) (c : TimeoutCache) (h : list (gmap K cacheValue)) (w : W)
    : TimeoutCache * list (gmap K cacheValue) * W * reply (V * option error) :=
  let '(w', (v, err)) := fetcher key w in
  match err with
  | Some _ => (c, h, w', Answers (v, err))
  | None =>
      let '(m, h', r) := Map_Add key {| val := v; cv_validUntil := validUntil c key w' |} (tc_m c) h in
      ({| tc_m := m; now := now c; validUntil := validUntil c |}, h', w', (fun _ => (v, None)) <$> r)
  end.

(* go: internal/concurrent/timeout_cache.go | func (c *TimeoutCache[K, V]) Get *)
Definition TimeoutCache_Get (key : K) (fetcher : fetcher_of) (c : TimeoutCache) (h : list (gmap K cacheValue)) (w : W)
    : TimeoutCache * list (gmap K cacheValue) * W * reply (V * option error) :=
  match Map_Get key (tc_m c) h with
  | Blocks => (c, h, w, Blocks)
  | Dies why => (c, h, w, Dies why)
  | Answers (Some value) =>
      if decide (now c key w < cv_validUntil value)%Z then (c, h, w, Answers (val value, None))
      else TimeoutCache_fetch key fetcher c h w
  | Answers None => TimeoutCache_fetch key fetcher c h w
  end.

Fixpoint cache_gets (calls : list (K * fetcher_of)) (c : TimeoutCache) (h : list (gmap K cacheValue)) (w : W)
    : W * list (reply (V * option error)) :=
  match calls with
  | [] => (w, [])
  | (key, fetcher) :: calls' =>
      let '(c', h', w', r) := TimeoutCache_Get key fetcher c h w in
      let '(w'', rs) := cache_gets calls' c' h' w' in (w'', r :: rs)
  end.

(** The specification: a journal of the successful fetches, the latest first. A call is answered
    by the latest fetch of its key, while that is valid, and by a fetch of its own otherwise. *)
Definition journal : Type := list (K * V * Z).
Definition latest (key : K) (j : journal) : option (V * Z) :=
  match filter (fun e => e.1.1 = key) j with e :: _ => Some (e.1.2, e.2) | [] => None end.

Definition spec_fetch (validUntil : K -> W -> Z) (key : K) (fetcher : fetcher_of) (j : journal) (w : W)
    : journal * W * (V * option error) :=
  let '(w', (v, err)) := fetcher key w in
  match err with
  | Some _ => (j, w', (v, err))
  | None => ((key, v, validUntil key w') :: j, w', (v, None))
  end.

Definition spec_Get (now validUntil : K -> W -> Z) (key : K) (fetcher : fetcher_of) (j : journal) (w : W)
    : journal * W * (V * option error) :=
  match latest key j with
  | Some (v, until) =>
      if decide (now key w < until)%Z then (j, w, (v, None)) else spec_fetch validUntil key fetcher j w
  | None => spec_fetch validUntil key fetcher j w
  end.

Fixpoint spec_gets (now validUntil : K -> W -> Z) (calls : list (K * fetcher_of)) (j : journal) (w : W)
    : W * list (reply (V * option error)) :=
  match calls with
  | [] => (w, [])
  | (key, fetcher) :: calls' =>
      let '(j', w', r) := spec_Get now validUntil key fetcher j w in
      let '(w'', rs) := spec_gets now validUntil calls' j' w' in (w'', Answers r :: rs)
  end.
End timeout_cache.

Section single.
Context {V W : Type}.

(* go: internal/concurrent/single_timeout_cache.go | // SingleTimeoutCache is a cache *)
Definition SingleTimeoutCache : Type := @TimeoutCache unit W.
(* go: internal/concurrent/single_timeout_cache.go | func NewSingleTimeoutCache *)
Definition NewSingleTimeoutCache (clock : W -> Z) (ttl : Z) (h : list (gmap unit (@cacheValue V)))
    : SingleTimeoutCache * list (gmap unit (@cacheValue V)) :=
  NewTimeoutCache (fun _ => clock) (fun _ w => time_add (clock w) ttl) h.
(* go: internal/concurrent/single_timeout_cache.go | func (c *SingleTimeoutCache[V]) Get *)
Definition SingleTimeoutCache_Get (fetcher : W -> W * (V * option error)) :=
  TimeoutCache_Get tt (fun _ : unit => fetcher).
End single.

(** ** Theorems *)

Section value_theorems.
Context {V : Type}.
Implicit Types (c : Value V) (f : V -> outcome V).

Lemma Value_updates_held fs c : mu_held c = true -> Value_updates fs c = c.
Proof.
  unfold Value_updates. induction fs as [|f fs IH]; intros Hc; cbn; [done|].
  unfold Value_Update at 2. rewrite Hc. by apply IH.
Qed.

(** Updates compose as long as none of their functions panics. The first that does leaves the
    lock held for ever: every later reader and writer blocks. *)
Theorem Value_updates_spec fs f fs' c (g : (V -> outcome V) -> V -> V) :
  mu_held c = false -> (forall f, f ∈ fs -> forall v, f v = Returns (g f v)) ->
  let v := foldl (fun v f => g f v) (value c) fs in
  Value_Get (Value_updates fs c) = (Value_updates fs c, Answers v) /\
  (forall why, f v = Panics why ->
     (Value_Get (Value_updates (fs ++ f :: fs') c)).2 = Blocks /\
     forall h, (Value_Update h (Value_updates (fs ++ f :: fs') c)).2 = Blocks).
Proof.
  intros Hc Hfs v.
  assert (Value_updates fs c = {| mu_held := false; value := v |}) as Hv.
  { subst v. revert c Hc. unfold Value_updates. induction fs as [|f' fs IH]; intros c Hc; cbn.
    - destruct c as [b v']. cbn in Hc. by subst.
    - unfold Value_Update at 2. rewrite Hc, (Hfs f') by (by left). cbn. apply IH; [|done]. intros; apply Hfs. by right. }
  rewrite Hv. split; [done|]. intros why Hf.
  assert (Value_updates (fs ++ f :: fs') c = {| mu_held := true; value := v |}) as Hb.
  { unfold Value_updates in *. rewrite foldl_app, Hv. cbn. rewrite Hf. cbn.
    by apply (Value_updates_held fs'). }
  by rewrite Hb.
Qed.
End value_theorems.

Section map_theorems.
Context {K V : Type} `{Countable K} (range : gmap K V -> list (K * V)).
Implicit Types (c : Map) (h : list (gmap K V)) (g : gmap K V).

(** The object [c] in the heap [h] stands for the finite map [g]. *)
Definition holds c h g : Prop := m_held c = false /\ exists r, cache c = Some r /\ h !! r = Some g.

Lemma holds_deref c h g : holds c h g -> deref h (cache c) = g.
Proof. intros (_ & r & -> & Hr). cbn. by rewrite Hr. Qed.

Lemma holds_insert c h r g g' : m_held c = false -> cache c = Some r -> h !! r = Some g -> holds c (<[r := g']> h) g'.
Proof.
  intros Hc Hr Hg. split; [done|]. exists r. split; [done|]. apply list_lookup_insert_eq. by eapply lookup_lt_Some.
Qed.

Lemma Map_Add_holds key v c h g : holds c h g ->
  exists h', Map_Add key v c h = (c, h', Answers tt) /\ holds c h' (<[key := v]> g).
Proof.
  intros (Hc & r & Hr & Hg). unfold Map_Add. rewrite Hc, Hr. cbn. rewrite Hg. cbn.
  eexists. split; [done|]. by apply (holds_insert c h r g).
Qed.

Lemma NewMap_holds h c' h' : NewMap h = (c', h') -> holds c' h' ∅.
Proof.
  intros [= <- <-]. split; [done|]. eexists. split; [done|]. by apply list_lookup_middle.
Qed.

(** One call: the same answer, and the object stands for what the specification says. *)
Lemma Map_call_refines op c h g : holds c h g ->
  match op with
  | OpSet m => match m with Some r => r < length h | None => False end
  | Elsewhere r _ => cache c <> Some r
  | _ => True
  end ->
  let '(g', r) := spec_call range op (deref h) g in
  let '(c', h', r') := Map_call range op c h in r' = r /\ holds c' h' g'.
Proof.
  intros Hh Hop. pose proof (holds_deref c h g Hh) as Hd. pose proof Hh as (Hc & r & Hr & Hg).
  destruct op as [key|key v|m|keys values|key| | |r' m]; cbn.
  - unfold Map_Get. by rewrite Hc, Hd.
  - destruct (Map_Add_holds key v c h g Hh) as (h' & -> & Hh'). done.
  - unfold Map_Set. rewrite Hc. destruct m as [r'|]; [|done]. split; [done|].
    destruct (lookup_lt_is_Some_2 h r' Hop) as [g' Hg']. split; [done|].
    exists r'. cbn. by rewrite Hg'.
  - unfold Map_InitBulk. case_decide; [done|]. rewrite Hc. split; [done|]. split; [done|].
    eexists. split; [done|]. by apply list_lookup_middle.
  - unfold Map_Remove. rewrite Hc, Hr. cbn. rewrite Hg. cbn. split; [done|]. by apply (holds_insert c h r g).
  - unfold Map_Len. by rewrite Hc, Hd.
  - unfold Map_GetAll. by rewrite Hc, Hd.
  - split; [done|]. split; [done|]. exists r. split; [done|]. rewrite list_lookup_insert_ne by congruence. done.
Qed.

(** A concurrent map answers every sequence of calls as one finite map would, as long as the
    maps given to [Set] are left alone by those who gave them, and the nil map is never given. *)
Theorem Map_refines ops c h g :
  holds c h g -> unshared range ops c h -> Map_calls range ops c h = spec_calls range ops c h g.
Proof.
  revert c h g. induction ops as [|op ops IH]; intros c h g Hh; cbn [unshared Map_calls spec_calls]; [done|].
  intros [Hop Hops]. pose proof (Map_call_refines op c h g Hh Hop) as Hcall.
  destruct (spec_call range op (deref h) g) as [g' r], (Map_call range op c h) as [[c' h'] r'].
  destruct Hcall as [-> Hh']. f_equal. by apply IH.
Qed.

(** The two conditions are needed: a map given to [Set] is not copied, and adding to an object
    that holds the nil map panics with the lock held, after which every call blocks. *)
Theorem Map_Set_shares key (v v' : V) :
  let '(c, h) := NewMap [(∅ : gmap K V)] in
  Map_calls range [OpSet (Some 0); Elsewhere 0 {[key := v]}; OpGet key] c h =
    [Answers AUnit; Answers AUnit; Answers (AFound (Some v))] /\
  Map_calls range [OpSet None; OpGet key; OpAdd key v; OpGet key; OpLen] c h =
    [Answers AUnit; Answers (AFound None); Dies nil_map_write; Blocks; Blocks].
Proof. split; cbn; rewrite ?lookup_singleton_eq; done. Qed.
End map_theorems.

Definition range_nat (m : gmap nat nat) : list (nat * nat) := map_to_list m.

Lemma Map_refines_witness :
  let c := {| m_held := false; cache := Some 0 |} in
  let h : list (gmap nat nat) := [∅; {[7 := 70]}; ∅] in
  let ops := [OpAdd 1 10; OpInitBulk [2; 3; 2] [20; 30; 21]; OpGet 2; OpSet (Some 1); Elsewhere 0 ∅; OpRemove 1; OpGet 7; OpLen] in
  Map_calls range_nat ops c h = spec_calls range_nat ops c h ∅ /\
  spec_calls range_nat ops c h ∅ =
    [Answers AUnit; Answers AUnit; Answers (AFound (Some 21)); Answers AUnit; Answers AUnit; Answers AUnit;
     Answers (AFound (Some 70)); Answers (ALen 1)].
Proof.
  split; [|by vm_compute]. apply (Map_refines range_nat).
  - split; [done|]. by exists 0.
  - vm_compute. repeat split; try (repeat constructor); discriminate.
Defined.

Lemma size_insert_set {K} `{Countable K} (x : K) (X : gset K) : x ∉ X -> size ({[x]} ∪ X) = S (size X).
Proof. intros. by rewrite size_union, size_singleton by set_solver. Qed.

Section constructor_theorems.
Context {K V W : Type} `{Countable K}.
Implicit Types (c : @MapWithConstructor K V W _ _).

Lemma constructor_gets_values keys c w c' w' rs :
  constructor_gets keys c w = (c', w', rs) ->
  constructor c' = constructor c /\ mc_cache c ⊆ mc_cache c' /\
  length rs = length keys /\
  forall i k v, keys !! i = Some k -> rs !! i = Some (Returns v) -> mc_cache c' !! k = Some v.
Proof.
  revert c w c' w' rs. induction keys as [|key keys IH]; intros c w c' w' rs; cbn [constructor_gets]; [by intros [= <- <- <-]|].
  destruct (MapWithConstructor_Get key c w) as [[c1 w1] r] eqn:E.
  destruct (constructor_gets keys c1 w1) as [[c2 w2] rs'] eqn:E'. intros [= <- <- <-].
  destruct (IH _ _ _ _ _ E') as (H1 & H2 & H3 & H4).
  assert (constructor c1 = constructor c /\ mc_cache c ⊆ mc_cache c1 /\ forall v, r = Returns v -> mc_cache c1 !! key = Some v) as (G1 & G2 & G3).
  { unfold MapWithConstructor_Get in E. destruct (mc_cache c !! key) eqn:Ek; [simplify_eq; naive_solver|].
    destruct (constructor c w) as [w0 [v|why]]; simplify_eq/=; [|done]. split_and!; [done|by apply insert_subseteq|].
    intros v' [= ->]. apply lookup_insert_eq. }
  split_and!; [congruence|by etransitivity|by cbn; f_equal|].
  intros [|i] k v Hk Hr; simplify_eq/=; [|by eapply H4].
  eapply lookup_weaken; [by apply G3|done].
Qed.

Context (f : W -> W * outcome V) (Hf : forall w, exists w' v, f w = (w', Returns v)).

Lemma MapWithConstructor_Get_total key c w : constructor c = f ->
  exists c1 v, constructor c1 = f /\
    MapWithConstructor_Get key c w =
      (c1, if decide (key ∈ dom (mc_cache c)) then w else (f w).1, Returns v) /\
    dom (mc_cache c1) = {[key]} ∪ dom (mc_cache c).
Proof.
  intros Hc. unfold MapWithConstructor_Get. destruct (mc_cache c !! key) as [v|] eqn:Ek.
  - assert (key ∈ dom (mc_cache c)) by (apply elem_of_dom; eauto).
    exists c, v. rewrite decide_True by done. split_and!; [done..|]. set_solver.
  - assert (key ∉ dom (mc_cache c)) by (by apply not_elem_of_dom).
    destruct (Hf w) as (w0 & v & Hw). rewrite Hc, Hw, decide_False by done. eexists _, v.
    split_and!; [|done|]; [done|]. cbn. by rewrite dom_insert_L.
Qed.

Lemma constructor_gets_answers keys c w c' w' rs : constructor c = f ->
  constructor_gets keys c w = (c', w', rs) -> forall i k, keys !! i = Some k -> exists v, rs !! i = Some (Returns v).
Proof.
  revert c w c' w' rs. induction keys as [|key keys IH]; intros c w c' w' rs Hc; cbn [constructor_gets]; [done|].
  destruct (MapWithConstructor_Get_total key c w Hc) as (c1 & v & Hc1 & -> & _).
  destruct (constructor_gets keys c1 _) as [[c2 w2] rs'] eqn:E'. intros [= <- <- <-] [|i] k Hk; cbn; eauto.
Qed.

Lemma constructor_gets_count keys c w c' w' rs : constructor c = f ->
  constructor_gets keys c w = (c', w', rs) ->
  w' = Nat.iter (size ((list_to_set keys : gset K) ∖ dom (mc_cache c))) (fun w => (f w).1) w.
Proof.
  revert c w c' w' rs. induction keys as [|key keys IH]; intros c w c' w' rs Hc; cbn [constructor_gets list_to_set foldr].
  - intros [= <- <- <-]. replace (size _) with 0; [done|]. symmetry. apply size_empty_iff. set_solver.
  - destruct (MapWithConstructor_Get_total key c w Hc) as (c1 & v & Hc1 & -> & Hd).
    destruct (constructor_gets keys c1 _) as [[c2 w2] rs'] eqn:E'. intros [= <- <- <-].
    rewrite (IH _ _ _ _ _ Hc1 E'), Hd. destruct (decide (key ∈ dom (mc_cache c))) as [Hk|Hk].
    + do 2 f_equal. set_solver.
    + replace (({[key]} ∪ list_to_set keys) ∖ dom (mc_cache c))
        with ({[key]} ∪ (list_to_set keys ∖ ({[key]} ∪ dom (mc_cache c))))
        by (apply set_eq; intros x; destruct (decide (x = key)); set_solver).
      rewrite size_insert_set by set_solver. by rewrite Nat.iter_succ_r.
Qed.

(** Readers of one key share one value, built by the first of them: however often the keys are
    read, the constructor runs once for each. *)
Theorem constructor_runs_once keys w c' w' rs :
  constructor_gets keys (NewMapWithConstructor f) w = (c', w', rs) ->
  (forall i j k, keys !! i = Some k -> keys !! j = Some k -> rs !! i = rs !! j) /\
  w' = Nat.iter (size (list_to_set keys : gset K)) (fun w => (f w).1) w.
Proof.
  intros Hg. split.
  - intros i j k Hi Hj. destruct (constructor_gets_values _ _ _ _ _ _ Hg) as (_ & _ & _ & Hv).
    destruct (constructor_gets_answers keys (NewMapWithConstructor f) w c' w' rs eq_refl Hg i k Hi) as [v Hvi].
    destruct (constructor_gets_answers keys (NewMapWithConstructor f) w c' w' rs eq_refl Hg j k Hj) as [v' Hvj].
    pose proof (Hv i k v Hi Hvi). pose proof (Hv j k v' Hj Hvj). congruence.
  - rewrite (constructor_gets_count keys (NewMapWithConstructor f) w c' w' rs eq_refl Hg). do 2 f_equal. cbn. set_solver.
Qed.
End constructor_theorems.

Section cache_theorems.
Context {K V W : Type} `{Countable K} (now0 validUntil0 : K -> W -> Z).
Implicit Types (c : @TimeoutCache K W) (j : @journal K V).

(** The cache holds the latest entry of the journal for each key. *)
Definition cache_holds c (h : list (gmap K (@cacheValue V))) j : Prop :=
  now c = now0 /\ validUntil c = validUntil0 /\
  exists g, holds (tc_m c) h g /\
    forall key, g !! key = (fun vu => {| val := vu.1; cv_validUntil := vu.2 |}) <$> latest key j.

Lemma latest_cons key key' (v : V) u j :
  latest key ((key', v, u) :: j) = if decide (key' = key) then Some (v, u) else latest key j.
Proof. unfold latest. cbn. unfold filter at 1. cbn. case_decide; done. Qed.

Lemma TimeoutCache_fetch_refines key (fetcher : fetcher_of) c h j w : cache_holds c h j ->
  let '(j', w', r) := spec_fetch validUntil0 key fetcher j w in
  exists c' h', TimeoutCache_fetch key fetcher c h w = (c', h', w', Answers r) /\ cache_holds c' h' j'.
Proof.
  intros (Hn & Hu & g & Hh & Hg). unfold spec_fetch, TimeoutCache_fetch.
  destruct (fetcher key w) as [w' [v [err|]]].
  - exists c, h. split; [done|]. split_and!; [done|done|]. by exists g.
  - destruct (Map_Add_holds key {| val := v; cv_validUntil := validUntil c key w' |} _ h g Hh) as (h' & -> & Hh').
    cbn. eexists _, h'. split; [done|]. split_and!; [done|done|]. eexists. split; [done|].
    intros key'. rewrite latest_cons, lookup_insert, Hu. case_decide; [done|apply Hg].
Qed.

Lemma TimeoutCache_Get_refines key (fetcher : fetcher_of) c h j w : cache_holds c h j ->
  let '(j', w', r) := spec_Get now0 validUntil0 key fetcher j w in
  exists c' h', TimeoutCache_Get key fetcher c h w = (c', h', w', Answers r) /\ cache_holds c' h' j'.
Proof.
  intros Hch. pose proof (TimeoutCache_fetch_refines key fetcher c h j w Hch) as Hfetch.
  destruct Hch as (Hn & Hu & g & Hh & Hg). pose proof Hh as (Hc & _). unfold spec_Get, TimeoutCache_Get, Map_Get.
  rewrite Hc, (holds_deref _ _ _ Hh), Hg. destruct (latest key j) as [[v u]|]; cbn; [|exact Hfetch].
  rewrite Hn. case_decide; [|exact Hfetch]. exists c, h. split; [done|]. split_and!; [done|done|]. by exists g.
Qed.

(** C28. A timeout cache answers every sequence of calls as the journal does: the value of the
    latest successful fetch of the key while it is valid, without a fetch, and otherwise what a
    fetch returns now; an error is never cached, and a failed fetch never brings a stale value
    back. *)
Theorem TimeoutCache_refines calls h w :
  let '(c, h') := NewTimeoutCache (V := V) now0 validUntil0 h in
  cache_gets calls c h' w = spec_gets now0 validUntil0 calls [] w.
Proof.
  destruct (NewTimeoutCache now0 validUntil0 h) as [c h'] eqn:E.
  assert (cache_holds c h' []) as Hc.
  { unfold NewTimeoutCache in E. destruct (NewMap h) as [m h1] eqn:Em. simplify_eq. split_and!; [done|done|].
    exists ∅. split; [by apply (NewMap_holds h)|]. intros key. by rewrite lookup_empty. }
  clear E. generalize (@nil (K * V * Z)) as j, Hc. clear Hc. revert c h' w.
  induction calls as [|[key fetcher] calls IH]; intros c h' w j Hc; cbn [cache_gets spec_gets]; [done|].
  pose proof (TimeoutCache_Get_refines key fetcher c h' j w Hc) as Hget.
  destruct (spec_Get now0 validUntil0 key fetcher j w) as [[j' w'] r].
  destruct Hget as (c' & h'' & -> & Hc'). by rewrite (IH c' h'' w' j' Hc').
Qed.
End cache_theorems.
