(* ===== verification/DriverWrapper.v ===== *)
(** * The database driver with hooks (internal/rdb/internal/driver)

    internal/wrapper (connections, statements, transactions, drivers), internal/hooks (the logger
    and the composition of hooks), sqldata and driver.go. A driver's object is the record of its
    methods; a method of an optional interface is an option. Methods run in a world [W] and may
    panic. The drivers, the hooks a wrapper is given, and what a context holds besides the values
    set here are parameters. *)
From S2P Require Import Prelude GoErrors Status Dsn.

(** ** Contexts and what they tell of a statement (sqldata) *)

Inductive ActionEnum :=
| ActionNone | ActionPrepare | ActionQuery | ActionExec | ActionTx | ActionBegin | ActionCommit | ActionRollback.

#[export] Instance ActionEnum_eq_dec : EqDecision ActionEnum.
Proof. solve_decision. Defined.

Definition action_text (a : ActionEnum) : string :=
  match a with
  | ActionNone => ""
  | ActionPrepare => "prepare" | ActionQuery => "query" | ActionExec => "exec" | ActionTx => "tx"
  | ActionBegin => "begin" | ActionCommit => "commit" | ActionRollback => "rollback"
  end.

Definition ErrSkip : leaf := LNew 20 "driver: skip fast-path; continue as if unimplemented".

Section wrapper.
(** [B]: what else a context holds; [V]: values of the driver; [W]: the world. *)
Context {B V Rows Result Conv W : Type}.

Record NamedValue := { nv_Name : string; nv_Ordinal : Z; nv_Value : V }.

(** An element of a list of type []any. *)
Inductive anything := AValue (v : V) | ANamed (nv : NamedValue).

(* go: internal/rdb/internal/driver/sqldata/sqldata.go | type Data struct *)
Record Data := { Operation : string; Action : ActionEnum; d_Stmt : string; d_Args : list anything }.
Definition no_data : Data := {| Operation := ""; Action := ActionNone; d_Stmt := ""; d_Args := [] |}.

Record Ctx := { base : B; data : option Data; conn_id : option string; start_time : option Z }.

(* go: internal/rdb/internal/driver/sqldata/sqldata.go | type Option func *)
Definition Option : Type := Data -> Data.
(* go: internal/rdb/internal/driver/sqldata/context.go | // Operation gives short *)
Definition opt_Operation (o : string) : Option := fun d =>
  {| Operation := o; Action := Action d; d_Stmt := d_Stmt d; d_Args := d_Args d |}.
(* go: internal/rdb/internal/driver/sqldata/context.go | func Action *)
Definition opt_Action (a : ActionEnum) : Option := fun d =>
  {| Operation := Operation d; Action := a; d_Stmt := d_Stmt d; d_Args := d_Args d |}.
(* go: internal/rdb/internal/driver/sqldata/context.go | func Stmt *)
Definition opt_Stmt (stmt : string) (args : list anything) : Option := fun d =>
  {| Operation := Operation d; Action := Action d; d_Stmt := stmt; d_Args := args |}.

(* go: internal/rdb/internal/driver/sqldata/context.go | func FromContext *)
Definition FromContext (ctx : Ctx) : Data := default no_data (data ctx).
(* go: internal/rdb/internal/driver/sqldata/context.go | // NewContext gets *)
Definition NewContext (ctx : Ctx) (opts : list Option) : Ctx :=
  {| base := base ctx; data := Some (foldl (fun d o => o d) (FromContext ctx) opts);
     conn_id := conn_id ctx; start_time := start_time ctx |}.

(** ** Calls *)

Definition M (A : Type) : Type := W -> W * outcome A.
#[local] Instance M_ret : MRet M := fun A a w => (w, Returns a).
#[local] Instance M_bind : MBind M := fun A A' k m w =>
  match m w with
  | (w', Returns a) => k a w'
  | (w', Panics why) => (w', Panics why)
  end.

Definition nil_call : string := "runtime error: invalid memory address or nil pointer dereference".
Definition panics {A} (why : string) : M A := fun w => (w, Panics why).

(* go: internal/rdb/internal/driver/internal/wrapper/hook.go | // Hook common interface *)
Record Hook := { Before : Ctx -> M Ctx; After : Ctx -> option error -> M unit }.

(** The methods of a driver's objects; [None] for an interface that is not implemented. *)
Record Tx := { Commit : M (option error); Rollback : M (option error) }.

Record Stmt := {
  stmt_Close : M (option error);
  NumInput : M Z;
  stmt_Exec : list V -> M (option Result * option error);
  stmt_Query : list V -> M (option Rows * option error);
  StmtExecContext : option (Ctx -> list NamedValue -> M (option Result * option error));
  StmtQueryContext : option (Ctx -> list NamedValue -> M (option Rows * option error));
  ColumnConverter : option Conv;
  stmt_NamedValueChecker : option (NamedValue -> M (NamedValue * option error))
}.

Record Conn := {
  Prepare : string -> M (option Stmt * option error);
  conn_Close : M (option error);
  Begin : M (option Tx * option error);
  Pinger : option (Ctx -> M (option error));
  Execer : option (string -> list V -> M (option Result * option error));
  ExecerContext : option (Ctx -> string -> list NamedValue -> M (option Result * option error));
  Queryer : option (string -> list V -> M (option Rows * option error));
  QueryerContext : option (Ctx -> string -> list NamedValue -> M (option Rows * option error));
  ConnPrepareContext : option (Ctx -> string -> M (option Stmt * option error));
  ConnBeginTx : option (Ctx -> Z -> M (option Tx * option error));
  NamedValueChecker : option (NamedValue -> M (NamedValue * option error));
  SessionResetter : option (Ctx -> M (option error))
}.

(** ** Hooks *)

(* go: internal/rdb/internal/driver/internal/wrapper/hook.go | func (h connIDHook) Before *)
Definition connIDHook_Before (connID : string) (hook : Hook) (ctx : Ctx) : M Ctx :=
  Before hook {| base := base ctx; data := data ctx; conn_id := Some connID; start_time := start_time ctx |}.
(* go: internal/rdb/internal/driver/internal/wrapper/hook.go | func (h connIDHook) After *)
Definition connIDHook_After (hook : Hook) (ctx : Ctx) (err : option error) : M unit := After hook ctx err.
(* go: internal/rdb/internal/driver/internal/wrapper/hook.go | type connIDHook *)
Definition connIDHook (connID : string) (hook : Hook) : Hook :=
  {| Before := connIDHook_Before connID hook; After := connIDHook_After hook |}.
(* go: internal/rdb/internal/driver/internal/wrapper/hook.go | // ConnIDFromContext get *)
Definition ConnIDFromContext (ctx : Ctx) : string := default "" (conn_id ctx).

(* go: internal/rdb/internal/driver/internal/hooks/compose.go | func (c composed) Before *)
Fixpoint composed_Before (c : list Hook) (ctx : Ctx) : M Ctx :=
  match c with
  | [] => mret ctx
  | hook :: c' => ctx' ← Before hook ctx; composed_Before c' ctx'
  end.
(* go: internal/rdb/internal/driver/internal/hooks/compose.go | func (c composed) After *)
Fixpoint composed_After (c : list Hook) (ctx : Ctx) (err : option error) : M unit :=
  match c with
  | [] => mret tt
  | hook :: c' => _ ← After hook ctx err; composed_After c' ctx err
  end.
(* go: internal/rdb/internal/driver/internal/hooks/compose.go | func Compose *)
Definition Compose (hooks : list Hook) : Hook := {| Before := composed_Before hooks; After := composed_After hooks |}.

(** ** Statements (stmt.go) *)

(* go: internal/rdb/internal/driver/internal/wrapper/stmt.go | func valuesToInterfaces *)
Definition valuesToInterfaces (args : list V) : list anything := map AValue args.
(* go: internal/rdb/internal/driver/internal/wrapper/stmt.go | func namedValuesToInterfaces *)
Definition namedValuesToInterfaces (args : list NamedValue) : list anything := map ANamed args.

(** The sequence every method shares: the hook before, the call in the context of the hook, the
    hook after, no result beside an error. *)
Definition hooked {A} (h : Hook) (ctx : Ctx) (call : Ctx -> M (option A * option error))
    : M (option A * option error) :=
  ctx' ← Before h ctx;
  '(res, err) ← call ctx';
  _ ← After h ctx' err;
  match err with
  | Some e => mret (None, Some e)
  | None => mret (res, None)
  end.

(** [bg] is what [context.Background()] and [context.TODO()] hold. *)
Context (bg : B).
Definition Background : Ctx := {| base := bg; data := None; conn_id := None; start_time := None |}.

(* go: internal/rdb/internal/driver/internal/wrapper/stmt.go | // implements driver.Stmt *)
Record wrStmt := { ws_name : string; ws_parent : Stmt; ws_query : string; ws_wrapper : Hook }.

(* go: internal/rdb/internal/driver/internal/wrapper/stmt.go | func (s wrStmt) Exec( *)
Definition wrStmt_Exec (s : wrStmt) (args : list V) : M (option Result * option error) :=
  hooked (ws_wrapper s)
    (NewContext Background [opt_Stmt (ws_query s) (valuesToInterfaces args); opt_Action ActionExec; opt_Operation (ws_name s)])
    (fun _ => stmt_Exec (ws_parent s) args).
(* go: internal/rdb/internal/driver/internal/wrapper/stmt.go | func (s wrStmt) Close *)
Definition wrStmt_Close (s : wrStmt) : M (option error) := stmt_Close (ws_parent s).
(* go: internal/rdb/internal/driver/internal/wrapper/stmt.go | func (s wrStmt) NumInput *)
Definition wrStmt_NumInput (s : wrStmt) : M Z := NumInput (ws_parent s).
(* go: internal/rdb/internal/driver/internal/wrapper/stmt.go | func (s wrStmt) Query( *)
Definition wrStmt_Query (s : wrStmt) (args : list V) : M (option Rows * option error) :=
  hooked (ws_wrapper s)
    (NewContext Background [opt_Stmt (ws_query s) (valuesToInterfaces args); opt_Action ActionQuery; opt_Operation (ws_name s)])
    (fun _ => stmt_Query (ws_parent s) args).

Definition bad_assertion : string := "interface conversion: missing method".

(** The type assertion on the parent panics if the interface is missing; it comes first. *)
(* go: internal/rdb/internal/driver/internal/wrapper/stmt.go | func (s wrStmt) ExecContext *)
Definition wrStmt_ExecContext (s : wrStmt) (ctx : Ctx) (args : list NamedValue) : M (option Result * option error) :=
  match StmtExecContext (ws_parent s) with
  | None => panics bad_assertion
  | Some execContext =>
      hooked (ws_wrapper s)
        (NewContext ctx [opt_Stmt (ws_query s) (namedValuesToInterfaces args); opt_Action ActionExec; opt_Operation (ws_name s)])
        (fun ctx => execContext ctx args)
  end.
(* go: internal/rdb/internal/driver/internal/wrapper/stmt.go | func (s wrStmt) QueryContext *)
Definition wrStmt_QueryContext (s : wrStmt) (ctx : Ctx) (args : list NamedValue) : M (option Rows * option error) :=
  match StmtQueryContext (ws_parent s) with
  | None => panics bad_assertion
  | Some queryContext =>
      hooked (ws_wrapper s)
        (NewContext ctx [opt_Stmt (ws_query s) (namedValuesToInterfaces args); opt_Action ActionQuery; opt_Operation (ws_name s)])
        (fun ctx => queryContext ctx args)
  end.

(** The struct [wrapStmt] chooses has the interfaces of the parent; [c] and [n] are the parent's
    own. *)
Definition select_stmt (s : wrStmt) (exe qry : bool) (c : option Conv)
    (n : option (NamedValue -> M (NamedValue * option error))) : Stmt := {|
  stmt_Close := wrStmt_Close s; NumInput := wrStmt_NumInput s;
  stmt_Exec := wrStmt_Exec s; stmt_Query := wrStmt_Query s;
  StmtExecContext := if exe then Some (wrStmt_ExecContext s) else None;
  StmtQueryContext := if qry then Some (wrStmt_QueryContext s) else None;
  ColumnConverter := c; stmt_NamedValueChecker := n
|}.

(* go: internal/rdb/internal/driver/internal/wrapper/wrappeddriver.go | func wrapStmt *)
Definition wrapStmt (stmt : Stmt) (query name : string) (wrapper : Hook) : Stmt :=
  let s := {| ws_name := name; ws_parent := stmt; ws_query := query; ws_wrapper := wrapper |} in
  match StmtExecContext stmt, StmtQueryContext stmt, ColumnConverter stmt, stmt_NamedValueChecker stmt with
  | None, None, None, None => select_stmt s false false None None
  | None, Some _, None, None => select_stmt s false true None None
  | Some _, None, None, None => select_stmt s true false None None
  | Some _, Some _, None, None => select_stmt s true true None None
  | None, None, Some c, None => select_stmt s false false (Some c) None
  | None, Some _, Some c, None => select_stmt s false true (Some c) None
  | Some _, None, Some c, None => select_stmt s true false (Some c) None
  | Some _, Some _, Some c, None => select_stmt s true true (Some c) None
  | None, None, None, Some n => select_stmt s false false None (Some n)
  | None, Some _, None, Some n => select_stmt s false true None (Some n)
  | Some _, None, None, Some n => select_stmt s true false None (Some n)
  | Some _, Some _, None, Some n => select_stmt s true true None (Some n)
  | None, None, Some c, Some n => select_stmt s false false (Some c) (Some n)
  | None, Some _, Some c, Some n => select_stmt s false true (Some c) (Some n)
  | Some _, None, Some c, Some n => select_stmt s true false (Some c) (Some n)
  | Some _, Some _, Some c, Some n => select_stmt s true true (Some c) (Some n)
  end.

(** ** Transactions (tx.go) *)

(* go: internal/rdb/internal/driver/internal/wrapper/tx.go | // wrTx implements *)
Record wrTx := { wt_parent : Tx; wt_ctx : Ctx; wt_txctx : Ctx; wt_wrapper : Hook }.

(** Both ends of a transaction: the hook before it, the call, the hook after it, and the hook
    after the transaction as a whole. *)
Definition end_tx (t : wrTx) (action : ActionEnum) (call : M (option error)) : M (option error) :=
  ctx ← Before (wt_wrapper t) (NewContext (wt_ctx t) [opt_Action action]);
  err ← call;
  _ ← After (wt_wrapper t) ctx err;
  _ ← After (wt_wrapper t) (wt_txctx t) err;
  mret err.

(* go: internal/rdb/internal/driver/internal/wrapper/tx.go | func (t wrTx) Commit *)
Definition wrTx_Commit (t : wrTx) : M (option error) := end_tx t ActionCommit (Commit (wt_parent t)).
(* go: internal/rdb/internal/driver/internal/wrapper/tx.go | func (t wrTx) Rollback *)
Definition wrTx_Rollback (t : wrTx) : M (option error) := end_tx t ActionRollback (Rollback (wt_parent t)).

Definition wrTx_Tx (t : wrTx) : Tx := {| Commit := wrTx_Commit t; Rollback := wrTx_Rollback t |}.

(** ** Connections (conn.go) *)

Section wrConn.
Context (c_parent : Conn) (c_wrapper : Hook).

(* go: internal/rdb/internal/driver/internal/wrapper/conn.go | func (c wrConn) Ping *)
Definition wrConn_Ping (ctx : Ctx) : M (option error) :=
  match Pinger c_parent with Some ping => ping ctx | None => mret None end.

(* go: internal/rdb/internal/driver/internal/wrapper/conn.go | func (c wrConn) Exec( *)
Definition wrConn_Exec (query : string) (args : list V) : M (option Result * option error) :=
  match Execer c_parent with
  | Some exec =>
      hooked c_wrapper (NewContext Background [opt_Stmt query (valuesToInterfaces args); opt_Action ActionExec])
        (fun _ => exec query args)
  | None => mret (None, Some (Leaf ErrSkip))
  end.

(* go: internal/rdb/internal/driver/internal/wrapper/conn.go | func (c wrConn) ExecContext *)
Definition wrConn_ExecContext (ctx : Ctx) (query : string) (args : list NamedValue) : M (option Result * option error) :=
  match ExecerContext c_parent with
  | Some execContext =>
      hooked c_wrapper (NewContext ctx [opt_Stmt query (namedValuesToInterfaces args); opt_Action ActionExec])
        (fun execCtx => execContext execCtx query args)
  | None => mret (None, Some (Leaf ErrSkip))
  end.

(* go: internal/rdb/internal/driver/internal/wrapper/conn.go | func (c wrConn) Query( *)
Definition wrConn_Query (query : string) (args : list V) : M (option Rows * option error) :=
  match Queryer c_parent with
  | Some queryer =>
      hooked c_wrapper (NewContext Background [opt_Stmt query (valuesToInterfaces args); opt_Action ActionQuery])
        (fun _ => queryer query args)
  | None => mret (None, Some (Leaf ErrSkip))
  end.

(* go: internal/rdb/internal/driver/internal/wrapper/conn.go | func (c wrConn) QueryContext *)
Definition wrConn_QueryContext (ctx : Ctx) (query : string) (args : list NamedValue) : M (option Rows * option error) :=
  match QueryerContext c_parent with
  | Some queryerContext =>
      hooked c_wrapper (NewContext ctx [opt_Stmt query (namedValuesToInterfaces args); opt_Action ActionQuery])
        (fun qCtx => queryerContext qCtx query args)
  | None => mret (None, Some (Leaf ErrSkip))
  end.

Definition queryNameNotDerivedFromContext : string := "query name is not derived from context".

(** The interface value a failed call leaves in [stmt] is nil; a nil statement beside a nil error
    would be wrapped, and panic when it is used: no driver returns it. *)
Definition wrap_prepared (query name : string) (r : option Stmt * option error) : option Stmt * option error :=
  match r with
  | (_, Some e) => (None, Some e)
  | (stmt, None) => ((fun s => wrapStmt s query name c_wrapper) <$> stmt, None)
  end.

(* go: internal/rdb/internal/driver/internal/wrapper/conn.go | func (c wrConn) Prepare( *)
Definition wrConn_Prepare (query : string) : M (option Stmt * option error) :=
  ctx ← Before c_wrapper (NewContext Background [opt_Stmt query []; opt_Action ActionPrepare]);
  '(stmt, err) ← Prepare c_parent query;
  _ ← After c_wrapper ctx err;
  mret (wrap_prepared query queryNameNotDerivedFromContext (stmt, err)).

(* go: internal/rdb/internal/driver/internal/wrapper/conn.go | func (c *wrConn) Close *)
Definition wrConn_Close : M (option error) := conn_Close c_parent.

(* go: internal/rdb/internal/driver/internal/wrapper/conn.go | func (c *wrConn) PrepareContext *)
Definition wrConn_PrepareContext (ctx : Ctx) (query : string) : M (option Stmt * option error) :=
  ctx ← Before c_wrapper (NewContext ctx [opt_Stmt query []; opt_Action ActionPrepare]);
  '(stmt, err) ← match ConnPrepareContext c_parent with
                 | Some prepCtx => prepCtx ctx query
                 | None => Prepare c_parent query
                 end;
  _ ← After c_wrapper ctx err;
  let op := Operation (FromContext ctx) in
  let qName := if decide (op = "") then queryNameNotDerivedFromContext else op in
  mret (wrap_prepared query qName (stmt, err)).

(* go: internal/rdb/internal/driver/internal/wrapper/conn.go | func (c *wrConn) BeginTx *)
Definition wrConn_BeginTx (ctx : Ctx) (opts : Z) : M (option Tx * option error) :=
  txctx ← Before c_wrapper (NewContext ctx [opt_Action ActionTx]);
  beginctx ← Before c_wrapper (NewContext ctx [opt_Action ActionBegin]);
  '(tx, err) ← match ConnBeginTx c_parent with
               | Some connBeginTx => connBeginTx txctx opts
               | None => Begin c_parent
               end;
  _ ← After c_wrapper beginctx err;
  match err with
  | Some e => _ ← After c_wrapper txctx err; mret (None, Some e)
  | None =>
      mret ((fun tx => wrTx_Tx {| wt_parent := tx; wt_ctx := ctx; wt_txctx := txctx; wt_wrapper := c_wrapper |}) <$> tx, None)
  end.

(** The options are the zero options. *)
(* go: internal/rdb/internal/driver/internal/wrapper/conn.go | func (c *wrConn) Begin( *)
Definition wrConn_Begin : M (option Tx * option error) := wrConn_BeginTx Background 0.

(** [convert] is [driver.DefaultParameterConverter.ConvertValue]. *)
Context (convert : V -> V * option error).

(* go: internal/rdb/internal/driver/internal/wrapper/conn.go | func (c *wrConn) CheckNamedValue *)
Definition wrConn_CheckNamedValue (nv : NamedValue) : M (NamedValue * option error) :=
  match NamedValueChecker c_parent with
  | Some nvc => nvc nv
  | None =>
      let '(v, err) := convert (nv_Value nv) in
      mret ({| nv_Name := nv_Name nv; nv_Ordinal := nv_Ordinal nv; nv_Value := v |}, err)
  end.

(** The methods of a [*wrConn]. *)
(* go: internal/rdb/internal/driver/internal/wrapper/conn.go | // wrConn implements *)
Definition wrConn : Conn := {|
  Prepare := wrConn_Prepare; conn_Close := wrConn_Close; Begin := wrConn_Begin;
  Pinger := Some wrConn_Ping; Execer := Some wrConn_Exec; ExecerContext := Some wrConn_ExecContext;
  Queryer := Some wrConn_Query; QueryerContext := Some wrConn_QueryContext;
  ConnPrepareContext := Some wrConn_PrepareContext; ConnBeginTx := Some wrConn_BeginTx;
  NamedValueChecker := Some wrConn_CheckNamedValue; SessionResetter := None
|}.

(** The structs that embed a [*wrConn] beside interfaces of the parent. A method that two embedded
    fields have at the same depth is not promoted: [CheckNamedValue] is a method of the embedded
    [*wrConn] and of the embedded [driver.NamedValueChecker], so that the struct has none. *)
(* go: internal/rdb/internal/driver/internal/wrapper/conn.go | type wrConnWithNameValueChecker struct *)
Definition wrConnWithNameValueChecker : Conn := {|
  Prepare := wrConn_Prepare; conn_Close := wrConn_Close; Begin := wrConn_Begin;
  Pinger := Some wrConn_Ping; Execer := Some wrConn_Exec; ExecerContext := Some wrConn_ExecContext;
  Queryer := Some wrConn_Query; QueryerContext := Some wrConn_QueryContext;
  ConnPrepareContext := Some wrConn_PrepareContext; ConnBeginTx := Some wrConn_BeginTx;
  NamedValueChecker := None; SessionResetter := None
|}.
(* go: internal/rdb/internal/driver/internal/wrapper/conn.go | type wrConnWithSessionResetter struct *)
Definition wrConnWithSessionResetter : Conn := {|
  Prepare := wrConn_Prepare; conn_Close := wrConn_Close; Begin := wrConn_Begin;
  Pinger := Some wrConn_Ping; Execer := Some wrConn_Exec; ExecerContext := Some wrConn_ExecContext;
  Queryer := Some wrConn_Query; QueryerContext := Some wrConn_QueryContext;
  ConnPrepareContext := Some wrConn_PrepareContext; ConnBeginTx := Some wrConn_BeginTx;
  NamedValueChecker := Some wrConn_CheckNamedValue; SessionResetter := SessionResetter c_parent
|}.
(* go: internal/rdb/internal/driver/internal/wrapper/conn.go | type wrConnWithNameValueCheckerAndWithSessionResetter struct *)
Definition wrConnWithNameValueCheckerAndWithSessionResetter : Conn := {|
  Prepare := wrConn_Prepare; conn_Close := wrConn_Close; Begin := wrConn_Begin;
  Pinger := Some wrConn_Ping; Execer := Some wrConn_Exec; ExecerContext := Some wrConn_ExecContext;
  Queryer := Some wrConn_Query; QueryerContext := Some wrConn_QueryContext;
  ConnPrepareContext := Some wrConn_PrepareContext; ConnBeginTx := Some wrConn_BeginTx;
  NamedValueChecker := None; SessionResetter := SessionResetter c_parent
|}.
End wrConn.

(** A value of type [driver.Conn] with its dynamic type: a connection of some driver, or one of
    the types above around another connection. *)
Inductive conn_value :=
| Foreign (c : Conn)
| PtrWrConn (parent : conn_value) (h : Hook)
| WithNameValueChecker (parent : conn_value) (h : Hook)
| WithSessionResetter (parent : conn_value) (h : Hook)
| WithNameValueCheckerAndWithSessionResetter (parent : conn_value) (h : Hook).

Context (convert : V -> V * option error).

Fixpoint methods (c : conn_value) : Conn :=
  match c with
  | Foreign c => c
  | PtrWrConn p h => wrConn (methods p) h convert
  | WithNameValueChecker p h => wrConnWithNameValueChecker (methods p) h
  | WithSessionResetter p h => wrConnWithSessionResetter (methods p) h convert
  | WithNameValueCheckerAndWithSessionResetter p h => wrConnWithNameValueCheckerAndWithSessionResetter (methods p) h
  end.

(** [connID] is what [genConnID] gives. *)
(* go: internal/rdb/internal/driver/internal/wrapper/conn.go | func wrapConn *)
Definition wrapConn (parent : conn_value) (w : Hook) (connID : string) : conn_value :=
  let h := connIDHook connID w in
  match NamedValueChecker (methods parent), SessionResetter (methods parent) with
  | None, None => PtrWrConn parent h
  | Some _, None => WithNameValueChecker parent h
  | None, Some _ => WithSessionResetter parent h
  | Some _, Some _ => WithNameValueCheckerAndWithSessionResetter parent h
  end.
(* go: internal/rdb/internal/driver/internal/wrapper/conn.go | // WrapConn allows *)
Definition WrapConn : conn_value -> Hook -> string -> conn_value := wrapConn.

(** The loop peels the three structs; a [*wrConn] is none of them. *)
Fixpoint unwrap_loop (c : conn_value) : conn_value :=
  match c with
  | WithSessionResetter p _ | WithNameValueChecker p _ | WithNameValueCheckerAndWithSessionResetter p _ => unwrap_loop p
  | _ => c
  end.
(* go: internal/rdb/internal/driver/internal/wrapper/conn.go | func unwrapConn *)
Definition unwrapConn (c : option conn_value) : option conn_value :=
  match c with None => None | Some c => Some (unwrap_loop c) end.
(* go: internal/rdb/internal/driver/internal/wrapper/conn.go | // UnwrapConn return *)
Definition UnwrapConn : option conn_value -> option conn_value := unwrapConn.

(** ** Drivers (wrappeddriver.go, driver.go) *)

(** A driver, its connectors, and the hook that runs after a connection is made. No driver
    answers neither a connection nor an error; here that is a panic. *)
Record Connector := { Connect : Ctx -> M (option conn_value * option error) }.
Record Driver := {
  driver_Open : string -> M (option conn_value * option error);
  DriverContext : option (string -> M (option Connector * option error))
}.
(* go: internal/rdb/internal/driver/internal/wrapper/wrappeddriver.go | type AfterConnQuery *)
Definition AfterConnQuery : Type := Ctx -> conn_value -> M (option error).
(* go: internal/rdb/internal/driver/internal/wrapper/wrappeddriver.go | func dummyAfterConnQuery *)
Definition dummyAfterConnQuery : AfterConnQuery := fun _ _ => mret None.

(** [genConnID] draws an identifier. A nil function or interface is [None]. *)
Context (genConnID : M string).

(* go: internal/rdb/internal/driver/internal/wrapper/wrappeddriver.go | // wrDriver implements *)
Record wrDriver := {
  wd_connHook : option AfterConnQuery; wd_parent : Driver; wd_connector : option Connector; wd_wrapper : option Hook
}.

(** A method called through a nil interface or function panics. *)
Definition nil_hook : Hook := {| Before := fun _ => panics nil_call; After := fun _ _ => panics nil_call |}.

(* go: internal/rdb/internal/driver/internal/wrapper/wrappeddriver.go | func (d wrDriver) Connect *)
Definition wrDriver_Connect (d : wrDriver) (ctx : Ctx) : M (option conn_value * option error) :=
  match wd_connector d with
  | None => panics nil_call
  | Some connector =>
      '(c, err) ← Connect connector ctx;
      match err, c with
      | Some e, _ => mret (None, Some e)
      | None, None => panics nil_call
      | None, Some c =>
          connID ← genConnID;
          let result := PtrWrConn c (connIDHook connID (default nil_hook (wd_wrapper d))) in
          match wd_connHook d with
          | None => panics nil_call
          | Some connHook =>
              err ← connHook ctx result;
              match err with
              | Some e => mret (None, Some e)
              | None => mret (Some result, None)
              end
          end
      end
  end.

(* go: internal/rdb/internal/driver/internal/wrapper/wrappeddriver.go | func (d wrDriver) OpenConnector *)
Definition wrDriver_OpenConnector (d : wrDriver) (name : string) : M (option wrDriver * option error) :=
  match DriverContext (wd_parent d) with
  | None => panics bad_assertion
  | Some openConnector =>
      '(connector, err) ← openConnector name;
      match err with
      | Some e => mret (None, Some e)
      | None => mret (Some {| wd_connHook := wd_connHook d; wd_parent := wd_parent d;
                              wd_connector := connector; wd_wrapper := wd_wrapper d |}, None)
      end
  end.

(* go: internal/rdb/internal/driver/internal/wrapper/driver.go | // Open implements *)
Definition wrDriver_Open (d : wrDriver) (name : string) : M (option conn_value * option error) :=
  '(c, err) ← driver_Open (wd_parent d) name;
  match err, c with
  | Some e, _ => mret (None, Some e)
  | None, None => panics nil_call
  | None, Some c =>
      connID ← genConnID;
      mret (Some (wrapConn c (default nil_hook (wd_wrapper d)) connID), None)
  end.

(* go: internal/rdb/internal/driver/internal/wrapper/wrappeddriver.go | func wrapDriver *)
Definition wrapDriver (d : Driver) (w : option Hook) (conn : option AfterConnQuery) : Driver :=
  let conn := Some (default dummyAfterConnQuery conn) in
  let wd := {| wd_connHook := conn; wd_parent := d; wd_connector := None; wd_wrapper := w |} in
  match DriverContext d with
  | Some _ =>
      {| driver_Open := wrDriver_Open wd;
         DriverContext := Some (fun name =>
           '(wd', err) ← wrDriver_OpenConnector wd name;
           mret ((fun wd' => {| Connect := wrDriver_Connect wd' |}) <$> wd', err)) |}
  | None => {| driver_Open := wrDriver_Open wd; DriverContext := None |}
  end.
(* go: internal/rdb/internal/driver/internal/wrapper/driver.go | // Wrap takes *)
Definition Wrap : Driver -> option Hook -> option AfterConnQuery -> Driver := wrapDriver.

(* go: internal/rdb/internal/driver/internal/wrapper/wrappeddriver.go | // WrapConnector allows *)
Definition WrapConnector (dc : Connector) (dc_driver : Driver) : wrDriver :=
  {| wd_connHook := None; wd_parent := dc_driver; wd_connector := Some dc; wd_wrapper := None |}.
(* go: internal/rdb/internal/driver/internal/wrapper/wrappeddriver.go | func (d wrDriver) Driver *)
Definition wrDriver_Driver (d : wrDriver) : wrDriver := d.
End wrapper.
Arguments NamedValue V : clear implicits.
Arguments anything V : clear implicits.
Arguments Data V : clear implicits.
Arguments Ctx B V : clear implicits.
Arguments M W A : clear implicits.
#[export] Existing Instance M_ret.
#[export] Existing Instance M_bind.

(** ** Registering a wrapped driver (driver.go of the wrapper) *)

Section register.
Context {D E : Type}.
(** [sql_driver name] is what [sql.Open(name, _)] and [db.Driver()] find, or an error; [close_err]
    is what closing that handle returns. *)
Context (sql_driver : gmap string D -> string -> result E D) (close_err : option E) (all_slots_taken : E).

(* go: internal/rdb/internal/driver/internal/wrapper/driver.go | const maxWrappedDriversCount *)
Definition maxWrappedDriversCount : nat := 1000.

Definition slot (name : string) (i : nat) : string := name +:+ "-hooksql-" +:+ pretty (N.of_nat i).

(** The loop over the slots from [i] on. *)
Fixpoint find_slot (n i : nat) (names : gset string) (name : string) : option string :=
  match n with
  | 0 => None
  | S n' => if decide (slot name i ∈ names) then find_slot n' (S i) names name else Some (slot name i)
  end.

(* go: internal/rdb/internal/driver/internal/wrapper/driver.go | func WrapDriverByName *)
Definition WrapDriverByName (Wrap : D -> D) (registry : gmap string D) (driverName : string)
    : gmap string D * (string * option E) :=
  match sql_driver registry driverName with
  | Err err => (registry, ("", Some err))
  | Ok dri =>
      match close_err with
      | Some err => (registry, ("", Some err))
      | None =>
          match find_slot maxWrappedDriversCount 0 (dom registry) driverName with
          | Some regName => (<[regName := Wrap dri]> registry, (regName, None))
          | None => (registry, ("", Some all_slots_taken))
          end
      end
  end.
End register.

(** ** The logger (hooks/logger.go) and opening a database (driver.go) *)

Inductive Level := DebugLevel | InfoLevel | WarnLevel | ErrorLevel | DPanicLevel | PanicLevel | FatalLevel.

(** 42601 is [pgerrcode.SyntaxError]. *)
(* go: internal/rdb/internal/driver/internal/hooks/logger.go | func isSyntaxError *)
Definition isSyntaxError (err : option error) : bool :=
  match err with
  | Some e => match As as_pg e with Some code => bool_decide (code = "42601") | None => false end
  | None => false
  end.

Section logger.
Context {B V Rows Result Conv W : Type}.
Notation Ctx := (Ctx B V).
Notation Hook := (@Hook B V W).
Notation M := (M W).

Inductive log_field :=
| FString (key : string) (v : text)
| FInt64 (key : string) (v : Z)
| FRawJSON (key : string) (v : list (V + anything V))
| FError (err : error).

(** The world tells the time and whether a context has ended, and takes the log. *)
Context (time_Now : W -> Z) (ctx_Err : Ctx -> W -> option error) (write : Level -> string -> list log_field -> W -> W).

(* go: internal/rdb/internal/driver/internal/hooks/helper.go | func contextWithStartTime *)
Definition contextWithStartTime (ctx : Ctx) (started : Z) : Ctx :=
  {| base := base ctx; data := data ctx; conn_id := conn_id ctx; start_time := Some started |}.
(* go: internal/rdb/internal/driver/internal/hooks/helper.go | func startTimeFromContext *)
Definition startTimeFromContext (ctx : Ctx) : option Z := start_time ctx.

(* go: internal/rdb/internal/driver/internal/hooks/logger.go | // LoggerHook log *)
Record LoggerHook := { l_host : text; l_db : text; l_logLevel : Level }.

(* go: internal/rdb/internal/driver/internal/hooks/logger.go | func (l *LoggerHook) Before *)
Definition LoggerHook_Before (l : LoggerHook) (ctx : Ctx) : M Ctx :=
  fun w => (w, Returns (contextWithStartTime ctx (time_Now w))).

(** The value of a named argument, any other argument as it is. *)
Definition arg_value (a : anything V) : V + anything V :=
  match a with ANamed nv => inl (nv_Value nv) | AValue _ => inr a end.

Definition log_fields (l : LoggerHook) (ctx : Ctx) (now : Z) (err : option error) : list log_field :=
  let d := FromContext ctx in
  (if decide (Operation d <> "") then [FString "sql_operation" (runes (Operation d))] else []) ++
  (if decide (d_Stmt d <> "" /\ (Operation d = "" \/ isSyntaxError err = true)) then [FString "query" (runes (d_Stmt d))] else []) ++
  (match startTimeFromContext ctx with Some t => [FInt64 "duration_ms" (Z.quot (time_sub now t) Millisecond)] | None => [] end) ++
  (if decide (l_db l <> []) then [FString "database_name" (l_db l)] else []) ++
  (if decide (l_host l <> []) then [FString "db_host" (l_host l)] else []) ++
  match d_Args d with [] => [] | args => [FRawJSON "sql_args" (map arg_value args)] end.

(* go: internal/rdb/internal/driver/internal/hooks/logger.go | func (l *LoggerHook) After *)
Definition LoggerHook_After (l : LoggerHook) (ctx : Ctx) (err : option error) : M unit := fun w =>
  let logMsg := "rdb.sql:" +:+ action_text (Action (FromContext ctx)) in
  let fields := log_fields l ctx (time_Now w) err in
  match err, ctx_Err ctx w with
  | None, None =>
      let level := match l_logLevel l with
                   | ErrorLevel => WarnLevel
                   | WarnLevel => WarnLevel
                   | InfoLevel => InfoLevel
                   | _ => DebugLevel
                   end in
      (write level logMsg fields w, Returns tt)
  | _, Some _ => (w, Returns tt)
  | Some e, None => (write ErrorLevel logMsg (fields ++ [FError e]) w, Returns tt)
  end.

(* go: internal/rdb/internal/driver/internal/hooks/logger.go | // NewLogger create *)
Definition NewLogger (logLevel : Level) (host db : text) : Hook :=
  let l := {| l_host := host; l_db := db; l_logLevel := logLevel |} in
  {| Before := LoggerHook_Before l; After := LoggerHook_After l |}.

Notation conn_value := (@conn_value B V Rows Result Conv W).
Notation Driver := (@Driver B V Rows Result Conv W).
Notation AfterConnQuery := (@AfterConnQuery B V Rows Result Conv W).

(* go: internal/rdb/internal/driver/driver.go | type openOptions *)
Record openOptions := {
  searchPath : option AfterConnQuery; dbname : text; hostname : text;
  logging : bool; loggingLevel : Level; hooks : list Hook
}.
(* go: internal/rdb/internal/driver/driver.go | type OpenOption *)
Definition OpenOption : Type := openOptions -> openOptions.

(* go: internal/rdb/internal/driver/driver.go | func WithDbName *)
Definition WithDbName (name : text) : OpenOption := fun o =>
  {| searchPath := searchPath o; dbname := name; hostname := hostname o; logging := logging o; loggingLevel := loggingLevel o; hooks := hooks o |}.
(* go: internal/rdb/internal/driver/driver.go | func WithHostname *)
Definition WithHostname (name : text) : OpenOption := fun o =>
  {| searchPath := searchPath o; dbname := dbname o; hostname := name; logging := logging o; loggingLevel := loggingLevel o; hooks := hooks o |}.
(* go: internal/rdb/internal/driver/driver.go | func WithLogging *)
Definition WithLogging (lvl : Level) : OpenOption := fun o =>
  {| searchPath := searchPath o; dbname := dbname o; hostname := hostname o; logging := true; loggingLevel := lvl; hooks := hooks o |}.

Context (bg : B) (convert : V -> V * option error) (genConnID : M string).
Definition search_path_unsupported : string := "cannot apply search path - connection does not support ExecContext".

(* go: internal/rdb/internal/driver/driver.go | // WithSearchPath sets *)
Definition WithSearchPath (path : string) : OpenOption := fun o =>
  let query := "SET search_path TO " +:+ path in
  let set_path : AfterConnQuery := fun ctx conn =>
    match ExecerContext (methods bg convert conn) with
    | Some exec => '(_, err) ← exec ctx query []; mret err
    | None => panics search_path_unsupported
    end in
  {| searchPath := Some set_path; dbname := dbname o; hostname := hostname o; logging := logging o; loggingLevel := loggingLevel o; hooks := hooks o |}.

(** [parseDSN] gives the host, the database and the user. *)
Context (parseDSN : text -> text * text * text).

(* go: internal/rdb/internal/driver/driver.go | func WithDSNParsedInfo *)
Definition WithDSNParsedInfo (dsn : text) : OpenOption := fun o =>
  let '(host, db, _) := parseDSN dsn in
  {| searchPath := searchPath o; dbname := db; hostname := host; logging := logging o; loggingLevel := loggingLevel o; hooks := hooks o |}.

Definition open_options (dsn : text) (opts : list OpenOption) : openOptions :=
  let '(host, db, _) := parseDSN dsn in
  foldl (fun o opt => opt o)
    {| searchPath := None; dbname := db; hostname := host; logging := false; loggingLevel := DebugLevel; hooks := [] |} opts.

Definition wrapper_hook (o : openOptions) : Hook :=
  match (if logging o then [NewLogger (loggingLevel o) (hostname o) (dbname o)] else []) ++ hooks o with
  | [h] => h
  | hs => Compose hs
  end.

Context {DB : Type} (sql_driver : gmap string Driver -> string -> result error Driver) (close_err : option error)
  (all_slots_taken : error) (sql_Open : gmap string Driver -> string -> text -> result error DB).

(* go: internal/rdb/internal/driver/driver.go | func Open *)
Definition Open (registry : gmap string Driver) (driverName : string) (dsn : text) (opts : list OpenOption)
    : gmap string Driver * (option DB * option error) :=
  let options := open_options dsn opts in
  let '(registry', (dn, err)) :=
    WrapDriverByName sql_driver close_err all_slots_taken
      (fun d => Wrap bg convert genConnID d (Some (wrapper_hook options)) (searchPath options)) registry driverName in
  match err with
  | Some e => (registry', (None, Some e))
  | None =>
      match sql_Open registry' dn dsn with
      | Ok db => (registry', (Some db, None))
      | Err e => (registry', (None, Some e))
      end
  end.
End logger.

(** ** The wrapped connection refines the parent *)

Section refinement.
Context {B V Rows Result Conv W P : Type} (bg : B) (convert : V -> V * option error).
Notation Ctx := (Ctx B V).
Notation Hook := (@Hook B V W).
Notation M := (M W).
Notation Stmt := (@Stmt B V Rows Result Conv W).
Notation Conn := (@Conn B V Rows Result Conv W).
Notation Tx := (@Tx W).

(** [view] is the part of the world that is the driver's. Two computations are the same to it
    when, from worlds it sees as equal, they leave worlds it sees as equal, and end alike. *)
Context (view : W -> P).

Definition ends {A A'} (R : A -> A' -> Prop) (o : outcome A) (o' : outcome A') : Prop :=
  match o, o' with
  | Returns a, Returns a' => R a a'
  | Panics x, Panics y => x = y
  | _, _ => False
  end.
Definition sim {A A'} (R : A -> A' -> Prop) (m : M A) (m' : M A') : Prop :=
  forall w w', view w = view w' -> view (m w).1 = view (m' w').1 /\ ends R (m w).2 (m' w').2.

(** The same error, and without one the same result; a result beside an error is not looked at. *)
Definition same_result {A A'} (R : A -> A' -> Prop) (r : option A * option error) (r' : option A' * option error) : Prop :=
  r.2 = r'.2 /\ (r.2 = None -> option_Forall2 R r.1 r'.1).

Lemma sim_ret {A A'} (R : A -> A' -> Prop) a a' : R a a' -> sim R (mret a : M A) (mret a' : M A').
Proof. intros HR w w' Hw. by split. Qed.

Lemma sim_bind {A A' C C'} (R : A -> A' -> Prop) (S : C -> C' -> Prop) (m : M A) (m' : M A') k k' :
  sim R m m' -> (forall a a', R a a' -> sim S (k a) (k' a')) -> sim S (m ≫= k) (m' ≫= k').
Proof.
  intros Hm Hk w w' Hw. destruct (Hm w w' Hw) as [Hv Ho]. unfold mbind, M_bind.
  destruct (m w) as [w1 [a|why]], (m' w') as [w1' [a'|why']]; cbn in *; try done. by apply Hk.
Qed.

(** A hook that leaves the driver's world alone, adds values to the context only, and returns. *)
Record transparent (h : Hook) : Prop := {
  tr_before : forall ctx w, exists w1 ctx', Before h ctx w = (w1, Returns ctx') /\ view w1 = view w /\ base ctx' = base ctx;
  tr_after : forall ctx err w, exists w1, After h ctx err w = (w1, Returns tt) /\ view w1 = view w
}.

Lemma sim_before {A A'} (S : A -> A' -> Prop) (h : Hook) ctx k m' : transparent h ->
  (forall ctx', base ctx' = base ctx -> sim S (k ctx') m') -> sim S (Before h ctx ≫= k) m'.
Proof.
  intros [Hb _] Hk w w' Hw. destruct (Hb ctx w) as (w1 & ctx' & E & Hv & Hc).
  unfold mbind, M_bind. rewrite E. apply Hk; [done|congruence].
Qed.

Lemma sim_after {A A'} (S : A -> A' -> Prop) (h : Hook) ctx err k m' : transparent h ->
  sim S (k tt) m' -> sim S (After h ctx err ≫= k) m'.
Proof.
  intros [_ Ha] Hk w w' Hw. destruct (Ha ctx err w) as (w1 & E & Hv).
  unfold mbind, M_bind. rewrite E. apply Hk. congruence.
Qed.

Lemma bind_ret_r {A} (m : M A) w : (m ≫= mret) w = m w.
Proof. unfold mbind, M_bind, mret, M_ret. by destruct (m w) as [? [?|?]]. Qed.

(** It is enough to follow the wrapped call to the point where the result of the parent's call is
    turned into its own. *)
Lemma sim_bind_r {A A' C} (R : A -> A' -> Prop) (S : C -> A' -> Prop) (m : M A) (m' : M A') k :
  sim R m m' -> (forall a a', R a a' -> sim S (k a) (mret a')) -> sim S (m ≫= k) m'.
Proof.
  intros Hm Hk w w' Hw. rewrite <- (bind_ret_r m' w'). by apply (sim_bind R S m m' k mret Hm Hk).
Qed.

Lemma hooked_sim {A A'} (R : A -> A' -> Prop) (h : Hook) ctx call call' : transparent h ->
  (forall ctx', base ctx' = base ctx -> sim (same_result R) (call ctx') call') ->
  sim (same_result R) (hooked h ctx call) call'.
Proof.
  intros Hh Hcall. unfold hooked. apply sim_before; [done|]. intros ctx' Hc.
  apply (sim_bind_r (same_result R)); [by apply Hcall|]. intros [res err] [res' err'] [He Hr]. cbn in He, Hr.
  apply sim_after; [done|]. subst. destruct err' as [e|]; apply sim_ret; split; cbn; [done|done|done|auto].
Qed.

(** Objects that are the same to the driver, interface by interface. *)
Record stmt_sim (s s' : Stmt) : Prop := {
  ss_close : sim eq (stmt_Close s) (stmt_Close s');
  ss_num : sim eq (NumInput s) (NumInput s');
  ss_exec : forall args, sim (same_result eq) (stmt_Exec s args) (stmt_Exec s' args);
  ss_query : forall args, sim (same_result eq) (stmt_Query s args) (stmt_Query s' args);
  ss_exec_ctx : option_Forall2 (fun f f' => forall ctx ctx' args, base ctx = base ctx' ->
    sim (same_result eq) (f ctx args) (f' ctx' args)) (StmtExecContext s) (StmtExecContext s');
  ss_query_ctx : option_Forall2 (fun f f' => forall ctx ctx' args, base ctx = base ctx' ->
    sim (same_result eq) (f ctx args) (f' ctx' args)) (StmtQueryContext s) (StmtQueryContext s');
  ss_conv : ColumnConverter s = ColumnConverter s';
  ss_nvc : option_Forall2 (fun f f' => forall nv, sim eq (f nv) (f' nv)) (stmt_NamedValueChecker s) (stmt_NamedValueChecker s')
}.
Record tx_sim (t t' : Tx) : Prop := {
  ts_commit : sim eq (Commit t) (Commit t');
  ts_rollback : sim eq (Rollback t) (Rollback t')
}.

(** What a driver's connection is relied on for: its methods see its own world and the base of
    the contexts, nothing the hooks put there. *)
Record own_conn (p : Conn) : Prop := {
  oc_prepare : forall q, sim (same_result stmt_sim) (Prepare p q) (Prepare p q);
  oc_close : sim eq (conn_Close p) (conn_Close p);
  oc_begin : sim (same_result tx_sim) (Begin p) (Begin p);
  oc_ping : forall f, Pinger p = Some f -> forall ctx ctx', base ctx = base ctx' -> sim eq (f ctx) (f ctx');
  oc_exec : forall f, Execer p = Some f -> forall q args, sim (same_result eq) (f q args) (f q args);
  oc_exec_ctx : forall f, ExecerContext p = Some f -> forall ctx ctx' q args, base ctx = base ctx' ->
    sim (same_result eq) (f ctx q args) (f ctx' q args);
  oc_query : forall f, Queryer p = Some f -> forall q args, sim (same_result eq) (f q args) (f q args);
  oc_query_ctx : forall f, QueryerContext p = Some f -> forall ctx ctx' q args, base ctx = base ctx' ->
    sim (same_result eq) (f ctx q args) (f ctx' q args);
  oc_prepare_ctx : forall f, ConnPrepareContext p = Some f -> forall ctx ctx' q, base ctx = base ctx' ->
    sim (same_result stmt_sim) (f ctx q) (f ctx' q);
  oc_begin_tx : forall f, ConnBeginTx p = Some f -> forall ctx ctx' o, base ctx = base ctx' ->
    sim (same_result tx_sim) (f ctx o) (f ctx' o);
  oc_nvc : forall f, NamedValueChecker p = Some f -> forall nv, sim eq (f nv) (f nv)
}.

(** [c] behaves as [p]: the mandatory methods and those of interfaces [p] has are the same to the
    driver; where [p] has no interface, [c] still has one, and it is said what that does. *)
Definition as_parent {F} (ok : F -> F -> Prop) (otherwise : F -> Prop) (f f' : option F) : Prop :=
  exists g, f = Some g /\ match f' with Some g' => ok g g' | None => otherwise g end.

Record refines (c p : Conn) : Prop := {
  rf_prepare : forall q, sim (same_result stmt_sim) (Prepare c q) (Prepare p q);
  rf_close : sim eq (conn_Close c) (conn_Close p);
  rf_ping : as_parent (fun f g => forall ctx, sim eq (f ctx) (g ctx))
    (fun f => forall ctx, sim eq (f ctx) (mret None)) (Pinger c) (Pinger p);
  rf_exec : as_parent (fun f g => forall q args, sim (same_result eq) (f q args) (g q args))
    (fun f => forall q args, f q args = mret (None, Some (Leaf ErrSkip))) (Execer c) (Execer p);
  rf_exec_ctx : as_parent (fun f g => forall ctx q args, sim (same_result eq) (f ctx q args) (g ctx q args))
    (fun f => forall ctx q args, f ctx q args = mret (None, Some (Leaf ErrSkip))) (ExecerContext c) (ExecerContext p);
  rf_query : as_parent (fun f g => forall q args, sim (same_result eq) (f q args) (g q args))
    (fun f => forall q args, f q args = mret (None, Some (Leaf ErrSkip))) (Queryer c) (Queryer p);
  rf_query_ctx : as_parent (fun f g => forall ctx q args, sim (same_result eq) (f ctx q args) (g ctx q args))
    (fun f => forall ctx q args, f ctx q args = mret (None, Some (Leaf ErrSkip))) (QueryerContext c) (QueryerContext p);
  rf_prepare_ctx : as_parent (fun f g => forall ctx q, sim (same_result stmt_sim) (f ctx q) (g ctx q))
    (fun f => forall ctx q, sim (same_result stmt_sim) (f ctx q) (Prepare p q)) (ConnPrepareContext c) (ConnPrepareContext p);
  rf_begin_tx : as_parent (fun f g => forall ctx o, sim (same_result tx_sim) (f ctx o) (g ctx o))
    (fun f => forall ctx o, sim (same_result tx_sim) (f ctx o) (Begin p)) (ConnBeginTx c) (ConnBeginTx p);
  rf_nvc : as_parent (fun f g => forall nv, sim eq (f nv) (g nv))
    (fun f => forall nv, sim (fun r r' => r' = r) (f nv)
       (mret (let '(v, err) := convert (nv_Value nv) in
              ({| nv_Name := nv_Name nv; nv_Ordinal := nv_Ordinal nv; nv_Value := v |}, err))))
    (NamedValueChecker c) (NamedValueChecker p)
}.

Lemma wrapStmt_interfaces (s : Stmt) q name (h : Hook) :
  wrapStmt bg s q name h =
    select_stmt bg {| ws_name := name; ws_parent := s; ws_query := q; ws_wrapper := h |}
      (bool_decide (is_Some (StmtExecContext s))) (bool_decide (is_Some (StmtQueryContext s)))
      (ColumnConverter s) (stmt_NamedValueChecker s).
Proof.
  unfold wrapStmt. destruct (StmtExecContext s), (StmtQueryContext s), (ColumnConverter s), (stmt_NamedValueChecker s);
    rewrite ?bool_decide_eq_true_2 by eauto; rewrite ?bool_decide_eq_false_2 by (by intros [? ?]); done.
Qed.

Lemma wrapStmt_sim (s s' : Stmt) q name (h : Hook) : transparent h -> stmt_sim s s' -> stmt_sim (wrapStmt bg s q name h) s'.
Proof.
  intros Hh [H1 H2 H3 H4 H5 H6 H7 H8]. rewrite wrapStmt_interfaces. split; cbn; try done.
  - intros args. apply hooked_sim; [done|]. intros; apply H3.
  - intros args. apply hooked_sim; [done|]. intros; apply H4.
  - inversion H5 as [f f' Hf E1 E2|E1 E2]; [rewrite bool_decide_eq_true_2 by eauto|rewrite bool_decide_eq_false_2 by (by intros [? ?]); constructor].
    constructor. intros ctx ctx' args Hc. unfold wrStmt_ExecContext. cbn. rewrite <- E1.
    apply hooked_sim; [done|]. intros ctx1 Hc1. apply Hf. cbn in Hc1. congruence.
  - inversion H6 as [f f' Hf E1 E2|E1 E2]; [rewrite bool_decide_eq_true_2 by eauto|rewrite bool_decide_eq_false_2 by (by intros [? ?]); constructor].
    constructor. intros ctx ctx' args Hc. unfold wrStmt_QueryContext. cbn. rewrite <- E1.
    apply hooked_sim; [done|]. intros ctx1 Hc1. apply Hf. cbn in Hc1. congruence.
Qed.

Lemma end_tx_sim t a call call' : transparent (wt_wrapper t) -> sim eq call call' -> sim eq (end_tx t a call) call'.
Proof.
  intros Hh Hc. unfold end_tx. apply sim_before; [done|]. intros ctx' _.
  apply (sim_bind_r eq); [done|]. intros err ? <-. apply sim_after; [done|]. apply sim_after; [done|]. by apply sim_ret.
Qed.

Lemma wrTx_sim t t' ctx txctx (h : Hook) : transparent h -> tx_sim t t' ->
  tx_sim (wrTx_Tx {| wt_parent := t; wt_ctx := ctx; wt_txctx := txctx; wt_wrapper := h |}) t'.
Proof. intros Hh [H1 H2]. split; apply end_tx_sim; done. Qed.

(** What the wrapper does with a prepared statement. *)
Lemma prepared_sim (h : Hook) q name ctx (m m' : M (option Stmt * option error)) : transparent h ->
  sim (same_result stmt_sim) m m' ->
  sim (same_result stmt_sim)
    ('(stmt, err) ← m; _ ← After h ctx err; mret (wrap_prepared bg h q name (stmt, err))) m'.
Proof.
  intros Hh Hm. apply (sim_bind_r (same_result stmt_sim)); [done|].
  intros [r e] [r' e'] [He Hr]. cbn in He, Hr. subst. apply sim_after; [done|]. apply sim_ret.
  destruct e' as [e|]; split; cbn; try done. intros _. destruct (Hr eq_refl) as [s s' Hs|]; constructor.
  by apply wrapStmt_sim.
Qed.

Lemma wrConn_BeginTx_sim (p : Conn) (h : Hook) ctx o m' : transparent h ->
  (forall ctx', base ctx' = base ctx ->
    sim (same_result tx_sim) (match ConnBeginTx p with Some f => f ctx' o | None => Begin p end) m') ->
  sim (same_result tx_sim) (wrConn_BeginTx p h ctx o) m'.
Proof.
  intros Hh Hm. unfold wrConn_BeginTx. apply sim_before; [done|]. intros txctx Htx.
  apply sim_before; [done|]. intros beginctx _.
  apply (sim_bind_r (same_result tx_sim)); [by apply Hm|].
  intros [r e] [r' e'] [He Hr]. cbn in He, Hr. subst. apply sim_after; [done|].
  destruct e' as [e|]; [apply sim_after; [done|]|]; apply sim_ret; split; cbn; try done.
  intros _. destruct (Hr eq_refl) as [t t' Ht|]; constructor. by apply wrTx_sim.
Qed.

End refinement.

(** ** Every hook that is opened is closed *)

Section bracketing.
Context {B V Rows Result Conv W : Type} (bg : B) (convert : V -> V * option error).
Notation Ctx := (Ctx B V).
Notation Hook := (@Hook B V W).
Notation M := (M W).
Notation Stmt := (@Stmt B V Rows Result Conv W).
Notation Conn := (@Conn B V Rows Result Conv W).
Notation Tx := (@Tx W).

(** What the hook sees: the contexts [Before] handed out, and those [After] was given back. *)
Inductive hook_event := Opened (ctx : Ctx) | Closed (ctx : Ctx) (err : option error).
Definition opened (tr : list hook_event) : list Ctx := omap (fun e => match e with Opened c => Some c | _ => None end) tr.
Definition closed (tr : list hook_event) : list Ctx := omap (fun e => match e with Closed c _ => Some c | _ => None end) tr.

Context (trace : W -> list hook_event).

(** A hook that is recorded, whatever else it does. *)
Record recorded (h : Hook) : Prop := {
  rc_before : forall ctx w w' c, Before h ctx w = (w', Returns c) -> trace w' = trace w ++ [Opened c];
  rc_after : forall ctx err w w' u, After h ctx err w = (w', Returns u) -> trace w' = trace w ++ [Closed ctx err]
}.

(** A computation that, if it returns, adds to the trace; [post] relates its result to that. *)
Definition adds {A} (m : M A) (post : A -> list hook_event -> Prop) : Prop :=
  forall w w' a, m w = (w', Returns a) -> exists l, trace w' = trace w ++ l /\ post a l.
Definition silent {A} (m : M A) : Prop := adds m (fun _ l => l = []).

Lemma adds_ret {A} (a : A) (post : A -> list hook_event -> Prop) : post a [] -> adds (mret a) post.
Proof. intros Hp w w' a' [= <- <-]. exists []. by rewrite app_nil_r. Qed.

Lemma adds_bind {A C} (m : M A) (k : A -> M C) post post' :
  adds m post -> (forall a l, post a l -> adds (k a) (fun c l' => post' c (l ++ l'))) -> adds (m ≫= k) post'.
Proof.
  intros Hm Hk w w' c. unfold mbind, M_bind. destruct (m w) as [w1 [a|why]] eqn:E; [|done].
  intros E'. destruct (Hm _ _ _ E) as (l & Hl & Hp). destruct (Hk a l Hp _ _ _ E') as (l' & Hl' & Hp').
  exists (l ++ l'). by rewrite Hl', Hl, app_assoc.
Qed.

Lemma adds_weaken {A} (m : M A) post (post' : A -> list hook_event -> Prop) :
  adds m post -> (forall a l, post a l -> post' a l) -> adds m post'.
Proof. intros Hm Hp w w' a E. destruct (Hm _ _ _ E) as (l & ? & ?). eauto. Qed.

Lemma adds_before h ctx : recorded h -> adds (Before h ctx) (fun c l => l = [Opened c]).
Proof. intros Hr w w' c E. eexists. split; [by eapply rc_before|done]. Qed.
Lemma adds_after h ctx err : recorded h -> adds (After h ctx err) (fun _ l => l = [Closed ctx err]).
Proof. intros Hr w w' c E. eexists. split; [by eapply rc_after|done]. Qed.

(** Opens and closes the same contexts. *)
Definition balanced (l : list hook_event) : Prop := opened l ≡ₚ closed l.
Definition neat {A} (m : M A) : Prop := adds m (fun _ l => balanced l).

Lemma hooked_neat {A} h ctx (call : Ctx -> M (option A * option error)) :
  recorded h -> (forall c, silent (call c)) -> neat (hooked h ctx call).
Proof.
  intros Hr Hc. unfold hooked, neat. eapply adds_bind; [by apply adds_before|]. intros c ? ->.
  eapply adds_bind; [apply Hc|]. intros [res err] ? ->.
  eapply adds_bind; [by apply adds_after|]. intros _ ? ->. destruct err; apply adds_ret; unfold balanced; reflexivity.
Qed.

Record silent_tx (t : Tx) : Prop := { st_commit : silent (Commit t); st_rollback : silent (Rollback t) }.
Record silent_stmt (s : Stmt) : Prop := {
  sl_exec : forall args, silent (stmt_Exec s args);
  sl_query : forall args, silent (stmt_Query s args);
  sl_exec_ctx : forall f, StmtExecContext s = Some f -> forall ctx args, silent (f ctx args);
  sl_query_ctx : forall f, StmtQueryContext s = Some f -> forall ctx args, silent (f ctx args)
}.
Definition new_stmt (r : option Stmt * option error) : Prop := forall s, r.1 = Some s -> silent_stmt s.
Definition new_tx (r : option Tx * option error) : Prop :=
  match r with (_, Some _) => True | (Some t, None) => silent_tx t | (None, None) => False end.

(** A driver's connection does not know of the hooks; neither do its statements and
    transactions. *)
Record silent_conn (p : Conn) : Prop := {
  sc_prepare : forall q, adds (Prepare p q) (fun r l => l = [] /\ new_stmt r);
  sc_begin : adds (Begin p) (fun r l => l = [] /\ new_tx r);
  sc_exec : forall f, Execer p = Some f -> forall q args, silent (f q args);
  sc_exec_ctx : forall f, ExecerContext p = Some f -> forall ctx q args, silent (f ctx q args);
  sc_query : forall f, Queryer p = Some f -> forall q args, silent (f q args);
  sc_query_ctx : forall f, QueryerContext p = Some f -> forall ctx q args, silent (f ctx q args);
  sc_prepare_ctx : forall f, ConnPrepareContext p = Some f -> forall ctx q, adds (f ctx q) (fun r l => l = [] /\ new_stmt r);
  sc_begin_tx : forall f, ConnBeginTx p = Some f -> forall ctx o, adds (f ctx o) (fun r l => l = [] /\ new_tx r)
}.

(** The statements and transactions the wrapper hands out. *)
Record neat_stmt (s : Stmt) : Prop := {
  ns_exec : forall args, neat (stmt_Exec s args);
  ns_query : forall args, neat (stmt_Query s args);
  ns_exec_ctx : forall f, StmtExecContext s = Some f -> forall ctx args, neat (f ctx args);
  ns_query_ctx : forall f, StmtQueryContext s = Some f -> forall ctx args, neat (f ctx args)
}.
Definition closes (c : Ctx) (l : list hook_event) : Prop := closed l ≡ₚ c :: opened l.
Record open_tx (t : Tx) (c : Ctx) : Prop := {
  ot_commit : adds (Commit t) (fun _ l => closes c l);
  ot_rollback : adds (Rollback t) (fun _ l => closes c l)
}.

Lemma end_tx_closes t a call : recorded (wt_wrapper t) -> silent call -> adds (end_tx t a call) (fun _ l => closes (wt_txctx t) l).
Proof.
  intros Hr Hc. unfold end_tx. eapply adds_bind; [by apply adds_before|]. intros c ? ->.
  eapply adds_bind; [apply Hc|]. intros err ? ->.
  eapply adds_bind; [by apply adds_after|]. intros _ ? ->.
  eapply adds_bind; [by apply adds_after|]. intros _ ? ->. apply adds_ret. unfold closes. cbn. by apply Permutation_swap.
Qed.

Lemma wrapStmt_neat s q name h : recorded h -> silent_stmt s -> neat_stmt (wrapStmt bg s q name h).
Proof.
  intros Hr [H1 H2 H3 H4]. rewrite wrapStmt_interfaces. split; cbn.
  - intros args. by apply hooked_neat.
  - intros args. by apply hooked_neat.
  - intros f. case_bool_decide as E; [|done]. destruct E as [g Hg]. intros [= <-] ctx args.
    unfold wrStmt_ExecContext. cbn. rewrite Hg. apply hooked_neat; [done|]. intros c. by apply (H3 g).
  - intros f. case_bool_decide as E; [|done]. destruct E as [g Hg]. intros [= <-] ctx args.
    unfold wrStmt_QueryContext. cbn. rewrite Hg. apply hooked_neat; [done|]. intros c. by apply (H4 g).
Qed.

Definition neat_prepared (r : option Stmt * option error) (l : list hook_event) : Prop :=
  balanced l /\ forall s, r.1 = Some s -> neat_stmt s.

Lemma prepared_neat h q name c (m : M (option Stmt * option error)) : recorded h ->
  adds m (fun r l => l = [] /\ new_stmt r) ->
  adds ('(stmt, err) ← m; _ ← After h c err; mret (wrap_prepared bg h q name (stmt, err)))
    (fun r l => l = [Closed c r.2] /\ forall s, r.1 = Some s -> neat_stmt s).
Proof.
  intros Hr Hm. eapply adds_bind; [apply Hm|]. intros [res err] ? [-> Hs].
  eapply adds_bind; [by apply adds_after|]. intros _ ? ->. apply adds_ret. destruct err as [e|]; [done|].
  split; [done|]. intros s. cbn. destruct res as [s'|]; [|done]. intros [= <-]. apply wrapStmt_neat; [done|]. by apply Hs.
Qed.

Lemma BeginTx_opens (p : Conn) h ctx o : recorded h -> silent_conn p ->
  adds (wrConn_BeginTx p h ctx o) (fun r l =>
    match r.1 with
    | Some t => exists c, open_tx t c /\ opened l ≡ₚ c :: closed l
    | None => balanced l
    end).
Proof.
  intros Hr Hp. unfold wrConn_BeginTx. eapply adds_bind; [by apply adds_before|]. intros txctx ? ->.
  eapply adds_bind; [by apply adds_before|]. intros bctx ? ->.
  eapply (adds_bind _ _ (fun r l => l = [] /\ new_tx r)).
  { destruct (ConnBeginTx p) as [f|] eqn:E; [by apply (sc_begin_tx p Hp f)|apply (sc_begin p Hp)]. }
  intros [tx err] ? [-> Hnew]. eapply adds_bind; [by apply adds_after|]. intros _ ? ->.
  destruct err as [e|].
  - eapply adds_bind; [by apply adds_after|]. intros _ ? ->. apply adds_ret. unfold balanced. cbn. by apply Permutation_swap.
  - destruct tx as [t|]; [|done]. destruct Hnew as [Hc Hrb]. apply adds_ret. cbn. exists txctx. split.
    + split; cbn; by apply end_tx_closes.
    + reflexivity.
Qed.

(** A session of database/sql on one connection: calls on it, on its open transactions and on its
    prepared statements. Every transaction is ended at most once. *)
Record session := Session { ses_w : W; txs : list Tx; stmts : list Stmt }.
Inductive call :=
| DoExec (q : string) (args : list V) | DoExecContext (ctx : Ctx) (q : string) (args : list (NamedValue V))
| DoQuery (q : string) (args : list V) | DoQueryContext (ctx : Ctx) (q : string) (args : list (NamedValue V))
| DoPrepare (q : string) | DoPrepareContext (ctx : Ctx) (q : string)
| DoBeginTx (ctx : Ctx) (o : Z) | DoCommit (i : nat) | DoRollback (i : nat)
| DoStmtExec (j : nat) (args : list V) | DoStmtQuery (j : nat) (args : list V)
| DoStmtExecContext (j : nat) (ctx : Ctx) (args : list (NamedValue V))
| DoStmtQueryContext (j : nat) (ctx : Ctx) (args : list (NamedValue V)).

Definition perform {A} (s : session) (m : M A) (k : A -> list Tx * list Stmt) : outcome session :=
  match m (ses_w s) with
  | (w', Returns a) => Returns (Session w' (k a).1 (k a).2)
  | (_, Panics why) => Panics why
  end.
Definition use {A B'} (s : session) (f : option A) (m : A -> M B') (k : B' -> list Tx * list Stmt) : outcome session :=
  match f with Some a => perform s (m a) k | None => Returns s end.

Definition session_step (c : Conn) (s : session) (op : call) : outcome session :=
  let same {A} (_ : A) := (txs s, stmts s) in
  let add_stmt (r : option Stmt * option error) := (txs s, stmts s ++ option_list r.1) in
  match op with
  | DoExec q args => use s (Execer c) (fun f => f q args) same
  | DoExecContext ctx q args => use s (ExecerContext c) (fun f => f ctx q args) same
  | DoQuery q args => use s (Queryer c) (fun f => f q args) same
  | DoQueryContext ctx q args => use s (QueryerContext c) (fun f => f ctx q args) same
  | DoPrepare q => perform s (Prepare c q) add_stmt
  | DoPrepareContext ctx q => use s (ConnPrepareContext c) (fun f => f ctx q) add_stmt
  | DoBeginTx ctx o => use s (ConnBeginTx c) (fun f => f ctx o) (fun r => (txs s ++ option_list r.1, stmts s))
  | DoCommit i => use s (txs s !! i) Commit (fun _ => (delete i (txs s), stmts s))
  | DoRollback i => use s (txs s !! i) Rollback (fun _ => (delete i (txs s), stmts s))
  | DoStmtExec j args => use s (stmts s !! j) (fun st => stmt_Exec st args) same
  | DoStmtQuery j args => use s (stmts s !! j) (fun st => stmt_Query st args) same
  | DoStmtExecContext j ctx args => use s (stmts s !! j ≫= StmtExecContext) (fun f => f ctx args) same
  | DoStmtQueryContext j ctx args => use s (stmts s !! j ≫= StmtQueryContext) (fun f => f ctx args) same
  end.

Fixpoint session_run (c : Conn) (s : session) (ops : list call) : outcome session :=
  match ops with
  | [] => Returns s
  | op :: ops' => s' ← session_step c s op; session_run c s' ops'
  end.

(** Every context handed out was given back, but for one of each open transaction. *)
Definition session_inv (s : session) : Prop :=
  Forall neat_stmt (stmts s) /\
  exists ctxs, Forall2 open_tx (txs s) ctxs /\ opened (trace (ses_w s)) ≡ₚ closed (trace (ses_w s)) ++ ctxs.

Lemma opened_app l l' : opened (l ++ l') = opened l ++ opened l'.
Proof. apply omap_app. Qed.
Lemma closed_app l l' : closed (l ++ l') = closed l ++ closed l'.
Proof. apply omap_app. Qed.

Lemma neat_keeps {A} s (m : M A) ts ss s' : neat m -> Forall neat_stmt ss -> txs s = ts -> session_inv s ->
  perform s m (fun _ => (ts, ss)) = Returns s' -> session_inv s'.
Proof.
  intros Hm Hss <- [_ (ctxs & Ht & Hp)]. unfold perform. destruct (m (ses_w s)) as [w' [a|]] eqn:E; [|done].
  intros [= <-]. destruct (Hm _ _ _ E) as (l & Hl & Hb). split; [done|]. exists ctxs. split; [done|].
  cbn. unfold balanced, closes in Hb. rewrite Hl, opened_app, closed_app, Hp, Hb. by rewrite <- !app_assoc, (Permutation_app_comm ctxs).
Qed.

Lemma stmt_keeps s (m : M (option Stmt * option error)) s' :
  adds m neat_prepared -> session_inv s ->
  perform s m (fun r => (txs s, stmts s ++ option_list r.1)) = Returns s' -> session_inv s'.
Proof.
  intros Hm [Hss (ctxs & Ht & Hp)]. unfold perform. destruct (m (ses_w s)) as [w' [a|]] eqn:E; [|done].
  intros [= <-]. destruct (Hm _ _ _ E) as (l & Hl & Hb & Hs). split.
  - cbn. apply Forall_app. split; [done|]. destruct a as [[st|] err]; cbn in *; [|constructor]. repeat constructor. all: by apply Hs.
  - exists ctxs. split; [done|]. cbn. unfold balanced, closes in Hb. rewrite Hl, opened_app, closed_app, Hp, Hb.
    by rewrite <- !app_assoc, (Permutation_app_comm ctxs).
Qed.

Lemma end_keeps s i t (m : Tx -> M (option error)) s' : txs s !! i = Some t ->
  (forall c, open_tx t c -> adds (m t) (fun _ l => closes c l)) -> session_inv s ->
  perform s (m t) (fun _ => (delete i (txs s), stmts s)) = Returns s' -> session_inv s'.
Proof.
  intros Hi Hm [Hss (ctxs & Ht & Hp)]. unfold perform. destruct (m t (ses_w s)) as [w' [a|]] eqn:E; [|done].
  intros [= <-]. destruct (Forall2_lookup_l _ _ _ _ _ Ht Hi) as (c & Hc & Hot).
  destruct (Hm c Hot _ _ _ E) as (l & Hl & Hb). split; [done|]. exists (delete i ctxs). split.
  - cbn. by apply Forall2_delete.
  - cbn. unfold balanced, closes in Hb. rewrite Hl, opened_app, closed_app, Hp, Hb.
    rewrite (delete_Permutation ctxs i c Hc) at 1. rewrite <- !app_assoc. apply Permutation_app_head.
    cbn. rewrite (Permutation_app_comm (delete i ctxs)). cbn. done.
Qed.

Lemma begin_keeps s ctx o (p : Conn) h s' : session_inv s ->
  adds (wrConn_BeginTx p h ctx o) (fun r l =>
    match r.1 with Some t => exists c, open_tx t c /\ opened l ≡ₚ c :: closed l | None => balanced l end) ->
  perform s (wrConn_BeginTx p h ctx o) (fun r => (txs s ++ option_list r.1, stmts s)) = Returns s' -> session_inv s'.
Proof.
  intros [Hss (ctxs & Ht & Hp)] Hm. unfold perform. destruct (wrConn_BeginTx p h ctx o (ses_w s)) as [w' [[tx err]|]] eqn:E; [|done].
  intros [= <-]. destruct (Hm _ _ _ E) as (l & Hl & Hb). split; [done|]. cbn in *. destruct tx as [t|]; cbn.
  - destruct Hb as (c & Hot & Hb). exists (ctxs ++ [c]). split; [by apply Forall2_app; [|constructor]|].
    rewrite Hl, opened_app, closed_app, Hp, Hb. rewrite <- !app_assoc. apply Permutation_app_head.
    rewrite <- Permutation_middle, Permutation_app_comm. rewrite app_assoc, <- Permutation_cons_append. done.
  - exists ctxs. rewrite app_nil_r. split; [done|]. unfold balanced in Hb. rewrite Hl, opened_app, closed_app, Hp, Hb.
    by rewrite <- !app_assoc, (Permutation_app_comm ctxs).
Qed.

Lemma session_step_inv (p : Conn) h s op s' : recorded h -> silent_conn p -> session_inv s ->
  session_step (wrConn bg p h convert) s op = Returns s' -> session_inv s'.
Proof.
  intros Hr Hp I. pose proof I as [Hss Hctxs].
  assert (forall ctx o, adds (wrConn_BeginTx p h ctx o) (fun r l =>
    match r.1 with Some t => exists c, open_tx t c /\ opened l ≡ₚ c :: closed l | None => balanced l end)) as Hbegin
    by (intros; by apply BeginTx_opens).
  assert (forall A (l : list A) (m : M (option A * option error)), m = mret (None, Some (Leaf ErrSkip)) -> neat m) as Hskip
    by (intros A _ m ->; apply adds_ret; unfold balanced; reflexivity).
  destruct op; cbn [session_step use wrConn Execer ExecerContext Queryer QueryerContext Prepare ConnPrepareContext ConnBeginTx].
  - apply neat_keeps; [|done..]. unfold wrConn_Exec. destruct (Execer p) as [f|] eqn:E; [|by apply (Hskip Result [])].
    apply hooked_neat; [done|]. intros _. by apply (sc_exec p Hp f).
  - apply neat_keeps; [|done..]. unfold wrConn_ExecContext. destruct (ExecerContext p) as [f|] eqn:E; [|by apply (Hskip Result [])].
    apply hooked_neat; [done|]. intros c. by apply (sc_exec_ctx p Hp f).
  - apply neat_keeps; [|done..]. unfold wrConn_Query. destruct (Queryer p) as [f|] eqn:E; [|by apply (Hskip Rows [])].
    apply hooked_neat; [done|]. intros _. by apply (sc_query p Hp f).
  - apply neat_keeps; [|done..]. unfold wrConn_QueryContext. destruct (QueryerContext p) as [f|] eqn:E; [|by apply (Hskip Rows [])].
    apply hooked_neat; [done|]. intros c. by apply (sc_query_ctx p Hp f).
  - apply stmt_keeps; [|done]. unfold wrConn_Prepare. eapply adds_bind; [by apply adds_before|]. intros c ? ->.
    eapply adds_weaken; [apply prepared_neat; [done|apply (sc_prepare p Hp)]|]. intros r l [-> Hs]. split; [|done]. unfold balanced; reflexivity.
  - apply stmt_keeps; [|done]. unfold wrConn_PrepareContext. eapply adds_bind; [by apply adds_before|]. intros c ? ->.
    eapply adds_weaken; [apply prepared_neat; [done|]|].
    + destruct (ConnPrepareContext p) as [f|] eqn:E; [by apply (sc_prepare_ctx p Hp f)|apply (sc_prepare p Hp)].
    + intros r l [-> Hs]. split; [|done]. unfold balanced; reflexivity.
  - by apply begin_keeps.
  - destruct (txs s !! i) as [t|] eqn:Ei; cbn; [|by intros [= <-]]. apply (end_keeps s i t Commit); [done| |done]. by intros c [? ?].
  - destruct (txs s !! i) as [t|] eqn:Ei; cbn; [|by intros [= <-]]. apply (end_keeps s i t Rollback); [done| |done]. by intros c [? ?].
  - destruct (stmts s !! j) as [st|] eqn:Ej; cbn; [|by intros [= <-]]. apply neat_keeps; [|done..]. apply (Forall_lookup_1 _ _ _ _ Hss Ej).
  - destruct (stmts s !! j) as [st|] eqn:Ej; cbn; [|by intros [= <-]]. apply neat_keeps; [|done..]. apply (Forall_lookup_1 _ _ _ _ Hss Ej).
  - destruct (stmts s !! j) as [st|] eqn:Ej; cbn; [|by intros [= <-]]. destruct (StmtExecContext st) as [f|] eqn:Ef; cbn; [|by intros [= <-]].
    apply neat_keeps; [|done..]. by apply (ns_exec_ctx st (Forall_lookup_1 _ _ _ _ Hss Ej) f).
  - destruct (stmts s !! j) as [st|] eqn:Ej; cbn; [|by intros [= <-]]. destruct (StmtQueryContext st) as [f|] eqn:Ef; cbn; [|by intros [= <-]].
    apply neat_keeps; [|done..]. by apply (ns_query_ctx st (Forall_lookup_1 _ _ _ _ Hss Ej) f).
Qed.

(** In a session on a wrapped connection whose calls return, whatever the driver answers,
    every context a hook handed out before a call was given back to it after, exactly once, but
    for one of each transaction still open; so nothing is pending once all transactions have been
    committed or rolled back. *)
Theorem hooks_are_balanced (p : Conn) (h : Hook) w ops s :
  recorded h -> silent_conn p -> trace w = [] ->
  session_run (wrConn bg p h convert) (Session w [] []) ops = Returns s ->
  exists pending, length pending = length (txs s) /\
    opened (trace (ses_w s)) ≡ₚ closed (trace (ses_w s)) ++ pending.
Proof.
  intros Hr Hp Hw Hrun.
  assert (session_inv (Session w [] [])) as I by (split; [constructor|]; exists []; cbn; rewrite Hw; by split).
  assert (session_inv s) as [_ (ctxs & Ht & HP)].
  { revert I Hrun. generalize (Session w [] []). induction ops as [|op ops IH]; intros s0 I; cbn [session_run]; [by intros [= <-]|].
    destruct (session_step _ s0 op) as [s1|] eqn:E; cbn; [|done]. apply IH. by eapply session_step_inv. }
  exists ctxs. split; [by rewrite (Forall2_length _ _ _ Ht)|done].
Qed.
End bracketing.

(** ** Witnesses: a driver that counts its calls, under a hook that records *)

Record demo_world := DemoWorld { calls : nat; demo_trace : list (@hook_event unit nat) }.

Definition demo_hook : @Hook unit nat demo_world := {|
  Before ctx := fun w => (DemoWorld (calls w) (demo_trace w ++ [Opened ctx]), Returns ctx);
  After ctx err := fun w => (DemoWorld (calls w) (demo_trace w ++ [Closed ctx err]), Returns tt)
|}.

(** Counts the call, and answers with the count, or fails. *)
Definition counted (fails : bool) : M demo_world (option nat * option error) := fun w =>
  (DemoWorld (S (calls w)) (demo_trace w), Returns (Some (calls w), if fails then Some (Leaf ErrSkip) else None)).
Definition counted_end : M demo_world (option error) := fun w => (DemoWorld (S (calls w)) (demo_trace w), Returns None).

Definition demo_tx : @Tx demo_world := {| Commit := counted_end; Rollback := counted_end |}.
Definition demo_stmt : @Stmt unit nat nat nat unit demo_world := {|
  stmt_Close := counted_end; NumInput := mret 0%Z;
  stmt_Exec _ := counted false; stmt_Query _ := counted true;
  StmtExecContext := Some (fun _ _ => counted false); StmtQueryContext := None;
  ColumnConverter := None; stmt_NamedValueChecker := None
|}.
Definition demo_conn : @Conn unit nat nat nat unit demo_world := {|
  Prepare q := mret (Some demo_stmt, None); conn_Close := counted_end; Begin := mret (Some demo_tx, None);
  Pinger := None; Execer := None; ExecerContext := Some (fun _ q _ => counted (bool_decide (q = "bad")));
  Queryer := None; QueryerContext := None; ConnPrepareContext := None;
  ConnBeginTx := Some (fun _ _ => mret (Some demo_tx, None));
  NamedValueChecker := None; SessionResetter := None
|}.

Lemma demo_transparent : transparent calls demo_hook.
Proof. split; intros; cbn; eauto. Qed.

Lemma counted_sim b : sim calls (same_result eq) (counted b) (counted b).
Proof. intros w w' Hw. cbn. rewrite Hw. split; [done|]. split; [done|]. intros _. by constructor. Qed.
Lemma counted_end_sim : sim calls eq counted_end counted_end.
Proof. intros w w' Hw. cbn. by rewrite Hw. Qed.

Lemma demo_stmt_sim : stmt_sim calls demo_stmt demo_stmt.
Proof.
  split; cbn; intros; try apply counted_sim; try apply counted_end_sim; try done; constructor.
  intros. apply counted_sim.
Qed.

Lemma demo_own : own_conn calls demo_conn.
Proof.
  split; cbn; try done; auto using counted_end_sim.
  - intros q. apply sim_ret. split; [done|]. intros _. constructor. apply demo_stmt_sim.
  - apply sim_ret. split; [done|]. intros _. constructor. split; apply counted_end_sim.
  - intros f [= <-] ctx ctx' q args _. apply counted_sim.
  - intros f [= <-] ctx ctx' o _. apply sim_ret. split; [done|]. intros _. constructor. split; apply counted_end_sim.
Qed.

Lemma demo_recorded : recorded demo_trace demo_hook.
Proof. split; intros; by simplify_eq/=. Qed.

Lemma counted_silent b : silent demo_trace (counted b).
Proof. intros w w' a [= <- <-]. exists []. by rewrite app_nil_r. Qed.
Lemma counted_end_silent : silent demo_trace counted_end.
Proof. intros w w' a [= <- <-]. exists []. by rewrite app_nil_r. Qed.

Lemma demo_silent : silent_conn demo_trace demo_conn.
Proof.
  split; cbn; try done.
  - intros q. apply adds_ret. split; [done|]. intros s [= <-].
    split; cbn; try done; intros; simplify_eq; apply counted_silent.
  - apply adds_ret. split; [done|]. split; apply counted_end_silent.
  - intros f [= <-] ctx q args. apply counted_silent.
  - intros f [= <-] ctx o. apply adds_ret. split; [done|]. split; apply counted_end_silent.
Qed.

Definition demo_convert (v : nat) : nat * option error := (v, None).
Definition demo_calls : list (@call unit nat) :=
  let ctx := {| base := tt; data := None; conn_id := None; start_time := None |} in
  [DoExecContext ctx "ok" []; DoExecContext ctx "bad" []; DoExec "skipped" []; DoPrepare "p"; DoStmtExec 0 [1];
   DoBeginTx ctx 0; DoStmtExecContext 0 ctx []; DoBeginTx ctx 0; DoCommit 0].


(** The state the session ends in. *)
Notation demo_end :=
  (session_run (wrConn tt demo_conn demo_hook demo_convert) (Session (DemoWorld 0 []) [] []) demo_calls).

Lemma demo_end_counts :
  match demo_end with Returns s => Some (length (txs s), length (demo_trace (ses_w s))) | Panics _ => None end = Some (1, 19).
Proof. vm_compute. reflexivity. Qed.

Lemma hooks_are_balanced_witness :
  exists s, demo_end = Returns s /\ length (txs s) = 1 /\
    exists pending, length pending = length (txs s) /\
      opened (demo_trace (ses_w s)) ≡ₚ closed (demo_trace (ses_w s)) ++ pending.
Proof.
  pose proof demo_end_counts as H. destruct demo_end as [s|] eqn:E; [|discriminate H].
  exists s. split; [reflexivity|]. split; [by injection H|].
  apply (hooks_are_balanced tt demo_convert demo_trace demo_conn demo_hook (DemoWorld 0 []) demo_calls);
    [apply demo_recorded|apply demo_silent|reflexivity|exact E].
Defined.

(** ** Interfaces lost and found *)

Section interfaces.
Context {B V Rows Result Conv W : Type} (bg : B) (convert : V -> V * option error) (genConnID : M W string).
Notation Conn := (@Conn B V Rows Result Conv W).
Notation conn_value := (@conn_value B V Rows Result Conv W).
Implicit Types (c : conn_value) (h : @Hook B V W).

(** The connection [Driver.Open] wraps keeps the session resetter; it has no checker of named
    values exactly if the driver has one, because two methods of one name meet in the struct. *)
Theorem wrapConn_interfaces c h id :
  SessionResetter (methods bg convert (wrapConn bg convert c h id)) = SessionResetter (methods bg convert c) /\
  (NamedValueChecker (methods bg convert (wrapConn bg convert c h id)) = None <->
   is_Some (NamedValueChecker (methods bg convert c))).
Proof.
  unfold wrapConn. destruct (NamedValueChecker (methods bg convert c)) eqn:E, (SessionResetter (methods bg convert c)) eqn:E';
    cbn; rewrite ?E'; (split; [done|]); split; intros H; (done || eauto || by destruct H).
Qed.

(** [UnwrapConn] gives the driver's connection back only if that had a checker or a resetter; of
    the connections [Connector.Connect] makes it never does. *)
Theorem unwrapConn_spec (c : Conn) h id :
  (unwrapConn (Some (wrapConn bg convert (Foreign c) h id)) = Some (Foreign c) <->
   is_Some (NamedValueChecker c) \/ is_Some (SessionResetter c)) /\
  unwrapConn (Some (PtrWrConn (Foreign c) h)) = Some (PtrWrConn (Foreign c) h).
Proof.
  split; [|done]. unfold wrapConn. cbn. destruct (NamedValueChecker c), (SessionResetter c); cbn; split; intros H;
    (done || eauto || by destruct H as [[? ?]|[? ?]]).
Qed.

(** A connector made by [WrapConnector] has neither a hook nor a query to run after connecting:
    it panics once a connection is made. *)
Theorem WrapConnector_panics (dc : @Connector B V Rows Result Conv W) d ctx w w1 w2 c id :
  Connect dc ctx w = (w1, Returns (Some c, None)) -> genConnID w1 = (w2, Returns id) ->
  wrDriver_Connect genConnID (WrapConnector dc d) ctx w = (w2, Panics nil_call).
Proof. intros H1 H2. unfold wrDriver_Connect. cbn. unfold mbind, M_bind. by rewrite H1, H2. Qed.

(** When the query after connecting fails, the error is returned and the new connection is
    dropped: it is not closed. *)
Theorem failed_query_leaks (d : @wrDriver B V Rows Result Conv W) connector hook ctx w w1 w2 w3 c id e :
  wd_connector d = Some connector -> wd_connHook d = Some hook ->
  Connect connector ctx w = (w1, Returns (Some c, None)) -> genConnID w1 = (w2, Returns id) ->
  hook ctx (PtrWrConn c (connIDHook id (default nil_hook (wd_wrapper d)))) w2 = (w3, Returns (Some e)) ->
  wrDriver_Connect genConnID d ctx w = (w3, Returns (None, Some e)).
Proof. intros H1 H2 H3 H4 H5. unfold wrDriver_Connect. rewrite H1, H2. unfold mbind, M_bind. by rewrite H3, H4, H5. Qed.
End interfaces.

Section registering.
Context {D E : Type} (sql_driver : gmap string D -> string -> result E D) (close_err : option E) (all_slots_taken : E).

Lemma find_slot_spec n i names name :
  match find_slot n i names name with
  | Some reg => exists j, i <= j < i + n /\ reg = slot name j /\ reg ∉ names /\ forall k, i <= k < j -> slot name k ∈ names
  | None => forall k, i <= k < i + n -> slot name k ∈ names
  end.
Proof.
  revert i. induction n as [|n IH]; intros i; cbn [find_slot]; [intros; lia|]. case_decide as Hd.
  - specialize (IH (S i)). destruct (find_slot n (S i) names name) as [reg|].
    + destruct IH as (j & Hj & -> & Hn & Hk). exists j. split_and!; [lia|lia|done|done|].
      intros k Hki. destruct (decide (k = i)) as [->|]; [done|]. apply Hk. lia.
    + intros k Hki. destruct (decide (k = i)) as [->|]; [done|]. apply IH. lia.
  - exists i. split_and!; [lia|lia|done|done|]. intros; lia.
Qed.

(** Registering a wrapped driver takes the first of the thousand names that is free and leaves
    every registered driver as it is; it fails, without a change, only if the driver cannot be
    opened or closed, or if all the names are taken. *)
Theorem WrapDriverByName_spec Wrap registry name :
  let '(registry', (reg, err)) := WrapDriverByName sql_driver close_err all_slots_taken Wrap registry name in
  match err with
  | None =>
      exists dri i, sql_driver registry name = Ok dri /\ i < 1000 /\ reg = slot name i /\
        registry !! reg = None /\ registry' = <[reg := Wrap dri]> registry /\
        forall k, k < i -> is_Some (registry !! slot name k)
  | Some e =>
      registry' = registry /\
      (sql_driver registry name = Err e \/ close_err = Some e \/
       e = all_slots_taken /\ forall k, k < 1000 -> is_Some (registry !! slot name k))
  end.
Proof.
  unfold WrapDriverByName. destruct (sql_driver registry name) as [dri|e]; [|by eauto].
  destruct close_err as [e|]; [by eauto|].
  pose proof (find_slot_spec maxWrappedDriversCount 0 (dom registry) name) as Hs.
  change maxWrappedDriversCount with 1000 in *.
  destruct (find_slot 1000 0 (dom registry) name) as [reg|].
  - destruct Hs as (j & Hj & -> & Hn & Hk). exists dri, j. split_and!; try done; [lia| |].
    + by apply not_elem_of_dom.
    + intros k Hkj. apply elem_of_dom, Hk. lia.
  - split; [done|]. right. right. split; [done|]. intros k Hk. apply elem_of_dom, Hs. lia.
Qed.
End registering.
