(* ===== verification/Casing.v ===== *)
(** * Names in snake case (internal/logfmt, internal/encodingtooling/cameltosnake.go)

    [toSnakeCase] normalises the keys of log fields, [CamelToSnake] turns the fields of a struct
    into columns. Both read runes; the tables of package unicode are parameters of the second. Of
    the formatter of log keys, this file has what it does to one call; LogFmt.v has the rest. *)
From S2P Require Import Prelude Dsn Texts.

Definition snakeCaseSeparator : rune := 95%N.

(** ** Keys of log fields (logfmt.go) *)

(* go: internal/logfmt/logfmt.go | func isUpper *)
Definition isUpper (r : rune) : bool := (65 <=? r)%N && (r <=? 90)%N.
(* go: internal/logfmt/logfmt.go | func isLowerAlphaNum *)
Definition isLowerAlphaNum (r : rune) : bool := ((97 <=? r)%N && (r <=? 122)%N) || ((48 <=? r)%N && (r <=? 57)%N).

Definition is_separator (r : rune) : bool := (r =? snakeCaseSeparator)%N.

(** The first loop. [wrote] says that something was written before, [prev] whether the byte before
    is an upper case letter (only the last byte of an ASCII rune can be). *)
Fixpoint split_words (s : text) (wrote prev capitalSequence : bool) : text :=
  match s with
  | [] => []
  | r :: s' =>
      if isUpper r then
        let capitalSequence := capitalSequence || (wrote && prev) in
        (if capitalSequence then [] else [snakeCaseSeparator]) ++ (r - 65 + 97)%N :: split_words s' true true capitalSequence
      else
        (if capitalSequence then [snakeCaseSeparator] else []) ++
        (if isLowerAlphaNum r then r else snakeCaseSeparator) :: split_words s' true false false
  end.

(** The second loop. *)
Fixpoint squeeze (s : text) (repeatingSeparator : bool) : text :=
  match s with
  | [] => []
  | r :: s' =>
      if is_separator r && repeatingSeparator then squeeze s' repeatingSeparator
      else if is_separator r then r :: squeeze s' true
      else if negb (isLowerAlphaNum r) then snakeCaseSeparator :: squeeze s' true
      else r :: squeeze s' false
  end.

(* go: internal/logfmt/logfmt.go | func toSnakeCase *)
Definition toSnakeCase (s : text) : text :=
  squeeze (trim is_separator (split_words s false false false)) false.

(** ** One call of a log field *)

(** The nodes of go/ast the formatter tells apart. *)
Inductive ast_node :=
| Ident (name : string)
| SelectorExpr (X : ast_node) (Sel : string)
| BasicLit (is_string : bool) (Value : text)
| CallExpr (Fun : ast_node) (Args : list ast_node)
| OtherNode (children : list ast_node).

(** The empty key stands for none. A call without arguments of a function of zap, such as
    zap.Skip(), indexes the empty list of its arguments. *)
(* go: internal/logfmt/logfmt.go | func getZapFieldKey *)
Definition getZapFieldKey (n : ast_node) : outcome text :=
  match n with
  | CallExpr (SelectorExpr (Ident name) _) args =>
      if decide (name <> "zap") then Returns []
      else match args with
           | [] => Panics index_out_of_range
           | BasicLit true value :: _ => Returns value
           | _ :: _ => Returns []
           end
  | _ => Returns []
  end.

(* go: internal/logfmt/logfmt.go | func setZapFieldKey *)
Definition setZapFieldKey (n : ast_node) (key : text) : ast_node :=
  match n with
  | CallExpr fn (BasicLit is_string _ :: args) => CallExpr fn (BasicLit is_string key :: args)
  | _ => n
  end.

(** What is done to every node: the node, whether the file is to be rewritten, and the key found.
    The formatted key, which has no quotes, is compared with the literal, which has. *)
(* go: internal/logfmt/logfmt.go | rewrittenFile := astutil.Apply | L104-L121 *)
Definition format_node (n : ast_node) : outcome (ast_node * bool * option text) :=
  zapFieldKey ← getZapFieldKey n;
  if decide (zapFieldKey = []) then Returns (n, false, None)
  else
    let formatted := toSnakeCase (trim (N.eqb dquote_rune) zapFieldKey) in
    if decide (formatted = zapFieldKey) then Returns (n, false, Some formatted)
    else Returns (setZapFieldKey n ([dquote_rune] ++ formatted ++ [dquote_rune]), true, Some formatted).

(** ** Columns of struct fields (cameltosnake.go) *)

Section camel.
Context (IsUpper IsLower : rune -> bool) (ToLower : rune -> rune).

(** The class of the rune before: none, not an upper case letter, an upper case letter. *)
Inductive camel_class := no_rune | lower | upper.

Fixpoint camel_loop (s : text) (prev : camel_class) : text :=
  match s with
  | [] => []
  | cur :: s' =>
      if IsUpper cur then
        match prev with
        | lower => [snakeCaseSeparator]
        | upper => match s' with next :: _ => if IsLower next then [snakeCaseSeparator] else [] | [] => [] end
        | no_rune => []
        end ++ ToLower cur :: camel_loop s' upper
      else cur :: camel_loop s' lower
  end.

(* go: internal/encodingtooling/cameltosnake.go | // CamelToSnake is used *)
Definition CamelToSnake (s : text) : text := camel_loop s no_rune.
End camel.

(** ** Theorems *)

(** Lower case letters, digits and single separators between them. *)
Fixpoint snake_from (after_separator : bool) (s : text) : bool :=
  match s with
  | [] => negb after_separator
  | r :: s' =>
      if is_separator r then negb after_separator && snake_from true s'
      else isLowerAlphaNum r && snake_from false s'
  end.
Definition snake (s : text) : bool := match s with [] => true | _ => snake_from true s end.

(** The letters and digits of a text, in lower case. *)
Definition lowered (s : text) : text :=
  omap (fun r => if isUpper r then Some (r - 65 + 97)%N else if isLowerAlphaNum r then Some r else None) s.

Section snake_lemmas.
Implicit Types s t : text.

Definition word_rune (r : rune) : Prop := isLowerAlphaNum r = true \/ r = snakeCaseSeparator.

Lemma upper_not_lower r : isUpper r = true -> isLowerAlphaNum r = false /\ isLowerAlphaNum (r - 65 + 97)%N = true.
Proof.
  unfold isUpper, isLowerAlphaNum. rewrite andb_true_iff, !N.leb_le. intros [H1 H2]. split.
  - apply orb_false_iff. rewrite !andb_false_iff, !N.leb_gt. lia.
  - apply orb_true_iff. left. rewrite andb_true_iff, !N.leb_le. lia.
Qed.
Lemma lower_not_upper r : isLowerAlphaNum r = true -> isUpper r = false.
Proof. intros H. destruct (isUpper r) eqn:E; [|done]. apply upper_not_lower in E as [E _]. congruence. Qed.
Lemma separator_spec r : is_separator r = true <-> r = snakeCaseSeparator.
Proof. apply N.eqb_eq. Qed.
Lemma lower_not_separator r : isLowerAlphaNum r = true -> is_separator r = false.
Proof. intros H. destruct (is_separator r) eqn:E; [|done]. apply separator_spec in E. by subst. Qed.
Lemma word_rune_cases r : word_rune r -> isLowerAlphaNum r = true /\ is_separator r = false \/ r = snakeCaseSeparator.
Proof. intros [H| ->]; [left|by right]. split; [done|by apply lower_not_separator]. Qed.

Lemma split_words_runes s b1 b2 b3 : Forall word_rune (split_words s b1 b2 b3).
Proof.
  revert b1 b2 b3. induction s as [|r s IH]; intros b1 b2 b3; cbn [split_words]; [constructor|].
  destruct (isUpper r) eqn:E.
  - apply Forall_app. split; [destruct (b3 || (b1 && b2)); repeat constructor; by right|].
    constructor; [|apply IH]. left. by apply upper_not_lower.
  - apply Forall_app. split; [destruct b3; repeat constructor; by right|].
    constructor; [|apply IH]. destruct (isLowerAlphaNum r) eqn:E'; [by left|by right].
Qed.

Lemma lowered_app s t : lowered (s ++ t) = lowered s ++ lowered t.
Proof. apply omap_app. Qed.
Lemma lowered_lower r s : isLowerAlphaNum r = true -> lowered (r :: s) = r :: lowered s.
Proof. intros H. unfold lowered. cbn. by rewrite (lower_not_upper r H), H. Qed.
Lemma lowered_separator s : lowered (snakeCaseSeparator :: s) = lowered s.
Proof. done. Qed.

Lemma split_words_lowered s b1 b2 b3 : lowered (split_words s b1 b2 b3) = lowered s.
Proof.
  revert b1 b2 b3. induction s as [|r s IH]; intros b1 b2 b3; cbn [split_words]; [done|].
  destruct (isUpper r) eqn:E.
  - transitivity (lowered ((r - 65 + 97)%N :: split_words s true true (b3 || (b1 && b2)))).
    { by destruct (b3 || (b1 && b2)). }
    rewrite lowered_lower by (by apply upper_not_lower). rewrite IH. unfold lowered at 2. cbn. by rewrite E.
  - transitivity (lowered ((if isLowerAlphaNum r then r else snakeCaseSeparator) :: split_words s true false false)).
    { by destruct b3. }
    destruct (isLowerAlphaNum r) eqn:E'; [by rewrite !lowered_lower, IH by done|].
    rewrite lowered_separator, IH. unfold lowered at 2. cbn. by rewrite E, E'.
Qed.

Lemma squeeze_snake s : Forall word_rune s -> (forall r, last s = Some r -> is_separator r = false) ->
  (s <> [] -> snake_from true (squeeze s true) = true) /\ snake_from false (squeeze s false) = true.
Proof.
  induction s as [|r s IH]; intros Hw Hl; [done|]. apply Forall_cons in Hw as [Hr Hw].
  assert (forall x, last s = Some x -> is_separator x = false) as Hl'.
  { intros x Hx. apply Hl. rewrite last_cons, Hx. done. }
  destruct (IH Hw Hl') as [I1 I2]. destruct (word_rune_cases r Hr) as [[E1 E2]| ->]; cbn [squeeze].
  - rewrite E2, E1. cbn [andb negb snake_from]. rewrite E2, E1, I2. done.
  - assert (s <> []) as Hs by (intros ->; by specialize (Hl snakeCaseSeparator eq_refl)).
    change (is_separator snakeCaseSeparator) with true. cbn [andb snake_from].
    change (is_separator snakeCaseSeparator) with true. cbn [andb negb]. auto.
Qed.

Lemma squeeze_lowered s b : Forall word_rune s -> lowered (squeeze s b) = lowered s.
Proof.
  revert b. induction s as [|r s IH]; intros b Hw; [done|]. apply Forall_cons in Hw as [Hr Hw].
  destruct (word_rune_cases r Hr) as [[E1 E2]| ->]; cbn [squeeze].
  - rewrite E2, E1. cbn [andb negb]. by rewrite !lowered_lower, IH by done.
  - change (is_separator snakeCaseSeparator) with true. cbn [andb]. destruct b; rewrite ?lowered_separator; auto.
Qed.

Lemma snake_from_facts s b : snake_from b s = true ->
  Forall word_rune s /\ (b = true -> forall r, head s = Some r -> is_separator r = false) /\
  (forall r, last s = Some r -> is_separator r = false) /\ squeeze s b = s.
Proof.
  revert b. induction s as [|r s IH]; intros b; cbn [snake_from squeeze]; [done|].
  destruct (is_separator r) eqn:E.
  - apply separator_spec in E as ->. destruct b; [done|]. cbn [negb andb]. intros H.
    destruct (IH true H) as (I1 & I2 & I3 & I4). split_and!; [by constructor; [by right|]|done| |by rewrite I4].
    intros r Hr. rewrite last_cons in Hr. destruct (last s) as [x|] eqn:El; [by apply I3; congruence|].
    apply last_None in El. subst. done.
  - destruct (isLowerAlphaNum r) eqn:E'; [|done]. cbn [andb negb]. intros H.
    destruct (IH false H) as (I1 & I2 & I3 & I4). split_and!; [by constructor; [by left|]| | |by rewrite I4].
    + intros _ x [= <-]. done.
    + intros x Hx. rewrite last_cons in Hx. destruct (last s) as [y|] eqn:El; [by apply I3; congruence|]. congruence.
Qed.

Lemma split_words_id s b1 : Forall word_rune s -> split_words s b1 false false = s.
Proof.
  revert b1. induction s as [|r s IH]; intros b1 Hw; [done|]. apply Forall_cons in Hw as [Hr Hw]. cbn [split_words].
  destruct Hr as [Hr| ->]; [rewrite (lower_not_upper r Hr), Hr|]; cbn; by rewrite IH.
Qed.

Lemma snake_word s : snake s = true -> Forall word_rune s.
Proof. destruct s as [|r s]; [constructor|]. apply snake_from_facts. Qed.

Lemma toSnakeCase_snake s : snake (toSnakeCase s) = true.
Proof.
  unfold toSnakeCase. set (t := trim is_separator (split_words s false false false)).
  assert (Forall word_rune t) as Hw.
  { destruct (trim_split is_separator (split_words s false false false)) as (p & q & Hs & _).
    pose proof (split_words_runes s false false false) as H. rewrite Hs in H.
    apply Forall_app in H as [_ H]. by apply Forall_app in H as [H _]. }
  destruct (squeeze_snake t Hw (trim_last is_separator _)) as [_ H].
  destruct t as [|r t'] eqn:Et; [done|].
  assert (is_separator r = false) as Hr by (apply (trim_head is_separator (split_words s false false false)); by fold t; rewrite Et).
  revert H. apply Forall_cons in Hw as [Hwr _]. destruct (word_rune_cases r Hwr) as [[E1 E2]| ->]; [|done].
  cbn [squeeze]. rewrite E2, E1. cbn. by rewrite E2, E1.
Qed.

Lemma toSnakeCase_id s : snake s = true -> toSnakeCase s = s.
Proof.
  intros H. unfold toSnakeCase. rewrite split_words_id by (by apply snake_word).
  destruct s as [|r s]; [done|]. cbn [snake] in H. pose proof (snake_from_facts _ _ H) as (Hw & H1 & H2 & H3).
  rewrite trim_id by auto. cbn [squeeze] in *. rewrite (H1 eq_refl r eq_refl) in *. cbn [andb] in *. done.
Qed.

Lemma toSnakeCase_lowered s : lowered (toSnakeCase s) = lowered s.
Proof.
  unfold toSnakeCase. pose proof (split_words_runes s false false false) as Hw.
  rewrite <- (split_words_lowered s false false false). set (u := split_words s false false false) in *.
  destruct (trim_split is_separator u) as (p & q & Hu & Hpq).
  rewrite squeeze_lowered.
  - rewrite Hu at 2. rewrite !lowered_app. apply Forall_app in Hpq as [Hp Hq].
    assert (forall l, Forall (fun r => is_separator r = true) l -> lowered l = []) as Hn.
    { induction 1 as [|r l Hr _ IH]; [done|]. apply separator_spec in Hr as ->. by rewrite lowered_separator. }
    by rewrite (Hn p Hp), (Hn q Hq), app_nil_r.
  - rewrite Hu in Hw. apply Forall_app in Hw as [_ Hw]. by apply Forall_app in Hw as [Hw _].
Qed.

(** The key the formatter makes of any text is in snake case: lower case letters and digits,
    with single separators inside. It has the letters and digits of the text in their order, and
    a text that is in snake case already is left as it is, so formatting twice is formatting
    once. *)
Theorem toSnakeCase_normal s :
  snake (toSnakeCase s) = true /\ lowered (toSnakeCase s) = lowered s /\
  (snake s = true -> toSnakeCase s = s) /\ toSnakeCase (toSnakeCase s) = toSnakeCase s.
Proof.
  split_and!; [apply toSnakeCase_snake|apply toSnakeCase_lowered|apply toSnakeCase_id|].
  apply toSnakeCase_id, toSnakeCase_snake.
Qed.
End snake_lemmas.

Section format.

Lemma snake_no_quote s r : snake s = true -> r ∈ s -> r <> dquote_rune /\ r <> 96%N.
Proof.
  intros H Hr. apply snake_word in H. rewrite Forall_forall in H. destruct (H r Hr) as [Hl| ->]; [|done].
  split; intros ->; by vm_compute in Hl.
Qed.

Lemma trim_quotes s : Forall (fun r => r <> dquote_rune) s -> trim (N.eqb dquote_rune) ([dquote_rune] ++ s ++ [dquote_rune]) = s.
Proof.
  intros Hs. assert (forall r, r ∈ s -> N.eqb dquote_rune r = false) as Hq.
  { intros r Hr. apply N.eqb_neq. rewrite Forall_forall in Hs. intros E. by apply (Hs r Hr). }
  assert (forall l r, trim_left (N.eqb dquote_rune) (dquote_rune :: l) = trim_left (N.eqb dquote_rune) l /\
    (head l = Some r -> r ∈ s -> trim_left (N.eqb dquote_rune) l = l)) as Hl.
  { intros l r. split; [done|]. intros H1 H2. apply trim_left_id. intros r' Hr'.
    pose proof (eq_trans (eq_sym Hr') H1) as E. injection E as ->. auto. }
  unfold trim, trim_right. cbn [app]. rewrite (proj1 (Hl _ dquote_rune)).
  destruct s as [|x s']; [done|]. rewrite (proj2 (Hl ((x :: s') ++ [dquote_rune]) x) eq_refl (list_elem_of_here _ _)).
  rewrite reverse_app. change (reverse [dquote_rune]) with [dquote_rune]. cbn [app].
  rewrite (proj1 (Hl _ dquote_rune)). rewrite trim_left_id; [apply reverse_involutive|].
  intros r Hr. apply Hq, elem_of_reverse. by apply head_Some_elem_of.
Qed.

(** What the formatter does to a field whose key is a literal, in double quotes or back quotes: it
    asks for the file to be rewritten, always, since the key it compares has lost its quotes; the
    new literal is the key in snake case; and a second run finds the same key. *)
Theorem format_node_spec n key :
  getZapFieldKey n = Returns key -> head key = Some dquote_rune \/ head key = Some 96%N ->
  let k := toSnakeCase (trim (N.eqb dquote_rune) key) in
  exists n', format_node n = Returns (n', true, Some k) /\ snake k = true /\
    getZapFieldKey n' = Returns ([dquote_rune] ++ k ++ [dquote_rune]) /\
    format_node n' = Returns (n', true, Some k).
Proof.
  intros Hn Hh k. pose proof (toSnakeCase_snake (trim (N.eqb dquote_rune) key)) as Hk. fold k in Hk.
  assert (forall l, head l = Some dquote_rune \/ head l = Some 96%N -> k <> l) as Hne.
  { intros l Hl ->. destruct l as [|r l']; [by destruct Hl|].
    destruct (snake_no_quote (r :: l') r Hk) as [? ?]; [by left|]. destruct Hl; simplify_eq/=. }
  assert (exists fn b v args, n = CallExpr fn (BasicLit b v :: args) /\
    getZapFieldKey (setZapFieldKey n ([dquote_rune] ++ k ++ [dquote_rune])) = Returns ([dquote_rune] ++ k ++ [dquote_rune])) as (fn & b & v & args & -> & Hset).
  { destruct n as [| | |fn args|]; cbn in Hn; try (by destruct key; destruct Hh; simplify_eq).
    destruct fn as [|fn sel| | |]; try (by destruct key; destruct Hh; simplify_eq).
    destruct fn as [name| | | |]; try (by destruct key; destruct Hh; simplify_eq).
    cbn. destruct (decide (name <> "zap")) as [Hz|Hz]; [by destruct key; destruct Hh; simplify_eq|].
    destruct args as [|[| |b v| |] args]; try (by destruct key; destruct Hh; simplify_eq).
    destruct b; [|by destruct key; destruct Hh; simplify_eq]. eexists _, _, _, _. split; [done|]. cbn.
    by rewrite decide_False. }
  exists (setZapFieldKey (CallExpr fn (BasicLit b v :: args)) ([dquote_rune] ++ k ++ [dquote_rune])).
  split_and!; [|done|done|].
  - unfold format_node. rewrite Hn. cbn [mbind outcome_bind]. rewrite decide_False by (by destruct key; destruct Hh).
    fold k. by rewrite decide_False by (by apply Hne).
  - unfold format_node. rewrite Hset. cbn [mbind outcome_bind]. rewrite decide_False by done.
    rewrite trim_quotes by (apply Forall_forall; intros r Hr; by apply (snake_no_quote k r Hk)).
    rewrite (toSnakeCase_id k Hk). rewrite decide_False by (apply Hne; by left). done.
Qed.
End format.

Section camel_theorems.
Context (IsUpper IsLower : rune -> bool) (ToLower : rune -> rune).
Notation snaked := (CamelToSnake IsUpper IsLower ToLower).
Notation loop := (camel_loop IsUpper IsLower ToLower).

Definition lower_rune (r : rune) : rune := if IsUpper r then ToLower r else r.
Definition not_separator (r : rune) : Prop := r <> snakeCaseSeparator.
#[local] Instance not_separator_dec r : Decision (not_separator r).
Proof. unfold not_separator. apply _. Defined.

Lemma camel_loop_id (s : text) c : Forall (fun r => IsUpper r = false) s -> loop s c = s.
Proof.
  revert c. induction s as [|r s IH]; intros c Hs; [done|]. apply Forall_cons in Hs as [Hr Hs]. cbn [camel_loop].
  rewrite Hr. by rewrite IH.
Qed.

(** What is inserted before a rune: nothing or a separator. *)
Lemma camel_loop_cons (r : N) (s : text) c : exists p, (p = [] \/ p = [snakeCaseSeparator]) /\
  loop (r :: s) c = p ++ lower_rune r :: loop s (if IsUpper r then upper else lower).
Proof.
  cbn [camel_loop]. unfold lower_rune. destruct (IsUpper r); [|by exists []; auto].
  eexists. split; [|done]. destruct c; auto. destruct s as [|x s]; auto. destruct (IsLower x); auto.
Qed.

(** The column of a field is its name in lower case with separators put in, nothing else: the
    name, whatever it is made of, has no upper case letter left, the same runes otherwise, and
    is not changed by a second conversion; provided that no lower case of a letter of the name is
    upper case again, or the separator. *)
Theorem CamelToSnake_spec (s : text) :
  IsUpper snakeCaseSeparator = false ->
  Forall (fun r : N => IsUpper r = true -> IsUpper (ToLower r) = false /\ not_separator (ToLower r)) s ->
  Forall (fun r => IsUpper r = false) (snaked s) /\
  filter not_separator (snaked s) = filter not_separator (map lower_rune s) /\
  snaked (snaked s) = snaked s.
Proof.
  intros Hsep Hs.
  assert (forall c, Forall (fun r => IsUpper r = false) (loop s c) /\
    filter not_separator (loop s c) = filter not_separator (map lower_rune s)) as Hloop.
  { induction s as [|r s IH]; intros c; [done|]. apply Forall_cons in Hs as [Hr Hs].
    destruct (camel_loop_cons r s c) as (p & Hp & ->).
    destruct (IH Hs (if IsUpper r then upper else lower)) as [I1 I2]. split.
    - apply Forall_app. split; [destruct Hp as [->| ->]; repeat constructor; done|].
      constructor; [|done]. unfold lower_rune. destruct (IsUpper r) eqn:E; [by apply Hr|done].
    - rewrite filter_app. replace (filter not_separator p) with (@nil rune)
        by (destruct Hp as [->| ->]; [done|]; rewrite filter_cons_False; [done|]; by intros Hn; apply Hn).
      cbn [app map]. rewrite !filter_cons. destruct (decide (not_separator (lower_rune r))); [f_equal|]; exact I2. }
  destruct (Hloop no_rune) as [H1 H2]. split_and!; [done|done|]. by apply camel_loop_id.
Qed.
End camel_theorems.

(** The ASCII part of the tables. *)
Definition ascii_lower (r : rune) : bool := (97 <=? r)%N && (r <=? 122)%N.
Definition ascii_to_lower (r : rune) : rune := if isUpper r then (r + 32)%N else r.

Example camel_http : CamelToSnake isUpper ascii_lower ascii_to_lower (runes "HTTPRequestID0") = runes "http_request_id0".
Proof. reflexivity. Qed.
Example snake_urls : toSnakeCase (runes "AbbreviationsLikeURLor___HTTP://") = runes "abbreviations_like_url_or_http".
Proof. reflexivity. Qed.

Lemma CamelToSnake_spec_witness :
  let s := runes "HTTPRequestID0" in
  let out := CamelToSnake isUpper ascii_lower ascii_to_lower s in
  Forall (fun r => isUpper r = false) out /\
  filter not_separator out = filter not_separator (map (lower_rune isUpper ascii_to_lower) s) /\
  CamelToSnake isUpper ascii_lower ascii_to_lower out = out.
Proof.
  apply (CamelToSnake_spec isUpper ascii_lower ascii_to_lower (runes "HTTPRequestID0")); [reflexivity|].
  repeat constructor; intros; done.
Defined.
