(* ===== verification/SqlQuery.v ===== *)
(** * Building queries from structs (internal/sqltooling/query.go)

    The columns of a struct, the rewriting of a query so that it selects them, and the name a
    query carries in its first line. A struct is the list of its fields, as package reflect shows
    them; texts are sequences of runes; the tables of package unicode are parameters. *)
From S2P Require Import Prelude Dsn Texts Casing.

Definition dot_rune : rune := 46%N.
Definition quoted (s : text) : text := [dquote_rune] ++ s ++ [dquote_rune].

(** A field: its name, its tag [db], and the fields of its value if that is a struct. *)
Inductive field := Field (f_name f_db : text) (f_struct : option (list field)).

(** What is passed as the struct: nil, a struct, or a value of another kind. *)
Inductive any_value := NilValue | StructValue (fields : list field) | OtherValue.

Section query.
Context (IsUpper IsLower : rune -> bool) (ToLower : rune -> rune).
Notation CamelToSnake := (CamelToSnake IsUpper IsLower ToLower).

(* go: internal/sqltooling/query.go | const EmbeddedStructurePrefix *)
Definition EmbeddedStructurePrefix : text := runes "pg".

(* go: internal/sqltooling/query.go | // structHasFields handles *)
Definition structHasFields (s : any_value) : outcome bool :=
  match s with
  | NilValue => Returns false
  | OtherValue => Panics "Got unexpected type. Should be a struct."
  | StructValue [] => Panics "Got struct without fields?"
  | StructValue _ => Returns true
  end.

Definition is_embedded (f : field) : bool :=
  let '(Field name _ st) := f in
  bool_decide (is_Some st) && bool_decide (EmbeddedStructurePrefix `prefix_of` map ToLower name).

(** Reading the value of a field that is not exported panics. *)
Definition is_exported (name : text) : bool := match name with r :: _ => IsUpper r | [] => false end.

(** The column of a field that is not embedded. *)
Definition field_column (name db tableName : text) (recursionStarted : bool) : outcome (list text) :=
  if decide (db = runes "-") then Returns []
  else
    let dbTag := if decide (db = []) then CamelToSnake name else db in
    if decide (dbTag = []) then Panics ""
    else if recursionStarted then Returns [dbTag]
    else Returns [if decide (tableName <> []) then quoted tableName ++ [dot_rune] ++ quoted dbTag else quoted dbTag].

Definition missing_db_tag : string := "you must provide embedded structure with 'db' tag that is equal to database table name".
Definition unexported_field : string := "reflect.Value.Interface: cannot return value obtained from unexported field or method".

(** The body of the loop over the fields. *)
(* go: internal/sqltooling/query.go | field := st.Field(i) | L43-L84 *)
Fixpoint ColumnsFromStruct_field (f : field) (tableName : text) (recursionStarted : bool) : outcome (list text) :=
  let columns := fix columns (fs : list field) : outcome (list text) :=
    match fs with
    | [] => Returns []
    | f :: fs' => c ← ColumnsFromStruct_field f [] true; cs ← columns fs'; Returns (c ++ cs)
    end in
  let '(Field name db st) := f in
  match st with
  | Some fs =>
      if decide (EmbeddedStructurePrefix `prefix_of` map ToLower name) then
        if decide (db = []) then Panics missing_db_tag
        else if decide (db = runes "-") then Returns []
        else if negb (is_exported name) then Panics unexported_field
        else
          cs ← columns fs;
          Returns (map (fun c => quoted (db ++ [dot_rune] ++ c)) cs)
      else field_column name db tableName recursionStarted
  | None => field_column name db tableName recursionStarted
  end.

(* go: internal/sqltooling/query.go | // ColumnsFromStruct returns *)
Fixpoint ColumnsFromStruct (fs : list field) (tableName : text) (recursionStarted : bool) : outcome (list text) :=
  match fs with
  | [] => Returns []
  | f :: fs' =>
      c ← ColumnsFromStruct_field f tableName recursionStarted;
      cs ← ColumnsFromStruct fs' tableName recursionStarted;
      Returns (c ++ cs)
  end.

(* go: internal/sqltooling/query.go | func addNameToQuery *)
Definition addNameToQuery (name query : text) : outcome text :=
  if decide (name = []) then Panics "name must be specified"
  else if contains_text name [newline_rune] then Panics "name cannot contain new lines"
  else Returns (runes "-- " ++ name ++ [newline_rune] ++ query).

(* go: internal/sqltooling/query.go | func isColumnForEmbeddedStruct *)
Definition isColumnForEmbeddedStruct (c : text) : bool :=
  contains_text c [dot_rune] && bool_decide ([dquote_rune] `prefix_of` c).

(* go: internal/sqltooling/query.go | const ( | L177-L180 *)
Definition selectStart : text := runes "SELECT *".
Definition returningStart : text := runes "RETURNING *".

(** [c[1:len(c)-1]]; a column that is a single quote would panic, but has no dot. *)
Definition unquoted (c : text) : text := take (length c - 2) (drop 1 c).

(* go: internal/sqltooling/query.go | // iterate through all the columns *)
Definition makeColumnsForStructureEmbedding (columns : list text) : list text :=
  map (fun c => unquoted c ++ runes " " ++ c) (filter (fun c => isColumnForEmbeddedStruct c = true) columns).

(* go: internal/sqltooling/query.go | // overwriteForStructureEmbedding transforms *)
Definition overwriteForStructureEmbedding (columns : list text) (query : text) : text :=
  if negb (existsb isColumnForEmbeddedStruct columns) then query
  else replace_first query selectStart
         (runes "SELECT " ++ join_texts (runes ", ") (makeColumnsForStructureEmbedding columns)).

(* go: internal/sqltooling/query.go | // ColumnsForEmbeddedStructs returns *)
Definition ColumnsForEmbeddedStructs (fs : list field) : outcome (list text * list text) :=
  outer ← ColumnsFromStruct fs [] false;
  Returns (outer, makeColumnsForStructureEmbedding outer).

(* go: internal/sqltooling/query.go | // newQuery wrap query columns *)
Definition newQuery (name query : text) (st : any_value) : outcome text :=
  let query := trim_right (N.eqb 59) (trim is_space query) in
  has ← structHasFields st;
  if negb has then addNameToQuery name query
  else
    let fs := match st with StructValue fs => fs | _ => [] end in
    if contains_text query returningStart then
      columns ← ColumnsFromStruct fs [] false;
      addNameToQuery name (replace_first query returningStart (runes "RETURNING " ++ join_texts (runes ", ") columns))
    else
      columns ← ColumnsFromStruct fs [] false;
      let query := overwriteForStructureEmbedding columns query in
      addNameToQuery name
        (runes "SELECT " ++ join_texts (runes ", ") columns ++ runes " FROM (" ++ query ++ runes ") w").

(* go: internal/sqltooling/query.go | type Stmt struct *)
Record Stmt := { stmt_Query : text; stmt_Name : text }.
(* go: internal/sqltooling/query.go | func NewStmt *)
Definition NewStmt (name query : text) (st : any_value) : outcome Stmt :=
  q ← newQuery name query st; Returns {| stmt_Query := q; stmt_Name := name |}.
End query.

(** ** Theorems *)

Section lemmas.
Implicit Types s sub : text.

Lemma unquoted_quoted s : unquoted (quoted s) = s.
Proof.
  unfold unquoted, quoted. rewrite !length_app. cbn [length app drop]. rewrite skipn_O.
  replace (1 + (length s + 1) - 2) with (length s) by lia. apply take_app_length.
Qed.

Lemma embedded_quoted s : dot_rune ∈ s -> isColumnForEmbeddedStruct (quoted s) = true.
Proof.
  intros H. unfold isColumnForEmbeddedStruct, quoted. apply andb_true_iff. split.
  - apply contains_rune_true. apply elem_of_app. right. apply elem_of_app. by left.
  - rewrite bool_decide_eq_true_2; [done|]. by eexists.
Qed.

Lemma makeColumns_quoted xs : Forall (fun x => dot_rune ∈ x) xs ->
  makeColumnsForStructureEmbedding (map quoted xs) = map (fun x => x ++ runes " " ++ quoted x) xs.
Proof.
  unfold makeColumnsForStructureEmbedding. induction 1 as [|x xs Hx _ IH]; [done|]. cbn [map].
  rewrite filter_cons_True by (by apply embedded_quoted). cbn [map]. by rewrite IH, unquoted_quoted.
Qed.

(** The name in the first line of a query. *)
Fixpoint line (s : text) : option text :=
  match s with [] => None | r :: s' => if decide (r = newline_rune) then Some [] else cons r <$> line s' end.
Definition query_name (s : text) : option text :=
  if decide (runes "-- " `prefix_of` s) then line (drop 3 s) else None.

Lemma line_app name s : Forall (fun x => x <> newline_rune) name -> line (name ++ newline_rune :: s) = Some name.
Proof.
  induction 1 as [|r name Hr _ IH]; cbn; [done|]. rewrite decide_False by done. by rewrite IH.
Qed.

Lemma addNameToQuery_spec name query r : addNameToQuery name query = Returns r <->
  name <> [] /\ Forall (fun x => x <> newline_rune) name /\ r = runes "-- " ++ name ++ [newline_rune] ++ query.
Proof.
  unfold addNameToQuery. case_decide as Hn; [naive_solver|]. destruct (contains_text name [newline_rune]) eqn:E.
  - split; [done|]. intros (_ & Hf & _). exfalso. revert E. induction Hf as [|x name Hx _ IH]; [done|].
    cbn [contains_text]. rewrite orb_true_iff, bool_decide_eq_true. intros [[k Hk]|Hc]; [by simplify_eq/=|].
    destruct name as [|y name]; [done|]. by apply IH.
  - apply contains_rune_false in E. split; [intros [= <-]; auto|]. by intros (_ & _ & ->).
Qed.
End lemmas.

Section query_theorems.
Context (IsUpper IsLower : rune -> bool) (ToLower : rune -> rune).
Notation newQuery := (newQuery IsUpper IsLower ToLower).
Notation ColumnsFromStruct := (ColumnsFromStruct IsUpper IsLower ToLower).

(** Every query that is built, whatever its text and its struct, carries its name: the first
    line gives it back. *)
Theorem newQuery_name name query st r : newQuery name query st = Returns r -> query_name r = Some name.
Proof.
  assert (forall q, addNameToQuery name q = Returns r -> query_name r = Some name) as Hadd.
  { intros q (_ & Hf & ->)%addNameToQuery_spec. unfold query_name. rewrite decide_True by (by eexists).
    change (drop 3 (runes "-- " ++ ?s)) with s. by apply line_app. }
  unfold SqlQuery.newQuery. destruct (structHasFields st) as [b|]; cbn [mbind outcome_bind]; [|done].
  destruct b; cbn [negb]; [|apply Hadd].
  destruct (contains_text _ returningStart); destruct (ColumnsFromStruct _ [] false); cbn [mbind outcome_bind]; try done; apply Hadd.
Qed.

(** A query that selects everything, read into a struct whose columns [xs] all belong to
    embedded models, selects each of them under the name the struct reads it by. *)
Theorem newQuery_embedded name rest fs xs :
  name <> [] -> Forall (fun r => r <> newline_rune) name ->
  fs <> [] -> ColumnsFromStruct fs [] false = Returns (map quoted xs) -> xs <> [] -> Forall (fun x => dot_rune ∈ x) xs ->
  trim_right (N.eqb 59) (trim is_space (selectStart ++ rest)) = selectStart ++ rest ->
  contains_text (selectStart ++ rest) returningStart = false ->
  newQuery name (selectStart ++ rest) (StructValue fs) =
    Returns (runes "-- " ++ name ++ [newline_rune] ++
             runes "SELECT " ++ join_texts (runes ", ") (map quoted xs) ++ runes " FROM (" ++
             (runes "SELECT " ++ join_texts (runes ", ") (map (fun x => x ++ runes " " ++ quoted x) xs) ++ rest) ++
             runes ") w").
Proof.
  intros Hn Hl Hfs Hc Hx Hdot Htrim Hret. unfold SqlQuery.newQuery. rewrite Htrim.
  destruct fs as [|f fs]; [done|]. cbn [structHasFields mbind outcome_bind negb]. rewrite Hret, Hc. cbn [mbind outcome_bind].
  apply addNameToQuery_spec. split_and!; [done|done|]. do 6 f_equal. unfold overwriteForStructureEmbedding.
  destruct xs as [|x xs]; [done|]. cbn [map existsb].
  rewrite (embedded_quoted x) by (by apply Forall_inv in Hdot). cbn [orb negb].
  rewrite replace_first_prefix. change (quoted x :: map quoted xs) with (map quoted (x :: xs)).
  rewrite (makeColumns_quoted (x :: xs) Hdot). by rewrite <- !app_assoc.
Qed.
End query_theorems.

(** Two embedded models, as in the comment of the source. *)
Definition join_result : list field :=
  [Field (runes "PGApiKey") (runes "api_keys") (Some [Field (runes "UserID") [] None]);
   Field (runes "PGUser") (runes "users") (Some [Field (runes "UserName") [] None; Field (runes "Secret") (runes "-") None])].

Notation join_query :=
  (newQuery isUpper ascii_lower ascii_to_lower (runes "keys of users")
    (runes "SELECT * FROM api_keys JOIN users ON id = user_id") (StructValue join_result)).

Lemma newQuery_name_witness : exists r, join_query = Returns r /\ query_name r = Some (runes "keys of users").
Proof.
  destruct join_query as [r|] eqn:E; [|discriminate E]. exists r. split; [reflexivity|].
  apply (newQuery_name isUpper ascii_lower ascii_to_lower _ _ _ _ E).
Defined.

Lemma newQuery_embedded_witness :
  let xs := [runes "api_keys.user_id"; runes "users.user_name"] in
  join_query = Returns (runes "-- " ++ runes "keys of users" ++ [newline_rune] ++
    runes "SELECT " ++ join_texts (runes ", ") (map quoted xs) ++ runes " FROM (" ++
    (runes "SELECT " ++ join_texts (runes ", ") (map (fun x => x ++ runes " " ++ quoted x) xs) ++
     runes " FROM api_keys JOIN users ON id = user_id") ++ runes ") w").
Proof.
  intros xs. apply (newQuery_embedded isUpper ascii_lower ascii_to_lower (runes "keys of users")
    (runes " FROM api_keys JOIN users ON id = user_id") join_result xs); try reflexivity; try discriminate.
  - repeat constructor; discriminate.
  - repeat constructor; by_decision.
Defined.
