(* ===== verification/Migration.v ===== *)
(** * Migrating a database and dumping its schema (internal/pgtooling/migration.go)

    [Migrate] runs tern under the retry library; [FormattedPgDump] runs pg_dump and filters what
    it prints. The connection, tern's migrator, the retry library and the command are
    parameters. *)
From S2P Require Import Prelude Decimal Codes GoErrors Retry Dsn Texts.

Definition ErrLockNotAcquired : leaf := LNew 10 "database lock not acquired".
Definition ErrDbVersionIsNewer : leaf := LNew 11 "database version is newer than image database version".
Definition no_migrations_found : leaf := LText "no migrations found".
Definition errPgDumpNoConnection : leaf := LNew 12 "connection error".

(** ** Options *)

(* go: internal/pgtooling/migration.go | type MigrateOpts *)
Record MigrateOpts := {
  PathToDBDir : text; Destination : string; LockTimeout : string;
  Retry : option (list strategy); SchemaVersionTable : string
}.

Section migrate.
Context {W : Type}.

(** The strategies set by default; [backoff] is the library's. *)
Context (Limit : nat -> strategy) (Backoff : strategy).

(* go: internal/pgtooling/migration.go | func (m *MigrateOpts) SetDefaults *)
Definition SetDefaults (m : MigrateOpts) : MigrateOpts := {|
  PathToDBDir := PathToDBDir m;
  Destination := if decide (Destination m = "") then "last" else Destination m;
  LockTimeout := if decide (LockTimeout m = "") then "5s" else LockTimeout m;
  Retry := match Retry m with None => Some [Backoff; Limit 10] | Some how => Some how end;
  SchemaVersionTable := if decide (SchemaVersionTable m = "") then "public.schema_version" else SchemaVersionTable m
|}.

(** ** One run of tern *)

(** What is called, in order, on the connection and the migrator. *)
Inductive step :=
| SConnect | SExec (sql : string) | SClose | SNewMigrator (table : string) | SLoad (path : text)
| SGetVersion | SMigrate | SMigrateTo (version : Z).

(** [do s] performs a step and returns its error; [Migrations] and [version] are what the migrator
    found. *)
Context (do : step -> W -> W * option error) (Migrations : W -> nat) (version : W -> Z).

Definition exit_status_1 : string := "os.Exit(1)".

(** [mustParseDestination] ends the process on a bad number. *)
(* go: internal/pgtooling/migration.go | mustParseDestination := | L273-L281 *)
Definition mustParseDestination (d : string) : outcome Z :=
  match ParseInt 32 d with Some n => Returns n | None => Panics exit_status_1 end.

Definition wrap_error (pre : string) (r : W * option error) : W * option error :=
  (r.1, Wrap (WText pre) <$> r.2).

(** The steps for a destination, given the version the database is at; a step is only made if
    those before it succeeded. Versions have 32 bits. *)
(* go: internal/pgtooling/migration.go | destination := opts.Destination | L283-L298 *)
Definition destination_steps (currentVersion : Z) (destination : string) : outcome (list step) :=
  if decide (destination = "last") then Returns [SMigrate]
  else if (3 <=? String.length destination) && has_prefix destination "-+" then
    n ← mustParseDestination (sdrop 2 destination);
    Returns [SMigrateTo (wraps 32 (currentVersion - n)); SMigrateTo currentVersion]
  else if (2 <=? String.length destination) && has_prefix destination "-" then
    n ← mustParseDestination (sdrop 1 destination);
    Returns [SMigrateTo (wraps 32 (currentVersion - n))]
  else if (2 <=? String.length destination) && has_prefix destination "+" then
    n ← mustParseDestination (sdrop 1 destination);
    Returns [SMigrateTo (wraps 32 (currentVersion + n))]
  else
    n ← mustParseDestination destination;
    Returns [SMigrateTo n].

Fixpoint do_steps (steps : list step) (w : W) : W * option error :=
  match steps with
  | [] => (w, None)
  | s :: steps' => match do s w with (w', None) => do_steps steps' w' | r => r end
  end.

(** The connection is closed at the end, but for a process that exits, and a lock timeout that
    cannot be set: the deferred call comes after that. *)
Definition with_close (r : W * outcome (option error)) : W * outcome (option error) :=
  match r with
  | (w, Returns err) => ((do SClose w).1, Returns err)
  | (w, Panics why) => (w, Panics why)
  end.

(* go: internal/pgtooling/migration.go | // migrateWithTern is a copy *)
Definition migrateWithTern (opts : MigrateOpts) (w : W) : W * outcome (option error) :=
  match do SConnect w with
  | (w, Some e) => (w, Returns (Some (Wrap (WText "could not connect to postgres database") e)))
  | (w, None) =>
  match do (SExec ("SET lock_timeout='" +:+ LockTimeout opts +:+ "'")) w with
  | (w, Some e) => (w, Returns (Some (Wrap (WText "could not set lock_timeout") e)))
  | (w, None) => with_close
  match do (SNewMigrator (SchemaVersionTable opts)) w with
  | (w, Some e) => (w, Returns (Some (Wrap (WText "could not create migrator") e)))
  | (w, None) =>
  match do (SLoad (trim_right (N.eqb 47) (PathToDBDir opts) ++ runes "/migrations/")) w with
  | (w, Some e) => (w, Returns (Some (Wrap (WText "could not load migrations") e)))
  | (w, None) =>
  if decide (Migrations w = 0) then (w, Returns (Some (Leaf no_migrations_found)))
  else
  match do SGetVersion w with
  | (w, Some e) => (w, Returns (Some (Wrap (WText "could not get current version") e)))
  | (w, None) =>
  match destination_steps (version w) (Destination opts) with
  | Panics why => (w, Panics why)
  | Returns steps => let '(w, err) := do_steps steps w in (w, Returns err)
  end end end end end end.

(** ** Retrying *)

(** The types [migrate.MigrationPgError], by its code, and [migrate.BadVersionError], by its
    text. *)
Context (as_migration_error as_bad_version : error -> option string).

(** A lock that is not available, or a deadlock: the error is replaced by one joined with an
    empty error of the other type. *)
Definition lock_not_acquired : error := Join [Leaf ErrLockNotAcquired; Leaf (LText "")].

(** What an attempt that ended with [err] does: retry with an error, or stop with [returnErr]. *)
Inductive verdict := Again (e : error) | Stop (returnErr : error).
(* go: internal/pgtooling/migration.go | pgErr := migrate.MigrationPgError{} | L49-L79 *)
Definition classify (err : error) : verdict :=
  match As as_migration_error err with
  | Some code =>
      if decide (code = "55P03") then Again lock_not_acquired
      else if decide (code = "40P01") then Again lock_not_acquired
      else Stop err
  | None =>
      match As as_bad_version err with
      | Some txt =>
          if contains txt "current version" then Stop (Join [Leaf ErrDbVersionIsNewer; Leaf (LText txt)])
          else Stop err
      | None => Stop err
      end
  end.

Context (retry_Do : retry_Do_type (W * option error)).

(** The action keeps the error to return in a variable beside the world. *)
(* go: internal/pgtooling/migration.go | err := retry.Do(ctx, func | L42-L83 *)
Definition migrate_action (opts : MigrateOpts) : Retry.action (W * option error) := fun '(w, returnErr) =>
  match migrateWithTern opts w with
  | (w', Panics why) => ((w', returnErr), Panics why)
  | (w', Returns None) => ((w', returnErr), Returns None)
  | (w', Returns (Some err)) =>
      match classify err with
      | Again e => ((w', returnErr), Returns (Some e))
      | Stop e => ((w', Some e), Returns None)
      end
  end.

(* go: internal/pgtooling/migration.go | // Migrate allows *)
Definition Migrate (opts : MigrateOpts) (w : W) : W * outcome (option error) :=
  let opts := SetDefaults opts in
  match retry_Do (default [] (Retry opts)) (migrate_action opts) (w, None) with
  | ((w', _), Panics why) => (w', Panics why)
  | ((w', _), Returns (Some err)) => (w', Returns (Some err))
  | ((w', returnErr), Returns None) => (w', Returns returnErr)
  end.
End migrate.
Arguments SetDefaults Limit Backoff m.

(** ** Dumps *)

(* go: internal/pgtooling/migration.go | var omitLineStart *)
Definition omitLineStart : list text := [runes "SELECT "; runes "SET "; runes "--"].
(* go: internal/pgtooling/migration.go | func omitByLineStart *)
Definition omitByLineStart (line : text) : bool := existsb (fun prefix => bool_decide (prefix `prefix_of` line)) omitLineStart.
(* go: internal/pgtooling/migration.go | func omitBySubstring *)
Definition omitBySubstring (line : text) : bool := contains_text line (runes "OWNER TO postgres").

(** The loop over the lines. *)
Fixpoint filter_lines (lines : list text) (omittingEmpty : bool) : list text :=
  match lines with
  | [] => []
  | line :: lines' =>
      if omitByLineStart line then filter_lines lines' omittingEmpty
      else if omitBySubstring line then filter_lines lines' omittingEmpty
      else if decide (line = []) then
        if omittingEmpty then filter_lines lines' omittingEmpty else line :: filter_lines lines' true
      else line :: filter_lines lines' false
  end.
(* go: internal/pgtooling/migration.go | func filterOutPGDumpInfo *)
Definition filterOutPGDumpInfo (info : text) : text :=
  trim is_space (join_texts [newline_rune] (filter_lines (split_text newline_rune info) false)).

Section dump.
Context {W : Type}.
(** Running a command gives its output and its error. *)
Context (docker : list text -> W -> W * (text * option error)).

Definition pg_dump_image : text := runes "postgres@sha256:51ce26e4463d434049b4b83e72eaaa008047a6a6cc65f2f3ee2ff3c183da0621".

(* go: internal/pgtooling/migration.go | func pgDump *)
Definition pgDump (args : list text) (w : W) : W * result error text :=
  let cmdArgs := [runes "run"; runes "--network"; runes "host"; runes "--add-host=host.docker.internal:host-gateway";
                  pg_dump_image; runes "pg_dump"] ++ args in
  match docker cmdArgs w with
  | (w', (output, None)) => (w', Ok output)
  | (w', (output, Some err)) =>
      let err := Wrap (WFields [MkField "output" ByteStringType 0 "" ""]) (Wrap (WText "pg_dump failed") err) in
      if contains_text output (runes "Is the server running") then (w', Err (Join [Leaf errPgDumpNoConnection; err]))
      else (w', Err err)
  end.

Definition dump_args (dsn : text) : list text :=
  [runes "--dbname"; dsn; runes "--schema-only"; runes "--no-comments"; runes "--no-tablespaces"].

(* go: internal/pgtooling/migration.go | func FormattedPgDump *)
Definition FormattedPgDump (dsn : text) (w : W) : W * result error text :=
  match pgDump (dump_args dsn) w with
  | (w, Ok dump) => (w, Ok (filterOutPGDumpInfo dump))
  | (w, Err err) =>
      if Is errPgDumpNoConnection err then
        match pgDump (dump_args (replace_first dsn (runes "127.0.0.1") (runes "host.docker.internal"))) w with
        | (w, Ok attemptedDump) => (w, Ok (filterOutPGDumpInfo attemptedDump))
        | (w, Err attemptedErr) => (w, Err (Join [attemptedErr; err]))
        end
      else (w, Err err)
  end.
End dump.

(** ** Theorems *)

Lemma has_prefix_nil (s : string) : has_prefix s "" = true.
Proof. by destruct s. Qed.

Lemma has_prefix_digit (n : N) pre : (forall c p, pre = String c p -> N_of_ascii c < 48)%N -> pre <> "" ->
  has_prefix (pretty n) pre = false.
Proof.
  intros Hp Hne. destruct (pretty_head n) as (c & s & -> & Hc). destruct pre as [|p pre]; [done|].
  specialize (Hp p pre eq_refl). cbn [has_prefix]. rewrite bool_decide_eq_false_2; [done|]. intros ->. lia.
Qed.

Lemma pretty_not_last (n : N) : pretty n <> "last".
Proof. intros E. pose proof (digits_pretty n) as Hd. by rewrite E in Hd. Qed.

(** A destination is a version, a number of versions up or down, both down and up again, or
    the last one; versions wrap at 32 bits. A number out of bounds ends the process. *)
Theorem destination_spec (current : Z) (n : N) : (n < 2 ^ 31)%N ->
  destination_steps current "last" = Returns [SMigrate] /\
  destination_steps current (pretty n) = Returns [SMigrateTo (Z.of_N n)] /\
  destination_steps current ("+" +:+ pretty n) = Returns [SMigrateTo (wraps 32 (current + Z.of_N n))] /\
  destination_steps current ("-" +:+ pretty n) = Returns [SMigrateTo (wraps 32 (current - Z.of_N n))] /\
  destination_steps current ("-+" +:+ pretty n)
    = Returns [SMigrateTo (wraps 32 (current - Z.of_N n)); SMigrateTo current] /\
  (forall m : N, (2 ^ 31 <= m)%N -> destination_steps current (pretty m) = Panics exit_status_1).
Proof.
  intros Hn. split; [reflexivity|].
  assert (Hplain : forall m : N, destination_steps current (pretty m)
    = (k ← mustParseDestination (pretty m); Returns [SMigrateTo k])).
  { intros m. unfold destination_steps. destruct (decide _) as [E|_]; [by apply pretty_not_last in E|].
    rewrite !has_prefix_digit, !andb_false_r by (try done; intros c p [= <- <-]; cbn; lia). done. }
  assert (Hlen : 1 <= String.length (pretty n)).
  { destruct (pretty_head n) as (c & s & -> & _). cbn. lia. }
  assert (Hparse : mustParseDestination (pretty n) = Returns (Z.of_N n)).
  { unfold mustParseDestination. rewrite ParseInt_pretty. by rewrite decide_True by (cbn; lia). }
  split; [by rewrite Hplain, Hparse|].
  pose proof (has_prefix_digit n "+" ltac:(by intros c p [= <- <-]) ltac:(done)) as Hsign.
  destruct (pretty_head n) as (c & s & E & Hc). rewrite E in *. cbn in Hlen.
  split; [|split; [|split]].
  1-3: change ("+" +:+ String c s) with (String "+" (String c s));
    change ("-" +:+ String c s) with (String "-" (String c s));
    change ("-+" +:+ String c s) with (String "-" (String "+" (String c s)));
    unfold destination_steps; rewrite decide_False by done; cbn -[mustParseDestination wraps].
  1-3: rewrite ?has_prefix_nil; change (bool_decide ("-"%char = "+"%char)) with false;
    change (bool_decide ("+"%char = "+"%char)) with true; change (bool_decide ("-"%char = "-"%char)) with true;
    cbn -[mustParseDestination wraps]; rewrite ?andb_false_r.
  - by rewrite Hparse.
  - cbn in Hsign. rewrite has_prefix_nil, andb_true_r in Hsign. rewrite Hsign, andb_false_r. by rewrite Hparse.
  - destruct (String.length s); cbn -[mustParseDestination wraps]; by rewrite Hparse.
  - intros m Hm. rewrite Hplain. unfold mustParseDestination. by rewrite ParseInt_pretty, decide_False by (cbn; lia).
Qed.

Lemma destination_spec_witness :
  (7 < 2 ^ 31)%N /\ destination_steps 3 "-+7" = Returns [SMigrateTo (-4); SMigrateTo 3].
Proof.
  assert (7 < 2 ^ 31)%N as H by done. split; [done|].
  destruct (destination_spec 3 7 H) as (_ & _ & _ & _ & E & _). exact E.
Defined.

(** ** What a migration comes to *)

Section outcomes.
Context {W : Type} (Limit : nat -> strategy) (Backoff : strategy).
Context (do : step -> W -> W * option error) (Migrations : W -> nat) (version : W -> Z).
Context (as_migration_error as_bad_version : error -> option string).
Context (core : error -> error) (retry_Do : retry_Do_type (W * option error)) (ended : W -> option error).

#[local] Notation tern := (migrateWithTern do Migrations version).
#[local] Notation migrate := (Migrate Limit Backoff do Migrations version as_migration_error as_bad_version retry_Do).

(** A run of tern from beginning to end: it connects, sets the lock timeout, finds migrations and
    the version of the database, makes every step of the destination and closes the connection. *)
Definition ran (opts : MigrateOpts) (w w' : W) : Prop :=
  exists w1 w2 w3 steps,
    do_steps do [SConnect; SExec ("SET lock_timeout='" +:+ LockTimeout opts +:+ "'");
                 SNewMigrator (SchemaVersionTable opts);
                 SLoad (trim_right (N.eqb 47) (PathToDBDir opts) ++ runes "/migrations/")] w = (w1, None) /\
    Migrations w1 <> 0 /\ do SGetVersion w1 = (w2, None) /\
    destination_steps (version w2) (Destination opts) = Returns steps /\
    do_steps do steps w2 = (w3, None) /\ w' = (do SClose w3).1.

Lemma migrateWithTern_ok opts w w' : tern opts w = (w', Returns None) -> ran opts w w'.
Proof.
  unfold ran, migrateWithTern. cbn [do_steps].
  destruct (do SConnect w) as [wa [e|]]; [done|].
  destruct (do (SExec _) wa) as [wb [e|]]; [done|]. unfold with_close.
  destruct (do (SNewMigrator _) wb) as [wc [e|]]; [done|].
  destruct (do (SLoad _) wc) as [wd [e|]]; [done|].
  destruct (decide (Migrations wd = 0)) as [H0|H0]; [done|].
  destruct (do SGetVersion wd) as [we [e|]] eqn:Ev; [done|].
  destruct (destination_steps _ _) as [steps|why] eqn:Es; [|done].
  destruct (do_steps do steps we) as [wf [e|]] eqn:Er; intros H; simplify_eq.
  exists wd, we, wf, steps. by rewrite Ev, Er.
Qed.

(** The errors after which a migration is tried again, and what the others are reported as. *)
Definition lock_error (err : error) : Prop :=
  exists code, As as_migration_error err = Some code /\ code ∈ ["55P03"; "40P01"].
Definition reported (err : error) : error :=
  match As as_migration_error err, As as_bad_version err with
  | None, Some txt => if contains txt "current version" then Join [Leaf ErrDbVersionIsNewer; Leaf (LText txt)] else err
  | _, _ => err
  end.

Lemma classify_spec err :
  match classify as_migration_error as_bad_version err with
  | Again e => lock_error err /\ e = lock_not_acquired
  | Stop e => ~ lock_error err /\ e = reported err
  end.
Proof.
  unfold classify, lock_error, reported. destruct (As as_migration_error err) as [code|].
  - destruct (decide (code = "55P03")) as [->|H1]; [split; [eexists; split; [done|set_solver]|done]|].
    destruct (decide (code = "40P01")) as [->|H2]; [split; [eexists; split; [done|set_solver]|done]|].
    split; [|done]. intros (c & [= <-] & Hin). set_solver.
  - destruct (As as_bad_version err) as [txt|]; [destruct (contains txt _)|]; (split; [|done]); by intros (c & ? & _).
Qed.

(** [locked opts n w w']: [n] runs of tern one after the other, each of which failed because of a
    lock. *)
Inductive locked (opts : MigrateOpts) : nat -> W -> W -> Prop :=
| locked_none w : locked opts 0 w w
| locked_again n w w1 w' err :
    tern opts w = (w1, Returns (Some err)) -> lock_error err -> locked opts n w1 w' -> locked opts (S n) w w'.

(** What is reported, given the strategies [how], after [n] attempts, the last of which ended with
    [last], in the world [w]. *)
Definition concluded (opts : MigrateOpts) (how : strategy) (n : nat) (last : option error) (w : W)
    (r : W * outcome (option error)) : Prop :=
  (how n last = true /\
   match r with
   | (w', Returns None) => ran opts w w'
   | (w', Returns (Some e)) => exists err, tern opts w = (w', Returns (Some err)) /\ ~ lock_error err /\ e = reported err
   | (w', Panics why) => tern opts w = (w', Panics why)
   end) \/
  (how n last = false /\ r = (w, Returns last)) \/
  (exists e, ended w = Some e /\ r = (w, Returns (Some e))).

(** The result of [Migrate], from that of the retry library. *)
Definition reported_result (r : (W * option error) * outcome (option error)) : W * outcome (option error) :=
  match r with
  | ((w', _), Panics why) => (w', Panics why)
  | ((w', _), Returns (Some err)) => (w', Returns (Some err))
  | ((w', returnErr), Returns None) => (w', Returns returnErr)
  end.

Lemma migrate_attempts opts how n last wr r :
  attempts_until (fun wr => ended wr.1) how (migrate_action do Migrations version as_migration_error as_bad_version opts) n last wr r ->
  wr.2 = None ->
  exists k w', locked opts k wr.1 w' /\
    concluded opts how (k + n) (if decide (k = 0) then last else Some lock_not_acquired) w' (reported_result r).
Proof.
  unfold concluded. induction 1 as [n last [w ?] Hno|n last [w ?] e He|n last [w ?] [w' r'] Hyes Hact|n last [w ?] [w' r'] why Hyes Hact
    |n last [w ?] [w1 r1] e r Hyes Hact _ IH]; cbn [fst snd]; intros ->.
  - exists 0, w. split; [constructor|]. right. left. split; [done|]. by destruct last.
  - exists 0, w. split; [constructor|]. right. right. by exists e.
  - exists 0, w. split; [constructor|]. left. split; [done|]. unfold migrate_action in Hact.
    destruct (tern opts w) as [w1 [[e|]|why]] eqn:E; [|simplify_eq; by apply migrateWithTern_ok|done].
    pose proof (classify_spec e) as Hc. destruct (classify _ _ e); [done|]. simplify_eq. cbn. by exists e.
  - exists 0, w. split; [constructor|]. left. split; [done|]. unfold migrate_action in Hact.
    destruct (tern opts w) as [w1 [[e|]|why']]; [by destruct (classify _ _ e)|done|]. by simplify_eq.
  - unfold migrate_action in Hact. destruct (tern opts w) as [w2 [[err|]|why']] eqn:E; [|done..].
    pose proof (classify_spec err) as Hc. destruct (classify _ _ err) as [e'|]; [|done]. destruct Hc as [Hl ->]. simplify_eq.
    destruct (IH eq_refl) as (k & w' & Hk & Hend). exists (S k), w'. split; [by eapply locked_again|].
    replace (S k + n) with (k + S n) by lia. by destruct k.
Qed.

End outcomes.

(** A lock timeout that cannot be set leaves the connection open: [SClose] is not among the steps
    made. *)
Theorem lock_timeout_leaks {W : Type} (do : step -> W -> W * option error) Migrations version opts w w1 w2 e :
  do SConnect w = (w1, None) ->
  do (SExec ("SET lock_timeout='" +:+ LockTimeout opts +:+ "'")) w1 = (w2, Some e) ->
  migrateWithTern do Migrations version opts w = (w2, Returns (Some (Wrap (WText "could not set lock_timeout") e))).
Proof. intros H1 H2. unfold migrateWithTern. by rewrite H1, H2. Qed.

(** A database whose lock is taken at first. *)
Definition demo_do (s : step) (w : list step) : list step * option error :=
  match s with
  | SMigrate => (s :: w, if decide (length w < 6) then Some (Wrap (WText "migration") (Leaf (LPgError "55P03" "lock"))) else None)
  | _ => (s :: w, None)
  end.
Definition demo_pg_code (e : error) : option string := match e with Leaf (LPgError code _) => Some code | _ => None end.
Definition demo_opts : MigrateOpts :=
  {| PathToDBDir := runes "db//"; Destination := ""; LockTimeout := ""; Retry := None; SchemaVersionTable := "" |}.
Definition demo_Migrate : list step * outcome (option error) :=
  Migrate do_limit (fun _ _ => true) demo_do (fun _ => 3) (fun _ => 2%Z) demo_pg_code (fun _ => None)
    (do_retry 11 id) demo_opts [].

(** The first run does not get the lock, the second succeeds. *)
Example demo_Migrate_runs : demo_Migrate =
  (rev (let run := [SConnect; SExec "SET lock_timeout='5s'"; SNewMigrator "public.schema_version";
                    SLoad (runes "db/migrations/"); SGetVersion; SMigrate; SClose] in run ++ run), Returns None).
Proof. reflexivity. Qed.


(** ** The filter of a dump *)

(** What a dump is kept for: a line that is not blank and not omitted. *)
Definition omitted (line : text) : bool := omitByLineStart line || omitBySubstring line.
Definition meaningful (line : text) : Prop := line <> [] /\ omitted line = false.
#[global] Instance meaningful_dec line : Decision (meaningful line).
Proof. unfold meaningful. apply _. Defined.

(** No two blank lines in a row, nor one at the start if [blank] precedes. *)
Fixpoint no_blank_runs (blank : bool) (lines : list text) : bool :=
  match lines with
  | [] => true
  | line :: lines' =>
      if decide (line = []) then negb blank && no_blank_runs true lines' else no_blank_runs false lines'
  end.

(** Filtering a dump keeps its meaningful lines, all of them, in their order; what is omitted
    is gone and blank lines come one at a time; filtering the lines again changes nothing. *)
Theorem filter_lines_spec (lines : list text) (blank : bool) :
  filter meaningful (filter_lines lines blank) = filter meaningful lines /\
  Forall (fun line => omitted line = false) (filter_lines lines blank) /\
  no_blank_runs blank (filter_lines lines blank) = true /\
  filter_lines (filter_lines lines blank) blank = filter_lines lines blank.
Proof.
  revert blank. induction lines as [|line lines IH]; intros blank; [done|].
  cbn [filter_lines]. assert (Ho : omitted line = omitByLineStart line || omitBySubstring line) by done.
  destruct (omitByLineStart line) eqn:E1; [|destruct (omitBySubstring line) eqn:E2].
  1-2: rewrite filter_cons_False by (intros [_ Hm]; rewrite Ho in Hm; discriminate Hm || (by rewrite orb_true_r in Hm)); apply IH.
  destruct (decide (line = [])) as [->|Hne].
  - destruct blank.
    + rewrite filter_cons_False by (by intros [? _]). apply IH.
    + destruct (IH true) as (IH1 & IH2 & IH3 & IH4).
      rewrite !filter_cons_False by (by intros [? _]). repeat split; [done|by constructor|done|].
      cbn [filter_lines]. rewrite E1, E2. by rewrite decide_True, IH4.
  - destruct (IH false) as (IH1 & IH2 & IH3 & IH4).
    rewrite !filter_cons_True by done. repeat split; [by rewrite IH1|by constructor|..].
    + cbn [no_blank_runs]. by rewrite decide_False.
    + cbn [filter_lines]. rewrite E1, E2. by rewrite decide_False, IH4.
Qed.
