(* ===== verification/Chdb.v ===== *)
(** * The ClickHouse database (internal/chdb)

    A connection with a read-only mode: its guards, inserts by batches, and the splitting of a
    query of several statements. The driver (clickhouse-go) is a parameter. *)
From S2P Require Import Prelude Codes GoErrors Dsn Texts.
Local Open Scope N_scope.

(* go: internal/chdb/errors.go | ErrConnectionNotInitialized *)
Definition ErrConnectionNotInitialized : leaf := LNew 21 "connection not initialized".
(* go: internal/chdb/errors.go | ErrNotAvailableInRoMode *)
Definition ErrNotAvailableInRoMode : leaf := LNew 22 "not available in read-only mode".

(** ** Configuration *)

(* go: internal/chdb/config.go | type S3ConsumptionEventsConfig struct *)
Record S3ConsumptionEventsConfig := { ce_S3Endpoint : string; ce_S3RoleArn : string }.
(* go: internal/chdb/config.go | type S3DumpConfig struct *)
Record S3DumpConfig := {
  S3Endpoint : string; S3Bucket : string; S3RoleArn : string; S3AccessKeyID : string; S3SecretAccessKey : string
}.
(** Integers of type int are signed, the settings are unsigned. *)
(* go: internal/chdb/config.go | type Config struct *)
Record Config := {
  Enabled : bool; ChcAddr : string; ChcRoAddr : string; Database : string; Username : string; ChcPassword : string;
  MaxOpenConns : Z; MaxIdleConns : Z; CollectMetricsInterval : Z; UseTls : bool;
  S3Dump : S3DumpConfig; S3ConsumptionEvents : S3ConsumptionEventsConfig;
  MaxPeriodsPerQuery : Z; MaxExecutionTime : N; MaxQuerySize : N; MaxResultRows : N; MaxResultBytes : N
}.

(** The environment, read by [secret.String.FromEnv]. *)
Section config.
Context (FromEnv : string -> string).

(* go: internal/chdb/config.go | func DefaultS3ConsumptionEventsConfig *)
Definition DefaultS3ConsumptionEventsConfig : S3ConsumptionEventsConfig :=
  {| ce_S3Endpoint := "http://aws.yanakipre.local:4566"; ce_S3RoleArn := "" |}.
(* go: internal/chdb/config.go | func DefaultS3DumpConfig *)
Definition DefaultS3DumpConfig : S3DumpConfig := {|
  S3Endpoint := "http://aws.yanakipre.local:4566"; S3Bucket := "enriched-usage-events-aggregates"; S3RoleArn := "";
  S3AccessKeyID := FromEnv "CLICKHOUSE_S3_ORB_EVENTS_ACCESS_KEY_ID";
  S3SecretAccessKey := FromEnv "CLICKHOUSE_S3_ORB_EVENTS_SECRET_ACCESS_KEY" |}.
(* go: internal/chdb/config.go | func DefaultConfig *)
Definition DefaultConfig : Config := {|
  Enabled := false; ChcAddr := "10.30.42.61:9000"; ChcRoAddr := ""; Database := "yanakipre"; Username := "default";
  ChcPassword := FromEnv "CHC_CLICKHOUSE_YANAKIPRE_CONSOLE_PASSWORD";
  MaxOpenConns := 10; MaxIdleConns := 10; CollectMetricsInterval := Minute; UseTls := false;
  MaxQuerySize := 10 * 1024 * 1024; MaxExecutionTime := 60; MaxResultRows := 1000000;
  MaxResultBytes := 10 * 1024 * 1024; MaxPeriodsPerQuery := 10000;
  S3Dump := DefaultS3DumpConfig; S3ConsumptionEvents := DefaultS3ConsumptionEventsConfig |}.
End config.

(** [clickhouse.Options], as far as they are set. *)
Record Options := {
  Addr : list string; Auth_Database : string; Auth_Username : string; Auth_Password : string;
  Settings : list (string * N); Compression : string; DialTimeout : Z;
  o_MaxOpenConns : Z; o_MaxIdleConns : Z; ConnOpenStrategy : string; TLS : bool
}.
(* go: internal/chdb/chdb.go | func chOptions *)
Definition chOptions (cfg : Config) (addr password : string) : Options := {|
  Addr := [addr]; Auth_Database := Database cfg; Auth_Username := Username cfg; Auth_Password := password;
  Settings := [("max_execution_time", MaxExecutionTime cfg); ("max_query_size", MaxQuerySize cfg);
               ("max_result_rows", MaxResultRows cfg); ("max_result_bytes", MaxResultBytes cfg)];
  Compression := "CompressionLZ4"; DialTimeout := (10 * Second)%Z;
  o_MaxOpenConns := MaxOpenConns cfg; o_MaxIdleConns := MaxIdleConns cfg; ConnOpenStrategy := "ConnOpenInOrder";
  TLS := UseTls cfg |}.

(** ** Several statements in one query *)

(** The regular expression [--.*$] without the flag m: two dashes after which there is no
    newline, to the end of the text. *)
Fixpoint remove_comment (s : text) : text :=
  match s with
  | [] => []
  | r :: s' =>
      if bool_decide (runes "--" `prefix_of` s) && negb (contains_text s [newline_rune]) then []
      else r :: remove_comment s'
  end.
Definition clean (stmt : text) : text := remove_comment (trim is_space stmt).

(* go: internal/chdb/chdb.go | func splitQuery *)
Definition splitQuery (query : text) : list text := filter (fun stmt => stmt <> []) (map clean (split_text r_semicolon query)).

(** ** The database *)

Section db.
Context {W Conn Batch Dest : Type}.
(** The driver: opening, and the methods of a connection and of a batch. *)
Context (Open : Options -> W -> W * (Conn + error)) (Ping : Conn -> W -> W * option error).
Context (conn_Close : Conn -> W -> W * option error).
Context (conn_Select : Conn -> text -> W -> W * (option Dest * option error)).
Context (conn_Exec : Conn -> text -> W -> W * option error).
Context (PrepareBatch : Conn -> text -> W -> W * (Batch + error)).
Context (Append : Batch -> list string -> W -> W * option error) (Send : Batch -> W -> W * option error).

(* go: internal/chdb/chdb.go | type DB struct *)
Record DB := { cfg : Config; conn : option Conn; readOnly : bool }.

(* go: internal/chdb/chdb.go | func NewDB *)
Definition NewDB (cfg : Config) (readOnly : bool) : DB := {| cfg := cfg; conn := None; readOnly := readOnly |}.

Definition read_address (db : DB) : string :=
  if readOnly db && negb (bool_decide (ChcRoAddr (cfg db) = "")) then ChcRoAddr (cfg db) else ChcAddr (cfg db).

(* go: internal/chdb/chdb.go | func (db *DB) Ready *)
Definition Ready (db : DB) (w : W) : W * (DB * option error) :=
  if negb (Enabled (cfg db)) then (w, (db, None))
  else match Open (chOptions (cfg db) (read_address db) (ChcPassword (cfg db))) w with
  | (w, inr err) => (w, (db, Some (Wrap (WText "could not connect to clickhouse") err)))
  | (w, inl c) =>
      match Ping c w with
      | (w, Some err) => (w, (db, Some (Wrap (WText "could not ping clickhouse") err)))
      | (w, None) => (w, ({| cfg := cfg db; conn := Some c; readOnly := readOnly db |}, None))
      end
  end.

(** What the goroutine of [Ready] meets: ticks, and the end of the context; it waits for one. *)
Inductive metrics_event := Tick | Done.
(* go: internal/chdb/chdb.go | // Send database metrics | L88-L100 *)
Definition metrics_sent (db : DB) (events : list metrics_event) : nat :=
  match events with
  | Tick :: _ => if conn db then 1 else 0
  | _ => 0
  end%nat.

(* go: internal/chdb/chdb.go | func (db *DB) getConnName *)
Definition getConnName (db : DB) : string := if readOnly db then "chc_ro" else "chc".

(* go: internal/chdb/chdb.go | func (db *DB) IsReady *)
Definition IsReady (db : DB) : bool := if negb (Enabled (cfg db)) then false else bool_decide (is_Some (conn db)).

(* go: internal/chdb/chdb.go | func (db *DB) Close *)
Definition Close (db : DB) (w : W) : W * option error :=
  if negb (Enabled (cfg db)) then (w, None)
  else match conn db with Some c => conn_Close c w | None => (w, None) end.

(* go: internal/chdb/chdb.go | func (db *DB) SelectContext *)
Definition SelectContext (db : DB) (query : text) (w : W) : W * (option Dest * option error) :=
  match conn db with
  | None => (w, (None, Some (Leaf ErrConnectionNotInitialized)))
  | Some c => conn_Select c query w
  end.

(* go: internal/chdb/chdb.go | func (db *DB) PrepareBatchContext *)
Definition PrepareBatchContext (db : DB) (query : text) (w : W) : W * (Batch + error) :=
  match conn db with
  | None => (w, inr (Leaf ErrConnectionNotInitialized))
  | Some c => if readOnly db then (w, inr (Leaf ErrNotAvailableInRoMode)) else PrepareBatch c query w
  end.

(* go: internal/chdb/chdb.go | func (db *DB) InsertContext *)
Definition InsertContext (db : DB) (query : text) (args : list string) (w : W) : W * option error :=
  match conn db with
  | None => (w, Some (Leaf ErrConnectionNotInitialized))
  | Some _ =>
      if readOnly db then (w, Some (Leaf ErrNotAvailableInRoMode))
      else match PrepareBatchContext db query w with
      | (w, inr err) => (w, Some err)
      | (w, inl batch) => match Append batch args w with (w, Some err) => (w, Some err) | (w, None) => Send batch w end
      end
  end.

(* go: internal/chdb/chdb.go | func (db *DB) ExecContext *)
Definition ExecContext (db : DB) (query : text) (w : W) : W * option error :=
  match conn db with
  | None => (w, Some (Leaf ErrConnectionNotInitialized))
  | Some c => if readOnly db then (w, Some (Leaf ErrNotAvailableInRoMode)) else conn_Exec c query w
  end.

(** The loop over the statements. *)
Fixpoint exec_all (db : DB) (stmts : list text) (w : W) : W * option error :=
  match stmts with
  | [] => (w, None)
  | stmt :: stmts' => match ExecContext db stmt w with (w, None) => exec_all db stmts' w | r => r end
  end.
(* go: internal/chdb/chdb.go | // ExecMultiContext executes *)
Definition ExecMultiContext (db : DB) (query : text) (w : W) : W * option error :=
  match conn db with
  | None => (w, Some (Leaf ErrConnectionNotInitialized))
  | Some _ => if readOnly db then (w, Some (Leaf ErrNotAvailableInRoMode)) else exec_all db (splitQuery query) w
  end.
End db.
Arguments DB Conn : clear implicits.

(** ** Theorems *)

Section runs.
Context {W Conn Batch Dest : Type}.
Context (Open : Options -> W -> W * (Conn + error)) (Ping : Conn -> W -> W * option error).
Context (conn_Close : Conn -> W -> W * option error).
Context (conn_Select : Conn -> text -> W -> W * (option Dest * option error)).

(** What a service does with a database. *)
Inductive op :=
| OReady | OSelect (query : text) | OPrepare (query : text) | OInsert (query : text) (args : list string)
| OExec (query : text) | OExecMulti (query : text) | OClose.

(** The methods of the driver that write. *)
Record writer := {
  wr_Exec : Conn -> text -> W -> W * option error;
  wr_PrepareBatch : Conn -> text -> W -> W * (Batch + error);
  wr_Append : Batch -> list string -> W -> W * option error;
  wr_Send : Batch -> W -> W * option error
}.

Inductive answer := AErr (e : option error) | ASelect (r : option Dest * option error) | ABatch (b : Batch + error).

Definition run_op (d : writer) (o : op) (db : DB Conn) (w : W) : W * (DB Conn * answer) :=
  match o with
  | OReady => let '(w, (db, e)) := Ready Open Ping db w in (w, (db, AErr e))
  | OSelect q => let '(w, r) := SelectContext conn_Select db q w in (w, (db, ASelect r))
  | OPrepare q => let '(w, r) := PrepareBatchContext (wr_PrepareBatch d) db q w in (w, (db, ABatch r))
  | OInsert q args =>
      let '(w, e) := InsertContext (wr_PrepareBatch d) (wr_Append d) (wr_Send d) db q args w in (w, (db, AErr e))
  | OExec q => let '(w, e) := ExecContext (wr_Exec d) db q w in (w, (db, AErr e))
  | OExecMulti q => let '(w, e) := ExecMultiContext (wr_Exec d) db q w in (w, (db, AErr e))
  | OClose => let '(w, e) := Close conn_Close db w in (w, (db, AErr e))
  end.

Fixpoint run_ops (d : writer) (os : list op) (db : DB Conn) (w : W) : W * (DB Conn * list answer) :=
  match os with
  | [] => (w, (db, []))
  | o :: os' =>
      let '(w, (db, a)) := run_op d o db w in
      let '(w, (db, r)) := run_ops d os' db w in (w, (db, a :: r))
  end.

Lemma run_op_readOnly d o db w w' db' a : run_op d o db w = (w', (db', a)) -> readOnly db' = readOnly db.
Proof.
  destruct o; cbn [run_op]; unfold Ready; intros H; repeat case_match; by simplify_eq/=.
Qed.

Lemma run_op_read_only d d' o db w : readOnly db = true -> run_op d o db w = run_op d' o db w.
Proof.
  intros Hro. destruct o; cbn [run_op]; try done;
    unfold PrepareBatchContext, InsertContext, ExecContext, ExecMultiContext; rewrite Hro; by destruct (conn db).
Qed.

(** C32. A read-only database never reaches the driver to write: whatever is done with it, the
    world and all the answers are the same for any two behaviours of the driver's methods that
    prepare, fill and send batches and execute statements. *)
Theorem read_only_never_writes (d d' : writer) (os : list op) (db : DB Conn) (w : W) :
  readOnly db = true -> run_ops d os db w = run_ops d' os db w.
Proof.
  revert db w. induction os as [|o os IH]; intros db w Hro; [done|]. cbn [run_ops].
  rewrite (run_op_read_only d d') by done. destruct (run_op d' o db w) as [w' [db' a]] eqn:E.
  rewrite IH; [done|]. by rewrite (run_op_readOnly _ _ _ _ _ _ _ E).
Qed.
End runs.
Arguments writer : clear implicits.

Section multi.
Context {W Conn : Type} (conn_Exec : Conn -> text -> W -> W * option error).

(** Statements executed with success one after the other. *)
Fixpoint executed (c : Conn) (stmts : list text) (w : W) : option W :=
  match stmts with
  | [] => Some w
  | stmt :: stmts' => match conn_Exec c stmt w with (w, None) => executed c stmts' w | _ => None end
  end.

Lemma exec_all_spec (db : DB Conn) c stmts w w' r : conn db = Some c -> readOnly db = false ->
  exec_all conn_Exec db stmts w = (w', r) ->
  match r with
  | None => executed c stmts w = Some w'
  | Some e => exists before stmt after w1, stmts = before ++ stmt :: after /\
      executed c before w = Some w1 /\ conn_Exec c stmt w1 = (w', Some e)
  end.
Proof.
  intros Hc Hro. revert w. induction stmts as [|stmt stmts IH]; intros w H; cbn in H; [by simplify_eq|].
  unfold ExecContext in H. rewrite Hc, Hro in H. cbn [executed].
  destruct (conn_Exec c stmt w) as [w1 [e|]] eqn:E.
  - simplify_eq. exists [], stmt, stmts, w. by rewrite E.
  - specialize (IH w1 H). destruct r as [e|]; [|done].
    destruct IH as (before & s & after & w2 & -> & H1 & H2).
    exists (stmt :: before), s, after, w2. cbn [executed]. by rewrite E.
Qed.

(** Executing several statements executes those of the query in their order and stops at the
    first that fails, with its error; success means all of them were executed. *)
Theorem ExecMultiContext_spec (db : DB Conn) c query w w' r : conn db = Some c -> readOnly db = false ->
  ExecMultiContext conn_Exec db query w = (w', r) ->
  match r with
  | None => executed c (splitQuery query) w = Some w'
  | Some e => exists before stmt after w1, splitQuery query = before ++ stmt :: after /\
      executed c before w = Some w1 /\ conn_Exec c stmt w1 = (w', Some e)
  end.
Proof. intros Hc Hro. unfold ExecMultiContext. rewrite Hc, Hro. by apply exec_all_spec. Qed.
End multi.

(** ** Splitting *)

(** A statement as it is written: it has no semicolon and no dashes, it does not begin or end
    with white space. *)
Definition plain_statement (s : text) : Prop :=
  s <> [] /\ Forall (fun r => r <> r_semicolon) s /\ contains_text s (runes "--") = false /\
  (forall r, head s = Some r -> is_space r = false) /\ (forall r, last s = Some r -> is_space r = false).

Lemma remove_comment_id s : contains_text s (runes "--") = false -> remove_comment s = s.
Proof.
  induction s as [|r s IH]; [done|]. cbn [contains_text remove_comment]. intros H%orb_false_iff.
  destruct H as [H1 H2]. rewrite H1. cbn. by rewrite IH.
Qed.

(** Statements separated by semicolons, with white space around them, are executed as they
    were written, each once and in order. *)
Theorem splitQuery_statements (l : list (text * text * text)) : l <> [] ->
  Forall (fun '(p, s, q) => Forall (fun r => is_space r = true) p /\ plain_statement s /\ Forall (fun r => is_space r = true) q) l ->
  splitQuery (join_texts [r_semicolon] (map (fun '(p, s, q) => p ++ s ++ q) l)) = map (fun '(_, s, _) => s) l.
Proof.
  intros Hne H. unfold splitQuery. rewrite split_join.
  - clear Hne. induction H as [|[[p s] q] l (Hp & (Hs & _ & Hd & Hh & Hl) & Hq) _ IH]; [done|]. cbn [map].
    match goal with |- context [clean ?t :: _] => assert (clean t = s) as -> end.
    { unfold clean. by rewrite trim_padded, remove_comment_id. }
    rewrite filter_cons_True by done. f_equal. apply IH.
  - by destruct l.
  - apply Forall_map. eapply Forall_impl; [exact H|]. intros [[p s] q] (Hp & (_ & Hs & _) & Hq). cbn.
    assert (Hsp : forall t, Forall (fun r => is_space r = true) t -> Forall (fun r => r <> r_semicolon) t).
    { intros t Ht. eapply Forall_impl; [exact Ht|]. intros r Hr ->. discriminate Hr. }
    rewrite !Forall_app. auto.
Qed.

Definition demo_statements : list (text * text * text) :=
  [([], runes "CREATE TABLE a", []); (newline_rune :: runes " ", runes "DROP TABLE b", [newline_rune])].
Lemma splitQuery_statements_witness :
  splitQuery (runes "CREATE TABLE a;" ++ newline_rune :: runes " DROP TABLE b" ++ [newline_rune])
  = [runes "CREATE TABLE a"; runes "DROP TABLE b"].
Proof.
  refine (splitQuery_statements demo_statements ltac:(discriminate) _).
  repeat constructor; try discriminate; intros r [= <-]; reflexivity.
Defined.

(** A comment hides neither its semicolons nor, but on the last line of its statement, itself. *)
Theorem comments_are_split :
  splitQuery (runes "SELECT 1 -- not; DROP TABLE a") = [runes "SELECT 1 "; runes "DROP TABLE a"] /\
  splitQuery (runes "-- one" ++ newline_rune :: runes "SELECT 1") = [runes "-- one" ++ newline_rune :: runes "SELECT 1"] /\
  splitQuery (runes "SELECT '--' AS a") = [runes "SELECT '"].
Proof. vm_compute. done. Qed.

(** The goroutine waits once, so that it sends at most once. *)
Theorem metrics_sent_once {Conn} (db : DB Conn) events : (metrics_sent db events <= 1)%nat.
Proof. unfold metrics_sent. by destruct events as [|[|] events]; [lia|destruct (conn db); lia|lia]. Qed.

(** A connection that does not answer is left open. *)
Theorem Ready_leaks {W Conn} Open Ping (db : DB Conn) (w w1 w2 : W) c e : Enabled (cfg db) = true ->
  Open (chOptions (cfg db) (read_address db) (ChcPassword (cfg db))) w = (w1, inl c) -> Ping c w1 = (w2, Some e) ->
  Ready Open Ping db w = (w2, (db, Some (Wrap (WText "could not ping clickhouse") e))).
Proof. intros He Ho Hp. unfold Ready. by rewrite He, Ho, Hp. Qed.

(** ** A demonstration *)

(** The world is the list of statements executed; a statement on a table called b fails. *)
Definition demo_exec (_ : unit) (q : text) (w : list text) : list text * option error :=
  (w ++ [q], if contains_text q (runes "TABLE b") then Some (Leaf (LText "no such table")) else None).
Definition demo_cfg : Config := DefaultConfig (fun _ => "").
Definition demo_db (ro : bool) : DB unit := {| cfg := demo_cfg; conn := Some tt; readOnly := ro |}.
Definition demo_query : text := runes "DROP TABLE a; DROP TABLE b; DROP TABLE c".

Lemma ExecMultiContext_spec_witness : exists before stmt after w1,
  splitQuery demo_query = before ++ stmt :: after /\
  executed demo_exec tt before [] = Some w1 /\
  demo_exec tt stmt w1 = ([runes "DROP TABLE a"; runes "DROP TABLE b"], Some (Leaf (LText "no such table"))).
Proof. exact (ExecMultiContext_spec demo_exec (demo_db false) tt demo_query [] _ (Some _) eq_refl eq_refl eq_refl). Defined.

Definition demo_writer (ok : bool) : writer (list text) unit unit :=
  if ok then {| wr_Exec := demo_exec; wr_PrepareBatch := fun _ q w => (w ++ [q], inl tt);
                wr_Append := fun _ _ w => (w, None); wr_Send := fun _ w => (w, None) |}
  else {| wr_Exec := fun _ _ w => (w, None); wr_PrepareBatch := fun _ _ w => (w, inr (Leaf (LText "no")));
          wr_Append := fun _ _ w => (w, None); wr_Send := fun _ w => (w, None) |}.
Definition demo_select (_ : unit) (q : text) (w : list text) : list text * (option unit * option error) := (w, (Some tt, None)).
Definition demo_ops : list op :=
  [OReady; OExecMulti demo_query; OInsert (runes "INSERT INTO a") ["1"]; OSelect (runes "SELECT 1"); OExec (runes "DROP TABLE a"); OClose].

Lemma read_only_never_writes_witness :
  let run d := run_ops (fun _ w => (w, inl tt)) (fun _ w => (w, None)) (fun _ w => (w, None)) demo_select d demo_ops (demo_db true) [] in
  run (demo_writer true) = run (demo_writer false).
Proof.
  exact (read_only_never_writes (fun _ w => (w, inl tt)) (fun _ w => (w, None)) (fun _ w => (w, None)) demo_select
    (demo_writer true) (demo_writer false) demo_ops (demo_db true) [] eq_refl).
Defined.

(** The same run on a database that may be written does write. *)
Example writable_writes :
  (run_ops (fun _ w => (w, inl tt)) (fun _ w => (w, None)) (fun _ w => (w, None)) demo_select
     (demo_writer true) demo_ops (demo_db false) []).1
  = [runes "DROP TABLE a"; runes "DROP TABLE b"; runes "INSERT INTO a"; runes "DROP TABLE a"].
Proof. vm_compute. reflexivity. Qed.
