(* ===== verification/Earthquakes.v ===== *)
(** * The earthquakes of the Cyprus data portal
      (app/telegramsearch/internal/pkg/client/earthquakes)

    [LatestNEarthquakes] reads a feed whose items describe an earthquake by a table of HTML. The
    HTTP client, the XML decoder, the HTML parser, the parsing of times and of floating point
    numbers, and the tables of Unicode are parameters. *)
From S2P Require Import Prelude Codes GoErrors Dsn Texts.

(** The first result of [f] on a list. *)
Section first_some.
Context {A B : Type} (f : A -> option B).
Fixpoint first_some (l : list A) : option B :=
  match l with [] => None | x :: l' => match f x with Some y => Some y | None => first_some l' end end.
End first_some.

(** A loop that stops at the first error. *)
Section try_fold.
Context {A S E : Type} (f : A -> S -> result E S).
Fixpoint try_fold (l : list A) (s : S) : result E S :=
  match l with [] => Ok s | x :: l' => match f x s with Ok s' => try_fold l' s' | Err e => Err e end end.
End try_fold.

Lemma try_fold_app {A S E} (f : A -> S -> result E S) l l' s :
  try_fold f (l ++ l') s = match try_fold f l s with Ok s' => try_fold f l' s' | Err e => Err e end.
Proof. revert s. induction l as [|x l IH]; intros s; cbn; [done|]. destruct (f x s); [apply IH|done]. Qed.

Lemma first_some_app {A B} (f : A -> option B) l l' :
  first_some f (l ++ l') = match first_some f l with Some y => Some y | None => first_some f l' end.
Proof. induction l as [|x l IH]; cbn; [done|]. by destruct (f x). Qed.

(** ** Trees of HTML (golang.org/x/net/html) *)

Inductive node_type := ElementNode | TextNode | OtherNode.
#[export] Instance node_type_eq_dec : EqDecision node_type.
Proof. solve_decision. Defined.

(** A node with its atom (the name of a known tag), its data and its children. *)
Inductive node := Node (Type_ : node_type) (DataAtom : string) (Data : text) (children : list node).

Definition is_element (elem : string) (n : node) : bool :=
  let 'Node t a _ _ := n in bool_decide (t = ElementNode) && bool_decide (a = elem).
Definition data (n : node) : text := let 'Node _ _ d _ := n in d.
Definition FirstChild (n : node) : option node := let 'Node _ _ _ cs := n in head cs.

(** Induction over trees. *)
Section node_ind.
Context (P : node -> Prop) (HP : forall t a d cs, Forall P cs -> P (Node t a d cs)).
Fixpoint node_induction (n : node) : P n :=
  let 'Node t a d cs := n in
  HP t a d cs ((fix go (l : list node) : Forall P l :=
    match l with [] => Forall_nil_2 P | c :: l' => Forall_cons_2 P c l' (node_induction c) (go l') end) cs).
End node_ind.

(** The nodes of a tree, every node before its children. *)
Fixpoint preorder (n : node) : list node := let 'Node _ _ _ cs := n in n :: flat_map preorder cs.

(* go: app/telegramsearch/internal/pkg/client/earthquakes/datagovcy/client.go | // Finds first occurence of a node | L142-L158 *)
Fixpoint findNode (elem : string) (n : node) : option node :=
  if is_element elem n then Some n else let 'Node _ _ _ cs := n in first_some (findNode elem) cs.

(** ** Earthquakes *)

Section client.
(** Floating point numbers of 32 and 64 bits, the order of the former, and 0; [Time] is the zero
    time where the feed has none. *)
Context {F32 F64 : Type} (fless : F32 -> F32 -> bool) (zero32 : F32) (zero64 : F64).

(* go: app/telegramsearch/internal/pkg/client/earthquakes/earthquakes.go | type Coordinate struct *)
Record Coordinate := { Latitude : F64; Longitude : F64 }.
(* go: app/telegramsearch/internal/pkg/client/earthquakes/earthquakes.go | type Earthquake struct *)
Record Earthquake := { Magnitude : F32; When : Z; Location : text; Position : Coordinate }.

Definition no_earthquake : Earthquake :=
  {| Magnitude := zero32; When := zero_time; Location := []; Position := {| Latitude := zero64; Longitude := zero64 |} |}.
Definition set_When t (eq : Earthquake) := {| Magnitude := Magnitude eq; When := t; Location := Location eq; Position := Position eq |}.
Definition set_Location l (eq : Earthquake) := {| Magnitude := Magnitude eq; When := When eq; Location := l; Position := Position eq |}.
Definition set_Position p (eq : Earthquake) := {| Magnitude := Magnitude eq; When := When eq; Location := Location eq; Position := p |}.
Definition set_Magnitude m (eq : Earthquake) := {| Magnitude := m; When := When eq; Location := Location eq; Position := Position eq |}.

(** [time.Parse] with the layouts of the client and of RFC 1123, [fmt.Sscanf] with its count and
    its error, [html.ParseFragment] in a table. *)
Context (parse_time : text -> option Z) (parse_rfc1123 : text -> result error Z).
Context (scan_position : text -> nat * (F64 * F64) * option error) (scan_magnitude : text -> nat * F32 * option error).
Context (ParseFragment : text -> result error (list node)).
Context (IsLetter : rune -> bool) (ToLower : text -> text).

Definition not_letter (r : rune) : bool := negb (IsLetter r).

(** What a row whose header reads [key] says. A time that cannot be parsed is the zero time. *)
(* go: app/telegramsearch/internal/pkg/client/earthquakes/datagovcy/client.go | switch thData { | L182-L208 *)
Definition row_value (key tdData : text) (eq : Earthquake) : result error Earthquake :=
  if decide (key = runes "time") then Ok (set_When (default zero_time (parse_time tdData)) eq)
  else if decide (key = runes "position") then
    match scan_position tdData with
    | (_, _, Some err) => Err (Wrap (WText "scanning coordinate data") err)
    | (n, (lat, lon), None) =>
        if decide (n = 2) then Ok (set_Position {| Latitude := lat; Longitude := lon |} eq)
        else Err (Leaf (LText "invalid format of scanned coordinate data"))
    end
  else if decide (key = runes "place") then Ok eq
  else if decide (key = runes "major place") then Ok (set_Location tdData eq)
  else if decide (key = runes "depth") then Ok eq
  else if decide (key = runes "magnitude") then
    match scan_magnitude tdData with
    | (_, _, Some err) => Err (Wrap (WText "scanning magnitude data") err)
    | (n, m, None) =>
        if decide (n = 1) then Ok (set_Magnitude m eq) else Err (Leaf (LText "invalid format of scanned magnitude data"))
    end
  else Ok eq.

(** What a node says: nothing, but for a row with a header and a cell that are not empty. *)
(* go: app/telegramsearch/internal/pkg/client/earthquakes/datagovcy/client.go | if n.Type == html.ElementNode && n.DataAtom == atom.Tr { | L169-L210 *)
Definition row (n : node) (eq : Earthquake) : result error Earthquake :=
  if is_element "tr" n then
    match findNode "th" n ≫= FirstChild, findNode "td" n ≫= FirstChild with
    | Some th, Some td => row_value (trim not_letter (ToLower (data th))) (data td) eq
    | _, _ => Ok eq
    end
  else Ok eq.

(** The walk [f], with the earthquake it fills. *)
(* go: app/telegramsearch/internal/pkg/client/earthquakes/datagovcy/client.go | // Parses values from HTML | L162-L220 *)
Fixpoint walk (n : node) (eq : Earthquake) : result error Earthquake :=
  match row n eq with
  | Ok eq' => let 'Node _ _ _ cs := n in try_fold walk cs eq'
  | Err err => Err err
  end.

(* go: app/telegramsearch/internal/pkg/client/earthquakes/datagovcy/client.go | func parseDesc *)
Definition parseDesc (d : text) : result error Earthquake :=
  match ParseFragment (filter (fun r => r <> newline_rune) d) with
  | Err err => Err (Wrap (WText "parsing html doc") err)
  | Ok tree => try_fold walk tree no_earthquake
  end.

(** ** The feed *)

(** An empty time leaves the zero value. *)
(* go: app/telegramsearch/internal/pkg/client/earthquakes/datagovcy/client.go | func (t *rfc1123Time) UnmarshalXML *)
Definition UnmarshalXML (DecodeElement : result error text) : result error Z :=
  match DecodeElement with
  | Err err => Err (Wrap (WText "decoding xml time string") err)
  | Ok s =>
      if decide (s = []) then Ok zero_time
      else match parse_rfc1123 s with Err err => Err (Wrap (WText "parsing xml time") err) | Ok t => Ok t end
  end.

(* go: app/telegramsearch/internal/pkg/client/earthquakes/datagovcy/client.go | type rssItem struct *)
Record rssItem := { Title : option text; Link : option text; Description : text; PubDate : option Z; Guid : option text }.

Definition ErrNegativeEarthquakes : leaf := LNew 23 "n cannot be negative".

(** The loop over the items; [n - length eqs] are still wanted. *)
(* go: app/telegramsearch/internal/pkg/client/earthquakes/datagovcy/client.go | for i := 0; len(eqs) < n | L115-L126 *)
Fixpoint collect (n : nat) (minMagnitude : F32) (items : list rssItem) (eqs : list Earthquake)
    : result error (list Earthquake) :=
  if decide (length eqs < n) then
    match items with
    | [] => Ok eqs
    | v :: items' =>
        match parseDesc (Description v) with
        | Err err => Err (Wrap (WText "unmarshal datagovcy description") err)
        | Ok eq => if fless (Magnitude eq) minMagnitude then collect n minMagnitude items' eqs
                   else collect n minMagnitude items' (eqs ++ [eq])
        end
    end
  else Ok eqs.

(** The request, the response with its status and body, the closing of the body, and the decoder
    of the feed. [max_cap] is the largest slice of earthquakes that can be made. *)
Context {W Req : Type} (NewRequest : string -> result error Req) (Do : Req -> W -> W * result error (Z * text)).
Context (Body_Close : W -> W) (Decode : text -> result error (list rssItem)) (max_cap : Z).

(* go: app/telegramsearch/internal/pkg/client/earthquakes/datagovcy/client.go | func (c *client) LatestNEarthquakes *)
Definition LatestNEarthquakes (ApiURL : string) (n : Z) (minMagnitude : F32) (w : W)
    : W * outcome (result error (list Earthquake)) :=
  if decide (n < 0)%Z then (w, Returns (Err (Leaf ErrNegativeEarthquakes)))
  else match NewRequest ApiURL with
  | Err err => (w, Returns (Err err))
  | Ok req =>
  match Do req w with
  | (w, Err err) => (w, Returns (Err err))
  | (w, Ok (StatusCode, body)) =>
      let w := Body_Close w in
      if decide (StatusCode = 200)%Z then
        match Decode body with
        | Err err => (w, Returns (Err (Wrap (WText "decoding xml response body") err)))
        | Ok items =>
            if decide (max_cap < n)%Z then (w, Panics "runtime error: makeslice: cap out of range")
            else (w, Returns (collect (Z.to_nat n) minMagnitude items []))
        end
      else (w, Returns (Err (Leaf (LText ("get earthquakes, unexpected status code: " +:+ pretty StatusCode)))))
  end end.
End client.
Arguments Earthquake : clear implicits.
Arguments Coordinate : clear implicits.

(** ** Walks *)

Lemma first_some_children elem cs :
  Forall (fun c => findNode elem c = head (filter (fun m => is_element elem m = true) (preorder c))) cs ->
  first_some (findNode elem) cs = head (filter (fun m => is_element elem m = true) (flat_map preorder cs)).
Proof.
  induction 1 as [|c cs Hc _ IH]; [done|]. cbn [first_some flat_map]. rewrite filter_app, Hc, IH.
  by destruct (filter _ (preorder c)).
Qed.

(** Looking for an element finds the first one in the order of the document, the node itself
    included. *)
Theorem findNode_first (elem : string) (n : node) :
  findNode elem n = head (filter (fun m => is_element elem m = true) (preorder n)).
Proof.
  induction n as [t a d cs IH] using node_induction. cbn [findNode preorder].
  destruct (is_element elem (Node t a d cs)) eqn:E.
  - by rewrite filter_cons_True.
  - rewrite filter_cons_False by (by rewrite E). by apply first_some_children.
Qed.

Section theorems.
Context {F32 F64 : Type} (fless : F32 -> F32 -> bool) (zero32 : F32) (zero64 : F64).
Context (parse_time : text -> option Z).
Context (scan_position : text -> nat * (F64 * F64) * option error) (scan_magnitude : text -> nat * F32 * option error).
Context (ParseFragment : text -> result error (list node)).
Context (IsLetter : rune -> bool) (ToLower : text -> text).

#[local] Notation walk := (walk parse_time scan_position scan_magnitude IsLetter ToLower).
#[local] Notation row := (row parse_time scan_position scan_magnitude IsLetter ToLower).
#[local] Notation row_value := (row_value parse_time scan_position scan_magnitude).
#[local] Notation parse := (parseDesc zero32 zero64 parse_time scan_position scan_magnitude ParseFragment IsLetter ToLower).

Lemma walk_children cs : Forall (fun c => forall eq, walk c eq = try_fold row (preorder c) eq) cs ->
  forall eq, try_fold walk cs eq = try_fold row (flat_map preorder cs) eq.
Proof.
  induction 1 as [|c cs Hc _ IH]; intros eq; [done|]. cbn [try_fold flat_map]. rewrite try_fold_app, Hc.
  by destruct (try_fold row (preorder c) eq).
Qed.

Lemma walk_preorder n : forall eq, walk n eq = try_fold row (preorder n) eq.
Proof.
  induction n as [t a d cs IH] using node_induction. intros eq. cbn [Earthquakes.walk preorder try_fold].
  destruct (row (Node t a d cs) eq); [|done]. by apply walk_children.
Qed.

(** The header and the cell of a row. *)
Definition entry (n : node) : option (text * text) :=
  if is_element "tr" n then
    match findNode "th" n ≫= FirstChild, findNode "td" n ≫= FirstChild with
    | Some th, Some td => Some (trim (not_letter IsLetter) (ToLower (data th)), data td)
    | _, _ => None
    end
  else None.

Lemma row_entry n eq : row n eq = match entry n with Some (k, v) => row_value k v eq | None => Ok eq end.
Proof. unfold Earthquakes.row, entry. by repeat case_match; simplify_eq. Qed.

Lemma row_value_Location k v (eq eq' : Earthquake F32 F64) : row_value k v eq = Ok eq' ->
  Location eq' = if decide (k = runes "major place") then v else Location eq.
Proof.
  unfold Earthquakes.row_value.
  destruct (decide (k = runes "time")) as [->|]; [intros [= <-]; by rewrite decide_False by discriminate|].
  destruct (decide (k = runes "position")) as [->|].
  { rewrite (decide_False (P := _ = runes "major place")) by discriminate.
    destruct (scan_position v) as [[c [lat lon]] [e|]]; [discriminate|]. destruct (decide (c = 2)); [by intros [= <-]|discriminate]. }
  destruct (decide (k = runes "place")) as [->|]; [intros [= <-]; by rewrite decide_False by discriminate|].
  destruct (decide (k = runes "major place")) as [->|Hm]; [by intros [= <-]|].
  destruct (decide (k = runes "depth")) as [_|_]; [by intros [= <-]|].
  destruct (decide (k = runes "magnitude")) as [_|_]; [|by intros [= <-]].
  destruct (scan_magnitude v) as [[c x] [e|]]; [discriminate|]. destruct (decide (c = 1)); [by intros [= <-]|discriminate].
Qed.

Definition place (n : node) : option text :=
  match entry n with Some (k, v) => if decide (k = runes "major place") then Some v else None | None => None end.

Lemma try_fold_Location ns (eq eq' : Earthquake F32 F64) : try_fold row ns eq = Ok eq' ->
  Location eq' = default (Location eq) (last (omap place ns)).
Proof.
  revert eq. induction ns as [|n ns IH]; intros eq H; cbn [try_fold] in H; [by simplify_eq|].
  destruct (row n eq) as [eq1|] eqn:E; [|done]. rewrite (IH _ H). rewrite row_entry in E.
  change (omap place (n :: ns)) with (match place n with Some y => y :: omap place ns | None => omap place ns end).
  assert (Location eq1 = default (Location eq) (place n)) as E1.
  { unfold place. destruct (entry n) as [[k v]|]; [|by simplify_eq]. rewrite (row_value_Location _ _ _ _ E).
    by destruct (decide _). }
  rewrite E1. destruct (place n) as [v|]; [|done]. rewrite last_cons. by destruct (last _).
Qed.

(** A description is read row by row in the order of the document, whatever its nesting, and
    the first row that cannot be read ends it; what is read as the place is the cell of the
    last row with that header. *)
Theorem parseDesc_rows (d : text) :
  match ParseFragment (filter (fun r => r <> newline_rune) d) with
  | Err err => parse d = Err (Wrap (WText "parsing html doc") err)
  | Ok tree =>
      parse d = try_fold row (flat_map preorder tree) (no_earthquake zero32 zero64) /\
      (forall eq, parse d = Ok eq -> Location eq = default [] (last (omap place (flat_map preorder tree))))
  end.
Proof.
  unfold parseDesc. destruct (ParseFragment _) as [tree|err]; [|done].
  assert (try_fold walk tree (no_earthquake zero32 zero64) = try_fold row (flat_map preorder tree) (no_earthquake zero32 zero64)) as ->.
  { apply walk_children, Forall_forall. intros n _. apply walk_preorder. }
  split; [done|]. intros eq H. by apply try_fold_Location in H.
Qed.

(** ** The feed *)

Context {W Req : Type} (NewRequest : string -> result error Req) (Do : Req -> W -> W * result error (Z * text)).
Context (Body_Close : W -> W) (Decode : text -> result error (list rssItem)) (max_cap : Z).
#[local] Notation collect := (collect fless zero32 zero64 parse_time scan_position scan_magnitude ParseFragment IsLetter ToLower).

(** The reference: parse items up to the first error. *)
Fixpoint parsed (items : list rssItem) : list (Earthquake F32 F64) * option error :=
  match items with
  | [] => ([], None)
  | v :: items' =>
      match parse (Description v) with
      | Ok eq => let '(l, e) := parsed items' in (eq :: l, e)
      | Err err => ([], Some (Wrap (WText "unmarshal datagovcy description") err))
      end
  end.
Definition strong (minMagnitude : F32) (eq : Earthquake F32 F64) : Prop := fless (Magnitude eq) minMagnitude = false.
#[local] Instance strong_dec m eq : Decision (strong m eq).
Proof. unfold strong. apply _. Defined.

Lemma collect_spec n m items eqs : length eqs <= n ->
  collect n m items eqs =
    let l := eqs ++ filter (strong m) (parsed items).1 in
    match (parsed items).2 with
    | None => Ok (take n l)
    | Some err => if decide (n <= length l) then Ok (take n l) else Err err
    end.
Proof.
  revert eqs. induction items as [|v items IH]; intros eqs Hle.
  - cbn. rewrite app_nil_r. destruct (decide _); by rewrite take_ge.
  - cbn [Earthquakes.collect parsed]. destruct (decide (length eqs < n)) as [Hlt|Hge].
    + destruct (parse (Description v)) as [eq|err].
      * rewrite !IH by (rewrite ?length_app; cbn; lia). destruct (parsed items) as [l e]. cbn [fst snd]. destruct (fless (Magnitude eq) m) eqn:Ef.
        -- rewrite filter_cons_False by (unfold strong; by rewrite Ef). done.
        -- rewrite filter_cons_True by done. by rewrite <- app_assoc.
      * cbn. rewrite app_nil_r. by rewrite decide_False by lia.
    + assert (length eqs = n) as <- by lia.
      match goal with |- _ = match (?p).2 with _ => _ end => destruct p as [l e] end. cbn.
      rewrite take_app_length. destruct e; [|done]. rewrite decide_True; [done|]. rewrite length_app. lia.
Qed.

(** The latest earthquakes are the first ones of the feed that are strong enough, at most as
    many as asked for and in its order; an item that cannot be read is an error only if it comes
    before enough of them. The body of every response is closed, and no request is made for a
    negative number. *)
Theorem LatestNEarthquakes_spec (url : string) (n : Z) (m : F32) (w w1 : W) (req : Req) (body : text) (items : list rssItem) :
  NewRequest url = Ok req -> Do req w = (w1, Ok (200%Z, body)) -> Decode body = Ok items -> (0 <= n <= max_cap)%Z ->
  LatestNEarthquakes fless zero32 zero64 parse_time scan_position scan_magnitude ParseFragment IsLetter ToLower
    NewRequest Do Body_Close Decode max_cap url n m w
  = (Body_Close w1, Returns
      (let l := filter (strong m) (parsed items).1 in
       match (parsed items).2 with
       | None => Ok (take (Z.to_nat n) l)
       | Some err => if decide (Z.to_nat n <= length l) then Ok (take (Z.to_nat n) l) else Err err
       end)).
Proof.
  intros Hr Hd Hb Hn. unfold LatestNEarthquakes. rewrite decide_False, Hr, Hd, decide_True, Hb, decide_False by (done || lia).
  by rewrite collect_spec by (cbn; lia).
Qed.
End theorems.

(** ** A demonstration *)

(** A feed whose descriptions are as long as the magnitude; an empty one cannot be read. *)
Definition cell (elem : string) (t : text) : node := Node ElementNode elem (runes elem) [Node TextNode "" t []].
Definition demo_tree (d : text) : result error (list node) :=
  Ok [Node ElementNode "tbody" (runes "tbody")
        [Node ElementNode "tr" (runes "tr") [cell "th" (runes "magnitude:"); cell "td" d];
         Node ElementNode "tr" (runes "tr") [cell "th" (runes "major place:"); cell "td" (runes "Paphos")]]].
Definition demo_magnitude (d : text) : nat * nat * option error :=
  if decide (d = []) then (0, 0, Some (Leaf (LText "unexpected EOF"))) else (1, length d, None).
Definition demo_letter (r : rune) : bool := ((97 <=? r) && (r <=? 122))%N.
Definition demo_item (d : string) : rssItem :=
  {| Title := None; Link := None; Description := runes d; PubDate := None; Guid := None |}.
Definition demo_items : list rssItem := [demo_item "aaa"; demo_item "a"; demo_item "aa"; demo_item ""].
Notation demo_latest n :=
  (LatestNEarthquakes (F32 := nat) (F64 := nat) Nat.ltb 0 0 (fun _ => None) (fun _ => (0, (0, 0), None)) demo_magnitude demo_tree demo_letter id
    (Req := string) Ok (fun _ w => (S w, Ok (200%Z, []))) S (fun _ => Ok demo_items) 1000%Z "" n 2 0).
Definition demo_earthquake (m : nat) : Earthquake nat nat :=
  {| Magnitude := m; When := 0%Z; Location := runes "Paphos"; Position := {| Latitude := 0; Longitude := 0 |} |}.

Lemma LatestNEarthquakes_spec_witness :
  demo_latest 2%Z = (2, Returns (Ok [demo_earthquake 3; demo_earthquake 2])) /\
  demo_latest 3%Z = (2, Returns (Err (Wrap (WText "unmarshal datagovcy description")
                                       (Wrap (WText "scanning magnitude data") (Leaf (LText "unexpected EOF")))))).
Proof.
  assert (0 <= 2 <= 1000)%Z as H2 by lia. assert (0 <= 3 <= 1000)%Z as H3 by lia.
  split; [refine (eq_trans (LatestNEarthquakes_spec _ _ _ _ _ _ _ _ _ _ _ _ _ _ _ _ _ _ 1 "" [] demo_items eq_refl eq_refl eq_refl H2) _)
         |refine (eq_trans (LatestNEarthquakes_spec _ _ _ _ _ _ _ _ _ _ _ _ _ _ _ _ _ _ 1 "" [] demo_items eq_refl eq_refl eq_refl H3) _)];
    vm_compute; reflexivity.
Defined.
