(* ===== verification/Threads.v ===== *)
(** * Threads of a chat
      (app/telegramsearch/internal/pkg/controllers/controllerv1/story_dump_chat_history.go)

    The history of a chat is cut into threads: a message that replies to none starts one, a reply
    goes where the message it replies to went. Threads with an answer are stored. Texts are byte
    strings in UTF-8. *)
From S2P Require Import Prelude Decimal Codes GoErrors.

(* go: app/telegramsearch/internal/pkg/controllers/controllerv1/story_dump_chat_history.go | type TextEntity struct *)
Record TextEntity := MkEntity { Text : string }.
Definition ChatMessageTypeMessage : string := "message".
(** The unexported field text is never set nor read. *)
(* go: app/telegramsearch/internal/pkg/controllers/controllerv1/story_dump_chat_history.go | // Example: *)
Record serializedChatMessage := {
  ID : Z; Type_ : string; DateUnix : string; FromId : string; TextEntities : list TextEntity; Reply : Z
}.
#[export] Instance TextEntity_eq_dec : EqDecision TextEntity.
Proof. solve_decision. Defined.
#[export] Instance serializedChatMessage_eq_dec : EqDecision serializedChatMessage.
Proof. solve_decision. Defined.

Definition line_break : string := String newline "".

(* go: app/telegramsearch/internal/pkg/controllers/controllerv1/story_dump_chat_history.go | func (s *serializedChatMessage) getText *)
Definition getText (s : serializedChatMessage) : string := join " " (map Text (TextEntities s)).

Notation thread := (list serializedChatMessage).
Notation foundThreads := (list (list serializedChatMessage)).

(* go: app/telegramsearch/internal/pkg/controllers/controllerv1/story_dump_chat_history.go | func (t thread) String *)
Definition thread_String (t : thread) : string := join (line_break +:+ "---->") (map getText t).
(* go: app/telegramsearch/internal/pkg/controllers/controllerv1/story_dump_chat_history.go | func (t thread) ForEmbedding *)
Definition ForEmbedding (t : thread) : string := join (line_break +:+ line_break) (map getText t).

(** ** What the user is shown *)

(* go: app/telegramsearch/internal/pkg/controllers/controllerv1/story_dump_chat_history.go | type response struct *)
Record response := { r_Text : string; r_Date : string }.
(* go: app/telegramsearch/internal/pkg/controllers/controllerv1/story_dump_chat_history.go | type data struct *)
Record data := {
  ChatID : string; ConversationStartedAt : string; ConversationStarter : string; WithAnswers : bool;
  Responses : list response
}.

(** The template for_showing_to_the_user.tmpl, executed. *)
Definition render_response (r : response) : string :=
  "В " +:+ r_Date r +:+ ":" +:+ line_break +:+ r_Text r +:+ line_break +:+ line_break.
(* go: app/telegramsearch/internal/pkg/controllers/controllerv1/story_dump_chat_history.go | func processTemplate *)
Definition processTemplate (d : data) : string :=
  "Следующая фраза была сказана в " +:+ ConversationStartedAt d +:+ " в чате про " +:+ ChatID d +:+ ":" +:+ line_break
  +:+ line_break +:+ ConversationStarter d +:+ line_break +:+ line_break
  +:+ (if WithAnswers d then
         line_break +:+ "В ответ на нее состоялся следующий диалог:" +:+ line_break +:+ line_break
         +:+ join "" (map render_response (Responses d))
       else "")
  +:+ line_break.

Section controller.
(** [time.Unix(i, 0).Format("02 Jan 06 15:04")], in the local time zone. *)
Context (format_unix : Z -> string).

Definition bad_date : string := "strconv.ParseInt: parsing date".

(** The date of a message; one that is not a number panics. *)
Definition message_date (s : serializedChatMessage) : outcome string :=
  match ParseInt 64 (DateUnix s) with Some i => Returns (format_unix i) | None => Panics bad_date end.

(** [lo.Map] with a function that may panic. *)
Fixpoint map_responses (l : list serializedChatMessage) : outcome (list response) :=
  match l with
  | [] => Returns []
  | item :: l' =>
      date ← message_date item;
      rs ← map_responses l';
      Returns ({| r_Text := getText item; r_Date := date |} :: rs)
  end.

(* go: app/telegramsearch/internal/pkg/controllers/controllerv1/story_dump_chat_history.go | func (t thread) ForShowingToTheUser *)
Definition ForShowingToTheUser (t : thread) (locality : string) : outcome string :=
  match t with
  | [] => Panics index_out_of_range
  | starter :: answers =>
      date ← message_date starter;
      rs ← map_responses answers;
      Returns (processTemplate {|
        ChatID := locality; ConversationStartedAt := date; ConversationStarter := getText starter;
        WithAnswers := 1 <? length t; Responses := rs |})
  end.
End controller.

(** ** Finding threads *)

(** The variables of the loop: [r], [threadIdx] and [mapMsgToThreadIdx]. *)
Record finding := MkFinding { f_r : foundThreads; f_threadIdx : nat; f_map : gmap Z nat }.
Definition nothing_found : finding := MkFinding [] 0 ∅.

(** [r[k] = append(r[k], v)]. *)
Definition put (v : serializedChatMessage) (k : nat) (r : foundThreads) : foundThreads := alter (fun t => t ++ [v]) k r.

(** One message; [f_r s !! i] exists whenever the code writes [r[i]] ([step_in_bounds]). *)
(* go: app/telegramsearch/internal/pkg/controllers/controllerv1/story_dump_chat_history.go | for _, v := range input { | L138-L154 *)
Definition find_step (s : finding) (v : serializedChatMessage) : finding :=
  if decide (Reply v = 0)%Z then
    let r := f_r s ++ [[]] in
    MkFinding (put v (f_threadIdx s) r) (f_threadIdx s + 1) (<[ID v := f_threadIdx s]> (f_map s))
  else
    match f_map s !! Reply v with
    | None => s
    | Some place => MkFinding (put v place (f_r s)) (f_threadIdx s) (<[ID v := place]> (f_map s))
    end.
(* go: app/telegramsearch/internal/pkg/controllers/controllerv1/story_dump_chat_history.go | func findThreads *)
Definition findThreads (input : list serializedChatMessage) : foundThreads :=
  f_r (fold_left find_step input nothing_found).

Section dump.
Context {W : Type}.
(** The JSON of a history; storing a thread; [pool.New().WithMaxGoroutines(n).WithContext(ctx)]
    runs the tasks and collects the errors of those that fail. *)
Context (Unmarshal : string -> result error (list serializedChatMessage)).
Context (CreateChatThread : string -> thread -> W -> W * option error).
Context (pool : list (W -> W * option error) -> W -> W * list error).

(* go: app/telegramsearch/internal/pkg/controllers/controllerv1/story_dump_chat_history.go | // high mem consumption path, let gc work *)
Definition threadsHighMem (ChatHistory : string) : result error foundThreads :=
  match Unmarshal ChatHistory with
  | Err err => Err err
  | Ok messages =>
      let msgs := filter (fun item => Type_ item = ChatMessageTypeMessage) messages in
      Ok (filter (fun item : thread => 1 < length item) (findThreads msgs))
  end.

(* go: app/telegramsearch/internal/pkg/controllers/controllerv1/story_dump_chat_history.go | func (c *Ctl) DumpChatHistory *)
Definition DumpChatHistory (ChatID ChatHistory : string) (w : W) : W * option error :=
  match threadsHighMem ChatHistory with
  | Err err => (w, Some (Wrap (WText "unable to get threads") err))
  | Ok threads =>
      match pool (map (CreateChatThread ChatID) threads) w with
      | (w, []) => (w, None)
      | (w, errs) => (w, Some (Join errs))
      end
  end.
End dump.

(** ** What a thread is *)

(** A message that replies to none, and replies each to a message before it. *)
Inductive well_threaded : thread -> Prop :=
| wt_start v : Reply v = 0%Z -> well_threaded [v]
| wt_reply t m v : well_threaded t -> m ∈ t -> Reply v = ID m -> Reply v <> 0%Z -> well_threaded (t ++ [v]).

(** The messages that have a thread: those that start one, and those that reply to one that has a
    thread and comes before them. *)
Inductive kept_in : list serializedChatMessage -> serializedChatMessage -> Prop :=
| kept_start pre m post : Reply m = 0%Z -> kept_in (pre ++ m :: post) m
| kept_reply pre m post m' :
    Reply m <> 0%Z -> kept_in pre m' -> ID m' = Reply m -> kept_in (pre ++ m :: post) m.

Lemma kept_in_snoc l v m :
  kept_in (l ++ [v]) m <->
  kept_in l m \/ (m = v /\ (Reply v = 0%Z \/ exists m', kept_in l m' /\ ID m' = Reply v)).
Proof.
  split.
  - intros H. remember (l ++ [v]) as k eqn:Ek.
    assert (Hcase : forall pre m post, pre ++ m :: post = l ++ [v] ->
              (pre = l /\ m = v) \/ exists post', l = pre ++ m :: post').
    { intros pre x post E. destruct post as [|y post _] using rev_ind.
      - left. by apply app_inj_tail in E.
      - rewrite app_comm_cons, app_assoc in E. apply app_inj_tail in E as [<- _]. eauto. }
    destruct H as [pre m post Hr|pre m post m' Hr Hk Hid];
      destruct (Hcase _ _ _ Ek) as [[-> ->]|(post' & ->)]; [by right; eauto|by left; constructor| |].
    + right. eauto.
    + left. by econstructor.
  - intros [H|[-> H]].
    + destruct H as [pre m post Hr|pre m post m' Hr Hk Hid]; rewrite <- app_assoc; cbn;
        [by constructor|by econstructor].
    + destruct (decide (Reply v = 0)%Z) as [Hr|Hr]; [by constructor|].
      destruct H as [?|(m' & Hk & Hid)]; [done|by econstructor].
Qed.

Lemma elem_of_concat {A} (x : A) ls : x ∈ concat ls <-> exists l, l ∈ ls /\ x ∈ l.
Proof. rewrite !list_elem_of_In, in_concat. setoid_rewrite list_elem_of_In. firstorder. Qed.

Lemma put_split (v : serializedChatMessage) k (r : foundThreads) t : r !! k = Some t ->
  exists r1 r2, r = r1 ++ t :: r2 /\ put v k r = r1 ++ (t ++ [v]) :: r2 /\ length r1 = k.
Proof.
  intros H. apply list_elem_of_split_length in H as (r1 & r2 & -> & ->). exists r1, r2. split_and!; [done| |done].
  induction r1 as [|y r1 IH]; [done|]. cbn. f_equal. exact IH.
Qed.

Lemma put_concat v k r t : r !! k = Some t -> concat (put v k r) ≡ₚ v :: concat r.
Proof.
  intros H. destruct (put_split v k r t H) as (r1 & r2 & -> & E & _); rewrite E. rewrite !concat_app. cbn.
  rewrite <- app_assoc. cbn. rewrite app_assoc, <- Permutation_middle. by rewrite <- app_assoc.
Qed.

Lemma put_Forall (P : thread -> Prop) v k r t : r !! k = Some t -> Forall P r -> P (t ++ [v]) -> Forall P (put v k r).
Proof.
  intros H Hr Ht. destruct (put_split v k r t H) as (r1 & r2 & -> & E & _); rewrite E.
  apply Forall_app in Hr as [H1 H2]. apply Forall_cons in H2 as [_ H2]. by rewrite Forall_app, Forall_cons.
Qed.

Lemma put_heads v k r t x : r !! k = Some t -> head t = Some x -> omap head (put v k r) = omap head r.
Proof.
  intros H Hx. destruct (put_split v k r t H) as (r1 & r2 & -> & E & _); rewrite E. rewrite !omap_app. f_equal.
  destruct t as [|y t]; [done|]. done.
Qed.

Lemma well_threaded_head t : well_threaded t -> exists x, head t = Some x.
Proof. destruct 1 as [v|t m v _ Hm]; [by exists v|]. destruct t as [|x t]; [by apply not_elem_of_nil in Hm|by exists x]. Qed.

(** ** The invariant of the loop *)

Record found (pre : list serializedChatMessage) (s : finding) : Prop := {
  fd_idx : f_threadIdx s = length (f_r s);
  fd_map id k : f_map s !! id = Some k -> exists t m, f_r s !! k = Some t /\ m ∈ t /\ ID m = id;
  fd_all m : m ∈ concat (f_r s) -> is_Some (f_map s !! ID m);
  fd_shape : Forall well_threaded (f_r s);
  fd_heads : omap head (f_r s) = filter (fun m => Reply m = 0%Z) pre;
  fd_sub : Forall (fun t => t `sublist_of` pre) (f_r s);
  fd_once : exists dropped, concat (f_r s) ++ dropped ≡ₚ pre;
  fd_kept m : m ∈ concat (f_r s) <-> kept_in pre m
}.

Lemma nothing_kept m : ~ kept_in [] m.
Proof. intros H. remember [] as l eqn:El. destruct H; by apply app_eq_nil in El as [_ ?]. Qed.

Lemma found_nothing : found [] nothing_found.
Proof.
  split; try done.
  - by intros m Hm%not_elem_of_nil.
  - by exists [].
  - intros m. split; [by intros ?%not_elem_of_nil|by intros ?%nothing_kept].
Qed.

Lemma sublists_grow (pre : list serializedChatMessage) v (r : foundThreads) :
  Forall (fun t => t `sublist_of` pre) r -> Forall (fun t => t `sublist_of` pre ++ [v]) r.
Proof. intros H. eapply Forall_impl; [exact H|]. intros t Ht. by apply sublist_inserts_r. Qed.

Lemma kept_put pre v (r r' : foundThreads) :
  (forall m, m ∈ concat r <-> kept_in pre m) -> concat r' ≡ₚ v :: concat r ->
  (Reply v = 0%Z \/ exists m', kept_in pre m' /\ ID m' = Reply v) ->
  forall m, m ∈ concat r' <-> kept_in (pre ++ [v]) m.
Proof. intros Hk Hp Hv m. rewrite Hp, elem_of_cons, Hk, kept_in_snoc. tauto. Qed.

Lemma map_put (v : serializedChatMessage) (r r' : foundThreads) (mp : gmap Z nat) k t :
  (forall id j, mp !! id = Some j -> exists t m, r !! j = Some t /\ m ∈ t /\ ID m = id) ->
  (forall j t, r !! j = Some t -> exists t', r' !! j = Some t' /\ t ⊆ t') -> r' !! k = Some t -> v ∈ t ->
  forall id j, <[ID v := k]> mp !! id = Some j -> exists t m, r' !! j = Some t /\ m ∈ t /\ ID m = id.
Proof.
  intros Hm Hr Hk Hv id j [[<- <-]|[_ H]]%lookup_insert_Some; [by eauto|].
  destruct (Hm _ _ H) as (t0 & m & H0 & Hin & Hid). destruct (Hr _ _ H0) as (t' & H' & Hsub).
  exists t', m. split_and!; [done|by apply Hsub|done].
Qed.

Lemma all_put (v : serializedChatMessage) (r r' : foundThreads) (mp : gmap Z nat) (k : nat) :
  (forall m, m ∈ concat r -> is_Some (mp !! ID m)) -> concat r' ≡ₚ v :: concat r ->
  forall m, m ∈ concat r' -> is_Some (<[ID v := k]> mp !! ID m).
Proof.
  intros Ha Hp m. rewrite Hp, elem_of_cons. intros [->|Hm]; [by rewrite lookup_insert_eq|].
  destruct (decide (ID v = ID m)) as [->|Hne]; [by rewrite lookup_insert_eq|]. rewrite lookup_insert_ne by done. by apply Ha.
Qed.

(** A message that starts a thread. *)
Lemma found_start pre s v : found pre s -> Reply v = 0%Z -> found (pre ++ [v]) (find_step s v).
Proof.
  intros [Hi Hm Ha Hs Hh Hsub [dr Hd] Hk] Hv. unfold find_step. rewrite decide_True by done.
  assert (Er : put v (f_threadIdx s) (f_r s ++ [[]]) = f_r s ++ [[v]]).
  { rewrite Hi. unfold put. generalize (f_r s). intros r. induction r as [|y r IH]; [done|]. cbn. f_equal. exact IH. }
  rewrite Er. assert (Hp : concat (f_r s ++ [[v]]) ≡ₚ v :: concat (f_r s)).
  { rewrite concat_app. cbn. by rewrite <- Permutation_cons_append. }
  split; cbn [f_r f_threadIdx f_map].
  - rewrite length_app, Hi. done.
  - apply (map_put v (f_r s) _ _ _ [v]); [done| |rewrite Hi; by apply list_lookup_middle|by apply list_elem_of_here].
    intros j t Hj. exists t. split; [|done]. by apply lookup_app_l_Some.
  - by apply (all_put v (f_r s)).
  - apply Forall_app. split; [done|]. constructor; [by constructor|done].
  - rewrite omap_app, filter_app, Hh. f_equal. cbn. by rewrite decide_True.
  - apply Forall_app. split; [by apply sublists_grow|]. constructor; [|done]. by apply sublist_inserts_l.
  - exists dr. rewrite Hp. cbn. rewrite Hd. apply Permutation_cons_append.
  - apply (kept_put pre v (f_r s)); [done|done|by left].
Qed.

(** A reply: it goes to the thread of a message before it, or nowhere. *)
Lemma found_reply pre s v : found pre s -> Reply v <> 0%Z -> found (pre ++ [v]) (find_step s v).
Proof.
  intros [Hi Hm Ha Hs Hh Hsub [dr Hd] Hk] Hv. unfold find_step. rewrite decide_False by done.
  assert (Hf : filter (fun m => Reply m = 0%Z) (pre ++ [v]) = filter (fun m => Reply m = 0%Z) pre).
  { rewrite filter_app. cbn. rewrite decide_False by done. apply app_nil_r. }
  destruct (f_map s !! Reply v) as [k|] eqn:Ek.
  - destruct (Hm _ _ Ek) as (t & m & Ht & Hmt & Hid).
    pose proof (put_concat v k _ t Ht) as Hp.
    assert (Hwt : well_threaded t) by (by eapply Forall_lookup_1 in Ht).
    split; cbn [f_r f_threadIdx f_map].
    + unfold put. by rewrite length_alter.
    + apply (map_put v (f_r s) _ _ _ (t ++ [v])); [done| |unfold put; by rewrite list_lookup_alter_eq, Ht|set_solver].
      intros j t0 Hj. unfold put. rewrite list_lookup_alter. case_decide; [subst j|by exists t0].
      exists (t0 ++ [v]). rewrite Hj. split; [done|set_solver].
    + by apply (all_put v (f_r s)).
    + eapply put_Forall; [done|done|]. by econstructor.
    + destruct (well_threaded_head t Hwt) as [x Hx]. rewrite (put_heads _ _ _ _ _ Ht Hx). by rewrite Hf.
    + eapply put_Forall; [done|by apply sublists_grow|]. apply sublist_app; [|done].
      by apply (Forall_lookup_1 _ _ _ _ Hsub Ht).
    + exists dr. rewrite Hp. cbn. rewrite Hd. apply Permutation_cons_append.
    + apply (kept_put pre v (f_r s)); [done|done|]. right. exists m. split; [|done]. apply Hk, elem_of_concat.
      exists t. split; [by eapply list_elem_of_lookup_2|done].
  - split; try done; [by rewrite Hf|by apply sublists_grow|..].
    + exists (dr ++ [v]). rewrite app_assoc. by rewrite Hd.
    + intros m. rewrite kept_in_snoc, <- Hk. split; [by left|]. intros [H|(-> & [?|(m' & Hm' & Hid)])]; [done|done|].
      apply Hk, Ha in Hm' as [j Hj]. rewrite Hid, Ek in Hj. done.
Qed.

Lemma findThreads_found input : found input (fold_left find_step input nothing_found).
Proof.
  induction input as [|v input IH] using rev_ind; [apply found_nothing|]. rewrite fold_left_app. cbn.
  destruct (decide (Reply v = 0)%Z); [by apply found_start|by apply found_reply].
Qed.

(** Every thread starts with a message that replies to none and continues with replies to
    messages before them in the same thread; the messages that reply to none each start one, in
    the order of the history; threads keep that order, and no message is in two of them. *)
Theorem findThreads_shape (input : list serializedChatMessage) :
  Forall well_threaded (findThreads input) /\
  omap head (findThreads input) = filter (fun m => Reply m = 0%Z) input /\
  Forall (fun t => t `sublist_of` input) (findThreads input) /\
  exists dropped, concat (findThreads input) ++ dropped ≡ₚ input.
Proof. destruct (findThreads_found input). by split_and!. Qed.

(** C21. A message is in a thread exactly if its chain of replies leads, always to messages before,
    to one that replies to none; a reply to what is missing, or comes later, is dropped with all
    that replies to it. *)
Theorem findThreads_complete (input : list serializedChatMessage) m :
  m ∈ concat (findThreads input) <-> kept_in input m.
Proof. apply (fd_kept _ _ (findThreads_found input)). Qed.

(** The index the code writes at is always one of [r]. *)
Lemma step_in_bounds input id k :
  let s := fold_left find_step input nothing_found in f_map s !! id = Some k -> k < length (f_r s).
Proof. intros s H. destruct (fd_map _ _ (findThreads_found input) id k H) as (t & m & Ht & _). by apply lookup_lt_Some in Ht. Qed.

(** ** Storing threads *)

Section storing.
Context {W : Type} (Unmarshal : string -> result error (list serializedChatMessage)).
Context (CreateChatThread : string -> thread -> W -> W * option error).
Context (pool : list (W -> W * option error) -> W -> W * list error).

(** Tasks one after the other, with the errors of those that fail. *)
Fixpoint run_tasks (tasks : list (W -> W * option error)) (w : W) : W * list error :=
  match tasks with
  | [] => (w, [])
  | task :: tasks' =>
      let '(w, e) := task w in
      let '(w, es) := run_tasks tasks' w in (w, option_list e ++ es)
  end.
(** Each task is a single statement of the database, so that tasks that run at the same time have
    the effect of some order; every task is run, also after a failure. *)
Definition pool_law : Prop := forall tasks w, exists order, order ≡ₚ tasks /\ pool tasks w = run_tasks order w.

(** A dump stores the threads of the history's messages that have an answer, each once and
    all of them even if some fail, and reports every failure. *)
Theorem DumpChatHistory_stores chat history messages w : pool_law -> Unmarshal history = Ok messages ->
  exists order w' errs,
    order ≡ₚ filter (fun t : thread => 1 < length t) (findThreads (filter (fun item => Type_ item = ChatMessageTypeMessage) messages)) /\
    run_tasks (map (CreateChatThread chat) order) w = (w', errs) /\
    DumpChatHistory Unmarshal CreateChatThread pool chat history w
      = (w', if decide (errs = []) then None else Some (Join errs)) /\
    Forall (fun t => well_threaded t /\ Forall (fun m => Type_ m = "message") t /\ 2 <= length t) order.
Proof.
  intros Hlaw Hu. unfold DumpChatHistory, threadsHighMem. rewrite Hu.
  set (msgs := filter _ messages). set (threads := filter _ (findThreads msgs)).
  destruct (Hlaw (map (CreateChatThread chat) threads) w) as (tasks & Hp & ->).
  apply Permutation_map_inv in Hp as (order & -> & Hp).
  destruct (run_tasks (map (CreateChatThread chat) order) w) as [w' errs] eqn:E.
  exists order, w', errs. split_and!; [done|done|by destruct errs|].
  rewrite <- Hp. apply Forall_forall. intros t [H2 Ht]%list_elem_of_filter.
  destruct (findThreads_shape msgs) as (Hs & _ & Hsub & _). split_and!; [by eapply Forall_forall in Hs| |done].
  eapply Forall_forall in Hsub; [|done]. apply Forall_forall. intros m Hm.
  eapply elem_of_sublist in Hsub; [|done]. by apply list_elem_of_filter in Hsub as [? _].
Qed.
End storing.

(** ** Showing *)

Section showing.
Context (format_unix : Z -> string).

Lemma map_responses_total l :
  match map_responses format_unix l with
  | Returns rs => map r_Text rs = map getText l /\ Forall (fun m => is_Some (ParseInt 64 (DateUnix m))) l
  | Panics why => Exists (fun m => ParseInt 64 (DateUnix m) = None) l /\ why = bad_date
  end.
Proof.
  induction l as [|m l IH]; [by split|]. cbn [map_responses]. unfold message_date.
  destruct (ParseInt 64 (DateUnix m)) as [i|] eqn:E; cbn; [|by split; [left|]].
  destruct (map_responses format_unix l) as [rs|why]; cbn.
  - destruct IH as [<- Hl]. split; [done|]. constructor; [by exists i|done].
  - destruct IH as [Hl ->]. split; [by right|done].
Qed.

(** Showing a thread panics exactly if it is empty or the date of one of its messages is not
    a number of 64 bits. *)
Theorem ForShowingToTheUser_panics (t : thread) (locality : string) :
  (exists why, ForShowingToTheUser format_unix t locality = Panics why) <->
  t = [] \/ Exists (fun m => ParseInt 64 (DateUnix m) = None) t.
Proof.
  destruct t as [|m t]; [by split; [left|intros _; eexists]|]. cbn [ForShowingToTheUser]. unfold message_date.
  pose proof (map_responses_total t) as Ht.
  destruct (ParseInt 64 (DateUnix m)) as [i|] eqn:E; cbn.
  - destruct (map_responses format_unix t) as [rs|why]; cbn.
    + split; [by intros [? ?]|]. intros [?|[Hm|Hx]%Exists_cons]; [done|congruence|].
      destruct Ht as [_ Ht]. apply Exists_exists in Hx as (x & Hx & Hn). eapply Forall_forall in Ht as [? ?]; [|done]. congruence.
    + split; [intros _|eauto]. right. right. apply Ht.
  - split; [intros _|eauto]. right. by left.
Qed.
End showing.

(** ** A demonstration *)

Definition demo_message (id reply : Z) (text : string) : serializedChatMessage :=
  {| ID := id; Type_ := "message"; DateUnix := "1700000000"; FromId := "user"; TextEntities := [MkEntity text]; Reply := reply |}.
(** Message 5 replies to a later one, 4 to a missing one, 6 to 4. *)
Definition demo_history : list serializedChatMessage :=
  [demo_message 1 0 "a?"; demo_message 2 0 "b?"; demo_message 3 1 "a!"; demo_message 4 99 "gone"; demo_message 5 7 "early";
   demo_message 6 4 "lost"; demo_message 7 3 "a!!"; demo_message 8 0 "c?"; demo_message 9 2 "b!"].
Example demo_threads : map (map ID) (findThreads demo_history) = [[1; 3; 7]; [2; 9]; [8]]%Z.
Proof. reflexivity. Qed.

Definition demo_store (chat : string) (t : thread) (w : list (string * list Z)) : list (string * list Z) * option error :=
  (w ++ [(chat, map ID t)], None).

Lemma DumpChatHistory_stores_witness : exists order w' errs,
  order ≡ₚ filter (fun t : thread => 1 < length t) (findThreads (filter (fun item => Type_ item = ChatMessageTypeMessage) demo_history)) /\
  run_tasks (map (demo_store "cy") order) [] = (w', errs) /\
  ([("cy", [1; 3; 7]%Z); ("cy", [2; 9]%Z)], None) = (w', if decide (errs = []) then None else Some (Join errs)) /\
  Forall (fun t => well_threaded t /\ Forall (fun m => Type_ m = "message") t /\ 2 <= length t) order.
Proof.
  assert (pool_law (run_tasks (W := list (string * list Z)))) as Hlaw by (intros tasks w; exists tasks; by split).
  exact (DumpChatHistory_stores (fun _ => Ok demo_history) demo_store run_tasks "cy" "" demo_history [] Hlaw eq_refl).
Defined.
