(* ===== verification/Search.v ===== *)
(** * Searching and answering
      (app/telegramsearch/internal/pkg/controllers/controllerv1, client/storage/postgres,
      client/openaiclient)

    A question is embedded, similar threads are searched for in several ranges of time at once,
    and the threads found are what the answer is made of; what they were is kept for a later
    explanation. The database, OpenAI, JSON, the sort of package slices, the cache and the clock
    are parameters. *)
From S2P Require Import Prelude Decimal Codes GoErrors Threads.

(** ** Embeddings: slices of floating point numbers, with the array behind them *)

Section vectors.
Context {F : Type}.
Record vec := MkVec { v_data : list F; v_spare : list F }.
(** [s[:n]] reaches into what is behind the length, up to the capacity. *)
Definition reslice (n : nat) (s : vec) : outcome (list F) :=
  if decide (n <= length (v_data s ++ v_spare s)) then Returns (take n (v_data s ++ v_spare s)) else Panics slice_out_of_range.
End vectors.
Arguments vec : clear implicits.

(** ** OpenAI *)

Section openai.
Context {F W : Type}.
Context (api_CreateEmbeddings : list string -> W -> W * result error (list (vec F))).
(** A completion from the prompt made of the conversations and the question; the texts of the
    choices. *)
Context (api_CreateChatCompletion : list string -> string -> W -> W * result error (list string)).

(* go: app/telegramsearch/internal/pkg/client/openaiclient/httpopenaiclient/errors.go | func handleError *)
Definition handleError (err : option error) : option error := Wrap WRaw <$> err.

(* go: app/telegramsearch/internal/pkg/client/openaiclient/httpopenaiclient/req_create_embeddings.go | func (c *Client) CreateEmbeddings *)
Definition CreateEmbeddings (Input : list string) (w : W) : W * result error (list (vec F)) :=
  match api_CreateEmbeddings Input w with
  | (w, Err err) => (w, Err (Wrap WRaw err))
  | (w, Ok data) => (w, Ok data)
  end.

(* go: app/telegramsearch/internal/pkg/client/openaiclient/httpopenaiclient/req_create_chatcompletion.go | func (c *Client) CreateChatCompletion | L12-L33 *)
Definition CreateChatCompletion (Input : string) (Conversations : list string) (w : W) : W * outcome (result error string) :=
  match api_CreateChatCompletion Conversations Input w with
  | (w, Err err) => (w, Returns (Err err))
  | (w, Ok []) => (w, Panics index_out_of_range)
  | (w, Ok (c :: _)) => (w, Returns (Ok c))
  end.
End openai.

(** ** Similarity search *)

(* go: app/telegramsearch/internal/pkg/client/storage/storagemodels/storagemodels.go | type RespSimilaritySearch struct *)
Record RespSimilaritySearch := {
  Message : string; TelegramChatID : string; ConversationStarter : string; MostRecentMessageAt : Z
}.
#[export] Instance RespSimilaritySearch_eq_dec : EqDecision RespSimilaritySearch.
Proof. solve_decision. Defined.
Notation row := RespSimilaritySearch.

(** The threshold by its literal. *)
(* go: app/telegramsearch/internal/pkg/client/storage/storagemodels/storagemodels.go | type ReqSimilaritySearch struct *)
Record ReqSimilaritySearch (F : Type) := MkSearch {
  CutThreshold : string; Embedding : vec F; Since : Z; UpTo : Z; Limit : nat
}.
Arguments MkSearch {F}.
Arguments CutThreshold {F}.
Arguments Embedding {F}.
Arguments Since {F}.
Arguments UpTo {F}.
Arguments Limit {F}.

Section storage.
Context {F : Type}.
(** The threads that have an embedding, and their order by the distance to a vector. *)
Context (table : list row) (order_by : list F -> list row -> list row).

(** [querySimilaritySearch]: the range of time is half-open; the threshold is not looked at. *)
(* go: app/telegramsearch/internal/pkg/client/storage/postgres/req_embeddings.go | var querySimilaritySearch *)
Definition querySimilaritySearch (since upto : Z) (emb : list F) (limit : nat) : list row :=
  take limit (order_by emb (filter (fun t => since <= MostRecentMessageAt t < upto)%Z table)).

(** [db_err]: an error of the database. *)
(* go: app/telegramsearch/internal/pkg/client/storage/postgres/req_embeddings.go | func (s *Storage) FetchSimilaritySearch *)
Definition FetchSimilaritySearch (db_err : option error) (req : ReqSimilaritySearch F) : outcome (result error (list row)) :=
  emb ← reslice 2000 (Embedding req);
  match db_err with
  | Some err => Returns (Err err)
  | None => Returns (Ok (querySimilaritySearch (Since req) (UpTo req) emb (Limit req)))
  end.
End storage.

(** ** The ranges of time *)

Definition Day : Z := (24 * Hour)%Z.
(** [now.Add(n * minusDay)]. *)
Definition days_ago (now n : Z) : Z := time_add now (- (n * Day)).
(* go: app/telegramsearch/internal/pkg/controllers/controllerv1/story_embeddings_completion.go | ranges := []time.Time{ *)
Definition completion_ranges (now : Z) : list Z :=
  map (days_ago now) [365 * 10; 365 * 3; 365 * 2; 365; 180; 30; 7]%Z ++ [now].
(* go: app/telegramsearch/internal/pkg/controllers/controllerv1/story_try_embedding.go | ranges := []time.Time{ *)
Definition embedding_ranges (now : Z) : list Z := map (days_ago now) [365 * 3; 365; 30; 7]%Z ++ [now].

(** The pairs of neighbours: from [ranges[i-1]] to [ranges[i]]. *)
Fixpoint neighbours (l : list Z) : list (Z * Z) :=
  match l with a :: (b :: _) as l' => (a, b) :: neighbours l' | _ => [] end.

(** ** The pool of searches *)

(** What the tasks share: [searchResults] (under the lock), the context they run in, and the
    errors and the first panic of the pool, which cancels the context at either
    ([WithCancelOnError]). *)
Record pool_state := MkPool {
  p_results : list row; p_cancelled : bool; p_errors : list error; p_panic : option string
}.
Definition pool_start : pool_state := MkPool [] false [] None.

Definition task_error (err : error) (st : pool_state) : pool_state :=
  MkPool (p_results st) true (p_errors st ++ [err]) (p_panic st).
Definition task_panic (why : string) (st : pool_state) : pool_state :=
  MkPool (p_results st) true (p_errors st) (Some (default why (p_panic st))).
(** [p.Wait()] panics again, or returns the errors joined. *)
Definition pool_Wait (st : pool_state) : outcome (option error) :=
  match p_panic st with
  | Some why => Panics why
  | None => Returns (match p_errors st with [] => None | errs => Some (Join errs) end)
  end.

Section tasks.
Context (maxResults : nat).

(** The error branch of a task. *)
(* go: app/telegramsearch/internal/pkg/controllers/controllerv1/story_embeddings_completion.go | switch { | L65-L74 *)
Definition search_failed (err : error) (st : pool_state) : pool_state :=
  if Is ctx_Canceled err then
    if decide (length (p_results st) = maxResults) then st else task_error err st
  else task_error err st.

(** The loop of [TryCompletion] appends and then looks at the length; that of [TryEmbedding] looks
    first. *)
(* go: app/telegramsearch/internal/pkg/controllers/controllerv1/story_embeddings_completion.go | for i := range search { | L79-L84 *)
Definition append_then_check (st : pool_state) (r : row) : pool_state :=
  let results := p_results st ++ [r] in
  MkPool results (p_cancelled st || bool_decide (length results = maxResults)) (p_errors st) (p_panic st).
(* go: app/telegramsearch/internal/pkg/controllers/controllerv1/story_try_embedding.go | for i := range search { | L71-L76 *)
Definition check_then_append (st : pool_state) (r : row) : pool_state :=
  MkPool (p_results st ++ [r]) (p_cancelled st || bool_decide (length (p_results st) = maxResults)) (p_errors st) (p_panic st).

(** A task that has its answer; the lock makes the rest of it one step. *)
Definition finish_task (append : pool_state -> row -> pool_state) (answer : outcome (result error (list row))) (st : pool_state) : pool_state :=
  match answer with
  | Panics why => task_panic why st
  | Returns (Err err) => search_failed err st
  | Returns (Ok search) => fold_left append search st
  end.

(** The tasks in the order in which they get their answers; whether the context is cancelled by
    then may change the answer. *)
Definition run_searches {I} (append : pool_state -> row -> pool_state)
    (answer : I -> bool -> outcome (result error (list row))) (order : list I) (st : pool_state) : pool_state :=
  fold_left (fun st i => finish_task append (answer i (p_cancelled st)) st) order st.
End tasks.

(** ** Sources of an answer *)

(* go: app/telegramsearch/internal/pkg/controllers/controllerv1/story_explain.go | type SourcedMessage struct *)
Record SourcedMessage := { URL : string; s_MostRecentMessageAt : Z; FirstLetters : string }.
(* go: app/telegramsearch/internal/pkg/controllers/controllerv1/story_explain.go | type ExplainedMessage struct *)
Record ExplainedMessage := { Sources : list SourcedMessage }.

(** The first letters of a message, in bytes: a long one is cut after its first dot, what is
    still too long after 100 bytes. *)
(* go: app/telegramsearch/internal/pkg/controllers/controllerv1/story_embeddings_completion.go | firstLetters := s[0].getText() | L161-L170 *)
Definition first_letters (text : string) : string :=
  let text :=
    if decide (60 < String.length text) then
      match index_byte "." text with Some i => stake (i + 1) text | None => text end
    else text in
  if decide (120 < String.length text) then stake 100 text else text.

(* go: app/telegramsearch/internal/pkg/controllers/controllerv1/config.go | type Config struct *)
Record Config := {
  HelpText : string; NewsText : string; NoExplainedAnswer : string; NoResultsAnswer : string;
  StaleResponsesText : string; FreshResponsesText : string; StaleThreshold : Z
}.

(* go: app/telegramsearch/internal/pkg/controllers/controllerv1/controllerv1models/models.go | type ReqTryCompletion struct *)
Record ReqTryCompletion := { SenderID : Z; Query : string }.
(* go: app/telegramsearch/internal/pkg/controllers/controllerv1/controllerv1models/models.go | type RespTryCompletion struct *)
Record RespTryCompletion := { Response : string; UsedConversations : list row }.

(** ** The controller *)

(** How long an explanation is kept: what [DefaultTTL] stands for. *)
(* go: app/telegramsearch/internal/pkg/controllers/controllerv1/controllerv1.go | ttlcache.WithTTL[int | L25-L25 *)
Definition explained_ttl : Z := 30 * Minute.

Section controller.
Context {F W : Type}.
Context (api_CreateEmbeddings : list string -> W -> W * result error (list (vec F))).
Context (api_CreateChatCompletion : list string -> string -> W -> W * result error (list string)).
(** The table, its order by distance, and the errors of the database; a search that
    is cancelled may fail or not. *)
Context (table : list row) (order_by : list F -> list row -> list row).
Context (db_err : Z * Z -> bool -> option error).
(** The order in which the tasks of the pool get their answers. *)
Context (schedule : list (Z * Z) -> list (Z * Z)).
Context (SortFunc : (row -> row -> Z) -> list row -> list row).
(** JSON; dates; [fmt.Sprintf] with a format of the configuration. *)
Context (Unmarshal : string -> result error thread) (DateOnly : Z -> string) (Sprintf : string -> string -> string).
(** The cache of explanations (ttlcache): [Set] with a time to live, and [Get], which may find
    nothing and which puts off the end of what it finds. *)
Context (cache_Set : Z -> Z -> ExplainedMessage -> W -> W) (cache_Get : W -> Z -> W * option ExplainedMessage).
Context (cfg : Config).

(** The search of the task for a range. *)
Definition fetch (threshold : string) (embeddings : list (vec F)) (range : Z * Z) (cancelled : bool) : outcome (result error (list row)) :=
  match embeddings with
  | [] => Panics index_out_of_range
  | e :: _ => FetchSimilaritySearch table order_by (db_err range cancelled) (MkSearch threshold e range.1 range.2 20)
  end.

(** ** Explaining *)

(** A source for every conversation, up to the first that cannot be read. *)
Fixpoint sources (conversations : list row) : outcome (result error (list SourcedMessage)) :=
  match conversations with
  | [] => Returns (Ok [])
  | conv :: conversations' =>
      match Unmarshal (ConversationStarter conv) with
      | Err err => Returns (Err (Wrap (WText "failed to unmarshal conversation starter") err))
      | Ok [] => Panics index_out_of_range
      | Ok (s :: _) =>
          rest ← sources conversations';
          Returns (l ← rest;
            Ok ({| URL := "https://t.me/" +:+ TelegramChatID conv +:+ "/" +:+ pretty (ID s);
                   s_MostRecentMessageAt := MostRecentMessageAt conv;
                   FirstLetters := first_letters (getText s) |} :: l))
      end
  end.
(* go: app/telegramsearch/internal/pkg/controllers/controllerv1/story_embeddings_completion.go | func (c *Ctl) saveCacheItem *)
Definition saveCacheItem (senderID : Z) (conversations : list row) (w : W) : W * outcome (option error) :=
  match sources (take 15 conversations) with
  | Panics why => (w, Panics why)
  | Returns (Err err) => (w, Returns (Some err))
  | Returns (Ok l) => (cache_Set explained_ttl senderID {| Sources := l |} w, Returns None)
  end.

(* go: app/telegramsearch/internal/pkg/controllers/controllerv1/story_explain.go | func (m SourcedMessage) ForHuman *)
Definition ForHuman (m : SourcedMessage) : string :=
  DateOnly (s_MostRecentMessageAt m) +:+ ": " +:+ URL m +:+ line_break +:+ FirstLetters m.
(* go: app/telegramsearch/internal/pkg/controllers/controllerv1/story_explain.go | func (e ExplainedMessage) ForUser *)
Definition ForUser (e : ExplainedMessage) : string :=
  "Вот подробные вопросы и ответы пользователей:" +:+ line_break
  +:+ join (line_break +:+ line_break) (map ForHuman (Sources e)) +:+ line_break +:+ line_break
  +:+ "Если хотите узнать больше, перейдите по ссылке, нажмите правой кнопкой мыши на сообщении и выберите 'Просмотреть ответы'. Вы можете задать уточняющий вопрос когда перейдете по ссылке, если вам мало информации. Помните, что у вас может не быть доступа до указанного чата. Сперва придется в него вступить.".
(* go: app/telegramsearch/internal/pkg/controllers/controllerv1/story_explain.go | func (c *Ctl) ExplainMessage *)
Definition ExplainMessage (senderID : Z) (w : W) : W * string :=
  let '(w, v) := cache_Get w senderID in (w, match v with None => NoExplainedAnswer cfg | Some v => ForUser v end).

(** ** Completions *)

Definition compare_time (a b : row) : Z := time_sub (MostRecentMessageAt a) (MostRecentMessageAt b).

(** The answer with the remark on how old or how few its sources are. *)
(* go: app/telegramsearch/internal/pkg/controllers/controllerv1/story_embeddings_completion.go | onlyStaleResponses := true | L111-L124 *)
Definition user_response (now : Z) (completion : string) (results : list row) : string :=
  let notStaleAfter := time_add now (wraps 64 (-1 * StaleThreshold cfg)) in
  if forallb (fun r => negb (bool_decide (notStaleAfter < MostRecentMessageAt r)%Z)) results then
    completion +:+ line_break +:+ Sprintf (StaleResponsesText cfg) (DateOnly notStaleAfter)
  else if decide (length results < 3) then
    completion +:+ line_break +:+ Sprintf (FreshResponsesText cfg) (pretty (Z.of_nat (length results)))
  else completion.

(** What follows the search. A source that cannot be saved is only logged. *)
(* go: app/telegramsearch/internal/pkg/controllers/controllerv1/story_embeddings_completion.go | if len(searchResults) == 0 { | L94-L138 *)
Definition answer (req : ReqTryCompletion) (now : Z) (searchResults : list row) (w : W)
    : W * outcome (result error RespTryCompletion) :=
  if decide (searchResults = []) then
    (w, Returns (Ok {| Response := NoResultsAnswer cfg; UsedConversations := [] |}))
  else
    let searchResults := reverse (SortFunc compare_time searchResults) in
    match CreateChatCompletion api_CreateChatCompletion (Query req) (map Message searchResults) w with
    | (w, Panics why) => (w, Panics why)
    | (w, Returns (Err err)) => (w, Returns (Err (Wrap (WText "failed to create completion") err)))
    | (w, Returns (Ok completion)) =>
        match saveCacheItem (SenderID req) searchResults w with
        | (w, Panics why) => (w, Panics why)
        | (w, Returns _) =>
            (w, Returns (Ok {| Response := user_response now completion searchResults; UsedConversations := searchResults |}))
        end
    end.

(* go: app/telegramsearch/internal/pkg/controllers/controllerv1/story_embeddings_completion.go | func (c *Ctl) TryCompletion *)
Definition TryCompletion (req : ReqTryCompletion) (now : Z) (w : W) : W * outcome (result error RespTryCompletion) :=
  match CreateEmbeddings api_CreateEmbeddings [Query req] w with
  | (w, Err err) => (w, Returns (Err (Wrap (WText "create embeddings") err)))
  | (w, Ok embeddings) =>
      let st := run_searches 20 (append_then_check 20) (fetch "0.5" embeddings)
                  (schedule (neighbours (completion_ranges now))) pool_start in
      match pool_Wait st with
      | Panics why => (w, Panics why)
      | Returns (Some err) =>
          if negb (Is ctx_Canceled err) then (w, Returns (Err err)) else answer req now (p_results st) w
      | Returns None => answer req now (p_results st) w
      end
  end.

(* go: app/telegramsearch/internal/pkg/controllers/controllerv1/story_try_embedding.go | func (c *Ctl) TryEmbedding *)
Definition TryEmbedding (Input : string) (now : Z) (w : W) : W * outcome (result error (list string)) :=
  match CreateEmbeddings api_CreateEmbeddings [Input] w with
  | (w, Err err) => (w, Returns (Err err))
  | (w, Ok embeddings) =>
      let st := run_searches 30 (check_then_append 30) (fetch "0.6" embeddings)
                  (schedule (neighbours (embedding_ranges now))) pool_start in
      match pool_Wait st with
      | Panics why => (w, Panics why)
      | Returns (Some err) => (w, Returns (Err err))
      | Returns None => (w, Returns (Ok (map Message (p_results st))))
      end
  end.
End controller.

(** ** The ranges *)

Lemma neighbours_cover (l : list Z) (a b t : Z) : StronglySorted Z.lt (a :: l) -> last (a :: l) = Some b ->
  (a <= t < b)%Z -> exists range, range ∈ neighbours (a :: l) /\ (range.1 <= t < range.2)%Z.
Proof.
  revert a. induction l as [|c l IH]; intros a Hs Hl Ht; [cbn in Hl; simplify_eq; lia|].
  apply StronglySorted_inv in Hs as [Hs Ha]. change (neighbours (a :: c :: l)) with ((a, c) :: neighbours (c :: l)).
  destruct (decide (t < c)%Z) as [Hc|Hc].
  - exists (a, c). split; [by left|cbn; lia].
  - destruct (IH c Hs Hl ltac:(lia)) as (r & Hr & Hin). exists r. split; [by right|done].
Qed.

Lemma neighbours_after (l : list Z) (a : Z) range : StronglySorted Z.lt (a :: l) -> range ∈ neighbours (a :: l) -> (a <= range.1)%Z.
Proof.
  revert a. induction l as [|c l IH]; intros a Hs Hr; [by apply not_elem_of_nil in Hr|].
  apply StronglySorted_inv in Hs as [Hs Ha]. apply Forall_cons in Ha as [Hac _].
  change (neighbours (a :: c :: l)) with ((a, c) :: neighbours (c :: l)) in Hr. apply elem_of_cons in Hr as [->|Hr]; [done|].
  specialize (IH c Hs Hr). lia.
Qed.

Lemma neighbours_disjoint (l : list Z) (t : Z) : StronglySorted Z.lt l ->
  length (filter (fun range => range.1 <= t < range.2)%Z (neighbours l)) <= 1.
Proof.
  induction l as [|a l IH]; intros Hs; [cbn; lia|]. destruct l as [|c l]; [cbn; lia|].
  change (neighbours (a :: c :: l)) with ((a, c) :: neighbours (c :: l)).
  pose proof Hs as [Hs' _]%StronglySorted_inv. destruct (decide (a <= t < c)%Z) as [Ht|Ht].
  - rewrite filter_cons_True by done.
    assert (filter (fun range => range.1 <= t < range.2)%Z (neighbours (c :: l)) = []) as ->; [|done].

    destruct (filter _ _) as [|r rs] eqn:E; [done|]. exfalso.
    assert (r ∈ r :: rs) as Hr by left. rewrite <- E in Hr. apply list_elem_of_filter in Hr as [Hin Hr].
    apply neighbours_after in Hr; [lia|done].
  - rewrite filter_cons_False by done. by apply IH.
Qed.

Lemma ranges_sorted now : StronglySorted Z.lt (completion_ranges now) /\ StronglySorted Z.lt (embedding_ranges now).
Proof.
  unfold completion_ranges, embedding_ranges, days_ago, time_add, Day, Hour, Minute, Second. cbn [map app].
  split; repeat (constructor; [|repeat (constructor; [lia|]); constructor]); constructor.
Qed.

(** The searches of a completion partition the last ten years: a thread with a message in
    them is in the range of exactly one search, an older or a future one in none. *)
Theorem completion_ranges_partition (now t : Z) :
  length (filter (fun range => range.1 <= t < range.2)%Z (neighbours (completion_ranges now)))
  = if decide (days_ago now 3650 <= t < now)%Z then 1 else 0.
Proof.
  destruct (ranges_sorted now) as [Hs _].
  pose proof (neighbours_disjoint _ t Hs) as H1. destruct (decide _) as [Ht|Ht].
  - destruct (neighbours_cover (tail (completion_ranges now)) (days_ago now 3650) now t Hs eq_refl Ht) as (r & Hr & Hin).
    assert (r ∈ filter (fun range => range.1 <= t < range.2)%Z (neighbours (completion_ranges now))) as Hf by by apply list_elem_of_filter.
    destruct (filter _ _) as [|x xs]; [by apply not_elem_of_nil in Hf|]. cbn in *. lia.
  - destruct (filter _ _) as [|r rs] eqn:E; [done|]. exfalso. apply Ht.
    assert (r ∈ r :: rs) as Hr by left. rewrite <- E in Hr. apply list_elem_of_filter in Hr as [Hin Hr].
    unfold completion_ranges in Hr. cbn [map app neighbours] in Hr. unfold days_ago, time_add, Day, Hour, Minute, Second in *.
    repeat (apply elem_of_cons in Hr as [->|Hr]; [cbn in Hin; lia|]). by apply not_elem_of_nil in Hr.
Qed.

(** ** What the tasks collect *)

Section pool.
Context {I : Type} (maxResults : nat) (append : pool_state -> row -> pool_state).
Hypothesis Happend : forall st r, exists c, append st r = MkPool (p_results st ++ [r]) c (p_errors st) (p_panic st).

Lemma fold_append l st : exists c, fold_left append l st = MkPool (p_results st ++ l) c (p_errors st) (p_panic st).
Proof.
  revert st. induction l as [|r l IH]; intros st; cbn.
  - exists (p_cancelled st). rewrite app_nil_r. by destruct st.
  - destruct (Happend st r) as [c ->]. destruct (IH (MkPool (p_results st ++ [r]) c (p_errors st) (p_panic st))) as [c' ->].
    exists c'. cbn. by rewrite <- app_assoc.
Qed.

Lemma finish_results a st : p_results (finish_task maxResults append a st) =
  p_results st ++ match a with Returns (Ok l) => l | _ => [] end.
Proof.
  destruct a as [[l|err]|why]; cbn.
  - by destruct (fold_append l st) as [c ->].
  - unfold search_failed, task_error. rewrite app_nil_r. by repeat case_match.
  - by rewrite app_nil_r.
Qed.

(** Everything collected is the answer to some task. *)
Lemma run_searches_sound (P : row -> Prop) (answer : I -> bool -> outcome (result error (list row))) order st :
  (forall i c l, i ∈ order -> answer i c = Returns (Ok l) -> Forall P l) ->
  Forall P (p_results st) -> Forall P (p_results (run_searches maxResults append answer order st)).
Proof.
  revert st. induction order as [|i order IH]; intros st Ha Hst; [done|]. apply IH.
  - intros j c l Hj. apply Ha. by right.
  - rewrite finish_results. apply Forall_app. split; [done|].
    destruct (answer i (p_cancelled st)) as [[l|]|] eqn:E; [|done..]. eapply Ha; [|done]. by left.
Qed.

Lemma run_searches_length n (answer : I -> bool -> outcome (result error (list row))) order st :
  (forall i c l, i ∈ order -> answer i c = Returns (Ok l) -> length l <= n) ->
  length (p_results (run_searches maxResults append answer order st)) <= length (p_results st) + n * length order.
Proof.
  revert st. induction order as [|i order IH]; intros st Ha; [cbn; lia|]. cbn [run_searches fold_left].
  change (length (p_results (run_searches maxResults append answer order (finish_task maxResults append (answer i (p_cancelled st)) st)))
          <= length (p_results st) + n * length (i :: order)).
  etrans; [apply IH; intros j c l Hj; apply Ha; by right|]. rewrite finish_results, length_app. cbn [length].
  destruct (answer i (p_cancelled st)) as [[l|]|] eqn:E; cbn; [|lia..].
  specialize (Ha i _ l ltac:(by left) E). lia.
Qed.

(** Without errors nothing is lost, also when the context is cancelled. *)
Lemma run_searches_ok (rows : I -> list row) (answer : I -> bool -> outcome (result error (list row))) order st :
  (forall i c, answer i c = Returns (Ok (rows i))) ->
  exists c, run_searches maxResults append answer order st
    = MkPool (p_results st ++ concat (map rows order)) c (p_errors st) (p_panic st).
Proof.
  intros Ha. revert st. induction order as [|i order IH]; intros st.
  { exists (p_cancelled st). cbn. rewrite app_nil_r. by destruct st. }
  cbn [run_searches fold_left]. rewrite Ha. cbn [finish_task]. destruct (fold_append (rows i) st) as [c ->].
  destruct (IH (MkPool (p_results st ++ rows i) c (p_errors st) (p_panic st))) as [c' E]. exists c'. unfold run_searches in E.
  rewrite E. cbn. by rewrite <- app_assoc.
Qed.
End pool.

Lemma append_then_check_law n st r : exists c, append_then_check n st r = MkPool (p_results st ++ [r]) c (p_errors st) (p_panic st).
Proof. by eexists. Qed.
Lemma check_then_append_law n st r : exists c, check_then_append n st r = MkPool (p_results st ++ [r]) c (p_errors st) (p_panic st).
Proof. by eexists. Qed.

(** ** Sorting *)

(** What [slices.SortFunc] asks of a comparison, and gives. *)
Definition strict_weak {A} (cmp : A -> A -> Z) : Prop :=
  (forall a, ~ cmp a a < 0)%Z /\
  (forall a b c, cmp a b < 0 -> cmp b c < 0 -> cmp a c < 0)%Z /\
  (forall a b c, cmp a b < 0 -> cmp a c < 0 \/ cmp c b < 0)%Z.
Definition sort_law (SortFunc : (row -> row -> Z) -> list row -> list row) : Prop :=
  forall cmp l, strict_weak cmp -> SortFunc cmp l ≡ₚ l /\ StronglySorted (fun a b => ~ cmp b a < 0)%Z (SortFunc cmp l).

Lemma time_sub_sign t u : (time_sub t u < 0 <-> t < u)%Z.
Proof. unfold time_sub, min_int64, max_int64. lia. Qed.

Lemma compare_time_weak : strict_weak compare_time.
Proof. unfold strict_weak, compare_time. setoid_rewrite time_sub_sign. split; [|split]; intros; lia. Qed.

Lemma StronglySorted_reverse {A} (R : A -> A -> Prop) l : StronglySorted R l -> StronglySorted (fun a b => R b a) (reverse l).
Proof.
  induction 1 as [|x l Hs IH Hx]; [constructor|]. rewrite reverse_cons.
  assert (Hr : Forall (fun y => R x y) (reverse l)) by by apply Forall_reverse.
  induction IH as [|y r Hr' IH Hy]; cbn; [by repeat constructor|]. apply Forall_cons in Hr as [Hxy Hr].
  constructor; [by apply IH|]. apply Forall_app. split; [done|]. by constructor.
Qed.

(** What a search gives once the question is embedded. *)
Lemma fetch_eq {F} table order_by db_err threshold (e : vec F) es emb range c : reslice 2000 e = Returns emb ->
  fetch table order_by db_err threshold (e :: es) range c
  = Returns (match db_err range c with
             | Some err => Err err
             | None => Ok (querySimilaritySearch table order_by range.1 range.2 emb 20)
             end).
Proof. intros H. unfold fetch, FetchSimilaritySearch. cbn [Embedding]. rewrite H. cbn [mbind outcome_bind]. by destruct (db_err range c). Qed.

(** ** Answers *)

Section answers.
Context {F W : Type}.
Context (api_CreateEmbeddings : list string -> W -> W * result error (list (vec F))).
Context (api_CreateChatCompletion : list string -> string -> W -> W * result error (list string)).
Context (table : list row) (order_by : list F -> list row -> list row).
Context (db_err : Z * Z -> bool -> option error) (schedule : list (Z * Z) -> list (Z * Z)).
Context (SortFunc : (row -> row -> Z) -> list row -> list row).
Context (Unmarshal : string -> result error thread) (DateOnly : Z -> string) (Sprintf : string -> string -> string).
Context (cache_Set : Z -> Z -> ExplainedMessage -> W -> W) (cache_Get : W -> Z -> W * option ExplainedMessage) (cfg : Config).

#[local] Notation complete := (TryCompletion api_CreateEmbeddings api_CreateChatCompletion table order_by db_err schedule SortFunc Unmarshal DateOnly Sprintf cache_Set cfg).
#[local] Notation search now embeddings := (run_searches 20 (append_then_check 20) (fetch table order_by db_err "0.5" embeddings)
  (schedule (neighbours (completion_ranges now))) pool_start).
#[local] Notation answer_with := (answer api_CreateChatCompletion SortFunc Unmarshal DateOnly Sprintf cache_Set cfg).

Definition in_range (range : Z * Z) (r : row) : Prop := r ∈ table /\ (range.1 <= MostRecentMessageAt r < range.2)%Z.

Section sound.
Context (Horder : forall emb l, order_by emb l ≡ₚ l) (Hschedule : forall l, schedule l ≡ₚ l) (Hsort : sort_law SortFunc).

Lemma fetch_sound threshold embeddings range c l :
  fetch table order_by db_err threshold embeddings range c = Returns (Ok l) -> Forall (in_range range) l /\ length l <= 20.
Proof.
  unfold fetch, FetchSimilaritySearch. destruct embeddings as [|e es]; [done|]. cbn.
  destruct (reslice 2000 e) as [emb|]; cbn; [|done]. destruct (db_err range c); [done|]. intros [= <-].
  unfold querySimilaritySearch. rewrite length_take. split; [|lia]. apply Forall_take. rewrite Horder.
  apply Forall_forall. intros r [Hr Ht]%list_elem_of_filter. done.
Qed.

Lemma search_sound now embeddings : let found := p_results (search now embeddings) in
  Forall (fun r => r ∈ table /\ days_ago now 3650 <= MostRecentMessageAt r < now)%Z found /\ length found <= 140.
Proof.
  cbv zeta. split.
  - apply (run_searches_sound _ _ (append_then_check_law 20)); [|constructor]. intros range c l Hr Hl.
    apply fetch_sound in Hl as [Hl _]. eapply Forall_impl; [exact Hl|]. intros r [Hin Ht]. split; [done|].
    rewrite Hschedule in Hr. destruct (decide (days_ago now 3650 <= MostRecentMessageAt r < now)%Z) as [?|Hn]; [done|]. exfalso.
    unfold completion_ranges in Hr. cbn [map app neighbours] in Hr. unfold days_ago, time_add, Day, Hour, Minute, Second in *.
    repeat (apply elem_of_cons in Hr as [->|Hr]; [cbn in Ht; lia|]). by apply not_elem_of_nil in Hr.
  - etrans; [apply (run_searches_length _ _ (append_then_check_law 20) 20)|].
    + intros range c l _ Hl. by apply fetch_sound in Hl as [_ Hl].
    + rewrite (Permutation_length (Hschedule _)). cbn. lia.
Qed.

Lemma answer_used req now found w w' resp : answer_with req now found w = (w', Returns (Ok resp)) ->
  UsedConversations resp ≡ₚ found /\
  StronglySorted (fun a b => MostRecentMessageAt b <= MostRecentMessageAt a)%Z (UsedConversations resp).
Proof.
  unfold answer. destruct (decide (found = [])) as [->|Hne]; [intros; simplify_eq; cbn; by repeat constructor|].
  destruct (CreateChatCompletion _ _ _ _) as [w1 [[c|e]|why]]; [|done..].
  destruct (saveCacheItem _ _ _ _ _) as [w2 [oe|why]]; [|done]. intros H. simplify_eq. cbn.
  destruct (Hsort compare_time found compare_time_weak) as [Hp Hs]. split.
  - by rewrite reverse_Permutation.
  - apply StronglySorted_reverse in Hs. clear -Hs. induction Hs as [|a l Hs IH Ha]; constructor; [done|].
    eapply Forall_impl; [exact Ha|]. intros b Hab. unfold compare_time in Hab. rewrite time_sub_sign in Hab. lia.
Qed.

(** C22. Whatever an answer is made of is a thread of the database with a message in the last ten
    years; the threads come with the most recent first, and there are at most 140 of them: 20
    for each of the seven searches. *)
Theorem TryCompletion_sound req now w w' resp : complete req now w = (w', Returns (Ok resp)) ->
  Forall (fun r => r ∈ table /\ days_ago now 3650 <= MostRecentMessageAt r < now)%Z (UsedConversations resp) /\
  StronglySorted (fun a b => MostRecentMessageAt b <= MostRecentMessageAt a)%Z (UsedConversations resp) /\
  length (UsedConversations resp) <= 140.
Proof.
  unfold TryCompletion. destruct (CreateEmbeddings _ _ _) as [w1 [embeddings|e]]; [|done].
  destruct (search_sound now embeddings) as [Hf Hl]. cbv zeta in *. set (st := search now embeddings) in *.
  assert (answer_with req now (p_results st) w1 = (w', Returns (Ok resp)) ->
    Forall (fun r => r ∈ table /\ days_ago now 3650 <= MostRecentMessageAt r < now)%Z (UsedConversations resp) /\
    StronglySorted (fun a b => MostRecentMessageAt b <= MostRecentMessageAt a)%Z (UsedConversations resp) /\
    length (UsedConversations resp) <= 140) as Hgo.
  { intros [Hp Hs]%answer_used. split_and!; [by rewrite Hp|done|by rewrite (Permutation_length Hp)]. }
  destruct (pool_Wait st) as [[err|]|why]; [destruct (negb _); [done|]|..]; done || exact Hgo.
Qed.
End sound.

(** ** Errors of the searches *)

Lemma run_all_cancelled answer rest st :
  Forall (fun range => answer range true = Returns (Err (Leaf ctx_Canceled))) rest ->
  p_cancelled st = true -> length (p_results st) <> 20 -> rest <> [] ->
  exists errs, run_searches (I := Z * Z) 20 (append_then_check 20) answer rest st
    = MkPool (p_results st) true (p_errors st ++ errs) (p_panic st) /\ Leaf ctx_Canceled ∈ errs.
Proof.
  intros Ha. revert st. induction Ha as [|i rest Hi Hrest IH]; intros st Hc Hn Hne; [done|].
  cbn [run_searches fold_left]. rewrite Hc, Hi. cbn [finish_task]. unfold search_failed. cbn [Is].
  change (Is ctx_Canceled (Leaf ctx_Canceled)) with true. cbn iota. rewrite decide_False by done.
  destruct rest as [|j rest].
  - exists [Leaf ctx_Canceled]. split; [done|by left].
  - destruct (IH (task_error (Leaf ctx_Canceled) st) eq_refl Hn ltac:(done)) as (errs & E & Hin).
    exists (Leaf ctx_Canceled :: errs). unfold run_searches in E. rewrite E. cbn. rewrite <- app_assoc. split; [done|by left].
Qed.

Lemma run_lost answer first rest err :
  answer first false = Returns (Err err) -> Forall (fun range => answer range true = Returns (Err (Leaf ctx_Canceled))) rest -> rest <> [] ->
  exists errs, run_searches (I := Z * Z) 20 (append_then_check 20) answer (first :: rest) pool_start = MkPool [] true errs None /\
    Is ctx_Canceled (Join errs) = true /\ errs <> [].
Proof.
  intros Hf Hr Hne. unfold run_searches. cbn [fold_left pool_start p_cancelled]. rewrite Hf. cbn [finish_task].
  assert (search_failed 20 err pool_start = task_error err pool_start) as -> by (unfold search_failed; by case_match).
  destruct (run_all_cancelled answer rest (task_error err pool_start) Hr) as (errs & E & Hin); [done..|].
  unfold run_searches in E. exists (err :: errs). rewrite E. split_and!; [done| |done]. apply Is_join_elem. by right.
Qed.

(** C23. An error of the database is lost: it cancels the other searches, their cancellations make
    the joined error look like one, and that is ignored; the user is told that nothing was found. *)
Theorem TryCompletion_loses_errors req now w w1 e es emb err first rest :
  CreateEmbeddings api_CreateEmbeddings [Query req] w = (w1, Ok (e :: es)) -> reslice 2000 e = Returns emb ->
  schedule (neighbours (completion_ranges now)) = first :: rest -> rest <> [] ->
  db_err first false = Some err -> Forall (fun range => db_err range true = Some (Leaf ctx_Canceled)) rest ->
  complete req now w = (w1, Returns (Ok {| Response := NoResultsAnswer cfg; UsedConversations := [] |})).
Proof.
  intros He Hemb Hs Hne Hfirst Hrest.
  assert (Hf : forall range c err, db_err range c = Some err ->
    fetch table order_by db_err "0.5" (e :: es) range c = Returns (Err err)).
  { intros range c err0 E. by rewrite (fetch_eq _ _ _ _ _ _ emb), E. }
  unfold TryCompletion. rewrite He, Hs. generalize dependent (fetch table order_by db_err "0.5" (e :: es)). intros ans Hf.
  destruct (run_lost ans first rest err (Hf _ _ _ Hfirst)) as (errs & -> & Hc & Hn); [|done|].
  - eapply Forall_impl; [exact Hrest|]. intros range. apply Hf.
  - unfold pool_Wait. cbn [p_panic p_errors p_results]. destruct errs as [|e0 errs]; [done|]. by rewrite Hc.
Qed.

(** ** Explanations *)

(** What the documentation of the cache says: an item that was set has an end, and is found until
    then, unless it is replaced or the cache is full. [stored] is what an item is and its end; the
    cache reads the clock, and is quick. *)
Record ttl_cache (now : W -> Z) (stored : W -> Z -> option (ExplainedMessage * Z)) : Prop := {
  law_Set : forall ttl k v w, (0 < ttl)%Z ->
    stored (cache_Set ttl k v w) k = Some (v, now w + ttl)%Z /\ now (cache_Set ttl k v w) = now w;
  law_Get : forall w k, (cache_Get w k).2 =
    match stored w k with Some (v, until) => if decide (now w <= until)%Z then Some v else None | None => None end
}.

(** A conversation whose first message can be read, and the source that is made of it. *)
Definition source_of (r : row) (s : SourcedMessage) : Prop :=
  exists m t, Unmarshal (ConversationStarter r) = Ok (m :: t) /\
    URL s = "https://t.me/" +:+ TelegramChatID r +:+ "/" +:+ pretty (ID m) /\
    s_MostRecentMessageAt s = MostRecentMessageAt r /\ FirstLetters s = first_letters (getText m).
Definition readable (r : row) : Prop := exists m t, Unmarshal (ConversationStarter r) = Ok (m :: t).

Lemma sources_readable used : Forall readable used ->
  exists l, sources Unmarshal used = Returns (Ok l) /\ Forall2 source_of used l.
Proof.
  induction 1 as [|r used (m & t & Hr) _ (l & Hl & IH)]; [by exists []|].
  cbn. rewrite Hr, Hl. eexists. split; [done|]. constructor; [by exists m, t|done].
Qed.

(** What an answered question leaves in the cache: the sources of the answer, at most 15 of them,
    in the order of the answer. *)
Lemma answer_saved now stored req time w w' resp l : ttl_cache now stored ->
  complete req time w = (w', Returns (Ok resp)) -> UsedConversations resp <> [] ->
  sources Unmarshal (take 15 (UsedConversations resp)) = Returns (Ok l) ->
  stored w' (SenderID req) = Some ({| Sources := l |}, now w' + explained_ttl)%Z.
Proof.
  intros Hcache H Hne Hl.
  assert (forall found w1, answer_with req time found w1 = (w', Returns (Ok resp)) ->
    stored w' (SenderID req) = Some ({| Sources := l |}, now w' + explained_ttl)%Z) as Hgo.
  { intros found w1. unfold answer. destruct (decide (found = [])); [intros; by simplify_eq|].
    destruct (CreateChatCompletion _ _ _ _) as [w2 [[c|e]|why]]; [|done..].
    unfold saveCacheItem. set (used := reverse _) in *.
    destruct (sources Unmarshal (take 15 used)) as [[l'|e]|why] eqn:E; intros Ha; simplify_eq; cbn in Hl.
    - rewrite E in Hl. injection Hl as <-. destruct (law_Set _ _ Hcache explained_ttl (SenderID req) {| Sources := l' |} w2) as [-> ->]; done.
    - by rewrite E in Hl. }
  revert H. unfold TryCompletion. destruct (CreateEmbeddings _ _ _) as [w1 [embeddings|e]]; [|done].
  destruct (pool_Wait _) as [[err|]|why]; [destruct (negb _); [done|]|..]; done || apply Hgo.
Qed.

(** The explanation its sender gets later, if nothing has happened to the item since. *)
Lemma explained_after_answer now stored req time w w' resp l w2 : ttl_cache now stored ->
  complete req time w = (w', Returns (Ok resp)) -> UsedConversations resp <> [] ->
  sources Unmarshal (take 15 (UsedConversations resp)) = Returns (Ok l) ->
  stored w2 (SenderID req) = stored w' (SenderID req) ->
  (ExplainMessage DateOnly cache_Get cfg (SenderID req) w2).2 =
    if decide (now w2 <= now w' + explained_ttl)%Z then ForUser DateOnly {| Sources := l |} else NoExplainedAnswer cfg.
Proof.
  intros Hcache Hc Hne Hl Hkept. rewrite (answer_saved now stored _ _ _ _ _ l Hcache Hc Hne Hl) in Hkept.
  unfold ExplainMessage. pose proof (law_Get _ _ Hcache w2 (SenderID req)) as Hg. rewrite Hkept in Hg.
  destruct (cache_Get w2 (SenderID req)) as [w3 v]. cbn in *. subst v. by case_decide.
Qed.

Lemma TryCompletion_sorted req time w w' resp : sort_law SortFunc ->
  complete req time w = (w', Returns (Ok resp)) ->
  StronglySorted (fun a b => MostRecentMessageAt b <= MostRecentMessageAt a)%Z (UsedConversations resp).
Proof.
  intros Hsort. unfold TryCompletion. destruct (CreateEmbeddings _ _ _) as [w1 [embeddings|e]]; [|done].
  destruct (pool_Wait _) as [[err|]|why]; [destruct (negb _); [done|]|..]; try done; by intros [_ Hs]%answer_used.
Qed.
End answers.

(** ** The first letters *)

(** What is kept of a message is its beginning, at most 120 bytes of it. *)
Theorem first_letters_spec (text : string) :
  (exists n, first_letters text = stake n text) /\ String.length (first_letters text) <= 120.
Proof.
  assert (Hall : forall s, stake (String.length s) s = s) by (intros s; by rewrite stake_ge by done).
  unfold first_letters. set (cut := if decide (60 < _) then _ else _).
  assert (Hcut : exists n, cut = stake n text).
  { unfold cut. repeat case_match; eauto. }
  clearbody cut. destruct Hcut as [n ->]. destruct (decide (120 < String.length (stake n text))) as [H|H]; [|by eauto with lia].
  split; [|rewrite stake_length; lia]. exists (Nat.min 100 n). clear H. revert text n. generalize 100. intros m.
  induction m as [|m IH]; intros [|c text] [|n]; cbn; try done. by rewrite IH.
Qed.

(** The cut comes after the first dot, not the last one, and may fall within a character: the
    bytes of a Cyrillic text are two each, so that an odd number of them is left of a message that
    begins with a space. *)
Theorem first_letters_splits_characters :
  let text := " " +:+ String.concat "" (replicate 65 "Я") in
  String.length (first_letters text) = 100 /\ Nat.odd (String.length (sdrop 1 (first_letters text))) = true.
Proof. vm_compute. done. Qed.

(** ** Too much found *)

Section too_much.
Context {F W : Type} (api_CreateEmbeddings : list string -> W -> W * result error (list (vec F))).
Context (table : list row) (order_by : list F -> list row -> list row) (db_err : Z * Z -> bool -> option error).
Context (schedule : list (Z * Z) -> list (Z * Z)).

Lemma run_searches_keeps_errors {I} answer order st : p_errors st <> [] ->
  p_errors (run_searches (I := I) 30 (check_then_append 30) answer order st) <> [].
Proof.
  revert st. induction order as [|i order IH]; intros st H; [done|]. apply IH.
  destruct (answer i (p_cancelled st)) as [[l|e]|why]; cbn; [|unfold search_failed; repeat case_match; try done; cbn; by intros [? ?]%app_nil|done].
  by destruct (fold_append _ (check_then_append_law 30) l st) as [c ->].
Qed.

Lemma run_searches_no_panic {I} answer order st : p_panic st = None ->
  (forall i c, i ∈ order -> exists r, answer i c = Returns r) ->
  p_panic (run_searches (I := I) 30 (check_then_append 30) answer order st) = None.
Proof.
  revert st. induction order as [|i order IH]; intros st H Ha; [done|]. apply IH; [|intros j c Hj; apply Ha; by right].
  destruct (Ha i (p_cancelled st) ltac:(by left)) as [[l|e] ->]; cbn.
  - by destruct (fold_append _ (check_then_append_law 30) l st) as [c ->].
  - unfold search_failed. by repeat case_match.
Qed.

Lemma fold_check l st : fold_left (check_then_append 30) l st
  = MkPool (p_results st ++ l)
      (p_cancelled st || bool_decide (length (p_results st) <= 30 < length (p_results st) + length l)) (p_errors st) (p_panic st).
Proof.
  revert st. induction l as [|r l IH]; intros st; cbn [fold_left length].
  - rewrite app_nil_r, bool_decide_eq_false_2, orb_false_r by lia. by destruct st.
  - rewrite IH. cbn [check_then_append p_results p_cancelled p_errors p_panic]. rewrite <- app_assoc, length_app. f_equal.
    rewrite <- orb_assoc. f_equal. cbn [length].
    destruct (decide (length (p_results st) = 30)) as [H|H]; repeat case_bool_decide; lia || done.
Qed.

Lemma run_plenty (ans : Z * Z -> bool -> outcome (result error (list row))) r1 r2 r3 rest l1 l2 :
  ans r1 false = Returns (Ok l1) -> ans r2 false = Returns (Ok l2) -> ans r3 true = Returns (Err (Leaf ctx_Canceled)) ->
  length l1 = 20 -> length l2 = 20 -> (forall i c, i ∈ rest -> exists r, ans i c = Returns r) ->
  exists err, pool_Wait (run_searches 30 (check_then_append 30) ans (r1 :: r2 :: r3 :: rest) pool_start) = Returns (Some err).
Proof.
  intros H1 H2 H3 L1 L2 Hr.
  assert (run_searches 30 (check_then_append 30) ans (r1 :: r2 :: r3 :: rest) pool_start
    = run_searches 30 (check_then_append 30) ans rest (MkPool (l1 ++ l2) true [Leaf ctx_Canceled] None)) as ->.
  { unfold run_searches, pool_start. cbn [fold_left p_cancelled]. f_equal. rewrite H1. cbn [finish_task].
    rewrite fold_check. cbn [p_results p_cancelled p_errors p_panic app length]. rewrite L1. cbn [Nat.add orb].
    change (bool_decide (0 <= 30 < 20)) with false. rewrite H2. cbn [finish_task].
    rewrite fold_check. cbn [p_results p_cancelled p_errors p_panic]. rewrite L1, L2. cbn [Nat.add orb].
    change (bool_decide (20 <= 30 < 40)) with true. rewrite H3. cbn [finish_task]. unfold search_failed.
    change (Is ctx_Canceled (Leaf ctx_Canceled)) with true. cbn [p_results]. by rewrite length_app, L1, L2. }
  set (st := MkPool _ true [Leaf ctx_Canceled] None). set (st' := run_searches 30 _ ans rest st).
  assert (p_errors st' <> []) as He' by by apply run_searches_keeps_errors.
  assert (p_panic st' = None) as Hp by by apply run_searches_no_panic.
  unfold pool_Wait. rewrite Hp. destruct (p_errors st'); [done|]. by eexists.
Qed.

(** Once two searches have found 20 threads each, the others are cancelled because there are
    enough; a search that says so then fails the whole request, since the count it compares is not
    the maximum any more. *)
Theorem TryEmbedding_fails_on_plenty Input now w w1 e es emb r1 r2 r3 rest :
  CreateEmbeddings api_CreateEmbeddings [Input] w = (w1, Ok (e :: es)) -> reslice 2000 e = Returns emb ->
  schedule (neighbours (embedding_ranges now)) = r1 :: r2 :: r3 :: rest ->
  db_err r1 false = None -> db_err r2 false = None -> db_err r3 true = Some (Leaf ctx_Canceled) ->
  length (querySimilaritySearch table order_by r1.1 r1.2 emb 20) = 20 ->
  length (querySimilaritySearch table order_by r2.1 r2.2 emb 20) = 20 ->
  exists err, TryEmbedding api_CreateEmbeddings table order_by db_err schedule Input now w = (w1, Returns (Err err)).
Proof.
  intros He Hemb Hs H1 H2 H3 L1 L2. unfold TryEmbedding. rewrite He, Hs.
  pose proof (fun r c => fetch_eq table order_by db_err "0.6" e es emb r c Hemb) as Hans.
  destruct (run_plenty (fetch table order_by db_err "0.6" (e :: es)) r1 r2 r3 rest
    (querySimilaritySearch table order_by r1.1 r1.2 emb 20) (querySimilaritySearch table order_by r2.1 r2.2 emb 20))
    as [err ->]; [rewrite Hans, ?H1, ?H2, ?H3; done..|done|done| |by eexists].
  intros i c _. rewrite Hans. by eexists.
Qed.
End too_much.

(** ** A demonstration *)

Definition demo_sort (cmp : row -> row -> Z) : list row -> list row := merge_sort (fun a b => ~ cmp b a < 0)%Z.
Lemma demo_sort_law : sort_law demo_sort.
Proof.
  intros cmp l (Hirr & Htr & Hneg). split; [apply merge_sort_Permutation|]. apply StronglySorted_merge_sort.
  - intros a b c Hab Hbc Hca. destruct (Hneg c a b Hca); [by apply Hbc|by apply Hab].
  - intros a b. destruct (decide (cmp b a < 0)%Z) as [H|H]; [right|by left]. intros H'. by apply (Hirr a), (Htr a b a).
Qed.

(** Eleven years after the zero time. *)
Definition demo_now : Z := (11 * 365 * Day)%Z.
Definition demo_row (name : string) (age : Z) : row :=
  {| Message := name; TelegramChatID := "cy"; ConversationStarter := name; MostRecentMessageAt := days_ago demo_now age |}.
Definition demo_table : list row := [demo_row "old" 4000; demo_row "a" 3000; demo_row "b" 5; demo_row "c" 500].
Definition demo_vec : vec nat := MkVec (replicate 1536 0) (replicate 512 0).
(** A cache that nothing leaves, with the time at which each item ends. *)
Notation demo_cache := (list (Z * (ExplainedMessage * Z))).
Definition demo_embeddings (_ : list string) (w : demo_cache) :
    demo_cache * result error (list (vec nat)) := (w, Ok [demo_vec]).
Definition demo_choices (conversations : list string) (_ : string) (w : demo_cache) :
    demo_cache * result error (list string) := (w, Ok [join "," conversations]).
Definition demo_json (s : string) : result error thread :=
  Ok [{| ID := 7; Type_ := "message"; DateUnix := ""; FromId := ""; TextEntities := [MkEntity s]; Reply := 0 |}].
Definition demo_set (ttl k : Z) (v : ExplainedMessage) (w : demo_cache) : demo_cache := (k, (v, demo_now + ttl)%Z) :: w.
Definition demo_stored (w : demo_cache) (k : Z) : option (ExplainedMessage * Z) := snd <$> head (filter (fun kv => kv.1 = k) w).
Definition demo_get (w : demo_cache) (k : Z) : demo_cache * option ExplainedMessage :=
  (w, match demo_stored w k with Some (v, until) => if decide (demo_now <= until)%Z then Some v else None | None => None end).
Lemma demo_ttl_cache : ttl_cache demo_set demo_get (fun _ => demo_now) demo_stored.
Proof. split; [|done]. intros ttl k v w _. split; [|done]. unfold demo_stored, demo_set. by rewrite filter_cons_True. Qed.
Definition demo_cfg : Config := {| HelpText := "help"; NewsText := "news"; NoExplainedAnswer := "?"; NoResultsAnswer := "none";
  StaleResponsesText := "stale"; FreshResponsesText := "few"; StaleThreshold := (730 * Day)%Z |}.
Definition demo_ok (_ : Z * Z) (_ : bool) : option error := None.
(** The database is gone: a search fails, or is cancelled. *)
Definition demo_down (_ : Z * Z) (cancelled : bool) : option error :=
  Some (if cancelled then Leaf ctx_Canceled else Leaf (LPgError "57P01" "terminating connection")).
Definition demo_req : ReqTryCompletion := {| SenderID := 5; Query := "q" |}.
Notation demo_complete db := (TryCompletion demo_embeddings demo_choices demo_table (fun _ l => l) db id
  demo_sort demo_json (fun _ => "date") (fun fmt arg => fmt +:+ " " +:+ arg) demo_set demo_cfg demo_req demo_now []).

(** The three threads of the last ten years; the answer is made of them in this order. *)
Definition demo_used : list row := [demo_row "b" 5; demo_row "c" 500; demo_row "a" 3000].
Example demo_answer : exists w,
  demo_complete demo_ok = (w, Returns (Ok {| Response := "b,c,a"; UsedConversations := demo_used |})).
Proof. eexists. vm_compute. reflexivity. Qed.

Definition demo_sources : list SourcedMessage :=
  map (fun r => {| URL := "https://t.me/cy/7"; s_MostRecentMessageAt := MostRecentMessageAt r; FirstLetters := Message r |}) demo_used.
Definition demo_response : RespTryCompletion := {| Response := "b,c,a"; UsedConversations := demo_used |}.

Lemma TryCompletion_sound_witness :
  demo_complete demo_ok = ([(5%Z, ({| Sources := demo_sources |}, demo_now + explained_ttl)%Z)], Returns (Ok demo_response)) /\
  Forall (fun r => r ∈ demo_table /\ days_ago demo_now 3650 <= MostRecentMessageAt r < demo_now)%Z demo_used /\
  StronglySorted (fun a b => MostRecentMessageAt b <= MostRecentMessageAt a)%Z demo_used /\ length demo_used <= 140.
Proof.
  assert (demo_complete demo_ok = ([(5%Z, ({| Sources := demo_sources |}, demo_now + explained_ttl)%Z)], Returns (Ok demo_response))) as E by (vm_compute; reflexivity).
  split; [exact E|]. apply (TryCompletion_sound _ _ _ _ _ _ _ _ _ _ _ _ (fun _ _ => reflexivity _) (fun _ => reflexivity _)
    demo_sort_law _ _ _ _ _ E).
Defined.

Lemma TryCompletion_loses_errors_witness :
  demo_complete demo_down = ([], Returns (Ok {| Response := "none"; UsedConversations := [] |})).
Proof.
  apply (TryCompletion_loses_errors demo_embeddings demo_choices demo_table (fun _ l => l) demo_down id demo_sort demo_json (fun _ => "date")
    (fun fmt arg => fmt +:+ " " +:+ arg) demo_set demo_cfg demo_req demo_now [] [] demo_vec [] (replicate 2000 0)
    (Leaf (LPgError "57P01" "terminating connection")) (days_ago demo_now 3650, days_ago demo_now 1095)%Z
    (tail (neighbours (completion_ranges demo_now)))); try reflexivity.
  - discriminate.
  - repeat constructor.
Defined.
