(* ===== verification/Embeddings.v ===== *)
(** * Embedding the threads
      (app/telegramsearch/internal/pkg/controllers/controllerv1/story_generate_embeddings.go,
      client/storage/postgres)

    Threads without an embedding are fetched, embedded and stored until there are none. The
    tables of the database are modelled; OpenAI, JSON, the clock's time zone and the failures of
    the database are parameters. *)
From S2P Require Import Prelude Decimal Codes GoErrors Threads Search.

(* go: app/telegramsearch/internal/pkg/client/storage/postgres/internal/dbmodels/chatthread.go | type ChatThread struct *)
Record ChatThread := { ThreadID : Z; Body : string; ct_ChatID : string }.
#[export] Instance ChatThread_eq_dec : EqDecision ChatThread.
Proof. solve_decision. Defined.

(** A row of the table embeddings, without its key. *)
Record embedded (F : Type) := MkEmbedded { e_chat_id : string; e_message : string; e_embedding : list F }.
Arguments MkEmbedded {F}.
Arguments e_chat_id {F}.
Arguments e_message {F}.
Arguments e_embedding {F}.

(** The tables chatthreads, and embeddings by their unique thread_id. *)
Record tables (F : Type) := MkTables { chatthreads : list ChatThread; embeddings : gmap Z (embedded F) }.
Arguments MkTables {F}.
Arguments chatthreads {F}.
Arguments embeddings {F}.

(* go: app/telegramsearch/internal/pkg/client/storage/storagemodels/storagemodels.go | type ReqUpsertEmbedding struct *)
Record ReqUpsertEmbedding (F : Type) := MkUpsert { u_Embedding : vec F; u_Message : string; u_ChatID : string; u_ThreadID : Z }.
Arguments MkUpsert {F}.
Arguments u_Embedding {F}.
Arguments u_Message {F}.
Arguments u_ChatID {F}.
Arguments u_ThreadID {F}.

Section generate.
Context {F W : Type}.
(** The order of rows is the database's; its failures depend on the world. *)
Context (pick : list ChatThread -> list ChatThread) (fetch_err upsert_err create_err : W -> option error).
Context (api_CreateEmbeddings : list string -> W -> W * result error (list (vec F))).
Context (Unmarshal : string -> result error thread) (Marshal : thread -> string) (format_unix : Z -> string).

Definition unembedded (db : tables F) : list ChatThread :=
  filter (fun t => embeddings db !! ThreadID t = None) (chatthreads db).

(* go: app/telegramsearch/internal/pkg/client/storage/postgres/req_chatthreads.go | func (s *Storage) FetchChatThreadToGenerateEmbedding *)
Definition FetchChatThreadToGenerateEmbedding (w : W) (db : tables F) : result error (list ChatThread) :=
  match fetch_err w with Some err => Err err | None => Ok (take 2000 (pick (unembedded db))) end.

(** The next value of the sequence is the key. *)
(* go: app/telegramsearch/internal/pkg/client/storage/postgres/req_chatthreads.go | func (s *Storage) CreateChatThread *)
Definition CreateChatThread (next : Z) (chat : string) (body : thread) (w : W) (db : tables F) : tables F * option error :=
  match create_err w with
  | Some err => (db, Some err)
  | None => (MkTables (chatthreads db ++ [{| ThreadID := next; Body := Marshal body; ct_ChatID := chat |}]) (embeddings db), None)
  end.

(** [INSERT ... ON CONFLICT (thread_id) DO UPDATE]: the chat of a row that exists is kept. *)
(* go: app/telegramsearch/internal/pkg/client/storage/postgres/req_embeddings.go | var queryUpsertEmbedding *)
Definition queryUpsertEmbedding (id : Z) (chat message : string) (emb : list F) (m : gmap Z (embedded F)) : gmap Z (embedded F) :=
  <[id := MkEmbedded (match m !! id with Some e => e_chat_id e | None => chat end) message emb]> m.

(* go: app/telegramsearch/internal/pkg/client/storage/postgres/req_embeddings.go | func (s *Storage) UpsertEmbedding *)
Definition UpsertEmbedding (req : ReqUpsertEmbedding F) (w : W) (db : tables F) : tables F * outcome (option error) :=
  match reslice 2000 (u_Embedding req) with
  | Panics why => (db, Panics why)
  | Returns emb =>
      match upsert_err w with
      | Some err => (db, Returns (Some err))
      | None => (MkTables (chatthreads db)
                   (queryUpsertEmbedding (u_ThreadID req) (u_ChatID req) (u_Message req) emb (embeddings db)), Returns None)
      end
  end.

(** The task of a thread. The error of [CreateEmbeddings] is overwritten before it is looked at. *)
(* go: app/telegramsearch/internal/pkg/controllers/controllerv1/story_generate_embeddings.go | p.Go(func | L27-L54 *)
Definition embed_thread (process : ChatThread) (s : W * tables F) : (W * tables F) * outcome (option error) :=
  let '(w, db) := s in
  match Unmarshal (Body process) with
  | Err err => ((w, db), Returns (Some err))
  | Ok t =>
      if decide (length t < 2) then ((w, db), Returns None)
      else
        let '(w, queryResponse) := CreateEmbeddings api_CreateEmbeddings [ForEmbedding t] w in
        match ForShowingToTheUser format_unix t (ct_ChatID process) with
        | Panics why => ((w, db), Panics why)
        | Returns msg =>
            match queryResponse with
            | Ok (e :: _) =>
                let '(db, r) := UpsertEmbedding (MkUpsert e msg (ct_ChatID process) (ThreadID process)) w db in ((w, db), r)
            | Ok [] | Err _ => ((w, db), Returns None)
            end
        end
  end.

(** The pool runs all the tasks; a panic goes through [p.Wait], else the errors are joined. The
    world is the one OpenAI sees and tasks write different rows, so that their overlapping has the
    effect of some order. *)
Fixpoint embed_all (threads : list ChatThread) (s : W * tables F) : (W * tables F) * (option string * list error) :=
  match threads with
  | [] => (s, (None, []))
  | t :: threads' =>
      let '(s, r) := embed_thread t s in
      let '(s, (p, es)) := embed_all threads' s in
      (s, match r with
          | Panics why => (Some why, es)
          | Returns (Some e) => (p, e :: es)
          | Returns None => (p, es)
          end)
  end.

(** The loop; [None] is a run that has not ended after [fuel] rounds. *)
(* go: app/telegramsearch/internal/pkg/controllers/controllerv1/story_generate_embeddings.go | func (c *Ctl) GenerateEmbeddings *)
Fixpoint GenerateEmbeddings (fuel : nat) (s : W * tables F) : option ((W * tables F) * outcome (option error)) :=
  match fuel with
  | 0 => None
  | S fuel' =>
      match FetchChatThreadToGenerateEmbedding s.1 s.2 with
      | Err err => Some (s, Returns (Some err))
      | Ok [] => Some (s, Returns None)
      | Ok threads =>
          match embed_all threads s with
          | (s, (Some why, _)) => Some (s, Panics why)
          | (s, (None, [])) => GenerateEmbeddings fuel' s
          | (s, (None, errs)) => Some (s, Returns (Some (Join errs)))
          end
      end
  end.
End generate.

(** ** Theorems *)

Lemma filter_length_lt {A} (P Q : A -> Prop) `{forall x, Decision (P x)} `{forall x, Decision (Q x)} (l : list A) x :
  (forall y, Q y -> P y) -> x ∈ l -> P x -> ~ Q x -> length (filter Q l) < length (filter P l).
Proof.
  intros HQP Hx HP HQ. assert (Hle : forall l : list A, length (filter Q l) <= length (filter P l)).
  { induction l0 as [|y l0 IH]; [done|]. rewrite !filter_cons. repeat case_decide; cbn; try lia. naive_solver. }
  apply list_elem_of_split in Hx as (l1 & l2 & ->). rewrite !filter_app, !length_app, filter_cons_False, filter_cons_True by done.
  pose proof (Hle l1). pose proof (Hle l2). cbn. lia.
Qed.

Lemma NoDup_map_inj {A B} (f : A -> B) l x y : NoDup (map f l) -> x ∈ l -> y ∈ l -> f x = f y -> x = y.
Proof.
  intros Hnd Hx Hy E. apply list_elem_of_lookup in Hx as [i Hi]. apply list_elem_of_lookup in Hy as [j Hj].
  assert (i = j) as ->; [|congruence]. eapply NoDup_lookup; [exact Hnd|..]; rewrite list_lookup_fmap, ?Hi, ?Hj; [done|].
  cbn. by rewrite E.
Qed.

Section theorems.
Context {F W : Type}.
Context (pick : list ChatThread -> list ChatThread) (fetch_err upsert_err : W -> option error).
Context (api_CreateEmbeddings : list string -> W -> W * result error (list (vec F))).
Context (Unmarshal : string -> result error thread) (format_unix : Z -> string).
Context (Hpick : forall l, pick l ≡ₚ l).

#[local] Notation embed_thread := (embed_thread upsert_err api_CreateEmbeddings Unmarshal format_unix).
#[local] Notation embed_all := (embed_all upsert_err api_CreateEmbeddings Unmarshal format_unix).
#[local] Notation generate := (GenerateEmbeddings pick fetch_err upsert_err api_CreateEmbeddings Unmarshal format_unix).

(** A task changes no thread, and the embedding of its own thread only. *)
Lemma embed_thread_frame p w (db : tables F) w' db' r : embed_thread p (w, db) = ((w', db'), r) ->
  chatthreads db' = chatthreads db /\ (forall id, id <> ThreadID p -> embeddings db' !! id = embeddings db !! id) /\
  (forall id, is_Some (embeddings db !! id) -> is_Some (embeddings db' !! id)).
Proof.
  unfold Embeddings.embed_thread. destruct (Unmarshal (Body p)) as [t|]; [|intros; by simplify_eq].
  destruct (decide (length t < 2)); [intros; by simplify_eq|].
  destruct (CreateEmbeddings _ _ _) as [w1 q]. destruct (ForShowingToTheUser _ _ _) as [msg|]; [|intros; by simplify_eq].
  destruct q as [[|e es]|]; [intros; by simplify_eq| |intros; by simplify_eq].
  unfold UpsertEmbedding. destruct (reslice _ _) as [emb|]; [|intros; by simplify_eq].
  destruct (upsert_err w1); [intros; by simplify_eq|]. intros H. simplify_eq. cbn [chatthreads embeddings]. unfold queryUpsertEmbedding.
  split; [done|]. split; intros id Hid; [by rewrite lookup_insert_ne|].
  cbn [u_ThreadID]. destruct (decide (ThreadID p = id)) as [->|Hne]; [by rewrite lookup_insert_eq|by rewrite lookup_insert_ne].
Qed.

Lemma embed_all_frame ts w (db : tables F) w' db' r : embed_all ts (w, db) = ((w', db'), r) ->
  chatthreads db' = chatthreads db /\ (forall id, is_Some (embeddings db !! id) -> is_Some (embeddings db' !! id)).
Proof.
  revert w db r. induction ts as [|t ts IH]; intros w db r H; cbn [Embeddings.embed_all] in H; [by simplify_eq|].
  destruct (embed_thread t (w, db)) as [[w1 db1] r1] eqn:E1. destruct (embed_all ts (w1, db1)) as [[w2 db2] [p es]] eqn:E2.
  simplify_eq. apply embed_thread_frame in E1 as (Hc & _ & Hm). apply IH in E2 as (Hc' & Hm'). rewrite Hc', Hc. eauto.
Qed.

(** ** A thread that is skipped *)

Definition skipped (t : ChatThread) : Prop := exists th, Unmarshal (Body t) = Ok th /\ length th < 2.

Lemma embed_all_skipped t ts w (db : tables F) w' db' r : skipped t -> NoDup (map ThreadID (chatthreads db)) -> t ∈ chatthreads db ->
  Forall (fun p => p ∈ chatthreads db) ts -> embeddings db !! ThreadID t = None ->
  embed_all ts (w, db) = ((w', db'), r) -> embeddings db' !! ThreadID t = None.
Proof.
  intros (th & Hu & Hlen) Hnd Ht. revert w db Hnd Ht r. induction ts as [|p ts IH]; intros w db Hnd Ht r Hts Hn H;
    cbn [Embeddings.embed_all] in H; [by simplify_eq|].
  destruct (embed_thread p (w, db)) as [[w1 db1] r1] eqn:E1. destruct (embed_all ts (w1, db1)) as [[w2 db2] [q es]] eqn:E2.
  apply Forall_cons in Hts as [Hp Hts]. simplify_eq. pose proof (embed_thread_frame _ _ _ _ _ _ E1) as (Hc & Hf & _).
  eapply IH; [..|exact E2]; rewrite ?Hc; try done.
  destruct (decide (p = t)) as [->|Hne].
  - unfold Embeddings.embed_thread in E1. rewrite Hu, decide_True in E1 by done. by simplify_eq.
  - rewrite Hf; [done|]. intros Hid. apply Hne. symmetry in Hid. by apply (NoDup_map_inj ThreadID (chatthreads db)).
Qed.

(** C25. The loop cannot end with success while there is a thread it skips, one of fewer than two
    messages: the thread has no embedding, so that it is fetched again, for ever. *)
Theorem skipped_thread_never_succeeds t fuel w (db : tables F) s : skipped t -> NoDup (map ThreadID (chatthreads db)) ->
  t ∈ chatthreads db -> embeddings db !! ThreadID t = None -> generate fuel (w, db) <> Some (s, Returns None).
Proof.
  intros Hs. revert w db. induction fuel as [|fuel IH]; intros w db Hnd Ht Hn; [done|]. cbn [GenerateEmbeddings fst snd].
  unfold FetchChatThreadToGenerateEmbedding. destruct (fetch_err w) as [e|]; [congruence|].
  assert (Hun : t ∈ unembedded db) by by apply list_elem_of_filter.
  destruct (take 2000 (pick (unembedded db))) as [|p ps] eqn:E.
  { exfalso. rewrite <- Hpick in Hun. destruct (pick (unembedded db)); [by apply not_elem_of_nil in Hun|done]. }
  destruct (embed_all (p :: ps) (w, db)) as [[w1 db1] [[why|] [|e es]]] eqn:Ea; try congruence.
  assert (Forall (fun p => p ∈ chatthreads db) (p :: ps)).
  { rewrite <- E. apply Forall_take. rewrite Hpick. apply Forall_forall. by intros x [_ Hx]%list_elem_of_filter. }
  pose proof (embed_all_frame _ _ _ _ _ _ Ea) as (Hc & _). apply IH; rewrite ?Hc; [done..|]. by eapply embed_all_skipped.
Qed.

(** ** Threads that can be embedded *)

(** A thread of two messages or more whose dates are numbers. *)
Definition embeddable (t : ChatThread) : Prop := exists th msg,
  Unmarshal (Body t) = Ok th /\ 2 <= length th /\ ForShowingToTheUser format_unix th (ct_ChatID t) = Returns msg.
(** OpenAI gives an embedding of 2000 numbers, or with room for them. *)
Definition api_law : Prop := forall texts w, exists w' e es emb,
  api_CreateEmbeddings texts w = (w', Ok (e :: es)) /\ reslice 2000 e = Returns emb.
Definition no_failures : Prop := forall w : W, fetch_err w = None /\ upsert_err w = None.

Lemma embed_thread_ok p w (db : tables F) : embeddable p -> api_law -> no_failures ->
  exists w' db', embed_thread p (w, db) = ((w', db'), Returns None) /\ is_Some (embeddings db' !! ThreadID p).
Proof.
  intros (th & msg & Hu & Hlen & Hm) Hapi Hno. unfold Embeddings.embed_thread. rewrite Hu, decide_False by lia. unfold CreateEmbeddings.
  destruct (Hapi [ForEmbedding th] w) as (w' & e & es & emb & -> & Hemb). rewrite Hm. unfold UpsertEmbedding. cbn [u_Embedding].
  rewrite Hemb. destruct (Hno w') as [_ ->]. do 2 eexists. split; [done|]. cbn. unfold queryUpsertEmbedding.
  rewrite lookup_insert_eq. eauto.
Qed.

Lemma embed_all_ok ts w (db : tables F) : Forall embeddable ts -> api_law -> no_failures ->
  exists w' db', embed_all ts (w, db) = ((w', db'), (None, [])) /\ Forall (fun p => is_Some (embeddings db' !! ThreadID p)) ts.
Proof.
  intros Hts Hapi Hno. revert w db. induction Hts as [|p ts Hp _ IH]; intros w db; cbn [Embeddings.embed_all]; [eauto|].
  destruct (embed_thread_ok p w db Hp Hapi Hno) as (w1 & db1 & -> & H1). destruct (IH w1 db1) as (w2 & db2 & E2 & H2). rewrite E2.
  do 2 eexists. split; [done|]. constructor; [|done]. by apply embed_all_frame in E2 as [_ Hm]; apply Hm.
Qed.

Lemma picked_nil l : take 2000 (pick l) = [] -> l = [].
Proof. intros E. pose proof (Hpick l) as Hp. destruct (pick l); [by apply Permutation_nil_l in Hp|done]. Qed.
Lemma picked_elem l x : x ∈ take 2000 (pick l) -> x ∈ l.
Proof. rewrite <- (Hpick l) at 2. intros Hx. eapply elem_of_sublist; [exact Hx|apply sublist_take]. Qed.

Lemma all_embedded (db : tables F) : unembedded db = [] -> Forall (fun t => is_Some (embeddings db !! ThreadID t)) (chatthreads db).
Proof.
  intros E. apply Forall_forall. intros t Ht. destruct (embeddings db !! ThreadID t) eqn:Et; [by eexists|].
  exfalso. apply (not_elem_of_nil t). rewrite <- E. by apply list_elem_of_filter.
Qed.

(** A round that embeds a thread leaves fewer of them. *)
Lemma round_progress p (db db1 : tables F) : chatthreads db1 = chatthreads db ->
  (forall id, is_Some (embeddings db !! id) -> is_Some (embeddings db1 !! id)) -> p ∈ unembedded db -> is_Some (embeddings db1 !! ThreadID p) ->
  length (unembedded db1) < length (unembedded db) /\ forall t, t ∈ unembedded db1 -> t ∈ unembedded db.
Proof.
  intros Hc Hm [H1 H2]%list_elem_of_filter [e He]. unfold unembedded. rewrite Hc.
  assert (Hmore : forall t, embeddings db1 !! ThreadID t = None -> embeddings db !! ThreadID t = None).
  { intros t H. destruct (embeddings db !! ThreadID t) eqn:E; [|done]. destruct (Hm (ThreadID t)); [by eexists|congruence]. }
  split; [|intros t; rewrite !list_elem_of_filter; intros [? ?]; split; [by apply Hmore|done]].
  apply (filter_length_lt _ _ _ p); [intros t; apply Hmore|done|done|by rewrite He].
Qed.

(** C24. If every thread without an embedding can be embedded, OpenAI answers and the database does
    not fail, the loop ends: after at most as many rounds as there are such threads, with
    success and an embedding for every thread. *)
Theorem GenerateEmbeddings_terminates w (db : tables F) : Forall embeddable (unembedded db) -> api_law -> no_failures ->
  exists s, generate (S (length (unembedded db))) (w, db) = Some (s, Returns None) /\
    chatthreads s.2 = chatthreads db /\ Forall (fun t => is_Some (embeddings s.2 !! ThreadID t)) (chatthreads db).
Proof.
  intros Hts Hapi Hno. assert (Hle : length (unembedded db) <= length (unembedded db)) by done. revert Hle.
  generalize (length (unembedded db)) at 2 3. intros n. revert w db Hts. induction n as [n IH] using lt_wf_ind. intros w db Hts Hle.
  cbn [GenerateEmbeddings fst snd]. unfold FetchChatThreadToGenerateEmbedding. rewrite (proj1 (Hno w)).
  destruct (take 2000 (pick (unembedded db))) as [|p ps] eqn:E.
  { exists (w, db). split; [done|]. split; [done|]. by apply all_embedded, picked_nil. }
  assert (Hin : forall x, x ∈ p :: ps -> x ∈ unembedded db) by (rewrite <- E; intros x; apply picked_elem).
  destruct (embed_all_ok (p :: ps) w db) as (w1 & db1 & Ea & Hall); [|done|done|].
  { apply Forall_forall. intros x Hx. eapply Forall_forall in Hts; [exact Hts|by apply Hin]. }
  rewrite Ea. pose proof (embed_all_frame _ _ _ _ _ _ Ea) as (Hc & Hm). apply Forall_cons in Hall as [Hp _].
  destruct (round_progress p db db1 Hc Hm (Hin p ltac:(by left)) Hp) as [Hlt Hsub].
  destruct n as [|n]; [lia|]. destruct (IH n ltac:(lia) w1 db1) as (s & Hs & Hc' & Hall'); [|lia|].
  - apply Forall_forall. intros t Ht. eapply Forall_forall in Hts; [exact Hts|by apply Hsub].
  - exists s. rewrite <- Hc. by split_and!.
Qed.

(** A failure of OpenAI is no error of the task: nothing is stored and nothing is said. *)
Theorem api_error_is_lost p th msg w (db : tables F) w' e :
  Unmarshal (Body p) = Ok th -> 2 <= length th -> ForShowingToTheUser format_unix th (ct_ChatID p) = Returns msg ->
  api_CreateEmbeddings [ForEmbedding th] w = (w', Err e) -> embed_thread p (w, db) = ((w', db), Returns None).
Proof.
  intros Hu Hlen Hm Hapi. unfold Embeddings.embed_thread. rewrite Hu, decide_False by lia. unfold CreateEmbeddings. by rewrite Hapi, Hm.
Qed.
End theorems.

(** ** A demonstration *)

(** The body of a thread is the texts of its messages, a character each. *)
Fixpoint demo_body (s : string) : thread :=
  match s with
  | EmptyString => []
  | String c s' => {| ID := 1; Type_ := "message"; DateUnix := "0"; FromId := ""; TextEntities := [MkEntity (String c "")]; Reply := 0 |} :: demo_body s'
  end.
Definition demo_thread (id : Z) (body : string) : ChatThread := {| ThreadID := id; Body := body; ct_ChatID := "cy" |}.
Definition demo_api (_ : list string) (w : nat) : nat * result error (list (vec bool)) := (S w, Ok [MkVec (replicate 2000 true) []]).
Definition demo_good : tables bool := MkTables [demo_thread 1 "ab"; demo_thread 2 "abc"] ∅.
Definition demo_bad : tables bool := MkTables [demo_thread 1 "ab"; demo_thread 2 "a"] ∅.
Definition none (_ : nat) : option error := None.
Notation demo_generate fuel db :=
  (GenerateEmbeddings (fun l => l) none none demo_api (fun s => Ok (demo_body s)) (fun _ => "date") fuel (0, db)).

Lemma GenerateEmbeddings_terminates_witness : exists s, demo_generate 3 demo_good = Some (s, Returns None) /\
  chatthreads s.2 = chatthreads demo_good /\ Forall (fun t => is_Some (embeddings s.2 !! ThreadID t)) (chatthreads demo_good).
Proof.
  refine (GenerateEmbeddings_terminates (fun l => l) none none demo_api (fun s => Ok (demo_body s)) (fun _ => "date")
    (fun l => reflexivity l) 0 demo_good _ _ _).
  - repeat constructor; do 2 eexists; (split; [reflexivity|]); (split; [cbn; lia|]); reflexivity.
  - intros texts w. do 4 eexists. split; [reflexivity|]. unfold reslice. rewrite decide_True; [reflexivity|]. vm_compute. lia.
  - intros w. split; reflexivity.
Defined.

Lemma skipped_thread_never_succeeds_witness : ~ (exists s, demo_generate 20 demo_bad = Some (s, Returns None)).
Proof.
  intros [s Hs]. refine (skipped_thread_never_succeeds (fun l => l) none none demo_api (fun s => Ok (demo_body s)) (fun _ => "date")
    (fun l => reflexivity l) (demo_thread 2 "a") 20 0 demo_bad s _ _ _ _ Hs).
  - exists (demo_body "a"). split; [reflexivity|cbn; lia].
  - apply NoDup_ListNoDup. repeat constructor; cbn; intuition lia.
  - right. left.
  - reflexivity.
Defined.
