(* ===== verification/Bot.v ===== *)
(** * The Telegram bot
      (app/telegramsearch/internal/pkg/transport, controllers/controllerv1)

    What the bot does with an update: a question is answered, a command explained. The library
    telebot is a parameter; the controller is used through the operations of a record, which
    Search.v implements. *)
From S2P Require Import Prelude Decimal Codes GoErrors Threads Search.

(** ** Configuration *)

(* go: app/telegramsearch/internal/pkg/transport/bottransport/config.go | type Config struct *)
Record bot_Config := { Token : string; Greeting : string }.

(* go: app/telegramsearch/internal/pkg/transport/bottransportv2/config.go | type Config struct *)
Record v2_Config := { AppID : Z; AppHash : string }.
(* go: app/telegramsearch/internal/pkg/transport/bottransportv2/config.go | func (c *Config) Validate *)
Definition Validate (c : v2_Config) : option error :=
  if decide (AppID c = 0)%Z then Some (Leaf (LText "app_id is required"))
  else if decide (AppHash c = "") then Some (Leaf (LText "app_hash is required"))
  else None.
(* go: app/telegramsearch/internal/pkg/transport/bottransportv2/config.go | func DefaultConfig *)
Definition v2_DefaultConfig : v2_Config := {| AppID := 24144218; AppHash := "b1602e8d49775f7a212037c00e29ed6d" |}.

(** ** Updates (telebot) *)

(** The fields of [telebot.Message] that are read; pointers may be nil. *)
Record Message := {
  m_Text : string; m_private : bool; m_Entities : list string; m_ReplyTo : option string; m_Sender : option Z
}.
Definition EntityMention : string := "mention".
Definition nil_dereference : string := "runtime error: invalid memory address or nil pointer dereference".

Inductive ParseMode := ModeDefault | ModeMarkdown.
Record SendOptions := { so_ReplyTo : string; DisableWebPagePreview : bool; DisableNotification : bool; so_ParseMode : ParseMode }.
(** What is sent: to a user, or as a reply to a message, by its text. *)
Inductive sending :=
| Send (to : option Z) (text : string) (opts : option SendOptions)
| ReplyTo (message : string) (text : string) (opts : SendOptions).

Definition help : string := "/help".
Definition news : string := "/news".
Definition explain : string := "/explain".

(** ** The controller the bot talks to *)

Record controller (W : Type) := {
  c_TryCompletion : Z -> string -> W -> W * outcome (result error string);
  c_ExplainMessage : Z -> W -> W * string;
  c_Help : string;
  c_News : string
}.
Arguments c_TryCompletion {W}.
Arguments c_ExplainMessage {W}.
Arguments c_Help {W}.
Arguments c_News {W}.

(* go: app/telegramsearch/internal/pkg/controllers/controllerv1/story_help.go | func (c *Ctl) Help *)
Definition Help (cfg : Config) : string := HelpText cfg.
(* go: app/telegramsearch/internal/pkg/controllers/controllerv1/story_news.go | func (c *Ctl) News *)
Definition News (cfg : Config) : string := NewsText cfg.

Section bot.
Context {W : Type} (ctl : controller W).

(** Errors of sending are only logged. *)
(* go: app/telegramsearch/internal/pkg/transport/bottransport/bottransport.go | b.Handle("/start", func | L29-L36 *)
Definition OnStart (cfg : bot_Config) (m : Message) : list sending := [Send (m_Sender m) (Greeting cfg) None].

(** A completion is sent as a reply; one that fails is only logged. *)
Definition reply_completion (senderID : Z) (query : string) (w : W) : W * outcome (list sending) :=
  match c_TryCompletion ctl senderID query w with
  | (w, Panics why) => (w, Panics why)
  | (w, Returns (Err _)) => (w, Returns [])
  | (w, Returns (Ok response)) =>
      (w, Returns [ReplyTo query response
        {| so_ReplyTo := query; DisableWebPagePreview := true; DisableNotification := false; so_ParseMode := ModeDefault |}])
  end.

(** A mention in a public chat answers the message it replies to, if there is one. *)
(* go: app/telegramsearch/internal/pkg/transport/bottransport/bottransport.go | if m.Chat.Type != telebot.ChatPrivate { | L66-L92 *)
Definition OnPublic (m : Message) (w : W) : W * outcome (list sending) :=
  match m_Entities m with
  | e :: _ =>
      if decide (e = EntityMention) then
        match m_ReplyTo m with
        | None => (w, Panics nil_dereference)
        | Some prompt => reply_completion 0 prompt w
        end
      else (w, Returns [])
  | [] => (w, Returns [])
  end.

Definition command_options (m : Message) (preview_off : bool) (mode : ParseMode) : SendOptions :=
  {| so_ReplyTo := m_Text m; DisableWebPagePreview := preview_off; DisableNotification := true; so_ParseMode := mode |}.

(* go: app/telegramsearch/internal/pkg/transport/bottransport/bottransport.go | b.Handle(telebot.OnText, func *)
Definition OnText (m : Message) (w : W) : W * outcome (list sending) :=
  if negb (m_private m) then OnPublic m w
  else if decide (m_Text m = explain) then
    match m_Sender m with
    | None => (w, Panics nil_dereference)
    | Some id =>
        let '(w, text) := c_ExplainMessage ctl id w in
        (w, Returns [Send (Some id) text (Some (command_options m true ModeDefault))])
    end
  else if decide (m_Text m = help) then
    (w, Returns [Send (m_Sender m) (c_Help ctl) (Some (command_options m false ModeMarkdown))])
  else if decide (m_Text m = news) then
    (w, Returns [Send (m_Sender m) (c_News ctl) (Some (command_options m true ModeDefault))])
  else
    match m_Sender m with
    | None => (w, Panics nil_dereference)
    | Some id => reply_completion id (m_Text m) w
    end.
End bot.

(** ** The controller of Search.v *)

Section search.
Context {F W : Type}.
Context (api_CreateEmbeddings : list string -> W -> W * result error (list (vec F))).
Context (api_CreateChatCompletion : list string -> string -> W -> W * result error (list string)).
Context (table : list row) (order_by : list F -> list row -> list row).
Context (db_err : Z * Z -> bool -> option error) (schedule : list (Z * Z) -> list (Z * Z)).
Context (SortFunc : (row -> row -> Z) -> list row -> list row).
Context (Unmarshal : string -> result error thread) (DateOnly : Z -> string) (Sprintf : string -> string -> string).
Context (cache_Set : Z -> Z -> ExplainedMessage -> W -> W) (cache_Get : W -> Z -> W * option ExplainedMessage) (cfg : Config).
(** The clock. *)
Context (now : W -> Z).

#[local] Notation complete := (TryCompletion api_CreateEmbeddings api_CreateChatCompletion table order_by
  db_err schedule SortFunc Unmarshal DateOnly Sprintf cache_Set cfg).

Definition search_controller : controller W := {|
  c_TryCompletion id query w :=
    match complete {| SenderID := id; Query := query |} (now w) w with
    | (w', Panics why) => (w', Panics why)
    | (w', Returns (Err err)) => (w', Returns (Err err))
    | (w', Returns (Ok resp)) => (w', Returns (Ok (Response resp)))
    end;
  c_ExplainMessage id w := ExplainMessage DateOnly cache_Get cfg id w;
  c_Help := Help cfg;
  c_News := News cfg
|}.

Definition question (id : Z) (text : string) : Message :=
  {| m_Text := text; m_private := true; m_Entities := []; m_ReplyTo := None; m_Sender := Some id |}.

Lemma OnText_question id text w : text ∉ [explain; help; news] ->
  OnText search_controller (question id text) w = reply_completion search_controller id text w.
Proof. intros H. unfold OnText, question. cbn [m_private negb m_Text m_Sender]. by rewrite !decide_False by set_solver. Qed.
Lemma OnText_explain id w : OnText search_controller (question id explain) w =
  let '(w', text) := ExplainMessage DateOnly cache_Get cfg id w in
  (w', Returns [Send (Some id) text (Some (command_options (question id explain) true ModeDefault))]).
Proof. unfold OnText, question. cbn [m_private negb m_Text m_Sender]. by rewrite decide_True by done. Qed.
Lemma reply_answered id text w w' resp : complete {| SenderID := id; Query := text |} (now w) w = (w', Returns (Ok resp)) ->
  reply_completion search_controller id text w = (w', Returns [ReplyTo text (Response resp)
    {| so_ReplyTo := text; DisableWebPagePreview := true; DisableNotification := false; so_ParseMode := ModeDefault |}]).
Proof. intros Hc. unfold reply_completion. cbn [c_TryCompletion search_controller]. by rewrite Hc. Qed.

(** C26. A question in a private chat that is answered from threads whose first messages can be read
    gets the answer as its only reply. The command to explain, sent later by the same user, gets
    the sources of that answer: a link, the time and the first letters for each of the first 15
    threads of the answer, which come with the most recent first. It gets them for 30 minutes
    after the answer, and after that the text that there is nothing to explain, as long as nothing
    has happened to them in the cache (such as another answer, or an explanation, which puts off
    their end). The sort of package slices and the
    cache are assumed to do what they document; what the time and the cache are when the command
    comes is any later state. *)
Theorem question_then_explain stored id text w w' resp :
  ttl_cache cache_Set cache_Get now stored -> sort_law SortFunc -> text ∉ [explain; help; news] ->
  complete {| SenderID := id; Query := text |} (now w) w = (w', Returns (Ok resp)) -> UsedConversations resp <> [] ->
  Forall (readable Unmarshal) (take 15 (UsedConversations resp)) ->
  StronglySorted (fun a b => MostRecentMessageAt b <= MostRecentMessageAt a)%Z (UsedConversations resp) /\
  (exists opts, OnText search_controller (question id text) w = (w', Returns [ReplyTo text (Response resp) opts])) /\
  exists l, Forall2 (source_of Unmarshal) (take 15 (UsedConversations resp)) l /\
    forall w2, stored w2 id = stored w' id ->
      exists opts w3, OnText search_controller (question id explain) w2 = (w3, Returns [Send (Some id)
        (if decide (now w2 <= now w' + 30 * Minute)%Z then ForUser DateOnly {| Sources := l |} else NoExplainedAnswer cfg) opts]).
Proof.
  intros Hcache Hsort Htext Hc Hne Hr. destruct (sources_readable _ _ Hr) as (l & Hl & Hall). split; [|split].
  - eapply TryCompletion_sorted; [exact Hsort|exact Hc].
  - rewrite OnText_question, (reply_answered _ _ _ _ _ Hc) by done. by eexists.
  - exists l. split; [done|]. intros w2 Hw2.
    pose proof (explained_after_answer _ _ _ _ _ _ _ _ _ _ _ _ _ _ _ _ _ _ _ _ l w2 Hcache Hc Hne Hl Hw2) as He.
    rewrite OnText_explain. cbn [SenderID] in He. destruct (ExplainMessage _ _ _ _ _) as [w3 t]. cbn in He. subst t.
    by do 2 eexists.
Qed.
End search.

(** ** Every update *)

Section updates.
Context {W : Type} (ctl : controller W).

(** An update is answered by one message at most; the bot panics exactly where it follows a
    pointer that is nil (a mention that replies to nothing, a text without a sender that is not a
    request for help or news), or the controller does. *)
Theorem OnText_outcome (m : Message) (w : W) :
  (forall id q w, exists w' r, c_TryCompletion ctl id q w = (w', Returns r)) ->
  match (OnText ctl m w).2 with
  | Returns l => length l <= 1
  | Panics why => why = nil_dereference
  end /\
  ((exists why, (OnText ctl m w).2 = Panics why) <->
   (m_private m = false /\ head (m_Entities m) = Some EntityMention /\ m_ReplyTo m = None) \/
   (m_private m = true /\ m_Sender m = None /\ m_Text m <> help /\ m_Text m <> news)).
Proof.
  intros Hctl. assert (Hreply : forall id q, exists l, (reply_completion ctl id q w).2 = Returns l /\ length l <= 1).
  { intros id q. unfold reply_completion. destruct (Hctl id q w) as (w' & [r|e] & ->); cbn; eexists; (split; [done|cbn; lia]). }
  unfold OnText, OnPublic. destruct (m_private m); cbn [negb].
  - destruct (decide (m_Text m = explain)) as [E|_].
    { rewrite E. destruct (m_Sender m) as [id|]; [destruct (c_ExplainMessage ctl id w)|]; cbn; (split; [done || lia|]); naive_solver. }
    destruct (decide (m_Text m = help)) as [E|Hh]; [cbn; split; [lia|]; naive_solver|].
    destruct (decide (m_Text m = news)) as [E|Hn]; [cbn; split; [lia|]; naive_solver|].
    destruct (m_Sender m) as [id|]; [|cbn; split; [done|]; naive_solver].
    destruct (Hreply id (m_Text m)) as (l & -> & Hl). split; [done|]. naive_solver.
  - destruct (m_Entities m) as [|e es]; [cbn; split; [lia|]; naive_solver|]. cbn [head].
    destruct (decide (e = EntityMention)) as [->|He]; [|cbn; split; [lia|]; naive_solver].
    destruct (m_ReplyTo m) as [prompt|]; [|cbn; split; [done|]; naive_solver].
    destruct (Hreply 0%Z prompt) as (l & -> & Hl). split; [done|]. naive_solver.
Qed.
End updates.

(** ** A demonstration *)

Definition demo_controller : controller nat := {|
  c_TryCompletion id q w := (S w, Returns (Ok ("re: " +:+ q)));
  c_ExplainMessage id w := (w, "because"); c_Help := "help"; c_News := "news"
|}.
Definition demo_mention : Message :=
  {| m_Text := "@bot"; m_private := false; m_Entities := [EntityMention]; m_ReplyTo := None; m_Sender := Some 5%Z |}.

Lemma OnText_outcome_witness :
  (OnText demo_controller (question 5 "q") 0).2 =
    Returns [ReplyTo "q" "re: q" {| so_ReplyTo := "q"; DisableWebPagePreview := true; DisableNotification := false; so_ParseMode := ModeDefault |}] /\
  (exists why, (OnText demo_controller demo_mention 0).2 = Panics why).
Proof.
  assert (forall id q w, exists w' r, c_TryCompletion demo_controller id q w = (w', Returns r)) as H by (intros id q w; do 2 eexists; reflexivity).
  split; [reflexivity|]. apply (OnText_outcome demo_controller demo_mention 0 H). left. repeat split.
Defined.

Notation demo_search := (search_controller demo_embeddings demo_choices demo_table (fun _ l => l) demo_ok id
  demo_sort demo_json (fun _ => "date") (fun fmt arg => fmt +:+ " " +:+ arg) demo_set demo_get demo_cfg (fun _ => demo_now)).

Lemma demo_readable : Forall (readable demo_json) (take 15 (UsedConversations demo_response)).
Proof. repeat constructor; do 2 eexists; reflexivity. Qed.

Definition demo_saved : list (Z * (ExplainedMessage * Z)) := [(5%Z, ({| Sources := demo_sources |}, demo_now + explained_ttl)%Z)].

Lemma question_then_explain_witness : exists l, Forall2 (source_of demo_json) (take 15 (UsedConversations demo_response)) l /\
  exists opts w3, OnText demo_search (question 5 explain) demo_saved
    = (w3, Returns [Send (Some 5%Z) (ForUser (fun _ => "date") {| Sources := l |}) opts]).
Proof.
  destruct (question_then_explain demo_embeddings demo_choices demo_table (fun _ l => l) demo_ok id
    demo_sort demo_json (fun _ => "date") (fun fmt arg => fmt +:+ " " +:+ arg) demo_set demo_get demo_cfg (fun _ => demo_now)
    demo_stored 5 "q" [] demo_saved demo_response demo_ttl_cache demo_sort_law ltac:(set_solver))
    as (_ & _ & l & Hl & Hgo).
  - vm_compute. reflexivity.
  - discriminate.
  - exact demo_readable.
  - exists l. split; [exact Hl|]. destruct (Hgo demo_saved eq_refl) as (opts & w3 & E). exists opts, w3. rewrite E.
    rewrite decide_True; [reflexivity|]. vm_compute. discriminate.
Defined.
