(* ===== verification/Readiness.v ===== *)
(** * Readiness (internal/readiness, internal/closer)

    The components of a service are asked one after the other whether they are ready, each under
    the retry library. An optional component cannot stop the start. *)
From S2P Require Import Prelude Codes GoErrors Retry.

Section readiness.
Context {W : Type}.

(** A checker may fail or panic. *)
Definition ReadyChecker : Type := W -> W * outcome (option error).

(* go: internal/readiness/readiness.go | type state struct *)
Record state := { checker : ReadyChecker; isOptional : bool; name : string }.
(* go: internal/readiness/readiness.go | type Readiness struct *)
Record Readiness := { checkers : list state; strategies : list strategy }.

(* go: internal/readiness/readiness.go | func NewReadiness *)
Definition NewReadiness (strategies : list strategy) : Readiness := {| checkers := []; strategies := strategies |}.

Definition add (s : state) (r : Readiness) : Readiness :=
  {| checkers := checkers r ++ [s]; strategies := strategies r |}.
(** [type_name] is what [getType] prints. *)
(* go: internal/readiness/readiness.go | // Add a checker to the readiness probe. *)
Definition Add (type_name : string) (c : ReadyChecker) : Readiness -> Readiness :=
  add {| checker := c; isOptional := false; name := type_name |}.
(* go: internal/readiness/readiness.go | // AddOptional registers *)
Definition AddOptional (type_name : string) (c : ReadyChecker) : Readiness -> Readiness :=
  add {| checker := c; isOptional := true; name := type_name |}.
(** A candidate that is a checker or not. *)
(* go: internal/readiness/readiness.go | // TryAdd will register *)
Definition TryAdd (type_name : string) (candidate : option ReadyChecker) (r : Readiness) : Readiness * bool :=
  match candidate with Some c => (Add type_name c r, true) | None => (r, false) end.

(** The type of a value: its name, its package, whether it is a pointer to such. *)
(* go: internal/readiness/readiness.go | func getType *)
Definition getType (Name PkgPath : string) : string := String dquote Name +:+ String dquote (" from " +:+ PkgPath).

(** What is logged. *)
Inductive event := LReady (name : string) | LNotReady (name : string) (optional : bool) (e : error).

(** [retry.Do] in a context with a timeout. *)
Context (retry_Do : Z -> retry_Do_type (W * list event)).

(* go: internal/readiness/readiness.go | return retry.Do(ctx, func | L81-L92 *)
Definition check (s : state) : action (W * list event) := fun '(w, log) =>
  match checker s w with
  | (w, Panics why) => ((w, log), Panics why)
  | (w, Returns (Some err)) =>
      let log := log ++ [LNotReady (name s) (isOptional s) err] in
      if isOptional s then ((w, log), Returns None)
      else ((w, log), Returns (Some (Wrap (WText ("dependency " +:+ name s +:+ " could not start")) err)))
  | (w, Returns None) => ((w, log ++ [LReady (name s)]), Returns None)
  end.

Definition timeout (s : state) : Z := if isOptional s then (30 * Second)%Z else (2 * Minute)%Z.

Fixpoint check_all (strategies : list strategy) (l : list state) (s : W * list event) : (W * list event) * outcome (option error) :=
  match l with
  | [] => (s, Returns None)
  | c :: l' =>
      match retry_Do (timeout c) strategies (check c) s with
      | (s, Returns None) => check_all strategies l' s
      | r => r
      end
  end.
(* go: internal/readiness/readiness.go | // IsReady blocks until *)
Definition IsReady (r : Readiness) (s : W * list event) : (W * list event) * outcome (option error) :=
  check_all (strategies r) (checkers r) s.

(** ** Closing *)

(** What is logged of a close; an error is a warning. *)
Inductive close_event := Closing | CouldNotClose (e : error) | Closed.
(* go: internal/closer/closer.go | func closeImpl *)
Definition closeImpl (Close : W -> W * option error) (verbose : bool) (w : W) : W * list close_event :=
  let before := if verbose then [Closing] else [] in
  match Close w with
  | (w, Some err) => (w, before ++ [CouldNotClose err])
  | (w, None) => (w, before ++ if verbose then [Closed] else [])
  end.
(* go: internal/closer/closer.go | // Close is a convinience *)
Definition Close (c : W -> W * option error) (w : W) : W * list close_event := closeImpl c false w.
(* go: internal/closer/closer.go | // CloseVerbose is a convinience *)
Definition CloseVerbose (c : W -> W * option error) (w : W) : W * list close_event := closeImpl c true w.

(** ** What a start looks like *)

(** The part of the log that is about a component that let the start go on: a component that must
    be ready was, in the end; an optional one was asked once. *)
Definition segment (s : state) (seg : list event) : Prop :=
  if isOptional s then seg = [LReady (name s)] \/ exists e, seg = [LNotReady (name s) true e]
  else exists errs, seg = map (LNotReady (name s) false) errs ++ [LReady (name s)].

Section start.
Context (core : error -> error) (Hlaw : forall t, retry_law core (retry_Do t)).

Lemma check_ok c hows w log s' : allows core hows 0 None = true ->
  retry_Do (timeout c) hows (check c) (w, log) = (s', Returns None) ->
  exists seg, s'.2 = log ++ seg /\ segment c seg.
Proof.
  intros Hfirst H. pose proof (Hlaw (timeout c) hows (check c) (w, log)) as Ha. rewrite H in Ha.
  apply (attempts_success_inv (fun s => exists errs, s.2 = log ++ map (LNotReady (name c) false) errs /\ (isOptional c = true -> errs = [])))
    in Ha as (n & last & [w0 log0] & (errs & Hlog & Hopt) & _ & Hact); [|..|done|].
  - cbn in Hlog. subst log0. unfold check in Hact. unfold segment.
    destruct (checker c w0) as [w1 [[e|]|why]]; [| |done]; destruct (isOptional c); simplify_eq/=; eexists;
      rewrite <- app_assoc; (split; [done|]); rewrite ?Hopt by done; cbn; eauto.
  - intros [w1 log1] [w2 log2] e (errs & Hlog & Hopt) Hact. cbn in Hlog. subst log1. unfold check in Hact.
    destruct (checker c w1) as [w3 [[e1|]|why]]; [|done..]. destruct (isOptional c); [done|]. simplify_eq/=.
    exists (errs ++ [e1]). rewrite map_app, app_assoc. done.
  - exists []. cbn. by rewrite app_nil_r.
Qed.

(** A service is only ready after every component that must be was asked, in the order they
    were added, until it was ready; optional ones were asked once each, with any answer. *)
Theorem IsReady_log (r : Readiness) w log s' : allows core (strategies r) 0 None = true ->
  IsReady r (w, log) = (s', Returns None) ->
  exists segs, s'.2 = log ++ concat segs /\ Forall2 segment (checkers r) segs.
Proof.
  unfold IsReady. intros Hfirst. revert w log. induction (checkers r) as [|c l IH]; intros w log H; cbn in H.
  - simplify_eq. exists []. cbn. by rewrite app_nil_r.
  - destruct (retry_Do (timeout c) (strategies r) (check c) (w, log)) as [[w1 log1] [[e|]|why]] eqn:E; [done| |done].
    apply check_ok in E as (seg & Hlog & Hseg); [|done]. cbn in Hlog. subst log1.
    destruct (IH _ _ H) as (segs & -> & Hsegs). exists (seg :: segs). cbn. rewrite <- app_assoc. split; [done|by constructor].
Qed.
End start.
End readiness.

(** ** A demonstration *)

(** The world counts calls; the database is ready at the third, metrics never are. *)
Definition demo_db (w : nat) : nat * outcome (option error) :=
  (S w, Returns (if decide (w < 2) then Some (Leaf (LText "starting")) else None)).
Definition demo_metrics (w : nat) : nat * outcome (option error) := (S w, Returns (Some (Leaf (LText "no route")))).
Definition demo_readiness : Readiness := AddOptional "metrics" demo_metrics (Add "db" demo_db (NewReadiness [])).
Definition demo_log : list event :=
  [LNotReady "db" false (Leaf (LText "starting")); LNotReady "db" false (Leaf (LText "starting")); LReady "db";
   LNotReady "metrics" true (Leaf (LText "no route"))].

Lemma IsReady_log_witness : exists segs, demo_log = [] ++ concat segs /\ Forall2 segment (checkers demo_readiness) segs.
Proof.
  exact (IsReady_log (fun _ => do_retry 10 id) id (fun _ => do_retry_law 10 id) demo_readiness 0 [] (4, demo_log) eq_refl eq_refl).
Defined.
