(* ===== verification/HttpClient.v ===== *)
(** * HTTP clients (internal/resttooling: http.go, options.go, transport.go, urislug.go)

    A client is a transport wrapped in layers, each made by an option. Options may come in any
    order: the nesting of the layers is fixed, and of two options for the same layer the later
    wins. What a layer does is in the files that model it; here it is a name. *)
From S2P Require Import Prelude Recovery RateLimiterV1.

(** ** Transports *)

(** [ClientTimeout] is a pointer: its identity and the duration it points to. Other durations and
    limits that only reach [http.Transport] are one value. *)
(* go: internal/resttooling/transport.go | type Config struct *)
Record Config := {
  ClientName : string; RequestTimeout : Z; ClientTimeout : option (nat * Z); ResponseHeaderTimeout : Z;
  DialTimeout : Z; DialKeepAlive : Z; IdleConnTimeout : Z; TLSHandshakeTimeout : Z; ExpectContinueTimeout : Z;
  DisableKeepAlives : bool; MaxIdleConns : Z; MaxIdleConnsPerHost : Z; MaxConnsPerHost : Z
}.
#[export] Instance Config_eq_dec : EqDecision Config.
Proof. solve_decision. Defined.
Definition zero_Config : Config := {|
  ClientName := ""; RequestTimeout := 0; ClientTimeout := None; ResponseHeaderTimeout := 0; DialTimeout := 0; DialKeepAlive := 0;
  IdleConnTimeout := 0; TLSHandshakeTimeout := 0; ExpectContinueTimeout := 0; DisableKeepAlives := false;
  MaxIdleConns := 0; MaxIdleConnsPerHost := 0; MaxConnsPerHost := 0 |}%Z.

(** [http.DefaultMaxIdleConnsPerHost] is 2. *)
(* go: internal/resttooling/transport.go | func DefaultTransportConfig *)
Definition DefaultTransportConfig : Config := {|
  ClientName := ""; RequestTimeout := 0; ClientTimeout := None; ResponseHeaderTimeout := 0;
  DialTimeout := Minute; DialKeepAlive := 5 * Minute; IdleConnTimeout := 3 * Minute; TLSHandshakeTimeout := 10 * Second;
  ExpectContinueTimeout := Second; DisableKeepAlives := false; MaxIdleConns := 100; MaxIdleConnsPerHost := 2; MaxConnsPerHost := 0 |}%Z.

(** The cache holds pointers to transports, numbered as they are made; the lock makes a lookup one
    step. *)
(* go: internal/resttooling/transport.go | transportCache *)
Record transportCache := { cached : list (Config * nat); made : nat }.

Fixpoint lookup_transport (conf : Config) (l : list (Config * nat)) : option nat :=
  match l with [] => None | (c, tr) :: l' => if decide (c = conf) then Some tr else lookup_transport conf l' end.

(* go: internal/resttooling/transport.go | func getHTTPRoundTripper *)
Definition getHTTPRoundTripper (conf : Config) (s : transportCache) : nat * transportCache :=
  let conf := if decide (conf = zero_Config) then DefaultTransportConfig else conf in
  match lookup_transport conf (cached s) with
  | Some tr => (tr, s)
  | None => (made s, {| cached := (conf, made s) :: cached s; made := S (made s) |})
  end.

(** ** Clients *)

Section clients.
(** The arguments of retries, metrics and headers, which are functions. *)
Context {R M H : Type}.

Inductive layer :=
| LTransport (tr : nat) | LMock (handler : string) | LTimeout (timeout : Z) | LMetrics (event : M) | LTracing (client : string)
| LRetries (how : R) | LLogging (client : string) | LRequestID | LHeaders (setHeaders : H) | LRateLimiter (limiters : gmap string (nat * (Z * Z)))
| LHTTP2.

(** The chain of round trippers, the outermost first; wrapping puts one in front. *)
Definition OptionFunc : Type := list layer -> transportCache -> list layer * transportCache.
Definition wrap (l : layer) : OptionFunc := fun c s => (l :: c, s).

(* go: internal/resttooling/http.go | // optionsConfig defines *)
Record optionsConfig := {
  HTTP2 : option OptionFunc; OrderlessOptions : list OptionFunc; RequestID : option OptionFunc; Logging : option OptionFunc;
  Retries : option OptionFunc; Tracing : option OptionFunc; Metrics : option OptionFunc; Timeout : option OptionFunc;
  Transport : option OptionFunc
}.
Definition no_options : optionsConfig := {|
  HTTP2 := None; OrderlessOptions := []; RequestID := None; Logging := None; Retries := None; Tracing := None; Metrics := None;
  Timeout := None; Transport := None |}.

(** An option may panic when it is applied. *)
(* go: internal/resttooling/http.go | type Option func *)
Definition Option : Type := optionsConfig -> outcome optionsConfig.

(* go: internal/resttooling/options.go | // WithHTTP2Support adds *)
Definition WithHTTP2Support : Option := fun cfg => Returns {|
  HTTP2 := Some (wrap LHTTP2); OrderlessOptions := OrderlessOptions cfg; RequestID := RequestID cfg; Logging := Logging cfg;
  Retries := Retries cfg; Tracing := Tracing cfg; Metrics := Metrics cfg; Timeout := Timeout cfg; Transport := Transport cfg |}.
(* go: internal/resttooling/options.go | // WithTimeout adds *)
Definition WithTimeout (timeout : Z) : Option := fun cfg => Returns {|
  HTTP2 := HTTP2 cfg; OrderlessOptions := OrderlessOptions cfg; RequestID := RequestID cfg; Logging := Logging cfg;
  Retries := Retries cfg; Tracing := Tracing cfg; Metrics := Metrics cfg; Timeout := Some (wrap (LTimeout timeout)); Transport := Transport cfg |}.
(* go: internal/resttooling/options.go | // WithMetrics adds *)
Definition WithMetrics (event : M) : Option := fun cfg => Returns {|
  HTTP2 := HTTP2 cfg; OrderlessOptions := OrderlessOptions cfg; RequestID := RequestID cfg; Logging := Logging cfg;
  Retries := Retries cfg; Tracing := Tracing cfg; Metrics := Some (wrap (LMetrics event)); Timeout := Timeout cfg; Transport := Transport cfg |}.
(* go: internal/resttooling/options.go | // WithRetries adds *)
Definition WithRetries (how : R) : Option := fun cfg => Returns {|
  HTTP2 := HTTP2 cfg; OrderlessOptions := OrderlessOptions cfg; RequestID := RequestID cfg; Logging := Logging cfg;
  Retries := Some (wrap (LRetries how)); Tracing := Tracing cfg; Metrics := Metrics cfg; Timeout := Timeout cfg; Transport := Transport cfg |}.
(* go: internal/resttooling/options.go | // WithRequestID adds *)
Definition WithRequestID : Option := fun cfg => Returns {|
  HTTP2 := HTTP2 cfg; OrderlessOptions := OrderlessOptions cfg; RequestID := Some (wrap LRequestID); Logging := Logging cfg;
  Retries := Retries cfg; Tracing := Tracing cfg; Metrics := Metrics cfg; Timeout := Timeout cfg; Transport := Transport cfg |}.
(* go: internal/resttooling/options.go | // WithLogging adds *)
Definition WithLogging (client : string) : Option := fun cfg => Returns {|
  HTTP2 := HTTP2 cfg; OrderlessOptions := OrderlessOptions cfg; RequestID := RequestID cfg; Logging := Some (wrap (LLogging client));
  Retries := Retries cfg; Tracing := Tracing cfg; Metrics := Metrics cfg; Timeout := Timeout cfg; Transport := Transport cfg |}.
(* go: internal/resttooling/options.go | // WithTracing adds *)
Definition WithTracing (client : string) : Option := fun cfg => Returns {|
  HTTP2 := HTTP2 cfg; OrderlessOptions := OrderlessOptions cfg; RequestID := RequestID cfg; Logging := Logging cfg;
  Retries := Retries cfg; Tracing := Some (wrap (LTracing client)); Metrics := Metrics cfg; Timeout := Timeout cfg; Transport := Transport cfg |}.

Definition add_orderless (f : OptionFunc) (cfg : optionsConfig) : optionsConfig := {|
  HTTP2 := HTTP2 cfg; OrderlessOptions := OrderlessOptions cfg ++ [f]; RequestID := RequestID cfg; Logging := Logging cfg;
  Retries := Retries cfg; Tracing := Tracing cfg; Metrics := Metrics cfg; Timeout := Timeout cfg; Transport := Transport cfg |}.
Definition set_Transport (f : OptionFunc) (cfg : optionsConfig) : optionsConfig := {|
  HTTP2 := HTTP2 cfg; OrderlessOptions := OrderlessOptions cfg; RequestID := RequestID cfg; Logging := Logging cfg;
  Retries := Retries cfg; Tracing := Tracing cfg; Metrics := Metrics cfg; Timeout := Timeout cfg; Transport := Some f |}.

(* go: internal/resttooling/options.go | // WithHeadersFromContext adds *)
Definition WithHeadersFromContext (setHeaders : H) : Option := fun cfg => Returns (add_orderless (wrap (LHeaders setHeaders)) cfg).
(** Headers that are the same for every request: without a token, none. *)
Definition header_for_JWT (token : string) : list (string * string) :=
  if decide (token = "") then [] else [("Authorization", "Bearer " +:+ token)].
(* go: internal/resttooling/options.go | // WithHeaderForJWT adds *)
Definition WithHeaderForJWT (constant : list (string * string) -> H) (token : string) : Option :=
  WithHeadersFromContext (constant (header_for_JWT token)).
(** The transport replaces what the client had. *)
(* go: internal/resttooling/options.go | func WithTransport(conf *)
Definition WithTransport (conf : Config) : Option := fun cfg =>
  Returns (set_Transport (fun _ s => let '(tr, s) := getHTTPRoundTripper conf s in ([LTransport tr], s)) cfg).
(* go: internal/resttooling/options.go | // WithHTTPHandler causes *)
Definition WithHTTPHandler (handler : string) : Option := fun cfg => Returns (set_Transport (fun _ s => ([LMock handler], s)) cfg).

(** The limiters by handler: the number of the entry, which handlers of one entry share, with the
    interval between tokens and the burst. A later entry takes a handler from an earlier one. *)
Fixpoint build_limiters (i : nat) (entries : list RateLimitByHandlersConfig) (workersCount : Z) (m : gmap string (nat * (Z * Z)))
    : outcome (gmap string (nat * (Z * Z))) :=
  match entries with
  | [] => Returns m
  | e :: entries' =>
      let c := RateLimiterV1.Config e in
      per ← udiv (Requests c) workersCount;
      every ← sdiv (Period c) (wraps 64 per);
      build_limiters (S i) entries' workersCount (fold_left (fun m h => <[h := (i, (every, wraps 64 (Burst c)))]> m) (Handlers e) m)
  end.
(* go: internal/resttooling/options.go | func WithRateLimiter *)
Definition WithRateLimiter (entries : list RateLimitByHandlersConfig) (workersCount : Z) : Option := fun cfg =>
  limiters ← build_limiters 0 entries workersCount ∅;
  Returns (add_orderless (wrap (LRateLimiter limiters)) cfg).

(** ** Building a client *)

Fixpoint apply_options (options : list Option) (cfg : optionsConfig) : outcome optionsConfig :=
  match options with [] => Returns cfg | o :: options' => cfg ← o cfg; apply_options options' cfg end.
(* go: internal/resttooling/http.go | func getOptionsCfg *)
Definition getOptionsCfg (options : list Option) : outcome optionsConfig := apply_options options no_options.

Definition apply_opt (f : option OptionFunc) : OptionFunc := match f with Some f => f | None => fun c s => (c, s) end.
(** One function after the other. *)
Definition seq_opts (fs : list OptionFunc) : OptionFunc := fun c s => fold_left (fun cs f => f cs.1 cs.2) fs (c, s).
(* go: internal/resttooling/http.go | // applyOptionsCfg controls *)
Definition applyOptionsCfg (cfg : optionsConfig) : OptionFunc :=
  seq_opts ([apply_opt (Transport cfg); apply_opt (Timeout cfg); apply_opt (Metrics cfg); apply_opt (Tracing cfg);
             apply_opt (Retries cfg); apply_opt (Logging cfg); apply_opt (RequestID cfg)]
            ++ OrderlessOptions cfg ++ [apply_opt (HTTP2 cfg)]).
(* go: internal/resttooling/http.go | func WrapHTTPClientWithOptions *)
Definition WrapHTTPClientWithOptions (c : list layer) (options : list Option) (s : transportCache) : outcome (list layer * transportCache) :=
  cfg ← getOptionsCfg options; Returns (applyOptionsCfg cfg c s).
(* go: internal/resttooling/http.go | // NewHTTPClient creates HttpClient configured with options. *)
Definition NewHTTPClient (options : list Option) : transportCache -> outcome (list layer * transportCache) :=
  WrapHTTPClientWithOptions [] options.

(* go: internal/resttooling/http.go | // NewHTTPClientFromConfig creates *)
Definition NewHTTPClientFromConfig (config : Config) (userOpts : list Option) : transportCache -> outcome (list layer * transportCache) :=
  let options := match ClientTimeout config with Some (_, d) => if decide (0 < d)%Z then [WithTimeout d] else [] | None => [] end in
  let name := if decide (ClientName config = "") then "UNKNOWN CLIENT" else ClientName config in
  let header := if decide (ResponseHeaderTimeout config = 0 /\ RequestTimeout config <> 0)%Z then RequestTimeout config
                else ResponseHeaderTimeout config in
  let config := {| ClientName := name; RequestTimeout := RequestTimeout config; ClientTimeout := ClientTimeout config;
    ResponseHeaderTimeout := header; DialTimeout := DialTimeout config; DialKeepAlive := DialKeepAlive config;
    IdleConnTimeout := IdleConnTimeout config; TLSHandshakeTimeout := TLSHandshakeTimeout config;
    ExpectContinueTimeout := ExpectContinueTimeout config; DisableKeepAlives := DisableKeepAlives config;
    MaxIdleConns := MaxIdleConns config; MaxIdleConnsPerHost := MaxIdleConnsPerHost config; MaxConnsPerHost := MaxConnsPerHost config |} in
  NewHTTPClient (options ++ [WithLogging (ClientName config); WithRequestID; WithTransport config] ++ userOpts).

(** ** The layers of a client *)

(** The options, by name. Only that of the limiters can panic. *)
Inductive opt :=
| OHTTP2 | OTimeout (timeout : Z) | OMetrics (event : M) | ORetries (how : R) | ORequestID | OLogging (client : string)
| OTracing (client : string) | OHeaders (setHeaders : H) | OLimiters (entries : list RateLimitByHandlersConfig) (workersCount : Z) | OTransport (conf : Config) | OHandler (handler : string).
Definition option_of (o : opt) : Option :=
  match o with
  | OHTTP2 => WithHTTP2Support | OTimeout t => WithTimeout t | OMetrics e => WithMetrics e | ORetries r => WithRetries r
  | ORequestID => WithRequestID | OLogging c => WithLogging c | OTracing c => WithTracing c
  | OHeaders h => WithHeadersFromContext h | OLimiters entries n => WithRateLimiter entries n | OTransport c => WithTransport c | OHandler h => WithHTTPHandler h
  end.

(** The places of the chain, from the inside out, and the layer an option puts there. *)
Inductive place := PTimeout | PMetrics | PTracing | PRetries | PLogging | PRequestID | POrderless | PHTTP2.
Definition place_index (p : place) : nat :=
  match p with
  | PTimeout => 1 | PMetrics => 2 | PTracing => 3 | PRetries => 4 | PLogging => 5 | PRequestID => 6 | POrderless => 7 | PHTTP2 => 8
  end.
Definition placed (o : opt) : option (place * layer) :=
  match o with
  | OHTTP2 => Some (PHTTP2, LHTTP2) | OTimeout t => Some (PTimeout, LTimeout t) | OMetrics e => Some (PMetrics, LMetrics e)
  | ORetries r => Some (PRetries, LRetries r) | ORequestID => Some (PRequestID, LRequestID) | OLogging c => Some (PLogging, LLogging c)
  | OTracing c => Some (PTracing, LTracing c) | OHeaders h => Some (POrderless, LHeaders h)
  | OLimiters entries n =>
      match build_limiters 0 entries n ∅ with Returns l => Some (POrderless, LRateLimiter l) | Panics _ => None end
  | OTransport _ | OHandler _ => None
  end.
Definition base_of (o : opt) : option (Config + string) :=
  match o with OTransport c => Some (inl c) | OHandler h => Some (inr h) | _ => None end.

(** The layers the options put in a place, in the order of the options. *)
Definition at_place (p : place) (o : opt) : option layer :=
  match placed o with Some (p', l) => if place_index p' =? place_index p then Some l else None | None => None end.
Definition in_place (p : place) (opts : list opt) : list layer := omap (at_place p) opts.
Definition the_layer (p : place) (opts : list opt) : list layer := option_list (last (in_place p opts)).

Definition base_layers (opts : list opt) (s : transportCache) : list layer * transportCache :=
  match last (omap base_of opts) with
  | None => ([], s)
  | Some (inl conf) => let '(tr, s) := getHTTPRoundTripper conf s in ([LTransport tr], s)
  | Some (inr h) => ([LMock h], s)
  end.

Definition config_of (opts : list opt) : optionsConfig :=
  let one p := wrap <$> last (in_place p opts) in
  {| HTTP2 := one PHTTP2; OrderlessOptions := map wrap (in_place POrderless opts); RequestID := one PRequestID; Logging := one PLogging;
     Retries := one PRetries; Tracing := one PTracing; Metrics := one PMetrics; Timeout := one PTimeout;
     Transport := (fun b => match b with
                            | inl conf => fun _ s => let '(tr, s) := getHTTPRoundTripper conf s in ([LTransport tr], s)
                            | inr h => fun _ s => ([LMock h], s)
                            end) <$> last (omap base_of opts) |}.

Lemma apply_options_app l1 l2 cfg : apply_options (l1 ++ l2) cfg = (cfg ← apply_options l1 cfg; apply_options l2 cfg).
Proof. revert cfg. induction l1 as [|o l1 IH]; intros cfg; cbn; [done|]. destruct (o cfg); cbn; [apply IH|done]. Qed.

(** The panic of an option, and the first one of a list of options. *)
Definition panic_of (o : opt) : option string :=
  match o with
  | OLimiters entries n => match build_limiters 0 entries n ∅ with Returns _ => None | Panics why => Some why end
  | _ => None
  end.
Definition first_panic (opts : list opt) : option string := head (omap panic_of opts).

Lemma build_limiters_panic entries n : forall i m why, build_limiters i entries n m = Panics why -> why = divide_error.
Proof.
  induction entries as [|e entries IH]; intros i m why; cbn [build_limiters]; [done|]. cbv zeta. unfold udiv, sdiv.
  case_decide; cbn [mbind outcome_bind]; [congruence|]. case_decide; cbn [mbind outcome_bind]; [congruence|]. apply IH.
Qed.
Lemma first_panic_divides opts why : first_panic opts = Some why -> why = divide_error.
Proof.
  unfold first_panic. induction opts as [|o opts IH]; cbn [omap list_omap]; [done|].
  destruct (panic_of o) as [w|] eqn:E; [|exact IH]. intros [= <-]. unfold panic_of in E. destruct o; try done.
  destruct (build_limiters _ _ _ _) eqn:Eb; [done|]. injection E as <-. by eapply build_limiters_panic.
Qed.

Lemma config_of_snoc opts o :
  option_of o (config_of opts) = match panic_of o with Some why => Panics why | None => Returns (config_of (opts ++ [o])) end.
Proof.
  unfold config_of, in_place. rewrite !omap_app.
  destruct o as [| | | | | | | |entries n| |]; cbn -[last app];
    [..|unfold WithRateLimiter, at_place; cbn -[last app]; destruct (build_limiters 0 entries n ∅); [|done]| |];
    cbn -[last app]; rewrite ?app_nil_r, ?last_snoc, ?map_app; reflexivity.
Qed.

Lemma head_app {A} (l k : list A) : head (l ++ k) = match head l with Some x => Some x | None => head k end.
Proof. by destruct l. Qed.

Lemma getOptionsCfg_spec opts :
  getOptionsCfg (map option_of opts) = match first_panic opts with Some why => Panics why | None => Returns (config_of opts) end.
Proof.
  unfold getOptionsCfg, first_panic. induction opts as [|o opts IH] using rev_ind; [done|].
  rewrite map_app, apply_options_app, IH, omap_app, head_app. destruct (head (omap panic_of opts)); [done|].
  cbn [mbind outcome_bind map apply_options omap list_omap]. rewrite config_of_snoc. by destruct (panic_of o).
Qed.

Lemma seq_opts_app fs gs c s : seq_opts (fs ++ gs) c s = seq_opts gs (seq_opts fs c s).1 (seq_opts fs c s).2.
Proof. unfold seq_opts. rewrite fold_left_app. by rewrite <- surjective_pairing. Qed.

Lemma seq_wrap ls c s : seq_opts (map wrap ls) c s = (reverse ls ++ c, s).
Proof.
  revert c. induction ls as [|l ls IH]; intros c; [done|]. rewrite reverse_cons, <- app_assoc. apply (IH (l :: c)).
Qed.

End clients.

(** ** Clients from a configuration *)

(** Without further options a client has these layers: none for HTTP/2, although its option says
    it is enabled automatically. *)
Theorem client_from_config {R M H : Type} (config : Config) (s : transportCache) :
  exists conf', NewHTTPClientFromConfig (R := R) (M := M) (H := H) config [] s = Returns
    ([LRequestID; LLogging (if decide (ClientName config = "") then "UNKNOWN CLIENT" else ClientName config)]
     ++ match ClientTimeout config with Some (_, d) => if decide (0 < d)%Z then [LTimeout d] else [] | None => [] end
     ++ [LTransport (getHTTPRoundTripper conf' s).1], (getHTTPRoundTripper conf' s).2).
Proof.
  unfold NewHTTPClientFromConfig. cbv zeta. set (conf := Build_Config _ _ _ _ _ _ _ _ _ _ _ _ _). exists conf.
  assert (ClientName conf = if decide (ClientName config = "") then "UNKNOWN CLIENT" else ClientName config) as <- by done.
  destruct (ClientTimeout config) as [[p d]|]; [destruct (decide (0 < d)%Z)|];
    unfold NewHTTPClient, WrapHTTPClientWithOptions, getOptionsCfg, applyOptionsCfg, seq_opts; cbn;
    by destruct (getHTTPRoundTripper conf s).
Qed.

(** A client timeout is a timeout of every attempt: retries wrap it. *)
Theorem client_timeout_is_per_attempt :
  let config := {| ClientName := "api"; RequestTimeout := 0; ClientTimeout := Some (1%nat, Second); ResponseHeaderTimeout := 0;
    DialTimeout := 0; DialKeepAlive := 0; IdleConnTimeout := 0; TLSHandshakeTimeout := 0; ExpectContinueTimeout := 0;
    DisableKeepAlives := false; MaxIdleConns := 0; MaxIdleConnsPerHost := 0; MaxConnsPerHost := 0 |}%Z in
  option_map fst (match NewHTTPClientFromConfig (R := nat) (M := unit) (H := unit) config [WithRetries 10] {| cached := []; made := 0 |} with
                  | Returns r => Some r | Panics _ => None end)
  = Some [LRequestID; LLogging "api"; LRetries 10; LTimeout Second; LTransport 0].
Proof. vm_compute. reflexivity. Qed.

(** ** The cache of transports *)

Record cache_ok (s : transportCache) : Prop := {
  ok_made : Forall (fun c => c.2 < made s) (cached s);
  ok_distinct : NoDup (map snd (cached s))
}.

Lemma lookup_transport_In conf l tr : lookup_transport conf l = Some tr -> (conf, tr) ∈ l.
Proof.
  induction l as [|[c t] l IH]; cbn; [done|]. destruct (decide (c = conf)) as [->|_]; [intros [= ->]; by left|right; by apply IH].
Qed.

Lemma lookup_transport_inj s c1 c2 tr : cache_ok s ->
  lookup_transport c1 (cached s) = Some tr -> lookup_transport c2 (cached s) = Some tr -> c1 = c2.
Proof.
  intros [_ Hd] E1%lookup_transport_In%list_elem_of_lookup E2%lookup_transport_In%list_elem_of_lookup. destruct E1 as [a Ha], E2 as [b Hb].
  assert (a = b) as ->; [|congruence]. eapply NoDup_lookup; [exact Hd|..]; rewrite list_lookup_fmap, ?Ha, ?Hb; done.
Qed.

Definition effective (conf : Config) : Config := if decide (conf = zero_Config) then DefaultTransportConfig else conf.

Lemma getHTTPRoundTripper_keeps conf s : cache_ok s -> let '(tr, s') := getHTTPRoundTripper conf s in
  cache_ok s' /\ lookup_transport (effective conf) (cached s') = Some tr /\
  (forall c t, lookup_transport c (cached s) = Some t -> lookup_transport c (cached s') = Some t).
Proof.
  intros [Hm Hd]. unfold getHTTPRoundTripper. fold (effective conf).
  destruct (lookup_transport (effective conf) (cached s)) as [tr|] eqn:E; [done|]. split; [|split]; cbn.
  - constructor; cbn.
    + constructor; [cbn; lia|]. eapply Forall_impl; [exact Hm|]. cbn. lia.
    + constructor; [|done]. intros Hin. apply list_elem_of_fmap in Hin as ([c t] & Ht & Hin). cbn in Ht.
      eapply Forall_forall in Hm; [|exact Hin]. cbn in Hm. lia.
  - by rewrite decide_True.
  - intros c t Hc. rewrite decide_False; [done|]. intros E2. rewrite E2 in E. congruence.
Qed.

(** Transports for a list of configurations, one after the other. *)
Fixpoint transports (confs : list Config) (s : transportCache) : list nat * transportCache :=
  match confs with
  | [] => ([], s)
  | c :: confs' => let '(tr, s) := getHTTPRoundTripper c s in let '(trs, s) := transports confs' s in (tr :: trs, s)
  end.

Lemma transports_spec confs s : cache_ok s -> let '(trs, s') := transports confs s in
  cache_ok s' /\ (forall c t, lookup_transport c (cached s) = Some t -> lookup_transport c (cached s') = Some t) /\
  Forall2 (fun c tr => lookup_transport (effective c) (cached s') = Some tr) confs trs.
Proof.
  revert s. induction confs as [|c confs IH]; intros s Hs; cbn; [by split_and!|].
  pose proof (getHTTPRoundTripper_keeps c s Hs) as H1. destruct (getHTTPRoundTripper c s) as [tr s1]. destruct H1 as (H1 & H2 & H3).
  specialize (IH s1 H1). destruct (transports confs s1) as [trs s2]. destruct IH as (I1 & I2 & I3).
  split; [done|]. split; [by auto|]. constructor; [by apply I2|done].
Qed.

(** Clients share a transport, and its pool of connections, exactly if their configurations are
    equal, the zero one being that of the defaults. *)
Theorem transports_shared (confs : list Config) i j ci cj ti tj :
  let trs := (transports confs {| cached := []; made := 0 |}).1 in
  confs !! i = Some ci -> confs !! j = Some cj -> trs !! i = Some ti -> trs !! j = Some tj ->
  (ti = tj <-> effective ci = effective cj).
Proof.
  intros trs Hi Hj Hti Htj. assert (cache_ok {| cached := []; made := 0 |}) as H0 by by repeat constructor.
  pose proof (transports_spec confs _ H0) as H. unfold trs in *. destruct (transports confs _) as [ts s']. destruct H as (Hok & _ & Hall).
  cbn in Hti, Htj. pose proof (Forall2_lookup_lr _ _ _ _ _ _ Hall Hi Hti) as Ei. pose proof (Forall2_lookup_lr _ _ _ _ _ _ Hall Hj Htj) as Ej.
  cbv beta in Ei, Ej. split; [intros ->|intros E; rewrite E in Ei; congruence].
  by eapply lookup_transport_inj.
Qed.

(** Two loadings of one configuration with a client timeout do not share: it is compared as a
    pointer. *)
Theorem loaded_twice_not_shared (c : Config) d : ClientTimeout c = Some (1, d) ->
  let c' := {| ClientName := ClientName c; RequestTimeout := RequestTimeout c; ClientTimeout := Some (2, d);
    ResponseHeaderTimeout := ResponseHeaderTimeout c; DialTimeout := DialTimeout c; DialKeepAlive := DialKeepAlive c;
    IdleConnTimeout := IdleConnTimeout c; TLSHandshakeTimeout := TLSHandshakeTimeout c; ExpectContinueTimeout := ExpectContinueTimeout c;
    DisableKeepAlives := DisableKeepAlives c; MaxIdleConns := MaxIdleConns c; MaxIdleConnsPerHost := MaxIdleConnsPerHost c;
    MaxConnsPerHost := MaxConnsPerHost c |} in
  effective c <> effective c'.
Proof.
  intros H c'. assert (c <> zero_Config) as H1 by (intros ->; done). assert (c' <> zero_Config) as H2 by done.
  unfold effective. rewrite !decide_False by done. intros E. apply (f_equal ClientTimeout) in E. rewrite H in E. by injection E.
Qed.

Lemma transports_shared_witness :
  (transports [zero_Config; DefaultTransportConfig] {| cached := []; made := 0 |}).1 = [0; 0] /\ (0 = 0 <-> effective zero_Config = effective DefaultTransportConfig).
Proof.
  split; [vm_compute; reflexivity|].
  exact (transports_shared [zero_Config; DefaultTransportConfig] 0 1 zero_Config DefaultTransportConfig 0 0 eq_refl eq_refl eq_refl eq_refl).
Defined.

(** ** What a transport is made of *)

(** The settings of [http.Transport] that are taken from the configuration. *)
Record http_Transport := {
  t_DialTimeout : Z; t_DialKeepAlive : Z; t_ForceAttemptHTTP2 : bool; t_MaxIdleConns : Z; t_MaxIdleConnsPerHost : Z; t_MaxConnsPerHost : Z;
  t_IdleConnTimeout : Z; t_TLSHandshakeTimeout : Z; t_ExpectContinueTimeout : Z; t_ResponseHeaderTimeout : Z; t_DisableKeepAlives : bool
}.
(* go: internal/resttooling/transport.go | func (conf Config) Resolve() *)
Definition Resolve (conf : Config) : http_Transport := {|
  t_DialTimeout := DialTimeout conf; t_DialKeepAlive := DialKeepAlive conf; t_ForceAttemptHTTP2 := true; t_MaxIdleConns := MaxIdleConns conf;
  t_MaxIdleConnsPerHost := MaxIdleConnsPerHost conf; t_MaxConnsPerHost := MaxConnsPerHost conf; t_IdleConnTimeout := IdleConnTimeout conf;
  t_TLSHandshakeTimeout := TLSHandshakeTimeout conf; t_ExpectContinueTimeout := ExpectContinueTimeout conf;
  t_ResponseHeaderTimeout := ResponseHeaderTimeout conf; t_DisableKeepAlives := DisableKeepAlives conf |}.
(* go: internal/resttooling/transport.go | func roundTripperCacheSize() *)
Definition roundTripperCacheSize (s : transportCache) : nat := length (cached s).

(** The name of a client is part of the key of the cache, and of nothing a transport is made of:
    clients with different names do not share their connections. *)
Theorem names_split_the_cache c name s : ClientName c <> name ->
  let c' := {| ClientName := name; RequestTimeout := RequestTimeout c; ClientTimeout := ClientTimeout c;
    ResponseHeaderTimeout := ResponseHeaderTimeout c; DialTimeout := DialTimeout c; DialKeepAlive := DialKeepAlive c;
    IdleConnTimeout := IdleConnTimeout c; TLSHandshakeTimeout := TLSHandshakeTimeout c; ExpectContinueTimeout := ExpectContinueTimeout c;
    DisableKeepAlives := DisableKeepAlives c; MaxIdleConns := MaxIdleConns c; MaxIdleConnsPerHost := MaxIdleConnsPerHost c;
    MaxConnsPerHost := MaxConnsPerHost c |} in
  Resolve c' = Resolve c /\
  (c <> zero_Config -> c' <> zero_Config -> cache_ok s -> (getHTTPRoundTripper c (getHTTPRoundTripper c' s).2).1 <> (getHTTPRoundTripper c' s).1).
Proof.
  intros Hn c'. split; [done|]. intros Hc Hc' Hs.
  assert (Hne : effective c <> effective c').
  { unfold effective. rewrite !decide_False by done. intros E. apply (f_equal ClientName) in E. by apply Hn. }
  pose proof (transports_spec [c'; c] s Hs) as H. cbn [transports] in H.
  destruct (getHTTPRoundTripper c' s) as [t1 s1]. cbn [snd fst]. destruct (getHTTPRoundTripper c s1) as [t2 s2]. cbn [fst].
  destruct H as (Hok & _ & H). intros ->. apply Forall2_cons in H as [H1 H]. apply Forall2_cons in H as [H2 _].
  apply Hne. by eapply lookup_transport_inj.
Qed.
