(* ===== verification/Http.v ===== *)
(** * Requests, responses and contexts of package net/http

    What handlers and round trippers of the repository see of net/http: headers with canonical
    keys, a request whose fields are changed in place, a response writer that wrappers record
    the status of, and the values of a context. A pointer to a request that a middleware changes
    ([*r = *r.WithContext(ctx)]) is the request that is passed on and given back; a copy is a
    request that is not given back. *)
From S2P Require Import Prelude Codes GoErrors Semerr.

(** ** Headers *)

Definition byte_between (lo hi : N) (c : ascii) : bool := (lo <=? N_of_ascii c)%N && (N_of_ascii c <=? hi)%N.
Definition upper_byte (c : ascii) : ascii := if byte_between 97 122 c then ascii_of_N (N_of_ascii c - 32) else c.
Definition lower_byte (c : ascii) : ascii := if byte_between 65 90 c then ascii_of_N (N_of_ascii c + 32) else c.

(** [strings.ToLower] of an ASCII text. *)
Fixpoint to_lower (s : string) : string :=
  match s with EmptyString => EmptyString | String c s' => String (lower_byte c) (to_lower s') end.

(** The bytes of a header's name (RFC 7230 tokens). *)
Definition token_byte (c : ascii) : bool :=
  byte_between 97 122 c || byte_between 65 90 c || byte_between 48 57 c || contains_byte c "!#$%&'*+-.^_`|~".
Fixpoint all_bytes (p : ascii -> bool) (s : string) : bool :=
  match s with EmptyString => true | String c s' => p c && all_bytes p s' end.

(** [textproto.CanonicalMIMEHeaderKey]: a letter is in upper case at the beginning and after a dash. *)
Fixpoint canonical_from (upper : bool) (s : string) : string :=
  match s with
  | EmptyString => EmptyString
  | String c s' => String (if upper then upper_byte c else lower_byte c) (canonical_from (bool_decide (c = "-"%char)) s')
  end.
Definition CanonicalHeaderKey (s : string) : string := if all_bytes token_byte s then canonical_from true s else s.

(** [http.Header], with [Set], [Add] and [Get]. *)
Notation Header := (gmap string (list string)).
Definition Header_Set (key value : string) (h : Header) : Header := <[CanonicalHeaderKey key := [value]]> h.
Definition Header_Add (key value : string) (h : Header) : Header :=
  let k := CanonicalHeaderKey key in <[k := default [] (h !! k) ++ [value]]> h.
Definition Header_Get (key : string) (h : Header) : string :=
  match h !! CanonicalHeaderKey key with Some (v :: _) => v | _ => "" end.

Lemma Get_Set k v h : Header_Get k (Header_Set k v h) = v.
Proof. unfold Header_Get, Header_Set. by rewrite lookup_insert_eq. Qed.

Lemma Get_Set_ne k k' v h : CanonicalHeaderKey k <> CanonicalHeaderKey k' -> Header_Get k (Header_Set k' v h) = Header_Get k h.
Proof. unfold Header_Get, Header_Set. intros Hk. by rewrite lookup_insert_ne by congruence. Qed.

(** The case of an ASCII letter does not matter to a comparison of lowered texts. *)
Lemma to_lower_app s t : to_lower (s +:+ t) = to_lower s +:+ to_lower t.
Proof. induction s as [|c s IH]; [done|]. change (String (lower_byte c) (to_lower (s +:+ t)) = String (lower_byte c) (to_lower s +:+ to_lower t)). by rewrite IH. Qed.

Lemma to_lower_length s : String.length (to_lower s) = String.length s.
Proof. induction s as [|c s IH]; [done|]. cbn. by rewrite IH. Qed.

(** ** Contexts and requests *)

(** The values of a context under the keys of the repository, each of a type of its own: the
    request id, the maps of Sentry and the place of an error (pointers into the [World] below),
    the logger's name and fields, the method of authentication and the slug; and the span of a
    tracing library. *)
Record Ctx := MkCtx {
  c_reqid : option string;
  c_sentry : option nat;
  c_error : option nat;
  c_names : list string;
  c_fields : list Field;
  c_auth : option string;
  c_slug : option string;
  c_span : list string
}.
Definition Background : Ctx := MkCtx None None None [] [] None None [].

Definition set_reqid (rid : string) (c : Ctx) : Ctx :=
  MkCtx (Some rid) (c_sentry c) (c_error c) (c_names c) (c_fields c) (c_auth c) (c_slug c) (c_span c).
Definition set_sentry (p : nat) (c : Ctx) : Ctx :=
  MkCtx (c_reqid c) (Some p) (c_error c) (c_names c) (c_fields c) (c_auth c) (c_slug c) (c_span c).
Definition set_error (p : nat) (c : Ctx) : Ctx :=
  MkCtx (c_reqid c) (c_sentry c) (Some p) (c_names c) (c_fields c) (c_auth c) (c_slug c) (c_span c).
Definition set_auth (m : string) (c : Ctx) : Ctx :=
  MkCtx (c_reqid c) (c_sentry c) (c_error c) (c_names c) (c_fields c) (Some m) (c_slug c) (c_span c).
Definition set_slug (slug : string) (c : Ctx) : Ctx :=
  MkCtx (c_reqid c) (c_sentry c) (c_error c) (c_names c) (c_fields c) (c_auth c) (Some slug) (c_span c).

(** [logger.WithName] and [logger.WithFields], for a context whose logger is configured. *)
Definition WithName (name : string) (c : Ctx) : Ctx :=
  MkCtx (c_reqid c) (c_sentry c) (c_error c) (c_names c ++ [name]) (c_fields c) (c_auth c) (c_slug c) (c_span c).
Definition WithFields (fields : list Field) (c : Ctx) : Ctx :=
  MkCtx (c_reqid c) (c_sentry c) (c_error c) (c_names c) (c_fields c ++ fields) (c_auth c) (c_slug c) (c_span c).

Record Request := MkRequest {
  Method : string;
  Path : string;
  RequestURI : string;
  RemoteAddr : string;
  req_header : Header;
  Context_ : Ctx
}.
(** [*r.WithContext(ctx)], and the path and the header changed in place. *)
Definition WithContext (r : Request) (c : Ctx) : Request :=
  MkRequest (Method r) (Path r) (RequestURI r) (RemoteAddr r) (req_header r) c.
Definition set_path (r : Request) (p : string) : Request :=
  MkRequest (Method r) p (RequestURI r) (RemoteAddr r) (req_header r) (Context_ r).
Definition set_req_header (r : Request) (h : Header) : Request :=
  MkRequest (Method r) (Path r) (RequestURI r) (RemoteAddr r) h (Context_ r).

(** A shallow copy of a request shares its header: what is done to the header of the copy [r'] is
    done to that of [r]. *)
Definition shared_header (r r' : Request) : Request := set_req_header r (req_header r').

(** A zap field with an integer. *)
Definition IntField (key : string) (n : Z) : Field := MkField key Int64Type n "" "".

(** ** What a handler can do *)

(** A value given to [panic]. *)
Inductive thrown := ThrowError (e : error) | ThrowValue (text : string).
Definition rvr (p : thrown) : semerr.panic_value :=
  match p with ThrowError e => semerr.PanicError e | ThrowValue t => semerr.PanicValue t end.

(** A handler returns or panics. *)
Inductive ended := Done | Panicking (p : thrown).
#[export] Instance thrown_inhabited : Inhabited thrown := populate (ThrowValue "").

(** Log lines, with the context they are logged in; metrics; spans. *)
Inductive event :=
| LogDebug (c : Ctx) (msg : string)
| LogInfo (c : Ctx) (msg : string)
| LogWarn (c : Ctx) (msg : string)
| LogError (c : Ctx) (e : error)
| LogPanic (c : Ctx) (p : thrown)
| Metric (name : string) (labels : list string)
| SpanStart (name : string)
| SpanFinish (name : string).

(** A response: what was sent with the status (nothing may have been yet), the header as it is
    now, and the body. *)
Record Response := MkResponse { sent : option (Z * Header); resp_header : Header; body : string }.
Definition no_response : Response := MkResponse None ∅ "".

(** The rest of the world: the response, the recorders of the status around its writer, the maps
    of Sentry and the places for errors that contexts point to, what was logged, the clock, and
    the number of identifiers handed out. *)
Record World := MkWorld {
  resp : Response;
  lrws : list Z;
  sentries : list (gmap string string);
  errs : list (option error);
  events : list event;
  now : Z;
  ids : nat
}.
Definition set_resp (x : Response) (s : World) : World :=
  MkWorld x (lrws s) (sentries s) (errs s) (events s) (now s) (ids s).
Definition set_lrws (x : list Z) (s : World) : World :=
  MkWorld (resp s) x (sentries s) (errs s) (events s) (now s) (ids s).
Definition set_sentries (x : list (gmap string string)) (s : World) : World :=
  MkWorld (resp s) (lrws s) x (errs s) (events s) (now s) (ids s).
Definition set_errs (x : list (option error)) (s : World) : World :=
  MkWorld (resp s) (lrws s) (sentries s) x (events s) (now s) (ids s).
Definition emit (l : list event) (s : World) : World :=
  MkWorld (resp s) (lrws s) (sentries s) (errs s) (events s ++ l) (now s) (ids s).
Definition next_id (s : World) : World :=
  MkWorld (resp s) (lrws s) (sentries s) (errs s) (events s) (now s) (S (ids s)).
Definition new_world : World := MkWorld no_response [] [] [] [] 0 0.

(** A writer is the recorders around the connection, the outermost first; each is a place in
    [lrws]. *)
Definition ResponseWriter : Type := list nat.

(** [Header().Set] and [Header().Add] of a writer. *)
Definition writer_Set (key value : string) (s : World) : World :=
  set_resp (MkResponse (sent (resp s)) (Header_Set key value (resp_header (resp s))) (body (resp s))) s.
Definition writer_Add (key value : string) (s : World) : World :=
  set_resp (MkResponse (sent (resp s)) (Header_Add key value (resp_header (resp s))) (body (resp s))) s.

(** [WriteHeader] of the connection: only the first final status is sent, with the header as it
    is; informational ones do not count; a code that has not three digits panics. *)
Definition conn_WriteHeader (code : Z) (s : World) : World * ended :=
  match sent (resp s) with
  | Some _ => (s, Done)
  | None =>
      if decide (code < 100 \/ 999 < code)%Z then (s, Panicking (ThrowValue ("invalid WriteHeader code " +:+ pretty code)))
      else if decide (code <= 199 /\ code <> 101)%Z then (s, Done)
      else (set_resp (MkResponse (Some (code, resp_header (resp s))) (resp_header (resp s)) (body (resp s))) s, Done)
  end.
(** [Write] sends the status 200 first when none was sent. The recorders do not see it. *)
Definition Write (data : string) (s : World) : World :=
  let s := (conn_WriteHeader 200 s).1 in
  set_resp (MkResponse (sent (resp s)) (resp_header (resp s)) (body (resp s) +:+ data)) s.

(** The status the client gets. *)
Definition status_sent (s : World) : Z := match sent (resp s) with Some (code, _) => code | None => 200 end.

(** A handler: the writer, the request it may change, the world. *)
Definition Handler : Type := ResponseWriter -> Request * World -> (Request * World) * ended.

(** Statements one after the other: a panic skips the rest. *)
Definition andThen (m : (Request * World) * ended) (f : Request * World -> (Request * World) * ended) : (Request * World) * ended :=
  match m with (st, Done) => f st | (st, Panicking p) => (st, Panicking p) end.
(** A deferred function that does not recover. *)
Definition deferred (f : Request * World -> Request * World) (m : (Request * World) * ended) : (Request * World) * ended :=
  (f m.1, m.2).
