(* ===== verification/Middleware.v ===== *)
(** * Middlewares of HTTP servers (internal/resttooling, internal/openapiapp)

    A middleware makes a handler of a handler. Modelled are the ones of internal/resttooling
    (logging, recovery, metrics, Sentry, tracing, security headers), the request identifiers of
    internal/resttooling/requestid, what internal/openapiapp does with a list of middlewares, and
    the handler of metrics that puts them together. The tracing library, identifiers, route
    tables and the order of a map are parameters. *)
From S2P Require Import Prelude Codes GoErrors Semerr Http.
Import semerr.

(** ** Identifiers of requests (requestid/requestid.go) *)

(* go: internal/resttooling/requestid/requestid.go | const HeaderName *)
Definition HeaderName : string := "x-request-id".
(* go: internal/resttooling/requestid/requestid.go | const ReturnRequestIDHeader *)
Definition ReturnRequestIDHeader : string := "X-Yanakipre-Ret-Request-ID".

(* go: internal/resttooling/requestid/requestid.go | // FromContext retrieves *)
Definition FromContext (ctx : Ctx) : option string := c_reqid ctx.
(* go: internal/resttooling/requestid/requestid.go | // WithRequestID adds *)
Definition WithRequestID (ctx : Ctx) (rid : string) : Ctx := match c_reqid ctx with Some _ => ctx | None => set_reqid rid ctx end.

Section middlewares.
Context {X : Xerrors}.

(** [uuid.NewString] and [shortuuid.New]: the n-th identifier handed out. *)
Context (uuid shortuuid : nat -> string).

(* go: internal/resttooling/requestid/requestid.go | // NewReqID returns *)
Definition NewReqID (s : World) : string * World := (uuid (ids s), next_id s).
(* go: internal/resttooling/requestid/requestid.go | // FromContextOrNew retrieves *)
Definition FromContextOrNew (ctx : Ctx) (s : World) : string * World :=
  match FromContext ctx with Some rid => (rid, s) | None => NewReqID s end.
(* go: internal/resttooling/requestid/requestid.go | // RequestIDFromRequestOrNew either *)
Definition RequestIDFromRequestOrNew (st : Request * World) : string * (Request * World) :=
  let '(r, s) := st in
  match FromContext (Context_ r) with
  | Some headerValue => (headerValue, (r, s))
  | None =>
      let headerValue := Header_Get HeaderName (req_header r) in
      let '(headerValue, s) := if decide (headerValue = "") then NewReqID s else (headerValue, s) in
      (headerValue, (WithContext r (WithRequestID (Context_ r) headerValue), s))
  end.

(** ** Places for errors (errors.go), maps of Sentry (sentrytooling/context.go) *)

(* go: internal/resttooling/errors.go | // WithErrorPlaceholder adds *)
Definition WithErrorPlaceholder (ctx : Ctx) (s : World) : Ctx * World :=
  (set_error (length (errs s)) ctx, set_errs (errs s ++ [None]) s).
(* go: internal/resttooling/errors.go | func SetErrorInContext *)
Definition SetErrorInContext (ctx : Ctx) (err : error) (s : World) : World :=
  match c_error ctx with
  | None => emit [LogError ctx (Wrap (WText "error in detached context") err)] s
  | Some p => set_errs (<[p := Some err]> (errs s)) s
  end.
(* go: internal/resttooling/errors.go | func ErrorMustFromContext *)
Definition ErrorMustFromContext (ctx : Ctx) (s : World) : outcome (option error) :=
  match c_error ctx with
  | None => Panics "error key not found in context"
  | Some p => Returns (default None (errs s !! p))
  end.
(* go: internal/resttooling/errors.go | func LogAppError *)
Definition LogAppError (ctx : Ctx) (err : error) (s : World) : World :=
  let semanticErr := match AsSemanticError err with Some e => e | None => WrapWithInternal err "internal" [] end in
  if Is ctx_Canceled err then emit [LogWarn ctx "incoming request finished with cancellation"] s
  else emit [LogError ctx (Wrap (WText "incoming request finished with error") (to_error semanticErr))] s.

(** The conversion of a missing value panics with a runtime error. *)
Definition no_sentry : thrown := ThrowError (Leaf (LText "interface conversion: interface is nil, not sentry.Context")).
(* go: internal/sentrytooling/context.go | // FromContext returns sentry ctx *)
Definition sentry_FromContext (ctx : Ctx) : option nat := c_sentry ctx.
(* go: internal/sentrytooling/context.go | // Ctx can be retrieved *)
Definition InitCtx (ctx : Ctx) (keyName : string) (s : World) : Ctx * World :=
  (set_sentry (length (sentries s)) ctx, set_sentries (sentries s ++ [∅]) s).
(** [sCtx[k] = v]. *)
Definition sentry_put (p : nat) (kv : string * string) (s : World) : World :=
  set_sentries (alter (<[kv.1 := kv.2]>) p (sentries s)) s.

(** ** Routes (urls.go) *)

(* go: internal/resttooling/urls.go | type UrlMethod struct *)
Record UrlMethod := { OperationID : string; Url : string; um_Method : string }.
(* go: internal/resttooling/urls.go | type RouteNameFunc *)
Definition RouteNameFunc : Type := Request -> World -> UrlMethod * World.

(** The name of a route, by method and path. *)
(* go: internal/resttooling/urls.go | func UrlMethodGetter *)
Definition UrlMethodGetter (FindRoute : string -> string -> option string) (unknownOperation : string) : RouteNameFunc := fun r s =>
  match FindRoute (Method r) (Path r) with
  | None =>
      ({| OperationID := unknownOperation; Url := ""; um_Method := Method r |},
       emit [LogError (Context_ r) (Wrap (WFields [StringField "http_meth" (Method r); StringField "http_path" (Path r)])
                                         (Leaf (LText "could not find route")))] s)
  | Some name => ({| OperationID := name; Url := ""; um_Method := Method r |}, s)
  end.
(* go: internal/resttooling/urls.go | // Hardcoded as asap solution *)
Definition UrlStopList : list string := ["/cable"; "/healthz"; "/metrics"].

(** ** Logging (logging_middleware.go) *)

(* go: internal/resttooling/logging_middleware.go | var httpPathKeyToIdKey *)
Definition httpPathKeyToIdKey : list (string * string) :=
  [("projects", "project_id"); ("branches", "branch_id"); ("endpoints", "endpoint_id"); ("computes", "compute_id")].

(** [lo.IndexOf]. *)
Fixpoint IndexOf (l : list string) (key : string) : option nat :=
  match l with [] => None | x :: l' => if decide (x = key) then Some 0 else S <$> IndexOf l' key end.
(* go: internal/resttooling/logging_middleware.go | func getIdFromHttpPathParts *)
Definition getIdFromHttpPathParts (httpPathParts : list string) (key : string) : option string :=
  match IndexOf httpPathParts key with
  | None => None
  | Some keyIdx => if decide (S keyIdx = length httpPathParts) then None else httpPathParts !! S keyIdx
  end.
(** The order of the keys does not matter: they stand for different entries. *)
(* go: internal/resttooling/logging_middleware.go | func getIdsFromHttpPath *)
Definition getIdsFromHttpPath (httpPath : string) : gmap string string :=
  let parts := split_byte "/"%char httpPath in
  fold_left (fun ids k => match getIdFromHttpPathParts parts k.1 with Some id => <[k.2 := id]> ids | None => ids end)
    httpPathKeyToIdKey ∅.

(* go: internal/resttooling/logging_middleware.go | func newLoggingResponseWriter *)
Definition newLoggingResponseWriter (w : ResponseWriter) (s : World) : ResponseWriter * World :=
  (length (lrws s) :: w, set_lrws (lrws s ++ [200%Z]) s).
(** A recorder notes the code and asks the writer it is around. *)
(* go: internal/resttooling/logging_middleware.go | func (lrw *loggingResponseWriter) WriteHeader *)
Fixpoint WriteHeader (w : ResponseWriter) (code : Z) (s : World) : World * ended :=
  match w with
  | [] => conn_WriteHeader code s
  | p :: w' => WriteHeader w' code (set_lrws (<[p := code]> (lrws s)) s)
  end.
(* go: internal/resttooling/logging_middleware.go | // loggingResponseWriter saves *)
Definition StatusCode (w : ResponseWriter) (s : World) : Z :=
  match w with [] => status_sent s | p :: _ => default 0%Z (lrws s !! p) end.

(** [http.ErrAbortHandler]. *)
Definition ErrAbortHandler : leaf := LNew 24 "net/http: abort Handler".

Context (range : gmap string string -> list (string * string)).

(** The deferred function: a panic is logged, unless it aborts the response, and goes on. *)
(* go: internal/resttooling/logging_middleware.go | defer func() { *)
Definition log_panics (m : (Request * World) * ended) : (Request * World) * ended :=
  match m with
  | (st, Done) => (st, Done)
  | ((r, s), Panicking p) =>
      let err := UnwrapPanic (rvr p) in
      if Is ErrAbortHandler err then ((r, s), Panicking p)
      else ((r, emit [LogPanic (Context_ r) p;
                      LogError (Context_ r) (Wrap (WFields [IntField "status" 500])
                                               (Wrap (WText "incoming request finished with error") err))] s), Panicking p)
  end.

(** What follows the handler: the request's context may have been changed by it. *)
(* go: internal/resttooling/logging_middleware.go | ctx = r.Context() | L114-L134 *)
Definition log_finished (getSubjectID : Ctx -> result error string) (logSubjField : string -> Field) (w : ResponseWriter)
    (st : Request * World) : (Request * World) * ended :=
  let '(r, s) := st in
  let ctx := Context_ r in
  let zapFields := [IntField "status" (StatusCode w s); StringField "ip" (RemoteAddr r);
    StringField "referer" (Header_Get "Referer" (req_header r)); StringField "user_agent" (Header_Get "User-Agent" (req_header r))] in
  let zapFields := match getSubjectID ctx with Ok subjectID => zapFields ++ [logSubjField subjectID] | Err _ => zapFields end in
  let ctx := WithFields zapFields ctx in
  match ErrorMustFromContext ctx s with
  | Panics why => ((r, s), Panicking (ThrowValue why))
  | Returns (Some err) => ((r, LogAppError ctx err s), Done)
  | Returns None => ((r, emit [LogInfo ctx "incoming request finished successfully"] s), Done)
  end.

(* go: internal/resttooling/logging_middleware.go | // LoggingMiddleware logs every *)
Definition LoggingMiddleware (appName : string) (routeF : RouteNameFunc) (getSubjectID : Ctx -> result error string)
    (logSubjField : string -> Field) (next : Handler) : Handler := fun w st =>
  let '(reqID, (r, s)) := RequestIDFromRequestOrNew st in
  let httpPath := Path r in
  let ctx := Context_ r in
  match sentry_FromContext ctx with
  | None => ((r, s), Panicking no_sentry)
  | Some p =>
      let s := fold_left (fun s kv => sentry_put p kv s)
        [("Request ID", reqID); ("HTTP Method", Method r); ("HTTP Path", httpPath)] s in
      let '(route, s) := routeF r s in
      let trace := shortuuid (ids s) in
      let s := next_id s in
      let defaultLoggerFields := [StringField "http_meth" (Method r); StringField "http_path" httpPath;
        StringField "route" (OperationID route); StringField "request_id" reqID; StringField "trace_id" trace] in
      let idsFromHttpPath := range (getIdsFromHttpPath httpPath) in
      let s := fold_left (fun s kv => sentry_put p kv s) idsFromHttpPath s in
      let loggerFields := defaultLoggerFields ++ map (fun kv => StringField kv.1 kv.2) idsFromHttpPath in
      let ctx := WithFields loggerFields (WithName appName ctx) in
      let '(ctx, s) := WithErrorPlaceholder ctx s in
      let r := WithContext r ctx in
      let s := emit [LogDebug (Context_ r) "incoming request"] s in
      let '(responseWriter, s) := newLoggingResponseWriter w s in
      let s := writer_Set ReturnRequestIDHeader reqID s in
      log_panics (andThen (next responseWriter (r, s)) (log_finished getSubjectID logSubjField responseWriter))
  end.

(** ** Recovery (recovery_middleware.go) *)

(** A value as [*net.OpError], with the error inside of it, and as [*os.SyscallError], with its
    text. *)
Context (as_OpError : error -> option (option error)) (as_SyscallError : error -> option string).

(* go: internal/resttooling/recovery_middleware.go | type ErrorHandler *)
Definition ErrorHandler : Type := ResponseWriter -> error -> Request * World -> (Request * World) * ended.

(* go: internal/resttooling/recovery_middleware.go | var ne *net.OpError | L29-L42 *)
Definition broken_pipe (err : error) : bool :=
  match As as_OpError err with
  | Some (Some inner) =>
      match As as_SyscallError inner with
      | Some text => contains (to_lower text) "broken pipe" || contains (to_lower text) "connection reset by peer"
      | None => false
      end
  | _ => false
  end.

(* go: internal/resttooling/recovery_middleware.go | // RecoveryMiddleware recovers *)
Definition RecoveryMiddleware (errorHandler : ErrorHandler) (next : Handler) : Handler := fun w st =>
  match next w st with
  | (st, Done) => (st, Done)
  | ((r, s), Panicking p) =>
      let s := emit [LogPanic (Context_ r) p] s in
      let err := UnwrapPanic (rvr p) in
      if broken_pipe err then ((r, s), Done)
      else if Is ErrAbortHandler err then ((r, s), Done)
      else errorHandler w (UnwrapPanic (rvr p)) (r, s)
  end.

(** ** Metrics, Sentry, tracing, headers *)

(** [strconv.Itoa] and [Duration.Milliseconds]. *)
Definition Milliseconds (d : Z) : Z := Z.quot d Millisecond.

(* go: internal/resttooling/metrics_middleware.go | func MetricsMiddleware *)
Definition MetricsMiddleware (appName : string) (routeNameFunc : RouteNameFunc) (next : Handler) : Handler := fun w st =>
  let '(r, s) := st in
  if existsb (has_prefix (Path r)) UrlStopList then next w (r, s)
  else
    let '(route, s) := routeNameFunc r s in
    let startTime := now s in
    let '(responseWriter, s) := newLoggingResponseWriter w s in
    andThen (next responseWriter (r, s)) (fun '(r, s) =>
      let latency := (now s - startTime)%Z in
      let r := WithContext r (WithFields [IntField "ingress_duration_ms" (Milliseconds latency)] (Context_ r)) in
      ((r, emit [Metric "gin_request_total" [appName];
                 Metric "gin_uri_request_total" [appName; OperationID route; Method r; pretty (StatusCode responseWriter s)];
                 Metric "gin_request_duration" [appName; OperationID route]] s), Done)).

(* go: internal/resttooling/sentry_middleware.go | // SentryMiddleware initializes *)
Definition SentryMiddleware (routeNameFunc : RouteNameFunc) (next : Handler) : Handler := fun w st =>
  let '(r, s) := st in
  let '(route, s) := routeNameFunc r s in
  let '(ctx, s) := InitCtx (Context_ r) "Yanakipre HTTP" s in
  let s := match sentry_FromContext ctx with Some p => sentry_put p ("Route Name", OperationID route) s | None => s end in
  let s := emit [SpanStart "http_handler_execution"] s in
  deferred (fun '(r, s) => (r, emit [SpanFinish "http_handler_execution"] s)) (next w (WithContext r ctx, s)).

(** [otelhttp.NewHandler]: a handler that gives [next] a copy of the request, with a span in the
    context. *)
Context (NewHandler : Handler -> string -> Handler).
(* go: internal/resttooling/tracing_middleware.go | // Add OpenTelemetry tracing *)
Definition TracingMiddleware (appName : string) (next : Handler) : Handler := fun w st => NewHandler next appName w st.

(* go: internal/resttooling/security_middleware.go | func WithSecurityHeaders *)
Definition WithSecurityHeaders (addHeader : string -> string -> World -> World) (s : World) : World :=
  fold_left (fun s kv => addHeader kv.1 kv.2 s)
    [("X-Frame-Options", "SAMEORIGIN"); ("X-Content-Type-Options", "nosniff");
     ("Referrer-Policy", "strict-origin-when-cross-origin");
     ("Strict-Transport-Security", "max-age=63072000; includeSubDomains; preload")] s.
(* go: internal/resttooling/security_middleware.go | func SecurityHeadersHandler *)
Definition SecurityHeadersHandler (next : Handler) : Handler := fun w '(r, s) => next w (r, WithSecurityHeaders writer_Add s).

(** ** Lists of middlewares, rewriting, health (internal/openapiapp) *)

(** A nil function is [None]. *)
(* go: internal/openapiapp/middleware.go | type Middleware func *)
Definition Middleware : Type := Handler -> Handler.
(* go: internal/openapiapp/middleware.go | // Middlewares is a sugar *)
Definition Middlewares (mw : list (option Middleware)) : list Middleware := omap id mw.
(* go: internal/openapiapp/middleware.go | // Wrap http handler *)
Definition Wrap_ (handler : Handler) (mw : list Middleware) : Handler := fold_left (fun h middleware => middleware h) mw handler.

(** [http.NotFound]: the status and a text. *)
Definition NotFound (w : ResponseWriter) (s : World) : World * ended :=
  let s := writer_Set "Content-Type" "text/plain; charset=utf-8" s in
  match WriteHeader w 404 s with
  | (s, Done) => (Write ("404 page not found" +:+ String newline "") s, Done)
  | m => m
  end.
Definition serve_NotFound : Handler := fun w '(r, s) => let '(s, e) := NotFound w s in ((r, s), e).

(** [strings.CutPrefix]. *)
Definition CutPrefix (s pre : string) : option string :=
  if has_prefix s pre then Some (sdrop (String.length pre) s) else None.

(* go: internal/openapiapp/prefix_rewrite.go | // An http.Handler that reroutes *)
Record RewriteRequestHandler := { prefixFrom : string; prefixTo : string; handlerTo : Handler }.
(* go: internal/openapiapp/prefix_rewrite.go | func (h RewriteRequestHandler) ServeHTTP *)
Definition RewriteRequestHandler_ServeHTTP (h : RewriteRequestHandler) : Handler := fun w '(r, s) =>
  match CutPrefix (Path r) (prefixFrom h) with
  | None => serve_NotFound w (r, s)
  | Some after =>
      let newPath := prefixTo h +:+ after in
      handlerTo h w (set_path r newPath, emit [LogDebug (Context_ r) "rewriting request"] s)
  end.

(** [http.ServeMux]: patterns are paths; one that ends in a slash stands for all paths that begin
    with it; the longest pattern that matches serves a request; a pattern is registered once.
    (Hosts, methods and wildcards in patterns, and redirections of unclean paths, are left out.) *)
Notation ServeMux := (list (string * Handler)).
Definition mux_matches (p pattern : string) : bool :=
  bool_decide (p = pattern) || (bool_decide (last_byte pattern = Some "/"%char) && has_prefix p pattern).
Definition mux_Handle (pattern : string) (h : Handler) (mux : ServeMux) : outcome ServeMux :=
  if decide (pattern = "") then Panics "http: invalid pattern"
  else if decide (pattern ∈ mux.*1) then Panics "http: multiple registrations" else Returns (mux ++ [(pattern, h)]).
Fixpoint mux_find (p : string) (mux : ServeMux) (best : option (string * Handler)) : option (string * Handler) :=
  match mux with
  | [] => best
  | (pattern, h) :: mux' =>
      let better := match best with None => true | Some (q, _) => bool_decide (String.length q < String.length pattern) end in
      mux_find p mux' (if mux_matches p pattern && better then Some (pattern, h) else best)
  end.
Definition mux_ServeHTTP (mux : ServeMux) : Handler := fun w '(r, s) =>
  match mux_find (Path r) mux None with
  | Some (_, h) => h w (r, s)
  | None => serve_NotFound w (r, s)
  end.

(* go: internal/openapiapp/prefix_rewrite.go | // Route requests starting *)
Definition AddPrefixHandler (muxFrom : ServeMux) (from : string) (h : Handler) (to : string) : outcome ServeMux :=
  mux_Handle from (RewriteRequestHandler_ServeHTTP {| prefixFrom := from; prefixTo := to; handlerTo := h |}) muxFrom.

(** The check gives a value to be shown; [json.Marshal] is [marshal]. *)
(* go: internal/openapiapp/healthhandler.go | func (h healthCheckHandler) ServeHTTP( *)
Definition healthCheckHandler {V : Type} (getHealth : Ctx -> result error V) (marshal : V -> result error string) : Handler :=
  fun w '(r, s) =>
  let ctx := Context_ r in
  match getHealth ctx with
  | Err err => ((r, emit [LogError ctx (Wrap (WText "cannot get healthcheck") err)] s), Done)
  | Ok check =>
      match marshal check with
      | Err err => ((r, emit [LogError ctx (Wrap (WText "cannot marshal healthcheck") err)] s), Done)
      | Ok text =>
          match WriteHeader w 200 s with
          | (s, Done) => ((r, Write text s), Done)
          | (s, e) => ((r, s), e)
          end
      end
  end.

(** [http.StripPrefix]: the handler gets a copy of the request, without the prefix. *)
Definition StripPrefix (prefix : string) (h : Handler) : Handler :=
  if decide (prefix = "") then h else fun w '(r, s) =>
  match CutPrefix (Path r) prefix with
  | Some p => let '((r2, s), e) := h w (set_path r p, s) in ((shared_header r r2, s), e)
  | None => serve_NotFound w (r, s)
  end.

(* go: internal/openapiapp/config.go | type Config struct *)
Record Config := { BaseURL : string; Addr : string; cfg_Name : string; ReadHeaderTimeout : Z }.
(* go: internal/openapiapp/config.go | func (c *Config) Validate *)
Definition Validate (c : Config) : option error :=
  let errs := if decide (Addr c = "") then
    [Leaf (LText "using zero addr leads to binding to default port which is 80, be explicit if you want that")] else [] in
  match errs with
  | [] => None
  | _ => Some (Wrap (WText "openapi config validation failed") (Join errs))
  end.
(* go: internal/openapiapp/config.go | // DefaultConfig returns *)
Definition DefaultConfig (baseURL addr name : string) : Config :=
  {| BaseURL := baseURL; Addr := addr; cfg_Name := name; ReadHeaderTimeout := Second |}.

(** The multiplexer of a new application. *)
(* go: internal/openapiapp/openapi.go | func New( *)
Definition New {V : Type} (cfg : Config) (handler : Handler) (mv : list Middleware)
    (getHealth : Ctx -> result error V) (marshal : V -> result error string) : outcome ServeMux :=
  let handlerWithMiddlewares := Wrap_ handler mv in
  mux ← (if decide (BaseURL cfg = "") then mux_Handle "/" handlerWithMiddlewares []
         else mux_Handle (BaseURL cfg +:+ "/") (StripPrefix (BaseURL cfg) handlerWithMiddlewares) []);
  mux_Handle "/healthz" (healthCheckHandler getHealth marshal) mux.

(** ** The handler of metrics (metricsapi/metricsapi.go) *)

(* go: internal/resttooling/metricsapi/metricsapi.go | func(w http.ResponseWriter, r *http.Request, appErr *)
Definition respond_500 : ErrorHandler := fun w _ '(r, s) =>
  match WriteHeader w 500 s with
  | (s, Done) => ((r, Write "500 internal server error" s), Done)
  | (s, e) => ((r, s), e)
  end.
(* go: internal/resttooling/metricsapi/metricsapi.go | urlMethodGetter := *)
Definition urlMethodGetter : RouteNameFunc := fun _ s => ({| OperationID := ""; Url := ""; um_Method := "" |}, s).
Definition noUserId : error := Leaf (LNew 25 "user id not in context").
(** [promtooling.Handler] is [scrape]. *)
(* go: internal/resttooling/metricsapi/metricsapi.go | func NewMetricsHandler *)
Definition NewMetricsHandler (scrape : Handler) (logSubjField : string -> Field) : Handler :=
  Wrap_ scrape
    [LoggingMiddleware "metrics-api" urlMethodGetter (fun _ => Err noUserId) logSubjField;
     TracingMiddleware "metrics-api";
     SentryMiddleware urlMethodGetter;
     RecoveryMiddleware respond_500].
End middlewares.

(** ** Identifiers of requests *)

Section theorems.
Context {X : Xerrors} (uuid shortuuid : nat -> string) (range : gmap string string -> list (string * string)).

(** The identifier of a request: the one its context has, else the client's, else a new one. *)
Definition request_id_of (r : Request) (s : World) : string :=
  match c_reqid (Context_ r) with
  | Some rid => rid
  | None => let h := Header_Get HeaderName (req_header r) in if decide (h = "") then uuid (ids s) else h
  end.

Lemma RequestID_spec r s id r' s' : RequestIDFromRequestOrNew uuid (r, s) = (id, (r', s')) ->
  id = request_id_of r s /\ c_reqid (Context_ r') = Some id /\ c_sentry (Context_ r') = c_sentry (Context_ r) /\
  set_path r' (Path r) = r' /\ resp s' = resp s /\ errs s' = errs s /\ lrws s' = lrws s /\ events s' = events s.
Proof.
  unfold RequestIDFromRequestOrNew, request_id_of, FromContext, WithRequestID. destruct (c_reqid (Context_ r)) as [rid|] eqn:E.
  - intros. simplify_eq. split_and!; auto. by destruct r'.
  - case_decide; cbn; intros; simplify_eq/=; by split_and!.
Qed.

(** Asking again gives the same identifier, and changes nothing. *)
Theorem RequestID_idempotent r s id st : RequestIDFromRequestOrNew uuid (r, s) = (id, st) ->
  RequestIDFromRequestOrNew uuid st = (id, st).
Proof.
  destruct st as [r' s']. intros H%RequestID_spec. destruct H as (_ & Hc & _).
  unfold RequestIDFromRequestOrNew, FromContext. by rewrite Hc.
Qed.

Lemma resp_sentry_puts p l s : resp (fold_left (fun s kv => sentry_put p kv s) l s) = resp s.
Proof. revert s. induction l as [|kv l IH]; intros s; [done|]. cbn. by rewrite IH. Qed.

Section logging.
Context (appName : string) (routeF : RouteNameFunc) (getSubjectID : Ctx -> result error string) (logSubjField : string -> Field).
Notation logging next := (LoggingMiddleware uuid shortuuid range appName routeF getSubjectID logSubjField next).
Notation finished := (log_finished getSubjectID logSubjField).

(** What the handler inside of the logging finds. *)
Record logged_entry (id : string) (w w' : ResponseWriter) (r r' : Request) (s s' : World) : Prop := {
  entry_context : c_reqid (Context_ r') = Some id;
  entry_field : StringField "request_id" id ∈ c_fields (Context_ r');
  entry_response : Header_Get ReturnRequestIDHeader (resp_header (resp s')) = id;
  entry_request : Path r' = Path r /\ Method r' = Method r /\ req_header r' = req_header r;
  entry_error : exists p, c_error (Context_ r') = Some p /\ errs s' !! p = Some None;
  entry_recorder : exists p, w' = p :: w /\ lrws s' !! p = Some 200%Z;
  entry_sent : (forall r s, resp (routeF r s).2 = resp s) -> sent (resp s') = sent (resp s)
}.

Lemma LoggingMiddleware_entry w r s p : c_sentry (Context_ r) = Some p ->
  exists w' r' s', logged_entry (request_id_of r s) w w' r r' s s' /\
    forall next, logging next w (r, s) = log_panics (andThen (next w' (r', s')) (finished w')).
Proof.
  intros Hp. unfold LoggingMiddleware. destruct (RequestIDFromRequestOrNew uuid (r, s)) as [id [r1 s1]] eqn:Er.
  assert (Hr : Path r1 = Path r /\ Method r1 = Method r /\ req_header r1 = req_header r).
  { revert Er. unfold RequestIDFromRequestOrNew. destruct (FromContext _); [naive_solver|].
    case_decide; cbn; intros; by simplify_eq/=. }
  apply RequestID_spec in Er as (-> & Hid & Hs & _ & Hresp & _). unfold sentry_FromContext. rewrite Hs, Hp.
  match goal with |- context [routeF r1 ?x] => destruct (routeF r1 x) as [route s2] eqn:Es2 end.
  match goal with |- context [fold_left ?f ?l (next_id s2)] => set (s3 := fold_left f l (next_id s2)) end.
  unfold WithErrorPlaceholder, newLoggingResponseWriter. cbn zeta. cbn beta iota.
  do 3 eexists. split; [|intros next; reflexivity]. split; cbn.
  - exact Hid.
  - rewrite !elem_of_app, !elem_of_cons. naive_solver.
  - apply Get_Set.
  - exact Hr.
  - eexists. split; [reflexivity|]. rewrite lookup_app_r by lia. by rewrite Nat.sub_diag.
  - exists (length (lrws s3)). split; [done|]. rewrite lookup_app_r by lia. by rewrite Nat.sub_diag.
  - intros Hf. specialize (Hf r1). subst s3. rewrite resp_sentry_puts. cbn.
    match type of Es2 with routeF r1 ?x = _ => specialize (Hf x) end. rewrite Es2 in Hf. cbn in Hf. by rewrite Hf, <- Hresp.
Qed.

(** A panic of the handler goes on, and is logged once, unless it aborts the response. *)
Theorem LoggingMiddleware_panics next w r s p w' r' s' : c_sentry (Context_ r) = Some p ->
  (forall w0 st, exists r1 s1 q, next w0 st = ((r1, s1), Panicking q)) ->
  logging next w (r, s) = ((r', s'), w') -> exists q, w' = Panicking q /\
    exists r1 s1, events s' = events s1 ++ (if Is ErrAbortHandler (UnwrapPanic (rvr q)) then [] else
      [LogPanic (Context_ r1) q; LogError (Context_ r1) (Wrap (WFields [IntField "status" 500])
        (Wrap (WText "incoming request finished with error") (UnwrapPanic (rvr q))))]).
Proof.
  intros Hp Hn. destruct (LoggingMiddleware_entry w r s p Hp) as (w0 & r0 & s0 & _ & E). rewrite E.
  destruct (Hn w0 (r0, s0)) as (r1 & s1 & q & ->). cbn. intros H.
  exists q. split; [by case_match; simplify_eq|]. exists r1, s1.
  case_match; simplify_eq/=; [by rewrite app_nil_r|done].
Qed.

(** Without a map of Sentry in the context no request is served: the handler is not called. *)
Theorem LoggingMiddleware_needs_sentry w r s : c_sentry (Context_ r) = None ->
  exists st, (forall next, logging next w (r, s) = (st, Panicking no_sentry)) /\ events st.2 = events s.
Proof.
  intros Hp. unfold LoggingMiddleware. destruct (RequestIDFromRequestOrNew uuid (r, s)) as [id [r1 s1]] eqn:Er.
  apply RequestID_spec in Er as (_ & _ & Hs & _ & _ & _ & _ & He). unfold sentry_FromContext. rewrite Hs, Hp. by exists (r1, s1).
Qed.
End logging.
End theorems.

(** ** Handlers that answer, and what is said of them *)

(** What a handler that does not panic does with its writer and its context. *)
Inductive action := AHeader (key value : string) | AStatus (code : Z) | ABody (data : string) | AError (err : error).

Definition act (w : ResponseWriter) (a : action) (st : Request * World) : (Request * World) * ended :=
  let '(r, s) := st in
  match a with
  | AHeader k v => ((r, writer_Set k v s), Done)
  | AStatus code => let '(s, e) := WriteHeader w code s in ((r, s), e)
  | ABody data => ((r, Write data s), Done)
  | AError err => ((r, SetErrorInContext (Context_ r) err s), Done)
  end.
Fixpoint plain (l : list action) : Handler := fun w st =>
  match l with [] => (st, Done) | a :: l' => andThen (act w a st) (plain l' w) end.

Definition final_code (c : Z) : Prop := (200 <= c <= 999)%Z.
Definition final_action (a : action) : Prop := match a with AStatus c => final_code c | _ => True end.

(** The first status that reaches the client, and the last one asked for. *)
Fixpoint first_code (l : list action) : option Z :=
  match l with [] => None | AStatus c :: _ => Some c | ABody _ :: _ => Some 200%Z | _ :: l' => first_code l' end.
Definition last_code (d : Z) (l : list action) : Z := fold_left (fun d a => match a with AStatus c => c | _ => d end) l d.

Definition sent_code (s : World) : option Z := fst <$> sent (resp s).

Lemma conn_WriteHeader_final code s : final_code code -> exists s', conn_WriteHeader code s = (s', Done) /\
  sent_code s' = Some (default code (sent_code s)) /\ lrws s' = lrws s /\ errs s' = errs s.
Proof.
  unfold final_code, conn_WriteHeader, sent_code. intros Hc. destruct (sent (resp s)) as [[c h]|] eqn:E.
  - exists s. by rewrite E.
  - rewrite !decide_False by lia. eexists. by split_and!.
Qed.

Lemma WriteHeader_final w code s : final_code code -> exists s', WriteHeader w code s = (s', Done) /\
  sent_code s' = Some (default code (sent_code s)) /\ errs s' = errs s /\
  (forall p v, lrws s !! p = Some v -> exists v', lrws s' !! p = Some v' /\ (v = code \/ p ∈ w -> v' = code)).
Proof.
  intros Hc. revert s. induction w as [|q w IH]; intros s.
  - destruct (conn_WriteHeader_final code s Hc) as (s' & E & H1 & H2 & H3). exists s'. split_and!; auto.
    intros p v. rewrite H2. intros Hv. exists v. split; [done|]. intros [?|Hp]; [done|by apply elem_of_nil in Hp].
  - cbn [WriteHeader]. destruct (IH (set_lrws (<[q:=code]> (lrws s)) s)) as (s' & E & H1 & H2 & H3). exists s'.
    split_and!; auto. intros p v Hv. destruct (decide (p = q)) as [->|Hne].
    + destruct (H3 q code) as (v' & Hv' & Hc'); [apply list_lookup_insert_eq; by eapply lookup_lt_Some|].
      exists v'. split; [done|]. intros _. apply Hc'. by left.
    + destruct (H3 p v) as (v' & Hv' & Hc'); [cbn; by rewrite list_lookup_insert_ne by done|].
      exists v'. split; [done|]. intros [?|[?|Hp]%elem_of_cons]; [apply Hc'; by left|done|apply Hc'; by right].
Qed.

Lemma Write_sent data s : sent_code (Write data s) = Some (default 200%Z (sent_code s)) /\
  lrws (Write data s) = lrws s /\ errs (Write data s) = errs s.
Proof.
  unfold Write. destruct (conn_WriteHeader_final 200 s ltac:(split; lia)) as (s' & E & H1 & H2 & H3).
  rewrite E. cbn. by rewrite <- H1, H2, H3.
Qed.

Lemma SetErrorInContext_frame ctx err s : sent_code (SetErrorInContext ctx err s) = sent_code s /\
  lrws (SetErrorInContext ctx err s) = lrws s.
Proof. unfold SetErrorInContext. by destruct (c_error ctx). Qed.

(** What a handler's actions leave: the recorder has the last status, the client the first. *)
Lemma plain_spec l p w r s : Forall final_action l -> is_Some (lrws s !! p) -> exists s', plain l (p :: w) (r, s) = ((r, s'), Done) /\
  lrws s' !! p = Some (last_code (default 0%Z (lrws s !! p)) l) /\
  sent_code s' = match sent_code s with Some c => Some c | None => first_code l end.
Proof.
  intros Hl. revert s. induction Hl as [|a l Ha Hl IH]; intros s [v Hv].
  - exists s. cbn. rewrite Hv. split_and!; auto. by destruct (sent_code s).
  - destruct a as [k x|c|d|err].
    + apply (IH (writer_Set k x s)). by exists v.
    + cbn in Ha. destruct (WriteHeader_final (p :: w) c s Ha) as (s1 & E & H1 & _ & H3).
      destruct (H3 p v Hv) as (v' & Hv' & Hc). rewrite Hc in Hv' by (right; by left).
      destruct (IH s1) as (s' & E' & H1' & H2'); [by eexists|]. exists s'. cbn [plain act]. rewrite E. cbn [andThen].
      rewrite E', H1', H2', Hv', H1. split_and!; auto. cbn. by destruct (sent_code s).
    + destruct (Write_sent d s) as (H1 & H2 & _). destruct (IH (Write d s)) as (s' & E' & H1' & H2'); [rewrite H2; by exists v|].
      exists s'. cbn [plain act]. cbn [andThen]. rewrite E', H1', H2', H2, H1. split_and!; auto. cbn. by destruct (sent_code s).
    + destruct (SetErrorInContext_frame (Context_ r) err s) as [H1 H2].
      destruct (IH (SetErrorInContext (Context_ r) err s)) as (s' & E' & H1' & H2'); [rewrite H2; by exists v|].
      exists s'. cbn [plain act]. cbn [andThen]. by rewrite E', H1', H2', H2, H1.
Qed.

(** A log line that states a status. *)
Definition states_status (code : Z) (e : event) : Prop :=
  match e with LogInfo c _ | LogWarn c _ | LogError c _ => IntField "status" code ∈ c_fields c | _ => False end.

Section answers.
Context {X : Xerrors} (uuid shortuuid : nat -> string) (range : gmap string string -> list (string * string)).
Context (appName : string) (routeF : RouteNameFunc) (getSubjectID : Ctx -> result error string) (logSubjField : string -> Field).
Notation logging next := (LoggingMiddleware uuid shortuuid range appName routeF getSubjectID logSubjField next).

Lemma log_finished_spec w r s q : c_error (Context_ r) = Some q -> exists s' e,
  log_finished getSubjectID logSubjField w (r, s) = ((r, s'), Done) /\
  events s' = events s ++ [e] /\ states_status (StatusCode w s) e /\ resp s' = resp s.
Proof.
  intros Hq. unfold log_finished.
  match goal with |- context [WithFields ?f (Context_ r)] => set (fields := f) end.
  assert (Hst : IntField "status" (StatusCode w s) ∈ c_fields (WithFields fields (Context_ r))).
  { cbn. apply elem_of_app. right. subst fields. destruct (getSubjectID (Context_ r)); [apply elem_of_app; left|]; left. }
  assert (Hc : ErrorMustFromContext (WithFields fields (Context_ r)) s = Returns (default None (errs s !! q)))
    by (unfold ErrorMustFromContext; cbn; by rewrite Hq).
  rewrite Hc. destruct (default None (errs s !! q)) as [err|].
  - unfold LogAppError. destruct (Is ctx_Canceled err); do 2 eexists; (split; [reflexivity|]); by split_and!.
  - do 2 eexists. split; [reflexivity|]. by split_and!.
Qed.

(** The request of a handler that answers ends with one log line, with the status it asked for
    last; the client gets the one it asked for first. *)
Theorem logged_status l w r s p : Forall final_action l -> c_sentry (Context_ r) = Some p ->
  (forall r s, resp (routeF r s).2 = resp s) -> sent (resp s) = None ->
  exists r' s' ev e, logging (plain l) w (r, s) = ((r', s'), Done) /\ events s' = ev ++ [e] /\
    states_status (last_code 200 l) e /\ status_sent s' = default 200%Z (first_code l).
Proof.
  intros Hl Hp Hf Hs. destruct (LoggingMiddleware_entry uuid shortuuid range appName routeF getSubjectID logSubjField w r s p Hp)
    as (w' & r' & s' & [_ _ _ _ (q & Hq & _) (k & -> & Hk) Hsent] & E).
  rewrite E. destruct (plain_spec l k w r' s' Hl (ex_intro _ _ Hk)) as (s1 & -> & Hk1 & Hs1). cbn [andThen].
  destruct (log_finished_spec (k :: w) r' s1 q Hq) as (s2 & e & -> & He & Hst & Hr).
  exists r', s2, (events s1), e. split_and!; auto.
  - cbn in Hst. rewrite Hk1 in Hst. cbn in Hst. by rewrite Hk in Hst.
  - assert (H0 : sent_code s' = None) by (unfold sent_code; by rewrite Hsent, Hs). rewrite H0 in Hs1.
    unfold status_sent. rewrite Hr. unfold sent_code in Hs1. destruct (sent (resp s1)) as [[c h]|]; cbn in Hs1; by rewrite <- Hs1.
Qed.
End answers.

(** ** Recovery *)

Section recovery.
Context {X : Xerrors} (as_OpError : error -> option (option error)) (as_SyscallError : error -> option string).
Notation recovery := (RecoveryMiddleware as_OpError as_SyscallError).

(** A panic that is answered: neither a broken connection nor an aborted response. *)
Definition answered (p : thrown) : bool :=
  negb (broken_pipe as_OpError as_SyscallError (UnwrapPanic (rvr p))) && negb (Is ErrAbortHandler (UnwrapPanic (rvr p))).

(** Nothing panics past the middleware, if the function that answers does not. *)
Lemma recovery_returns errorHandler next w st :
  (forall w err st, (errorHandler w err st).2 = Done) -> (recovery errorHandler next w st).2 = Done.
Proof.
  intros He. unfold RecoveryMiddleware. destruct (next w st) as [[r s] [|p]]; [done|]. cbn zeta. by repeat case_match.
Qed.

(** An aborted response is not aborted: the server sees a handler that returned, so that a client
    to whom nothing was sent gets an empty success. *)
Theorem abort_is_swallowed errorHandler next w r s r1 s1 : sent (resp s1) = None ->
  next w (r, s) = ((r1, s1), Panicking (ThrowError (Leaf ErrAbortHandler))) ->
  exists s', recovery errorHandler next w (r, s) = ((r1, s'), Done) /\ status_sent s' = 200%Z.
Proof.
  intros Hs Hn. unfold RecoveryMiddleware. rewrite Hn. cbn [rvr UnwrapPanic].
  assert (Hi : Is ErrAbortHandler (Leaf ErrAbortHandler) = true) by (unfold Is; cbn; by rewrite decide_True).
  rewrite Hi. eexists. split; [by case_match|]. unfold status_sent. cbn. by rewrite Hs.
Qed.

(** ** The handler of metrics *)

Context (uuid shortuuid : nat -> string) (range : gmap string string -> list (string * string)).
Definition with_span (name : string) (c : Ctx) : Ctx :=
  MkCtx (c_reqid c) (c_sentry c) (c_error c) (c_names c) (c_fields c) (c_auth c) (c_slug c) (c_span c ++ [name]).
Definition otel (next : Handler) (name : string) : Handler := fun w '(r, s) =>
  let '((r2, s'), e) := next w (WithContext r (with_span name (Context_ r)), s) in ((shared_header r r2, s'), e).

Context (NewHandler : Handler -> string -> Handler).
Hypothesis otel_law : forall next name w r s, NewHandler next name w (r, s) = otel next name w (r, s).
Notation metrics_handler scrape := (NewMetricsHandler uuid shortuuid range as_OpError as_SyscallError NewHandler scrape (StringField "user_id")).

Lemma respond_500_spec w err r s : exists s', respond_500 w err (r, s) = ((r, s'), Done) /\
  sent_code s' = Some (default 500%Z (sent_code s)).
Proof.
  destruct (WriteHeader_final w 500 s ltac:(split; lia)) as (s1 & E & H1 & _). unfold respond_500. rewrite E.
  eexists. split; [reflexivity|]. by rewrite (proj1 (Write_sent _ _)), H1.
Qed.

(** What happens between the recovery and the handler that the logging wraps. *)
Notation finished w := (log_finished (fun _ => Err noUserId) (StringField "user_id") w).
Lemma metrics_inner scrape w r s : exists w' r' s',
  logged_entry urlMethodGetter (request_id_of uuid r s) w w' r r' s s' /\ exists r1,
  SentryMiddleware urlMethodGetter (TracingMiddleware NewHandler "metrics-api"
    (LoggingMiddleware uuid shortuuid range "metrics-api" urlMethodGetter (fun _ => Err noUserId) (StringField "user_id") scrape)) w (r, s) =
  let m := log_panics (andThen (scrape w' (r', s')) (finished w')) in ((r1, emit [SpanFinish "http_handler_execution"] m.1.2), m.2).
Proof.
  unfold SentryMiddleware, TracingMiddleware. change (urlMethodGetter r s) with ({| OperationID := ""; Url := ""; um_Method := "" |}, s).
  cbn [InitCtx sentry_FromContext set_sentry c_sentry].
  rewrite otel_law. unfold otel.
  match goal with |- context [LoggingMiddleware _ _ _ _ _ _ _ _ w (?r0, ?s0)] => set (r1 := r0); set (s1 := s0) end.
  destruct (LoggingMiddleware_entry uuid shortuuid range "metrics-api" urlMethodGetter (fun _ => Err noUserId) (StringField "user_id")
    w r1 s1 (length (sentries s)) eq_refl) as (w' & r' & s' & He & E).
  exists w', r', s'. split; [by destruct He|]. rewrite E. destruct (log_panics _) as [[r2 s2] e2]. by eexists.
Qed.

Lemma log_panics_ended m : (log_panics m).2 = m.2 /\ resp (log_panics m).1.2 = resp m.1.2.
Proof. destruct m as [[r s] [|p]]; [done|]. cbn. by case_match. Qed.

(** C36. The handler of metrics always returns, so that every request for metrics is answered. When
    the library of metrics answers, the status is the one it gives. When it panics before it has
    sent anything, it is 500; but for a panic with [http.ErrAbortHandler], or with the error of a
    connection that is broken or reset, which is swallowed: nothing is sent for it, and the server
    sends the status 200 for a handler that returned. Assumed is that nothing was sent before the
    handler, and that the tracing library calls the handler it is around once, with a span. *)
Theorem metrics_handler_answers scrape w r s : sent (resp s) = None -> exists st, metrics_handler scrape w (r, s) = (st, Done) /\
  (forall b, (forall w0 r0 s0, exists r1 s1 p, scrape w0 (r0, s0) = ((r1, s1), Panicking p) /\ sent (resp s1) = sent (resp s0) /\ answered p = b) ->
   status_sent st.2 = if b then 500%Z else 200%Z) /\
  (forall l, scrape = plain l -> Forall final_action l -> status_sent st.2 = default 200%Z (first_code l)).
Proof.
  intros Hs. destruct (metrics_inner scrape w r s) as (w' & r' & s' & [_ _ _ _ (q & Hq & _) (k & -> & Hk) Hsent] & r1 & E).
  rewrite Hs in Hsent. specialize (Hsent (fun _ _ => eq_refl)).
  set (m := andThen (scrape (k :: w) (r', s')) (finished (k :: w))) in E. cbn zeta in E. destruct (log_panics_ended m) as [Hm2 Hmr].
  exists (metrics_handler scrape w (r, s)).1. change (NewMetricsHandler _ _ _ _ _ _ _ _) with
    (recovery respond_500 (SentryMiddleware urlMethodGetter (TracingMiddleware NewHandler "metrics-api"
    (LoggingMiddleware uuid shortuuid range "metrics-api" urlMethodGetter (fun _ => Err noUserId) (StringField "user_id") scrape)))).
  split_and!.
  - rewrite (surjective_pairing (recovery _ _ w (r, s))) at 1. f_equal.
    apply recovery_returns. intros w1 err [r2 s2]. by destruct (respond_500_spec w1 err r2 s2) as (s3 & -> & _).
  - intros b Hp. destruct (Hp (k :: w) r' s') as (r2 & s2 & p & Esc & Hs2 & Ha).
    unfold RecoveryMiddleware. rewrite E, Hm2. replace m with ((r2, s2), Panicking p) in * by (subst m; by rewrite Esc).
    cbn [snd]. unfold answered in Ha. assert (Hno : sent (resp (log_panics ((r2, s2), Panicking p)).1.2) = None) by (rewrite Hmr; cbn; congruence).
    destruct (broken_pipe _ _ _); [subst b; unfold status_sent; cbn [resp emit fst snd negb andb]; by rewrite Hno|].
    destruct (Is ErrAbortHandler _); [subst b; unfold status_sent; cbn [resp emit fst snd negb andb]; by rewrite Hno|]. subst b. cbn [negb andb].
    match goal with |- context [respond_500 w ?e (?a, ?b)] => destruct (respond_500_spec w e a b) as (s3 & -> & H3) end.
    unfold status_sent, sent_code in *. cbn [resp emit] in H3. rewrite Hmr in H3. cbn [fst snd] in H3. rewrite Hs2, Hsent in H3.
    cbn. by destruct (sent (resp s3)) as [[c h]|]; simplify_eq/=.
  - intros l -> Hl. destruct (plain_spec l k w r' s' Hl (ex_intro _ _ Hk)) as (s1 & Esc & _ & H1).
    destruct (log_finished_spec (fun _ => Err noUserId) (StringField "user_id") (k :: w) r' s1 q Hq) as (s2 & e & Ef & _ & _ & Hr).
    assert (Em : m = ((r', s2), Done)) by (subst m; by rewrite Esc; cbn [andThen]). unfold RecoveryMiddleware. rewrite E, Hm2, Em.
    unfold status_sent, sent_code in *. cbn [fst snd resp emit]. rewrite <- Em, Hmr, Em. cbn [fst snd]. rewrite Hr. rewrite Hsent in H1.
    destruct (sent (resp s1)) as [[c h]|]; cbn in H1; by rewrite <- H1.
Qed.
End recovery.

(** ** Identifiers in paths *)

Lemma IndexOf_spec l key i : IndexOf l key = Some i <-> exists l1 l2, l = l1 ++ key :: l2 /\ key ∉ l1 /\ length l1 = i.
Proof.
  revert i. induction l as [|x l IH]; intros i; cbn.
  - split; [done|]. intros ([|] & l2 & ? & _); done.
  - case_decide as Hx.
    + subst x. split.
      * intros. simplify_eq. exists [], l. split_and!; [done|apply not_elem_of_nil|done].
      * intros ([|y l1] & l2 & Hl & Hn & Hi); simplify_eq/=; [done|]. destruct Hn. by left.
    + rewrite fmap_Some. split.
      * intros (j & Hj & ->). apply IH in Hj as (l1 & l2 & -> & Hn & <-). exists (x :: l1), l2.
        split_and!; [done| |done]. rewrite not_elem_of_cons. split; [congruence|done].
      * intros ([|y l1] & l2 & Hl & Hn & Hi); simplify_eq/=. apply not_elem_of_cons in Hn as [_ Hn].
        exists (length l1). split; [|done]. apply IH. by exists l1, l2.
Qed.

Lemma getIdFromHttpPathParts_spec parts key id : getIdFromHttpPathParts parts key = Some id <->
  exists l1 l2, parts = l1 ++ key :: id :: l2 /\ key ∉ l1.
Proof.
  unfold getIdFromHttpPathParts. split.
  - destruct (IndexOf parts key) as [i|] eqn:Hi; [|done]. apply IndexOf_spec in Hi as (l1 & l2 & -> & Hn & <-).
    case_decide; [done|]. rewrite lookup_app_r by lia. replace (S (length l1) - length l1) with 1 by lia.
    cbn. destruct l2 as [|y l2]; [done|]. intros. simplify_eq/=. by exists l1, l2.
  - intros (l1 & l2 & -> & Hn). rewrite (proj2 (IndexOf_spec (l1 ++ key :: id :: l2) key (length l1))) by by exists l1, (id :: l2).
    rewrite decide_False by (rewrite length_app; cbn; lia). rewrite lookup_app_r by lia. by replace (S (length l1) - length l1) with 1 by lia.
Qed.

(** The identifier of a kind is what follows the first segment that names the kind. *)
Theorem getIdsFromHttpPath_spec p key idKey id : (key, idKey) ∈ httpPathKeyToIdKey ->
  getIdsFromHttpPath p !! idKey = Some id <->
  exists l1 l2, split_byte "/"%char p = l1 ++ key :: id :: l2 /\ key ∉ l1.
Proof.
  intros Hk. rewrite <- getIdFromHttpPathParts_spec. unfold getIdsFromHttpPath, httpPathKeyToIdKey in *. cbn [fold_left fst snd].
  set (parts := split_byte _ p).
  rewrite !elem_of_cons in Hk.
  assert (Hput : forall k (m : gmap string string), m !! k = None ->
    forall o : option string, match o with Some i => <[k := i]> m | None => m end !! k = o /\
    forall k', k' <> k -> match o with Some i => <[k := i]> m | None => m end !! k' = m !! k').
  { intros k m Hm [i|]; split; intros; rewrite ?lookup_insert_eq, ?lookup_insert_ne; done. }
  destruct (Hput "project_id" ∅ ltac:(done) (getIdFromHttpPathParts parts "projects")) as [A1 A2].
  set (m1 := match getIdFromHttpPathParts parts "projects" with Some i => <["project_id" := i]> ∅ | None => ∅ end) in *.
  destruct (Hput "branch_id" m1 (A2 "branch_id" ltac:(done)) (getIdFromHttpPathParts parts "branches")) as [B1 B2].
  set (m2 := match getIdFromHttpPathParts parts "branches" with Some i => <["branch_id" := i]> m1 | None => m1 end) in *.
  destruct (Hput "endpoint_id" m2 ltac:(by rewrite B2, A2) (getIdFromHttpPathParts parts "endpoints")) as [C1 C2].
  set (m3 := match getIdFromHttpPathParts parts "endpoints" with Some i => <["endpoint_id" := i]> m2 | None => m2 end) in *.
  destruct (Hput "compute_id" m3 ltac:(by rewrite C2, B2, A2) (getIdFromHttpPathParts parts "computes")) as [D1 D2].
  destruct Hk as [?|[?|[?|[?|Hk]]]]; simplify_eq.
  - by rewrite D2, C2, B2, A1.
  - by rewrite D2, C2, B1.
  - by rewrite D2, C1.
  - by rewrite D1.
  - by apply not_elem_of_nil in Hk.
Qed.

(** ** Lists of middlewares and multiplexers *)

(** The first middleware of a list is the one next to the handler, and nil ones are skipped. *)
Theorem Wrap_Middlewares handler l : Wrap_ handler (Middlewares l) = foldr (fun m h => match m with Some m => m h | None => h end) handler (reverse l).
Proof.
  unfold Wrap_, Middlewares. revert handler. induction l as [|[m|] l IH]; intros handler; [done| |]; cbn [omap list_omap id];
    rewrite reverse_cons, foldr_snoc; apply IH.
Qed.

(** A rewritten request has the new prefix in place of the old one; others are not found. *)
Theorem rewrite_spec from to h w r s rest :
  (Path r = from +:+ rest -> exists s', RewriteRequestHandler_ServeHTTP {| prefixFrom := from; prefixTo := to; handlerTo := h |} w (r, s) =
    h w (set_path r (to +:+ rest), s') /\ resp s' = resp s) /\
  (has_prefix (Path r) from = false ->
    RewriteRequestHandler_ServeHTTP {| prefixFrom := from; prefixTo := to; handlerTo := h |} w (r, s) = serve_NotFound w (r, s)).
Proof.
  unfold RewriteRequestHandler_ServeHTTP, CutPrefix. cbn. split; [|by intros ->].
  intros ->. assert (Hp : has_prefix (from +:+ rest) from = true).
  { induction from as [|c from IH]; [by destruct rest|]. change (String c from +:+ rest) with (String c (from +:+ rest)). cbn. by rewrite bool_decide_true. }
  rewrite Hp, sdrop_app. by eexists.
Qed.

Lemma no_slash_prefix s b : index_byte "/"%char s = None -> has_prefix s (b +:+ "/") = false.
Proof.
  revert b. induction s as [|x s IH]; intros b Hs; [by destruct b|]. cbn in Hs. case_decide as Hx; [done|].
  destruct b as [|c b]; [change ("" +:+ "/") with "/"; cbn; by rewrite bool_decide_false by done|].
  change (String c b +:+ "/") with (String c (b +:+ "/")). cbn [has_prefix]. rewrite IH; [apply andb_false_r|].
  by destruct (index_byte _ s).
Qed.

Lemma app_inj_l (a b c : string) : a +:+ b = a +:+ c -> b = c.
Proof. intros H. by rewrite <- (sdrop_app a b), H, sdrop_app. Qed.

(** An application with a base URL serves its health at /healthz, its handlers get paths without
    the base URL, and nothing else is found. *)
Theorem New_routes {V} cfg handler mv (getHealth : Ctx -> result error V) marshal mux w r s :
  BaseURL cfg <> "" -> New cfg handler mv getHealth marshal = Returns mux ->
  (Path r = "/healthz" -> mux_ServeHTTP mux w (r, s) = healthCheckHandler getHealth marshal w (r, s)) /\
  (forall rest, Path r = BaseURL cfg +:+ "/" +:+ rest -> Path r <> "/healthz" -> 
     let m := Wrap_ handler mv w (set_path r ("/" +:+ rest), s) in
     mux_ServeHTTP mux w (r, s) = ((shared_header r m.1.1, m.1.2), m.2)) /\
  (Path r <> "/healthz" -> has_prefix (Path r) (BaseURL cfg +:+ "/") = false -> mux_ServeHTTP mux w (r, s) = serve_NotFound w (r, s)).
Proof.
  intros Hb. unfold New. rewrite decide_False by done. unfold mux_Handle at 2. rewrite decide_False by (by destruct (BaseURL cfg)).
  rewrite decide_False by apply not_elem_of_nil. cbn [mbind outcome_bind app]. unfold mux_Handle. rewrite decide_False by done.
  case_decide as Hd; [done|]. intros Hm. simplify_eq. unfold mux_ServeHTTP. cbn [app mux_find].
  assert (Hlast : last_byte (BaseURL cfg +:+ "/") = Some "/"%char) by apply last_byte_app.
  assert (Hbase : forall p, p <> "/healthz" -> mux_find p [(BaseURL cfg +:+ "/", StripPrefix (BaseURL cfg) (Wrap_ handler mv));
      ("/healthz", healthCheckHandler getHealth marshal)] None =
      if has_prefix p (BaseURL cfg +:+ "/") then Some (BaseURL cfg +:+ "/", StripPrefix (BaseURL cfg) (Wrap_ handler mv)) else None).
  { intros p Hp. cbn [mux_find]. unfold mux_matches. rewrite (bool_decide_false (p = "/healthz")) by done. cbn [last_byte].
    rewrite (bool_decide_false (Some "z"%char = _)) by done. rewrite Hlast, (bool_decide_true (Some _ = _)) by done. cbn [orb andb].
    case_bool_decide as Hpe; [|by destruct (has_prefix _ _)]. cbn [orb andb]. subst p.
    rewrite <- (string_app_nil_r (BaseURL cfg +:+ "/")) at 2. by rewrite has_prefix_app. }
  split_and!.
  - intros Hp. rewrite Hp. cbn [mux_find]. unfold mux_matches at 1 2. rewrite (bool_decide_true ("/healthz" = "/healthz")) by done.
    assert (Hn : has_prefix "/healthz" (BaseURL cfg +:+ "/") = false).
    { destruct (BaseURL cfg) as [|c b]; [done|]. change (bool_decide (c = "/"%char) && has_prefix "healthz" (b +:+ "/") = false).
      rewrite no_slash_prefix by done. apply andb_false_r. }
    rewrite Hn, andb_false_r. rewrite (bool_decide_false ("/healthz" = _)); [done|]. intros Heq. by rewrite <- Heq in Hlast.
  - intros rest Hp Hne. cbn [mux_find] in Hbase. rewrite (Hbase _ Hne). rewrite Hp, string_app_assoc, has_prefix_app.
    unfold StripPrefix. rewrite decide_False by done. unfold CutPrefix.
    rewrite Hp, has_prefix_app, sdrop_app. by destruct (Wrap_ _ _ _ _) as [[??]?].
  - intros Hne Hf. cbn [mux_find] in Hbase. by rewrite (Hbase _ Hne), Hf.
Qed.

(** ** An instance: a scrape that panics is answered with the status 500 *)

Section instance.
#[local] Instance instance_xerrors : Xerrors := { xerrors_text t := t }.
Definition numbered (n : nat) : string := "id-" +:+ pretty n.
Definition scrape_panics : Handler := fun w '(r, s) => ((r, s), Panicking (ThrowValue "no metrics")).

Lemma metrics_handler_answers_witness : exists st,
  NewMetricsHandler numbered numbered map_to_list (fun _ => None) (fun _ => None) otel scrape_panics (StringField "user_id") []
    (MkRequest "GET" "/metrics" "/metrics" "10.0.0.1" ∅ Background, new_world) = (st, Done) /\ status_sent st.2 = 500%Z.
Proof.
  destruct (metrics_handler_answers (fun _ => None) (fun _ => None) numbered numbered map_to_list otel (fun _ _ _ _ _ => eq_refl)
    scrape_panics [] (MkRequest "GET" "/metrics" "/metrics" "10.0.0.1" ∅ Background) new_world eq_refl) as (st & E & H500 & _).
  exists st. split; [exact E|]. apply (H500 true). intros w0 r0 s0. exists r0, s0, (ThrowValue "no metrics"). by split_and!.
Defined.
End instance.
