(* ===== verification/Auth.v ===== *)
(** * Credentials of requests (internal/resttooling: oauth.go, authentication_method.go, urislug.go)

    Bearer tokens in the header of a request, and the values of a context that say how a request
    was authenticated and under which slug its metrics are counted. *)
From S2P Require Import Prelude Codes GoErrors Semerr Http.
Import semerr.

(** ** Values of the context *)

(* go: internal/resttooling/authentication_method.go | AuthMethodUNKNOWN AuthMethod *)
Definition AuthMethodUNKNOWN : string := "UNKNOWN".
(* go: internal/resttooling/authentication_method.go | var ErrAuthMethodNotInContext *)
Definition ErrAuthMethodNotInContext : leaf := LNew 26 "authentication method not in context".
(* go: internal/resttooling/authentication_method.go | // AuthMethodToContext sets *)
Definition AuthMethodToContext (ctx : Ctx) (method : string) : Ctx := set_auth method ctx.
(* go: internal/resttooling/authentication_method.go | func AuthMethodFromContext *)
Definition AuthMethodFromContext (ctx : Ctx) : string * option error :=
  match c_auth ctx with
  | Some m => (m, None)
  | None => (AuthMethodUNKNOWN, Some (Leaf ErrAuthMethodNotInContext))
  end.

(* go: internal/resttooling/urislug.go | // URISlugToContext persists *)
Definition URISlugToContext (ctx : Ctx) (slug : string) : Ctx := set_slug slug ctx.
(* go: internal/resttooling/urislug.go | // URISlugFromContext extracts *)
Definition URISlugFromContext (ctx : Ctx) : string := match c_slug ctx with Some val => val | None => "" end.

(* go: internal/resttooling/roundtripper/metrics.go | type MetricEvent struct *)
Record MetricEvent := { StandID : string; Service : string; Uri : string }.
(* go: internal/resttooling/urislug.go | // MetricReportCfg preconfigures *)
Record MetricReportCfg := { cfg_ClientName : string; cfg_StandID : string }.
(* go: internal/resttooling/urislug.go | // MetricFromContext is *)
Definition MetricFromContext (cfg : MetricReportCfg) (ctx : Ctx) : MetricEvent :=
  {| StandID := cfg_StandID cfg; Service := cfg_ClientName cfg; Uri := URISlugFromContext ctx |}.

(** ** Bearer tokens (oauth.go) *)

(* go: internal/resttooling/oauth.go | AuthorizationHeader = *)
Definition AuthorizationHeader : string := "Authorization".
(* go: internal/resttooling/oauth.go | AuthPrefix *)
Definition AuthPrefix : string := "Bearer ".
(* go: internal/resttooling/oauth.go | UnknownAddr *)
Definition UnknownAddr : string := "UNKNOWN".
(* go: internal/resttooling/oauth.go | invalidAuthMsg *)
Definition invalidAuthMsg : string := "not authenticated".
(* go: internal/resttooling/oauth.go | func BearerPayload *)
Definition BearerPayload (token : string) : string := AuthPrefix +:+ token.
(* go: internal/resttooling/oauth.go | // SetBearerToken sets *)
Definition SetBearerToken (token : string) (req : Request) : Request :=
  set_req_header req (Header_Set AuthorizationHeader (BearerPayload token) (req_header req)).
(* go: internal/resttooling/oauth.go | var ErrNoAuthHeader *)
Definition ErrNoAuthHeader : leaf := LNew 27 "no auth header supplied".
(* go: internal/resttooling/oauth.go | var loweredAuthPrefix *)
Definition loweredAuthPrefix : string := to_lower AuthPrefix.

(* go: internal/resttooling/oauth.go | // getBearerTokenFromReq returns *)
Definition getBearerTokenFromReq (req : Request) : result error string :=
  let authHdr := Header_Get AuthorizationHeader (req_header req) in
  if decide (authHdr = "") then Err (Leaf ErrNoAuthHeader)
  else if decide (String.length authHdr <= String.length loweredAuthPrefix) then Err (Leaf (LText "header is too short"))
  else if decide (to_lower (stake (String.length loweredAuthPrefix) authHdr) <> loweredAuthPrefix)
  then Err (Leaf (LText "header is malformed"))
  else Ok (sdrop (String.length loweredAuthPrefix) authHdr).

(* go: internal/resttooling/oauth.go | func getSourceAddr *)
Definition getSourceAddr (req : Request) : string :=
  let addr := Header_Get "X-Forwarded-For" (req_header req) in
  if decide (addr = "") then UnknownAddr else addr.

(* go: internal/resttooling/oauth.go | type BearerTokenReq struct *)
Record BearerTokenReq := { TokenFromReq : string; SourceAddr : string }.

Section bearer.
Context {X : Xerrors}.

(* go: internal/resttooling/oauth.go | // BearerTokenReqFromHTTP returns *)
Definition BearerTokenReqFromHTTP (r : Request) : result Error BearerTokenReq :=
  match getBearerTokenFromReq r with
  | Err err => Err (WrapWithInvalidInput err invalidAuthMsg [])
  | Ok tokenFromReq => Ok {| TokenFromReq := tokenFromReq; SourceAddr := getSourceAddr r |}
  end.

(* go: internal/resttooling/forbiddenrequest_middleware.go | var errForbiddenRequestAuthentication *)
Definition errForbiddenRequestAuthentication : leaf := LNew 28 "ForbiddenRequestAuthentication".
(** A method of authentication gives the request to go on with, nothing, or an error. *)
(* go: internal/resttooling/forbiddenrequest_middleware.go | func (ForbiddenRequestAuthentication) Auth *)
Definition ForbiddenRequestAuthentication_Auth (w : ResponseWriter) (r : Request) : option Request * option Error :=
  (None, Some (WrapWithAuthentication (Leaf errForbiddenRequestAuthentication) "supplied credentials do not pass authentication" [])).
(* go: internal/resttooling/forbiddenrequest_middleware.go | func (ForbiddenRequestAuthentication) GetName *)
Definition ForbiddenRequestAuthentication_GetName : string := "forbidden request authentication".

(** ** What is read *)

(** A token is read exactly from a header of seven bytes that are the prefix in any case, and the
    token, which is not empty. *)
Theorem getBearerToken_spec r t : getBearerTokenFromReq r = Ok t <->
  t <> "" /\ exists pre, Header_Get AuthorizationHeader (req_header r) = pre +:+ t /\ to_lower pre = "bearer ".
Proof.
  unfold getBearerTokenFromReq. set (h := Header_Get AuthorizationHeader (req_header r)).
  change loweredAuthPrefix with "bearer ". assert (Hn : exists n, n = String.length "bearer ") by by eexists. destruct Hn as [n Hn].
  rewrite <- Hn. split.
  - case_decide; [done|]. case_decide as Hl; [done|]. case_decide as Hp; [done|]. intros [= <-]. split.
    + intros Ht. pose proof (sdrop_length n h) as Hd. rewrite Ht in Hd. cbn [String.length] in Hd. lia.
    + exists (stake n h). split; [by rewrite stake_sdrop|done].
  - intros (Ht & pre & Hh & Hpre). assert (Hlen : String.length pre = n) by (rewrite <- to_lower_length, Hpre; done).
    rewrite Hh. rewrite decide_False by (by destruct pre).
    rewrite decide_False by (rewrite string_length_app; destruct t; [done|cbn [String.length]; lia]).
    rewrite <- Hlen, stake_app, sdrop_app, Hpre. by rewrite decide_False by auto.
Qed.

(** What a client sets is what a server reads; the rest of the header is kept. *)
Theorem bearer_roundtrip token req : token <> "" ->
  BearerTokenReqFromHTTP (SetBearerToken token req) = Ok {| TokenFromReq := token; SourceAddr := getSourceAddr req |}.
Proof.
  intros Ht. unfold BearerTokenReqFromHTTP. rewrite (proj2 (getBearerToken_spec (SetBearerToken token req) token)).
  - f_equal. f_equal. unfold getSourceAddr, SetBearerToken. cbn [req_header set_req_header]. by rewrite Get_Set_ne by done.
  - split; [done|]. exists AuthPrefix. unfold SetBearerToken. cbn [req_header set_req_header]. by rewrite Get_Set.
Qed.

(** A missing or malformed token is an invalid input, with the reason inside. *)
Theorem bearer_error_is_invalid_input r e : BearerTokenReqFromHTTP r = Err e ->
  e_Semantic e = SemanticInvalidInput /\ IsInvalidInput (to_error e) = true /\
  (Header_Get AuthorizationHeader (req_header r) = "" <-> Is ErrNoAuthHeader (to_error e) = true).
Proof.
  unfold BearerTokenReqFromHTTP, getBearerTokenFromReq. repeat case_decide; intros; simplify_eq; split_and!; try done.
Qed.

(** The empty token is not read back. *)
Example empty_bearer : exists e, BearerTokenReqFromHTTP (SetBearerToken "" (MkRequest "GET" "/" "/" "" ∅ Background)) = Err e.
Proof. eexists. reflexivity. Qed.

Theorem contexts_roundtrip ctx m slug : AuthMethodFromContext (AuthMethodToContext ctx m) = (m, None) /\
  URISlugFromContext (URISlugToContext ctx slug) = slug /\
  AuthMethodFromContext (URISlugToContext ctx slug) = AuthMethodFromContext ctx.
Proof. done. Qed.
End bearer.
