(* ===== verification/RoundTrippers.v ===== *)
(** * Layers of HTTP clients (internal/resttooling/roundtripper, resttimeouts)

    A round tripper gets a request it may change and gives a response, an error, both or neither.
    The layers set headers, carry the identifier of the request, log, count, wait for a rate
    limiter, answer with a handler, and stop waiting after a timeout. HttpClient.v says how they
    are nested. Two branches of a select that race are the constructors of a relation. *)
From S2P Require Import Prelude Codes GoErrors Semerr RestRetries Http Middleware Auth.

(** A response as a client sees it. *)
Record HResponse := MkHResponse { hr_StatusCode : Z; hr_Status : string; hr_header : Header; hr_body : string }.
Notation results := (option HResponse * option error)%type.
Notation RoundTripper := (Request * World -> (Request * World) * outcome results).

Definition client_Set (key value : string) (r : Request) : Request := set_req_header r (Header_Set key value (req_header r)).

(** What is done with a copy of the request with another context: the header is shared. *)
Definition with_ctx (ctx : Ctx) (rt : RoundTripper) : RoundTripper := fun '(r, s) =>
  let '((r2, s), res) := rt (WithContext r ctx, s) in ((shared_header r r2, s), res).

Section layers.
Context (uuid : nat -> string).

(** The map of headers is listed in the order it is ranged over. *)
(* go: internal/resttooling/roundtripper/header.go | // RoundTrip implements *)
Definition headers_RoundTrip (setHeaders : Ctx -> Request -> result error (list (string * string))) (rt : RoundTripper) : RoundTripper :=
  fun '(r, s) =>
  match setHeaders (Context_ r) r with
  | Err err => ((r, s), Returns (None, Some err))
  | Ok headers => rt (fold_left (fun r kv => client_Set kv.1 kv.2 r) headers r, s)
  end.

(* go: internal/resttooling/roundtripper/requestid.go | // RoundTrip implements *)
Definition requestID_RoundTrip (rt : RoundTripper) : RoundTripper := fun '(r, s) =>
  let '(reqID, s) := FromContextOrNew uuid (Context_ r) s in
  let ctx := WithFields [StringField "egress_request_id" reqID] (WithRequestID (Context_ r) reqID) in
  with_ctx ctx rt (client_Set HeaderName reqID r, s).

(** The statuses whose location is logged. *)
Definition redirects : list Z := [307; 308; 302; 301]%Z.
(* go: internal/resttooling/roundtripper/logging.go | // RoundTrip implements *)
Definition logging_RoundTrip (clientName : string) (rt : RoundTripper) : RoundTripper := fun '(r, s) =>
  let ctx := WithFields [StringField "egress_method" (Method r); StringField "egress_path" (Path r); StringField "client_name" clientName]
    (WithName clientName (WithName "http" (Context_ r))) in
  let startTime := now s in
  let '((r, s), res) := with_ctx ctx rt (r, s) in
  let ms := IntField "egress_duration_ms" (Milliseconds (now s - startTime)) in
  match res with
  | Panics why => ((r, s), Panics why)
  | Returns (_, Some err) => ((r, emit [LogDebug (WithFields [ms] ctx) "outgoing request resulted in error"] s), Returns (None, Some err))
  | Returns (None, None) => ((r, s), Panics "runtime error: invalid memory address or nil pointer dereference")
  | Returns (Some resp, None) =>
      let location := if decide (hr_StatusCode resp ∈ redirects) then [StringField "location" (Header_Get "Location" (hr_header resp))] else [] in
      let logFields := location ++ [StringField "http_code" (hr_Status resp); ms] in
      ((r, emit [LogDebug (WithFields logFields ctx) "outgoing request finished"] s), Returns (Some resp, None))
  end.

(* go: internal/resttooling/roundtripper/metrics.go | type metricEvent struct *)
Record metricEvent := { standID : string; duration : Z; uri : string; method : string; code : string; service : string }.
(* go: internal/resttooling/roundtripper/metrics.go | func setMetrics *)
Definition setMetrics (e : metricEvent) (s : World) : World :=
  let labels := [uri e; method e; code e; service e; standID e] in
  emit [Metric "http_egress_duration" labels; Metric "http_egress_total" labels] s.
(* go: internal/resttooling/roundtripper/metrics.go | // RoundTrip implements *)
Definition metrics_RoundTrip (eventDescription : Ctx -> MetricEvent) (rt : RoundTripper) : RoundTripper := fun '(r, s) =>
  let ctx := Context_ r in
  let started := now s in
  match rt (r, s) with
  | ((r, s), Panics why) => ((r, s), Panics why)
  | ((r, s), Returns (response, err)) =>
      let e := eventDescription ctx in
      let event := {|
        standID := StandID e; service := Service e; method := Method r;
        uri := if decide (Uri e = "") then RequestURI r else Uri e;
        code := match response with None => "network-err" | Some resp => pretty (hr_StatusCode resp) end;
        duration := now s - started |}%Z in
      ((r, setMetrics event s), Returns (response, err))
  end.

(* go: internal/resttooling/roundtripper/rate_limiter.go | const DefaultSlug *)
Definition DefaultSlug : string := "default".
(** A limiter is a pointer; [Wait] blocks until it lets the call pass, or the context ends. *)
Context (Wait : nat -> Ctx -> World -> World * option error).
(* go: internal/resttooling/roundtripper/rate_limiter.go | limiter := rt.limiters[rt.uriSlug(ctx)] | L35-L38 *)
Definition limiter_for (limiters : gmap string nat) (slug : string) : option nat :=
  match limiters !! slug with Some l => Some l | None => limiters !! DefaultSlug end.
(* go: internal/resttooling/roundtripper/rate_limiter.go | // RoundTrip implements *)
Definition rateLimiter_RoundTrip (limiters : gmap string nat) (uriSlug : Ctx -> string) (rt : RoundTripper) : RoundTripper :=
  fun '(r, s) =>
  match limiter_for limiters (uriSlug (Context_ r)) with
  | None => rt (r, s)
  | Some limiter =>
      match Wait limiter (Context_ r) s with
      | (s, Some err) => ((r, s), Returns (None, Some (Wrap (WText "error while waiting for rate limiters") err)))
      | (s, None) => rt (r, s)
      end
  end.
End layers.

(** The recorder of the handler's response. *)
Definition recorded (s : World) : HResponse :=
  MkHResponse (status_sent s) "" (match sent (resp s) with Some (_, h) => h | None => resp_header (resp s) end) (body (resp s)).

(** The handler runs in a goroutine of its own with a new recorder; the call returns its response,
    or, when the context ends first, its error, while the handler goes on. *)
(* go: internal/resttooling/roundtripper/mock.go | // RoundTrip implements *)
Inductive mock_RoundTrip (handler : Handler) (ctx_err : option error) (r : Request) (s : World) : (Request * World) * results -> Prop :=
| mock_done r1 s1 : handler [] (r, set_resp no_response (emit [LogDebug (Context_ r) "mocking"] s)) = ((r1, s1), Done) ->
    mock_RoundTrip handler ctx_err r s ((r1, set_resp (resp s) s1), (Some (recorded s1), None))
| mock_ctx_done err : ctx_err = Some err ->
    mock_RoundTrip handler ctx_err r s ((r, emit [LogDebug (Context_ r) "mocking"] s), (None, Some err)).

(** ** Timeouts of a single request (resttimeouts.go) *)

(* go: internal/resttooling/resttimeouts/resttimeouts.go | type Cfg struct *)
Record Cfg := { Timeout : Z }.
(** The call of the inner round tripper runs in a goroutine; it gets the request as it is, whose
    context does not end with the timeout. Either it returns first, or the derived context is
    done first: because of the timeout, or because the caller's context has ended. What the inner
    call does, it does in both cases; [unused] is a response nobody gets. *)
(* go: internal/resttooling/resttimeouts/resttimeouts.go | func (t timeoutsRoundTripper) RoundTrip *)
Inductive timeouts_RoundTrip (rt : RoundTripper) (caller_err : option error) (r : Request) (s : World) :
  World * results * option HResponse -> Prop :=
| finished_first st res : rt (r, s) = (st, Returns res) -> timeouts_RoundTrip rt caller_err r s (st.2, res, None)
| timed_out st res err : rt (r, s) = (st, Returns res) -> err = Leaf LDeadlineExceeded \/ caller_err = Some err ->
    timeouts_RoundTrip rt caller_err r s
      (emit [LogInfo (Context_ r) "timeout for a single request"] st.2, (None, Some (Join [Leaf errTemporary; err])), res.1).

(** ** Theorems *)

Section theorems.
Context {X : Xerrors} (uuid shortuuid : nat -> string) (range : gmap string string -> list (string * string)).

Lemma requestID_sets rt q s id : c_reqid (Context_ q) = Some id -> exists q',
  requestID_RoundTrip uuid rt (q, s) = (let '((q2, s2), res) := rt (q', s) in ((shared_header (client_Set HeaderName id q) q2, s2), res)) /\
  req_header q' = Header_Set HeaderName id (req_header q) /\ c_reqid (Context_ q') = Some id /\ Path q' = Path q /\ Method q' = Method q.
Proof.
  intros Hq. unfold requestID_RoundTrip, FromContextOrNew, FromContext. rewrite Hq. unfold WithRequestID. rewrite Hq.
  eexists. split; [reflexivity|]. by split_and!.
Qed.

(** C35. The identifier a client sends, or the one that is made when it sends none, travels. The
    logging middleware puts it into the header of the answer before it calls the handler (which
    could still change it), and into the fields of the log; every request sent with the context of
    the handler carries it, so that a service that receives such a request finds the same
    identifier. This needs the middleware of Sentry around that of the logging: without it the
    logging panics before it calls the handler, whatever the handler. It is assumed that
    identifiers that are made, and one that is already in the context, are not empty. *)
Theorem request_id_travels appName routeF getSubjectID logSubjField w r s :
  (forall n, uuid n <> "") -> c_reqid (Context_ r) <> Some "" ->
  let id := request_id_of uuid r s in
  match c_sentry (Context_ r) with
  | None => exists st, forall next,
      LoggingMiddleware uuid shortuuid range appName routeF getSubjectID logSubjField next w (r, s) = (st, Panicking no_sentry)
  | Some _ => exists w' r' s', (forall next, LoggingMiddleware uuid shortuuid range appName routeF getSubjectID logSubjField next w (r, s) =
      log_panics (andThen (next w' (r', s')) (log_finished getSubjectID logSubjField w'))) /\
    Header_Get ReturnRequestIDHeader (resp_header (resp s')) = id /\ StringField "request_id" id ∈ c_fields (Context_ r') /\
    forall rt q s1, c_reqid (Context_ q) = c_reqid (Context_ r') -> exists q' q2 s2 res,
      rt (q', s1) = ((q2, s2), res) /\ requestID_RoundTrip uuid rt (q, s1) = ((shared_header (client_Set HeaderName id q) q2, s2), res) /\
      forall received s3, req_header received = req_header q' -> c_reqid (Context_ received) = None ->
        request_id_of uuid received s3 = id
  end.
Proof.
  intros Hu Hne id. assert (Hid : id <> "").
  { unfold id, request_id_of. destruct (c_reqid (Context_ r)); [congruence|]. by case_decide. }
  destruct (c_sentry (Context_ r)) as [p|] eqn:Hp.
  2: { destruct (LoggingMiddleware_needs_sentry uuid shortuuid range appName routeF getSubjectID logSubjField w r s Hp) as (st & E & _).
       by exists st. }
  destruct (LoggingMiddleware_entry uuid shortuuid range appName routeF getSubjectID logSubjField w r s p Hp)
    as (w' & r' & s' & [Hc Hf Hr _ _ _ _] & E).
  exists w', r', s'. split_and!; auto. intros rt q s1 Hq. rewrite Hc in Hq. fold id in Hq.
  destruct (requestID_sets rt q s1 id Hq) as (q' & -> & Hh & _).
  destruct (rt (q', s1)) as [[q2 s2] res] eqn:Ert. exists q', q2, s2, res. split_and!; auto.
  intros received s3 Hrec Hnone. unfold request_id_of. rewrite Hnone, Hrec, Hh, Get_Set. by rewrite decide_False.
Qed.

(** A round tripper must not change the request; these do: the headers stay after the call. *)
Theorem headers_stay rt r s id : c_reqid (Context_ r) = Some id ->
  (forall r s, (rt (r, s)).1.1 = r) -> Header_Get HeaderName (req_header (requestID_RoundTrip uuid rt (r, s)).1.1) = id.
Proof.
  intros Hc Hrt. destruct (requestID_sets rt r s id Hc) as (q' & -> & Hh & _). specialize (Hrt q' s).
  destruct (rt (q', s)) as [[q2 s2] res]. cbn in *. subst q2. by rewrite Hh, Get_Set.
Qed.

(** Every call that returns is counted once, under the status or as a network error, and its
    results are passed on. *)
Theorem metrics_RoundTrip_counts event rt r s r1 s1 response err : rt (r, s) = ((r1, s1), Returns (response, err)) ->
  exists e s2, metrics_RoundTrip event rt (r, s) = ((r1, s2), Returns (response, err)) /\
    events s2 = events s1 ++ [Metric "http_egress_duration" e; Metric "http_egress_total" e] /\
    e !! 2 = Some (match response with None => "network-err" | Some resp => pretty (hr_StatusCode resp) end).
Proof. intros Hr. unfold metrics_RoundTrip. rewrite Hr. do 2 eexists. by split_and!. Qed.

(** The address of the fallback label is empty in requests of clients. *)
Theorem metrics_RoundTrip_uri_empty event rt r s r1 s1 res : rt (r, s) = ((r1, s1), Returns res) ->
  Uri (event (Context_ r)) = "" -> RequestURI r1 = "" ->
  exists e s2, metrics_RoundTrip event rt (r, s) = ((r1, s2), Returns res) /\
    events s2 = events s1 ++ [Metric "http_egress_duration" ("" :: e); Metric "http_egress_total" ("" :: e)].
Proof. intros Hr Hu Hq. unfold metrics_RoundTrip. rewrite Hr. destruct res as [response err]. rewrite Hu, Hq. cbn. do 2 eexists. by split. Qed.

(** When the inner call gives neither a response nor an error the logging panics; when it gives
    both, the response is dropped. *)
Theorem logging_RoundTrip_results client rt r s st res : with_ctx (WithFields
    [StringField "egress_method" (Method r); StringField "egress_path" (Path r); StringField "client_name" client]
    (WithName client (WithName "http" (Context_ r)))) rt (r, s) = (st, Returns res) ->
  (logging_RoundTrip client rt (r, s)).2 =
    match res with
    | (_, Some err) => Returns (None, Some err)
    | (Some resp, None) => Returns (Some resp, None)
    | (None, None) => Panics "runtime error: invalid memory address or nil pointer dereference"
    end.
Proof. intros H. unfold logging_RoundTrip. rewrite H. destruct st as [r1 s1]. by destruct res as [[resp|] [err|]]. Qed.

(** A request is sent only after the limiter of its slug, or else the default one, has let it
    pass; without either it is not limited. *)
Theorem rateLimiter_waits Wait limiters slug rt r s :
  rateLimiter_RoundTrip Wait limiters slug rt (r, s) =
    match limiter_for limiters (slug (Context_ r)) with
    | None => rt (r, s)
    | Some l => match Wait l (Context_ r) s with
                | (s1, None) => rt (r, s1)
                | (s1, Some err) => ((r, s1), Returns (None, Some (Wrap (WText "error while waiting for rate limiters") err)))
                end
    end /\
  (limiter_for limiters (slug (Context_ r)) = None <-> limiters !! slug (Context_ r) = None /\ limiters !! DefaultSlug = None).
Proof.
  split; [unfold rateLimiter_RoundTrip; repeat case_match; done|]. unfold limiter_for. destruct (limiters !! slug (Context_ r)); naive_solver.
Qed.

(** A call that is given up is a timeout for the retries, whether its time was over or its caller
    has gone; the inner call has the same effects as one that is waited for, and its response is
    never closed. *)
Theorem timeouts_spec rt caller_err r s s' res unused : timeouts_RoundTrip rt caller_err r s (s', res, unused) ->
  exists r1 s1 res1, rt (r, s) = ((r1, s1), Returns res1) /\
    ((s' = s1 /\ res = res1 /\ unused = None) \/
     (exists err, res = (None, Some err) /\ IsTimeout err = true /\ resp s' = resp s1 /\ unused = res1.1)).
Proof.
  intros H. remember (s', res, unused) as o eqn:Ho. destruct H as [[r1 s1] res1 Hrt|[r1 s1] res1 err Hrt Herr]; simplify_eq/=;
    do 3 eexists; (split; [done|]).
  - left. by split_and!.
  - right. eexists. split; [reflexivity|]. split_and!; [|done|done].
    unfold IsTimeout, Is. rewrite As_unfold. cbn. by rewrite decide_True by done.
Qed.

(** The cancellation by the caller looks like a timeout too. *)
Theorem caller_gone_is_timeout rt r s st res : rt (r, s) = (st, Returns res) ->
  exists s' err unused, timeouts_RoundTrip rt (Some (Leaf ctx_Canceled)) r s (s', (None, Some err), unused) /\
    IsTimeout err = true /\ Is ctx_Canceled err = true.
Proof.
  intros Hrt. do 3 eexists. split; [by eapply timed_out; [|right]|]. split; vm_compute; reflexivity.
Qed.
End theorems.

(** ** A demonstration *)

Definition demo_uuid (n : nat) : string := "id-" +:+ pretty n.
Definition demo_request : Request :=
  MkRequest "GET" "/projects/p1/branches/b1" "/projects/p1/branches/b1" "10.0.0.1"
    (Header_Set "X-Request-Id" "abc" ∅) (set_sentry 0 Background).
Definition demo_world : World := set_sentries [∅] new_world.
Definition demo_rt : RoundTripper := fun '(r, s) => ((r, s), Returns (Some (MkHResponse 200 "200 OK" ∅ ""), None)).
#[export] Instance plain_xerrors : Xerrors := { xerrors_text t := t }.

Lemma request_id_travels_witness : exists w' r' s',
  (forall next, LoggingMiddleware demo_uuid demo_uuid map_to_list "app" urlMethodGetter (fun _ => Err noUserId) (StringField "user_id") next [] (demo_request, demo_world) =
      log_panics (andThen (next w' (r', s')) (log_finished (fun _ => Err noUserId) (StringField "user_id") w'))) /\
  Header_Get ReturnRequestIDHeader (resp_header (resp s')) = request_id_of demo_uuid demo_request demo_world /\
  StringField "request_id" (request_id_of demo_uuid demo_request demo_world) ∈ c_fields (Context_ r') /\
  forall rt q s1, c_reqid (Context_ q) = c_reqid (Context_ r') -> exists q' q2 s2 res,
      rt (q', s1) = ((q2, s2), res) /\
      requestID_RoundTrip demo_uuid rt (q, s1) = ((shared_header (client_Set HeaderName (request_id_of demo_uuid demo_request demo_world) q) q2, s2), res) /\
      forall received s3, req_header received = req_header q' -> c_reqid (Context_ received) = None ->
        request_id_of demo_uuid received s3 = request_id_of demo_uuid demo_request demo_world.
Proof.
  apply (request_id_travels demo_uuid demo_uuid map_to_list "app" urlMethodGetter (fun _ => Err noUserId) (StringField "user_id") [] demo_request demo_world).
  - intros n. discriminate.
  - discriminate.
Defined.
Example demo_id : request_id_of demo_uuid demo_request demo_world = "abc".
Proof. vm_compute. reflexivity. Qed.
