(* ===== verification/Logger.v ===== *)
(** * The logger (internal/logger)

    Which log lines are dropped (filter.go, config.go), how levels are written, the global logger
    that is set once, loggers in contexts, and the fields that a logged error brings along. The
    loggers of zap are a parameter: names made of segments and fields that are added. *)
From S2P Require Import Prelude Codes GoErrors Clouderr Semerr.

(** ** Configuration (config.go) *)

(** The levels of zapcore, by their numbers. *)
Definition DebugLevel : Z := -1.
Definition InfoLevel : Z := 0.
Definition WarnLevel : Z := 1.
Definition ErrorLevel : Z := 2.
Definition FatalLevel : Z := 5.

(* go: internal/logger/config.go | // NameFilter to filter *)
Record NameFilter := { nf_Level : string; parsedLevel : Z; nf_LoggerName : string }.
(* go: internal/logger/config.go | // ExactSubnameFilter to *)
Record ExactSubnameFilter := { sf_LoggerName : string }.
(* go: internal/logger/config.go | type FilterConfig struct *)
Record FilterConfig := { FullNameFilter : list NameFilter; ExactSubnameFilters : list ExactSubnameFilter }.
(* go: internal/logger/config.go | func DefaultFilterConfig *)
Definition DefaultFilterConfig : FilterConfig := {| FullNameFilter := []; ExactSubnameFilters := [] |}.
(* go: internal/logger/config.go | type Config struct *)
Record Config := {
  Sink : string; LogLevel : string; Format : string; Filters : FilterConfig;
  Caller : bool; CallerSkip : Z; StackTraceLevel : Z
}.
(* go: internal/logger/config.go | const ( *)
Definition FormatJSON : string := "json".
Definition FormatConsole : string := "console".
(* go: internal/logger/config.go | func DefaultConfig *)
Definition DefaultConfig : Config := {|
  Sink := "stdout"; LogLevel := "DEBUG"; Format := FormatJSON; Filters := DefaultFilterConfig;
  Caller := true; CallerSkip := 1; StackTraceLevel := ErrorLevel |}.

Section validation.
(** [zapcore.ParseLevel]. *)
Context (ParseLevel : string -> result error Z).

(** The filters before one whose level cannot be parsed have got theirs. *)
Fixpoint parse_levels (fs : list NameFilter) : list NameFilter * option error :=
  match fs with
  | [] => ([], None)
  | f :: fs' =>
      match ParseLevel (nf_Level f) with
      | Err err => (f :: fs', Some (Wrap (WText "cannot parse FullNameFilter") (Wrap (WFields [StringField "level" (nf_Level f)]) err)))
      | Ok level =>
          let '(fs', err) := parse_levels fs' in
          ({| nf_Level := nf_Level f; parsedLevel := level; nf_LoggerName := nf_LoggerName f |} :: fs', err)
      end
  end.
(* go: internal/logger/config.go | func (c *FilterConfig) validate *)
Definition FilterConfig_validate (c : FilterConfig) : FilterConfig * option error :=
  let '(fs, err) := parse_levels (FullNameFilter c) in
  ({| FullNameFilter := fs; ExactSubnameFilters := ExactSubnameFilters c |}, err).
(* go: internal/logger/config.go | func (c *Config) Validate *)
Definition Validate (c : Config) : Config * option error :=
  let '(f, err) := FilterConfig_validate (Filters c) in
  ({| Sink := Sink c; LogLevel := LogLevel c; Format := Format c; Filters := f; Caller := Caller c;
      CallerSkip := CallerSkip c; StackTraceLevel := StackTraceLevel c |},
   (fun e => Wrap (WText "cannot validate filters") e) <$> err).
End validation.

(** ** Filters (filter.go) *)

(** A log line, as far as filters see it. *)
Record Entry := { e_Level : Z; e_LoggerName : string }.

(* go: internal/logger/filter.go | // isStringExactOrChild returns *)
Definition isStringExactOrChild (root candidate : string) : bool :=
  if decide (String.length candidate < String.length root) then false
  else if decide (candidate = root) then true
  else if decide (String.length candidate < String.length root + 1) then false
  else let child := root +:+ "." in bool_decide (stake (String.length child) candidate = child).

(* go: internal/logger/filter.go | // filterLoggerNameByNameStartswith *)
Fixpoint filterLoggerNameByNameStartswith (filters : list NameFilter) (entry : Entry) : bool :=
  match filters with
  | [] => true
  | f :: filters' =>
      if decide (parsedLevel f < e_Level entry)%Z then filterLoggerNameByNameStartswith filters' entry
      else if isStringExactOrChild (nf_LoggerName f) (e_LoggerName entry) then false
      else filterLoggerNameByNameStartswith filters' entry
  end.

(* go: internal/logger/filter.go | // filterLoggerNameByExactSubNameStartswith *)
Definition filterLoggerNameByExactSubNameStartswith (filters : list ExactSubnameFilter) (loggerName : string) : bool :=
  let parts := split_byte "."%char loggerName in
  (fix go fs := match fs with [] => true | f :: fs' => if decide (sf_LoggerName f ∈ parts) then false else go fs' end) filters.

(* go: internal/logger/filter.go | // logFilterSink produces *)
Definition logFilterSink (config : FilterConfig) (entry : Entry) : bool :=
  if (0 <? length (FullNameFilter config)) && negb (filterLoggerNameByNameStartswith (FullNameFilter config) entry) then false
  else if (0 <? length (ExactSubnameFilters config)) &&
          negb (filterLoggerNameByExactSubNameStartswith (ExactSubnameFilters config) (e_LoggerName entry)) then false
  else true.

(** ** Levels in the output (level_encoder.go) *)

(** [Level.CapitalString] and [Level.String] are parameters. *)
(* go: internal/logger/level_encoder.go | func CapitalLevelEncoder *)
Definition CapitalLevelEncoder (CapitalString : Z -> string) (l : Z) : string :=
  if decide (l = ErrorLevel) then "ERR" else if decide (l = WarnLevel) then "WARNING" else CapitalString l.
(* go: internal/logger/level_encoder.go | func LowercaseLevelEncoder *)
Definition LowercaseLevelEncoder (String_ : Z -> string) (l : Z) : string :=
  if decide (l = ErrorLevel) then "err" else if decide (l = WarnLevel) then "warning" else String_ l.

(** ** The global logger (logger.go) *)

(** A core writes the entries of a level at least, that pass its filter, to a writer. *)
Record core := { writer : string; core_level : Z; core_filter : Entry -> bool }.
Definition core_writes (c : core) (e : Entry) : bool := bool_decide (core_level c <= e_Level e)%Z && core_filter c e.

(** The variables of the package. The writers are the sink of the configuration and, by its name,
    the one that is not filtered; [started] is the configuration the logger was made from. *)
Record globals := {
  global : option (list core);
  defaultLevel : Z;
  globalConfig : option Config;
  closers : list string;
  complaints : nat
}.
Definition initial : globals :=
  {| global := None; defaultLevel := ErrorLevel; globalConfig := None; closers := []; complaints := 0 |}.

(** A call returns, panics, or ends the program. *)
Inductive setup := Set_ (sink : option string) | SetPanics (why : string) | Exits.

Section global.
(** [Level.Set] and [zap.Open]: the level or nothing; whether the sink could be opened. *)
Context (level_Set : string -> option Z) (Open : string -> bool).

(** [level] is read when an entry is logged: the default level is shared. *)
(* go: internal/logger/logger.go | func newLoggerWithEncoder *)
Definition newLoggerWithEncoder (cfg : Config) (level : Z) (sink : string) (unfilteredSink : option string) : list core :=
  let cores := [{| writer := sink; core_level := level; core_filter := logFilterSink (Filters cfg) |}] in
  match unfilteredSink with
  | None => cores
  | Some u => cores ++ [{| writer := u; core_level := level; core_filter := fun _ => true |}]
  end.
(** The two kinds of loggers differ in the encoder. *)
(* go: internal/logger/logger.go | // New creates new *)
Definition New (cfg : Config) (level : Z) (sink : string) (unfilteredSink : option string) : list core * string :=
  (newLoggerWithEncoder cfg level sink unfilteredSink, if decide (Format cfg = FormatConsole) then FormatConsole else FormatJSON).

(* go: internal/logger/logger.go | // sinkFromConfig returns *)
Definition sinkFromConfig (config : Config) (g : globals) : bool * globals :=
  (Open (Sink config), {| global := global g; defaultLevel := defaultLevel g; globalConfig := globalConfig g;
     closers := closers g ++ [Sink config]; complaints := complaints g |}).

(* go: internal/logger/logger.go | func SetNewGlobalLoggerOnceWithUnfiltered *)
Definition SetNewGlobalLoggerOnceWithUnfiltered (config : Config) (unfilteredSink : option string) (g : globals) : globals * setup :=
  match global g with
  | Some l => ({| global := Some l; defaultLevel := defaultLevel g; globalConfig := globalConfig g; closers := closers g;
                  complaints := S (complaints g) |}, Set_ None)
  | None =>
      match globalConfig g with
      | Some _ => (g, SetPanics "set config once per application")
      | None =>
          let g := {| global := None; defaultLevel := defaultLevel g; globalConfig := Some config; closers := closers g; complaints := complaints g |} in
          match level_Set (LogLevel config) with
          | None => (g, Exits)
          | Some lvl =>
              let g := {| global := None; defaultLevel := lvl; globalConfig := globalConfig g; closers := closers g; complaints := complaints g |} in
              let '(opened, g) := sinkFromConfig config g in
              if opened : bool
              then ({| global := Some (New config lvl (Sink config) unfilteredSink).1; defaultLevel := lvl; globalConfig := globalConfig g;
                       closers := closers g; complaints := complaints g |}, Set_ (Some (Sink config)))
              else (g, Exits)
          end
      end
  end.
(* go: internal/logger/logger.go | // SetNewGlobalLoggerOnce configures *)
Definition SetNewGlobalLoggerOnce (config : Config) : globals -> globals * setup := SetNewGlobalLoggerOnceWithUnfiltered config None.
(* go: internal/logger/logger.go | // SetNewGlobalLoggerQuietly sets *)
Definition SetNewGlobalLoggerQuietly (cfg : Config) (g : globals) : globals * setup :=
  match global g with Some _ => (g, Set_ None) | None => SetNewGlobalLoggerOnce cfg g end.
End global.

(** ** Loggers in contexts (context.go) *)

Section contexts.
Context {L : Type}.

(** The loggers of zap: [Named] and [With], and what both do with a nil pointer. *)
Context (Named : string -> L -> L) (With : list Field -> L -> L) (nil_call : outcome L).

(** An interface value: nothing, or a pointer to a logger, which may be nil. *)
Notation Logger := (option (option L)).
Definition method (f : L -> L) (l : option L) : outcome L := match l with Some l => Returns (f l) | None => nil_call end.

(** The logger in a context, if there is one, and the fields for errors (see Clouderr.v). *)
Record ctx := { ctx_logger : Logger; ctx_fields : list Field }.

(** The global variable is a pointer; it becomes an interface here. *)
(* go: internal/logger/context.go | // FromContext returns *)
Definition FromContext (glob : option L) (c : ctx) : Logger := match ctx_logger c with Some l => Some l | None => Some glob end.
(* go: internal/logger/context.go | func WithLogger *)
Definition WithLogger (c : ctx) (l : Logger) : ctx := {| ctx_logger := l; ctx_fields := ctx_fields c |}.
(* go: internal/logger/context.go | // WithName puts *)
Definition WithName (glob : option L) (c : ctx) (name : string) : outcome ctx :=
  match FromContext glob c with
  | None => Panics "runtime error: invalid memory address or nil pointer dereference"
  | Some l => l ← method (Named name) l; Returns (WithLogger c (Some (Some l)))
  end.
(* go: internal/logger/context.go | // WithFields lets *)
Definition WithFields (glob : option L) (c : ctx) (fields : list Field) : outcome ctx :=
  match FromContext glob c with
  | None => Panics "logger has not been configured"
  | Some l =>
      l ← method (With fields) l;
      let withLogger := WithLogger c (Some (Some l)) in
      Returns {| ctx_logger := ctx_logger withLogger; ctx_fields := ctx_fields withLogger ++ fields |}
  end.

(** The check for a missing logger never finds one: before the global logger is set, what happens
    is what zap does with a nil pointer. *)
Theorem missing_logger_not_noticed c fields : ctx_logger c = None ->
  WithFields None c fields = (l ← nil_call; Returns {| ctx_logger := Some (Some l); ctx_fields := ctx_fields c ++ fields |}) /\
  (forall why, WithFields None c fields = Panics why -> nil_call = Panics why).
Proof.
  intros Hc. unfold WithFields, FromContext. rewrite Hc. cbn. split; [done|]. intros why. destruct nil_call; cbn; congruence.
Qed.

(** The segments of a logger's name, and its fields. *)
Context (name_of : L -> list string) (fields_of : L -> list Field).
Hypothesis named_law : forall s l, name_of (Named s l) = name_of l ++ (if decide (s = "") then [] else [s]) /\ fields_of (Named s l) = fields_of l.
Hypothesis with_law : forall fs l, fields_of (With fs l) = fields_of l ++ fs /\ name_of (With fs l) = name_of l.

(** Names and fields are added at the end, whatever the order of the calls. *)
Theorem context_accumulates glob c names fs l : FromContext glob c = Some (Some l) ->
  exists c', (c1 ← foldl (fun oc n => c0 ← oc; WithName glob c0 n) (Returns c) names; WithFields glob c1 fs) = Returns c' /\
    exists l', FromContext glob c' = Some (Some l') /\ fields_of l' = fields_of l ++ fs /\ ctx_fields c' = ctx_fields c ++ fs /\
    name_of l' = name_of l ++ filter (fun n => n <> "") names.
Proof.
  revert c l. induction names as [|n names IH]; intros c l Hl.
  - cbn. unfold WithFields. rewrite Hl. cbn. eexists. split; [reflexivity|]. eexists. split; [reflexivity|].
    destruct (with_law fs l) as [-> ->]. by rewrite app_nil_r.
  - cbn [foldl mbind outcome_bind]. assert (Hn : WithName glob c n = Returns (WithLogger c (Some (Some (Named n l)))))
      by (unfold WithName; by rewrite Hl).
    rewrite Hn. destruct (IH (WithLogger c (Some (Some (Named n l)))) (Named n l) eq_refl) as (c' & E & l' & H1 & H2 & H3 & H4).
    exists c'. split; [exact E|]. exists l'. destruct (named_law n l) as [Hn1 Hn2]. rewrite H2, H3, H4, Hn1, Hn2. split_and!; try done.
    rewrite filter_cons. rewrite <- app_assoc. case_decide; by case_decide.
Qed.
End contexts.

(** ** Fields of logged errors (logger.go) *)

Section fields.
Context {O : MapOrder} (error_of : Field -> option error).

(** [zap.Error]. *)
Definition ErrorField (err : error) : Field := MkField "error" InterfaceType 0 "" (error_text err).
(* go: internal/logger/logger.go | func unwrapFields *)
Definition unwrapFields (args : list Field) : list Field :=
  args ++ concat (map (fun f => match error_of f with Some err => slice_of (UnwrapFields err) | None => [] end) args).
(* go: internal/logger/logger.go | func unwrapErrorFields *)
Definition unwrapErrorFields (err : error) : list Field :=
  let fmap := foldl (fun agg f => <[f_Key f := f]> agg) ∅ (slice_of (UnwrapFields err)) in
  unwrapFields (slice_of fmap) ++ [ErrorField err].

(** What the functions give to a logger: the method, the message and the fields. *)
Inductive line := MkLine (level : Z) (msg : string) (fields : list Field).
(* go: internal/logger/logger.go | func Debug( *)
Definition Debug (msg : string) (args : list Field) : line := MkLine DebugLevel msg (unwrapFields args).
(* go: internal/logger/logger.go | func Info( *)
Definition Info (msg : string) (args : list Field) : line := MkLine InfoLevel msg (unwrapFields args).
(* go: internal/logger/logger.go | func Warn( *)
Definition Warn (msg : string) (args : list Field) : line := MkLine WarnLevel msg (unwrapFields args).
(* go: internal/logger/logger.go | func Error( *)
Definition Error (err : error) : line := MkLine ErrorLevel (error_text err) (unwrapErrorFields err).
(* go: internal/logger/logger.go | func Fatal( *)
Definition Fatal (msg : string) (args : list Field) : line := MkLine FatalLevel msg (unwrapFields args).

Context {X : Xerrors} (stack : string).
(* go: internal/logger/logger.go | func logPanicErr *)
Definition logPanicErr (err : error) (fields : list Field) : line :=
  MkLine ErrorLevel "app panicked and recovering" ((fields ++ unwrapErrorFields err) ++ [StringField "stack_trace" stack]).
(* go: internal/logger/logger.go | func Panic( *)
Definition Panic (p : semerr.panic_value) (fields : list Field) : line := logPanicErr (semerr.UnwrapPanic p) fields.
(** The same for a logger that is at hand. *)
(* go: internal/logger/logger.go | func LogPanic( *)
Definition LogPanic (p : semerr.panic_value) (fields : list Field) : line := logPanicErr (semerr.UnwrapPanic p) fields.

(** [json.Marshal] of a value, [%T] and [%.2f] are parameters. *)
(* go: internal/logger/logger.go | // Typeof returns *)
Definition Typeof {V : Type} (type_name : V -> string) (v : V) : Field := StringField "type" (type_name v).
(* go: internal/logger/logger.go | // RawJSON returns *)
Definition RawJSON {V : Type} (type_name : V -> string) (Marshal : V -> result error string) (k : string) (v : option V) : Field :=
  match v with
  | None => StringField k "nil"
  | Some v =>
      match Marshal v with
      | Err err => MkField "json_encoding_error" InterfaceType 0 "" (error_text (Wrap (WText ("cannot encode " +:+ type_name v)) err))
      | Ok out => MkField k ByteStringType 0 "" out
      end
  end.

Lemma UnwrapFields_keys err k f : UnwrapFields err !! k = Some f -> f_Key f = k.
Proof.
  unfold UnwrapFields. assert (Hadd : forall fs (m : gmap string Field), map_Forall (fun k f => f_Key f = k) m ->
    map_Forall (fun k f => f_Key f = k) (add_fields fs m)).
  { intros fs. induction fs as [|g fs IH]; intros m Hm; [done|]. cbn. apply IH. by apply map_Forall_insert_2. }
  assert (Hloop : forall fuel es m, map_Forall (fun k f => f_Key f = k) m -> map_Forall (fun k f => f_Key f = k) (unwrap_loop fuel es m)).
  { induction fuel as [|fuel IH]; intros es m Hm; [done|]. cbn. destruct es; [done|]. apply IH, Hadd, Hm. }
  intros Hk. by apply (Hloop (size err) [err] ∅ (map_Forall_empty _) k f).
Qed.

Definition by_key (f : Field) : string * Field := (f_Key f, f).
Lemma foldl_by_key l : foldl (fun agg f => <[f_Key f := f]> agg) ∅ l = (list_to_map (reverse (map by_key l)) : gmap string Field).
Proof.
  induction l as [|f l IH] using rev_ind; [done|]. rewrite foldl_snoc, IH, map_app, reverse_app. done.
Qed.

(** A logged error brings every field of the error and of its causes, the deepest of each key, and
    itself. *)
Theorem Error_fields err : (forall f, error_of f = None) ->
  exists fs, Error err = MkLine ErrorLevel (error_text err) (fs ++ [ErrorField err]) /\ fs ≡ₚ (map_to_list (UnwrapFields err)).*2.
Proof.
  intros Hnone. unfold Error, unwrapErrorFields. eexists. split; [reflexivity|].
  assert (Hmap : foldl (fun agg f => <[f_Key f := f]> agg) ∅ (slice_of (UnwrapFields err)) = UnwrapFields err).
  { rewrite foldl_by_key. rewrite <- (list_to_map_to_list (UnwrapFields err)) at 2.
    assert (Hl : map by_key (slice_of (UnwrapFields err)) ≡ₚ map_to_list (UnwrapFields err)).
    { rewrite (slice_of_perm (UnwrapFields err)). change (map by_key) with (fmap (M:=list) by_key).
      rewrite <- list_fmap_compose. rewrite <- (list_fmap_id (map_to_list (UnwrapFields err))) at 2.
      erewrite list_fmap_ext; [done|]. intros i [k f] Hi%list_elem_of_lookup_2%elem_of_map_to_list. cbn. unfold by_key. by rewrite (UnwrapFields_keys _ _ _ Hi). }
    apply list_to_map_proper.
    - rewrite reverse_Permutation, Hl. apply NoDup_fst_map_to_list.
    - by rewrite reverse_Permutation. }
  rewrite Hmap. unfold unwrapFields. rewrite (slice_of_perm (UnwrapFields err)) at 1.
  rewrite <- (app_nil_r (map_to_list (UnwrapFields err)).*2) at 2. f_equiv.
  clear Hmap. induction (slice_of (UnwrapFields err)) as [|g l IH]; [done|]. cbn. by rewrite Hnone.
Qed.
End fields.

(** ** What the filters drop *)

Lemma join_cons sep x l : l <> [] -> join sep (x :: l) = x +:+ sep +:+ join sep l.
Proof. by destruct l. Qed.

Lemma join_split_byte c s : join (String c "") (split_byte c s) = s.
Proof.
  induction s as [|x s IH]; [done|]. cbn [split_byte]. pose proof (split_byte_nonempty c s) as Hne. case_decide as Hx.
  - rewrite join_cons by done. rewrite IH. by subst.
  - destruct (split_byte c s) as [|w ws] eqn:E; [done|]. destruct ws as [|w' ws].
    + cbn in *. by subst.
    + rewrite join_cons in * by done. change (String x (w +:+ (String c "" +:+ join (String c "") (w' :: ws))) = String x s). by rewrite IH.
Qed.

Lemma join_app c l1 l2 : l1 <> [] -> l2 <> [] -> join (String c "") (l1 ++ l2) = join (String c "") l1 +:+ String c (join (String c "") l2).
Proof.
  intros H1 H2. induction l1 as [|x l1 IH]; [done|]. destruct l1 as [|y l1].
  - cbn [app]. by rewrite join_cons.
  - rewrite (join_cons _ x (y :: l1)) by done. change ((x :: y :: l1) ++ l2) with (x :: ((y :: l1) ++ l2)). rewrite join_cons by done.
    rewrite IH by done. by rewrite !string_app_assoc.
Qed.

Lemma string_app_length_inv (s t u : string) : s +:+ t = s +:+ u -> t = u.
Proof. intros H. by rewrite <- (sdrop_app s t), H, sdrop_app. Qed.

(** A logger is dropped with another one exactly if its name, as a path with dots, begins with
    the other's. *)
Theorem isStringExactOrChild_spec root candidate :
  isStringExactOrChild root candidate = true <->
  split_byte "."%char root `prefix_of` split_byte "."%char candidate.
Proof.
  assert (Hchild : isStringExactOrChild root candidate = true <-> candidate = root \/ exists rest, candidate = root +:+ String "." rest).
  { unfold isStringExactOrChild. split.
    - case_decide; [done|]. case_decide; [by left|]. case_decide; [done|]. intros Hs%bool_decide_eq_true. right.
      exists (sdrop (String.length (root +:+ ".")) candidate). rewrite <- (stake_sdrop (String.length (root +:+ ".")) candidate) at 1.
      rewrite Hs. by rewrite <- string_app_assoc.
    - intros [->|[rest ->]].
      + rewrite decide_False by lia. by rewrite decide_True.
      + rewrite string_length_app. cbn [String.length]. rewrite decide_False by lia. rewrite decide_False.
        2: { intros H. apply (f_equal String.length) in H. rewrite string_length_app in H. cbn in H. lia. }
        rewrite decide_False by lia. apply bool_decide_eq_true.
        change (String "." rest) with ("." +:+ rest). by rewrite string_app_assoc, stake_app. }
  rewrite Hchild. split.
  - intros [->|[rest ->]]; [done|]. rewrite split_byte_app. by apply prefix_app_r.
  - intros [l Hl]. destruct l as [|x l].
    + left. rewrite app_nil_r in Hl. by rewrite <- (join_split_byte "." candidate), Hl, join_split_byte.
    + right. exists (join "." (x :: l)). rewrite <- (join_split_byte "." candidate), Hl.
      rewrite join_app; [by rewrite join_split_byte|apply split_byte_nonempty|done].
Qed.

(** C38. A line is kept exactly if no filter by name, of a level that is not below the line's, names a
    part of the logger's path from its beginning, and no filter by segment names one of its
    segments. *)
Theorem logFilterSink_spec config entry : logFilterSink config entry = true <->
  (forall f, f ∈ FullNameFilter config -> (e_Level entry <= parsedLevel f)%Z ->
     ~ split_byte "."%char (nf_LoggerName f) `prefix_of` split_byte "."%char (e_LoggerName entry)) /\
  (forall f, f ∈ ExactSubnameFilters config -> sf_LoggerName f ∉ split_byte "."%char (e_LoggerName entry)).
Proof.
  assert (H1 : forall fs, filterLoggerNameByNameStartswith fs entry = true <-> forall f, f ∈ fs -> (e_Level entry <= parsedLevel f)%Z ->
     ~ split_byte "."%char (nf_LoggerName f) `prefix_of` split_byte "."%char (e_LoggerName entry)).
  { induction fs as [|f fs IH]; cbn; [split; [intros _ f []%elem_of_nil|done]|]. setoid_rewrite elem_of_cons. case_decide as Hd.
    - rewrite IH. split; [intros Hall g [->|Hg] Hle; [lia|by apply Hall]|intros Hall g Hg; apply Hall; by right].
    - destruct (isStringExactOrChild _ _) eqn:E.
      + split; [done|]. intros Hall. exfalso. apply (Hall f); [by left|lia|by apply isStringExactOrChild_spec].
      + rewrite IH. split; [|intros Hall g Hg; apply Hall; by right].
        intros Hall g [->|Hg] Hle; [|by apply Hall]. by rewrite <- isStringExactOrChild_spec, E. }
  assert (H2 : forall fs, filterLoggerNameByExactSubNameStartswith fs (e_LoggerName entry) = true <->
     forall f, f ∈ fs -> sf_LoggerName f ∉ split_byte "."%char (e_LoggerName entry)).
  { unfold filterLoggerNameByExactSubNameStartswith. cbn zeta. induction fs as [|f fs IH]; [split; [intros _ f []%elem_of_nil|done]|].
    setoid_rewrite elem_of_cons. case_decide; [|rewrite IH]; naive_solver. }
  rewrite <- H1, <- H2. unfold logFilterSink.
  assert (E1 : (0 <? length (FullNameFilter config)) && negb (filterLoggerNameByNameStartswith (FullNameFilter config) entry) =
    negb (filterLoggerNameByNameStartswith (FullNameFilter config) entry)) by by destruct (FullNameFilter config).
  assert (E2 : (0 <? length (ExactSubnameFilters config)) && negb (filterLoggerNameByExactSubNameStartswith (ExactSubnameFilters config) (e_LoggerName entry)) =
    negb (filterLoggerNameByExactSubNameStartswith (ExactSubnameFilters config) (e_LoggerName entry))) by by destruct (ExactSubnameFilters config).
  rewrite E1, E2. destruct (filterLoggerNameByNameStartswith _ _), (filterLoggerNameByExactSubNameStartswith _ _); naive_solver.
Qed.

(** ** The logger is set once *)

Section once.
Context (level_Set : string -> option Z) (Open : string -> bool).
Notation set_once := (SetNewGlobalLoggerOnceWithUnfiltered level_Set Open).

(** What is said of the variables: the logger is the one of the configuration. *)
Record globals_ok (g : globals) : Prop := {
  ok_config : forall l, global g = Some l -> exists cfg u, globalConfig g = Some cfg /\
    l = (New cfg (defaultLevel g) (Sink cfg) u).1 /\ level_Set (LogLevel cfg) = Some (defaultLevel g)
}.

(** The variables after any number of calls. *)
Inductive reachable : globals -> Prop :=
| reach_initial : reachable initial
| reach_set g cfg u : reachable g -> reachable (set_once cfg u g).1
| reach_quietly g cfg : reachable g -> reachable (SetNewGlobalLoggerQuietly level_Set Open cfg g).1.

Lemma set_once_ok g cfg u : globals_ok g -> globals_ok (set_once cfg u g).1.
Proof.
  intros [Hg]. unfold SetNewGlobalLoggerOnceWithUnfiltered. destruct (global g) as [l|] eqn:El.
  - destruct (Hg l eq_refl) as (c & v & H). split. cbn. intros l' [= <-]. by exists c, v.
  - destruct (globalConfig g) as [c|]; [split; cbn; by rewrite El|]. destruct (level_Set (LogLevel cfg)) as [lvl|] eqn:Elvl; [|by split].
    cbn. destruct (Open (Sink cfg)); split; cbn; [|done]. intros l [= <-]. by exists cfg, u.
Qed.

Lemma reachable_ok g : reachable g -> globals_ok g.
Proof.
  induction 1 as [|g cfg u Hr IH|g cfg Hr IH]; [by split|by apply set_once_ok|].
  unfold SetNewGlobalLoggerQuietly, SetNewGlobalLoggerOnce. destruct (global g); [done|by apply set_once_ok].
Qed.

Lemma set_once_keeps g cfg u l : global g = Some l -> global (set_once cfg u g).1 = Some l /\ defaultLevel (set_once cfg u g).1 = defaultLevel g.
Proof. intros Hl. unfold SetNewGlobalLoggerOnceWithUnfiltered. by rewrite Hl. Qed.

(** Once it is set the logger stays as it is, with its level; it writes to the sink the lines of
    that level that the filters keep, and all of that level to the writer that is not filtered. *)
Theorem logger_set_once g g' l : reachable g -> global g = Some l ->
  rtc (fun g1 g2 => (exists cfg u, g2 = (set_once cfg u g1).1) \/ exists cfg, g2 = (SetNewGlobalLoggerQuietly level_Set Open cfg g1).1) g g' ->
  global g' = Some l /\ defaultLevel g' = defaultLevel g /\
  exists cfg u, globalConfig g = Some cfg /\ forall e w, (exists c, c ∈ l /\ writer c = w /\ core_writes c e = true) <->
    (defaultLevel g <= e_Level e)%Z /\ ((w = Sink cfg /\ logFilterSink (Filters cfg) e = true) \/ Some w = u).
Proof.
  intros Hr Hl Hs. assert (Hkeep : global g' = Some l /\ defaultLevel g' = defaultLevel g).
  { induction Hs as [g|g1 g2 g3 Hstep Hs IH]; [done|].
    assert (global g2 = Some l /\ defaultLevel g2 = defaultLevel g1 /\ reachable g2) as (H1 & <- & H3).
    { destruct Hstep as [(cfg & u & ->)|(cfg & ->)].
      - destruct (set_once_keeps g1 cfg u l Hl). split_and!; [done..|by constructor].
      - split_and!; [| |by constructor]; unfold SetNewGlobalLoggerQuietly; by rewrite Hl. }
    by apply IH. }
  destruct Hkeep as [Hk1 Hk2]. split_and!; [done..|]. apply reachable_ok in Hr as [Hr].
  destruct (Hr l Hl) as (cfg & u & Hc & -> & _). exists cfg, u. split; [done|]. intros e w.
  unfold New, newLoggerWithEncoder. destruct u as [u|]; cbn; setoid_rewrite elem_of_cons; try setoid_rewrite elem_of_nil;
    unfold core_writes; split.
  - intros (c & Hin & <- & [Hle%bool_decide_eq_true Hf]%andb_true_iff). rewrite elem_of_cons, elem_of_nil in Hin.
    destruct Hin as [->|[->|[]]]; cbn in *; naive_solver.
  - intros (Hle & [[-> Hf]|[= ->]]).
    + eexists. split; [by left|]. split; [done|]. cbn. rewrite Hf, bool_decide_true by done. done.
    + eexists. split; [right; by left|]. split; [done|]. cbn. by rewrite bool_decide_true by done.
  - intros (c & Hin & <- & [Hle%bool_decide_eq_true Hf]%andb_true_iff). destruct Hin as [->|[]]. cbn in *. naive_solver.
  - intros (Hle & [[-> Hf]|]); [|done]. eexists. split; [by left|]. split; [done|]. cbn. rewrite Hf, bool_decide_true by done. done.
Qed.

(** A setup that ends the program, or a sink that cannot be opened, leaves no logger, and no second
    try: the next call panics. *)
Theorem failed_setup_is_final cfg u cfg' u' : level_Set (LogLevel cfg) = None \/ Open (Sink cfg) = false ->
  (set_once cfg u initial).2 = Exits /\
  (set_once cfg' u' (set_once cfg u initial).1).2 = SetPanics "set config once per application".
Proof.
  intros H. unfold SetNewGlobalLoggerOnceWithUnfiltered, sinkFromConfig. cbn.
  destruct (level_Set (LogLevel cfg)); [|done]. destruct H as [|H]; [done|]. by rewrite H.
Qed.
End once.

Definition demo_filters : FilterConfig := {|
  FullNameFilter := [{| nf_Level := "INFO"; parsedLevel := InfoLevel; nf_LoggerName := "background_worker.clickhouse" |}];
  ExactSubnameFilters := [{| sf_LoggerName := "gorm" |}] |}.
Example demo_filtered :
  map (fun n => logFilterSink demo_filters {| e_Level := InfoLevel; e_LoggerName := n |})
    ["background_worker.clickhouse.http"; "background_worker.clickhouse"; "background_worker"; "background_worker.clickhouses"; "b.gorm.a"; "b.gormFOO.a"] =
  [false; false; true; true; false; true].
Proof. vm_compute. reflexivity. Qed.

(** ** Encoders, and closing (logger.go) *)

Inductive level_encoder := ColorLevels | CapitalLevels.
(** The keys of what is written, and how times, durations and callers are; the encoder of levels is
    set by the kinds of loggers. *)
Record EncoderConfig := {
  TimeKey : string; LevelKey : string; NameKey : string; CallerKey : string; MessageKey : string; StacktraceKey : string;
  EncodeTime : string; EncodeDuration : string; EncodeCaller : string; EncodeLevel : option level_encoder
}.
(* go: internal/logger/logger.go | func defaultEncoderConfig() *)
Definition defaultEncoderConfig : EncoderConfig := {|
  TimeKey := "ts"; LevelKey := "level"; NameKey := "logger"; CallerKey := "caller"; MessageKey := "message"; StacktraceKey := "stacktrace";
  EncodeTime := "ISO8601"; EncodeDuration := "seconds"; EncodeCaller := "full"; EncodeLevel := None |}.
Definition with_level_encoder (e : level_encoder) (c : EncoderConfig) : EncoderConfig := {|
  TimeKey := TimeKey c; LevelKey := LevelKey c; NameKey := NameKey c; CallerKey := CallerKey c; MessageKey := MessageKey c;
  StacktraceKey := StacktraceKey c; EncodeTime := EncodeTime c; EncodeDuration := EncodeDuration c; EncodeCaller := EncodeCaller c;
  EncodeLevel := Some e |}.
Inductive encoder := ConsoleEncoder (c : EncoderConfig) | JSONEncoder (c : EncoderConfig).

Section encoders.
Context (cfg : Config) (default_level : Z).
(** Without a level it is the default one that is asked. *)
(* go: internal/logger/logger.go | func NewDevelopmentConfig( *)
Definition NewDevelopmentConfig (level : option Z) (sink : string) (unfilteredSink : option string) : list core * encoder :=
  (newLoggerWithEncoder cfg (default default_level level) sink unfilteredSink,
   ConsoleEncoder (with_level_encoder ColorLevels defaultEncoderConfig)).
(* go: internal/logger/logger.go | func NewWithSink( *)
Definition NewWithSink (level : option Z) (sink : string) (unfilteredSink : option string) : list core * encoder :=
  (newLoggerWithEncoder cfg (default default_level level) sink unfilteredSink,
   JSONEncoder (with_level_encoder CapitalLevels defaultEncoderConfig)).
Definition New_encoded (level : option Z) (sink : string) (unfilteredSink : option string) : list core * encoder :=
  if decide (Format cfg = FormatConsole) then NewDevelopmentConfig level sink unfilteredSink else NewWithSink level sink unfilteredSink.

(** The format chooses the encoder and nothing else: what is written, and where, is the same. *)
Theorem format_chooses_encoder level sink u :
  (New_encoded (Some level) sink u).1 = (New cfg level sink u).1 /\
  ((New cfg level sink u).2 = FormatConsole <-> exists c, (New_encoded (Some level) sink u).2 = ConsoleEncoder c).
Proof.
  unfold New_encoded, New. destruct (decide (Format cfg = FormatConsole)); (split; [done|]).
  - split; [intros _; by eexists|done].
  - split; [done|]. by intros (c & ?).
Qed.
End encoders.

(* go: internal/logger/logger.go | // Level returns *)
Definition Level (g : globals) : Z := defaultLevel g.
(** A nil logger panics. The sinks that are closed, in order; the variables stay as they are. *)
(* go: internal/logger/logger.go | // Close and release *)
Definition Close (g : globals) : outcome (line * list string) :=
  match global g with
  | None => Panics "runtime error: invalid memory address or nil pointer dereference"
  | Some _ => Returns (MkLine InfoLevel "logger is closing, no more application logs after this line" [], closers g)
  end.
(* go: internal/logger/logger.go | // FloatFormatted returns *)
Definition FloatFormatted {F : Type} (Sprintf_2f : F -> string) (key : string) (f : F) : Field := StringField key (Sprintf_2f f).

(** A program that has set its logger up once closes the sink of its configuration, once; one that
    has not panics when it closes its logger. *)
Theorem Close_spec level_Set Open cfg u : level_Set (LogLevel cfg) <> None -> Open (Sink cfg) = true ->
  (exists l, Close (SetNewGlobalLoggerOnceWithUnfiltered level_Set Open cfg u initial).1 = Returns (l, [Sink cfg])) /\
  exists why, Close initial = Panics why.
Proof.
  intros Hl Ho. split; [|by eexists]. unfold SetNewGlobalLoggerOnceWithUnfiltered, sinkFromConfig. cbn.
  destruct (level_Set (LogLevel cfg)); [|done]. rewrite Ho. by eexists.
Qed.
