(* ===== verification/Metrics.v ===== *)
(** * Metrics (internal/metrics, internal/promtooling, and those of the packages that use them)

    The collectors that the packages declare and register, and the shortcuts around the
    Prometheus library. The registry is a parameter: a collector can be registered unless its
    name is taken. Bounds of histograms are in thousandths (of a second, for durations). *)
From S2P Require Import Prelude Codes GoErrors RestRetries Http Middleware Auth RoundTrippers.

Inductive metric_kind := KCounter | KGauge | KHistogram | KSummary.
#[export] Instance metric_kind_eq_dec : EqDecision metric_kind.
Proof. solve_decision. Defined.

(** A collector and its options. A collector without labels is a single metric. *)
Record collector := MkCollector {
  m_Kind : metric_kind; m_Namespace : string; m_Name : string; m_Help : string;
  m_Buckets : list Z; m_Objectives : list (Z * Z); m_Labels : list string; m_Vec : bool
}.
#[export] Instance collector_eq_dec : EqDecision collector.
Proof. solve_decision. Defined.

(* go: internal/promtooling/shortcuts.go | const DefaultNamespace *)
Definition DefaultNamespace : string := "".

(* go: internal/promtooling/shortcuts.go | // NewCounter creates *)
Definition NewCounter (name help : string) : collector := MkCollector KCounter DefaultNamespace name help [] [] [] false.
(* go: internal/promtooling/shortcuts.go | // NewCounterVec creates *)
Definition NewCounterVec (name help : string) (labelNames : list string) : collector :=
  MkCollector KCounter DefaultNamespace name help [] [] labelNames true.
(* go: internal/promtooling/shortcuts.go | // NewGauge creates *)
Definition NewGauge (name help : string) : collector := MkCollector KGauge DefaultNamespace name help [] [] [] false.
(* go: internal/promtooling/shortcuts.go | // NewGaugeVec creates *)
Definition NewGaugeVec (name help : string) (labelNames : list string) : collector :=
  MkCollector KGauge DefaultNamespace name help [] [] labelNames true.
(* go: internal/promtooling/shortcuts.go | // NewHistogram creates *)
Definition NewHistogram (name help : string) (buckets : list Z) : collector :=
  MkCollector KHistogram DefaultNamespace name help buckets [] [] false.
(* go: internal/promtooling/shortcuts.go | // NewHistogramVec creates *)
Definition NewHistogramVec (name help : string) (buckets : list Z) (labelNames : list string) : collector :=
  MkCollector KHistogram DefaultNamespace name help buckets [] labelNames true.
(* go: internal/promtooling/shortcuts.go | // NewSummary creates *)
Definition NewSummary (name help : string) (objectives : list (Z * Z)) : collector :=
  MkCollector KSummary DefaultNamespace name help [] objectives [] false.
(* go: internal/promtooling/shortcuts.go | // NewSummaryVec creates *)
Definition NewSummaryVec (name help : string) (objectives : list (Z * Z)) (labelNames : list string) : collector :=
  MkCollector KSummary DefaultNamespace name help [] objectives labelNames true.

(** [prometheus.BuildFQName] without a subsystem. *)
Definition full_name (c : collector) : string :=
  if decide (m_Namespace c = "") then m_Name c else m_Namespace c +:+ "_" +:+ m_Name c.

(** ** Registration (promtooling/shortcuts.go) *)

(** The default registry: what can be asked of it, and its documented behaviour. *)
Class Registry (R : Type) := {
  reg_Register : collector -> R -> R * option error;
  reg_Unregister : collector -> R -> R * bool;
  registered : R -> gset string
}.
Class RegistryLaws (R : Type) `{Registry R} : Prop := {
  register_law : forall c r r' err, reg_Register c r = (r', err) ->
    if decide (full_name c ∈ registered r) then is_Some err /\ registered r' = registered r
    else err = None /\ registered r' = {[full_name c]} ∪ registered r;
  unregister_law : forall c r r' b, reg_Unregister c r = (r', b) ->
    b = bool_decide (full_name c ∈ registered r) /\ registered r' = registered r ∖ {[full_name c]}
}.

Section registration.
Context {R : Type} `{RegistryLaws R}.

(* go: internal/promtooling/shortcuts.go | // Register registers *)
Definition Register (c : collector) (r : R) : R * option error := reg_Register c r.
(* go: internal/promtooling/shortcuts.go | // Unregister removes *)
Definition Unregister (c : collector) (r : R) : R * bool := reg_Unregister c r.
(** Collectors are registered one after the other; the first error is the panic's value. *)
(* go: internal/promtooling/shortcuts.go | // MustRegister registers *)
Fixpoint MustRegister (cs : list collector) (r : R) : R * outcome unit :=
  match cs with
  | [] => (r, Returns tt)
  | c :: cs' => match Register c r with (r, None) => MustRegister cs' r | (r, Some err) => (r, Panics (error_text err)) end
  end.

Definition registering (c : collector) (r : R) : R * outcome collector :=
  match MustRegister [c] r with (r, Returns _) => (r, Returns c) | (r, Panics why) => (r, Panics why) end.
(* go: internal/promtooling/shortcuts.go | // MustRegisterCounter creates *)
Definition MustRegisterCounter (name help : string) : R -> R * outcome collector := registering (NewCounter name help).
(* go: internal/promtooling/shortcuts.go | // MustRegisterCounterVec creates *)
Definition MustRegisterCounterVec (name help : string) (labels : list string) : R -> R * outcome collector :=
  registering (NewCounterVec name help labels).
(* go: internal/promtooling/shortcuts.go | // MustRegisterGauge creates *)
Definition MustRegisterGauge (name help : string) : R -> R * outcome collector := registering (NewGauge name help).
(* go: internal/promtooling/shortcuts.go | // MustRegisterGaugeVec creates *)
Definition MustRegisterGaugeVec (name help : string) (labels : list string) : R -> R * outcome collector :=
  registering (NewGaugeVec name help labels).
(* go: internal/promtooling/shortcuts.go | // MustRegisterHistogram creates *)
Definition MustRegisterHistogram (name help : string) (buckets : list Z) : R -> R * outcome collector :=
  registering (NewHistogram name help buckets).
(* go: internal/promtooling/shortcuts.go | // MustRegisterHistogramVec creates *)
Definition MustRegisterHistogramVec (name help : string) (buckets : list Z) (labels : list string) : R -> R * outcome collector :=
  registering (NewHistogramVec name help buckets labels).
(* go: internal/promtooling/shortcuts.go | // MustRegisterSummary creates *)
Definition MustRegisterSummary (name help : string) (objectives : list (Z * Z)) : R -> R * outcome collector :=
  registering (NewSummary name help objectives).
(* go: internal/promtooling/shortcuts.go | // MustRegisterSummaryVec creates *)
Definition MustRegisterSummaryVec (name help : string) (objectives : list (Z * Z)) (labels : list string) : R -> R * outcome collector :=
  registering (NewSummaryVec name help objectives labels).

(** Registration succeeds exactly if the names are new and differ; then they are all known. *)
Lemma MustRegister_spec cs r : (MustRegister cs r).2 = Returns tt <->
  NoDup (map full_name cs) /\ (forall c, c ∈ cs -> full_name c ∉ registered r).
Proof.
  revert r. induction cs as [|c cs IH]; intros r; cbn; [split; [intros _; split; [constructor|by intros c ?%elem_of_nil]|done]|].
  unfold Register. destruct (reg_Register c r) as [r1 err] eqn:E. apply register_law in E.
  setoid_rewrite elem_of_cons. rewrite NoDup_cons. case_decide as Hd.
  - destruct E as [[e ->] _]. split; [done|]. intros [_ Hn]. exfalso. by apply (Hn c); [left|].
  - destruct E as [-> Hr]. rewrite IH, Hr. setoid_rewrite elem_of_union. setoid_rewrite elem_of_singleton.
    rewrite (list_elem_of_fmap full_name). split.
    + intros [Hnd Hall]. split_and!; [|done|].
      * intros (c' & Hc & Hin). destruct (Hall c' Hin). by left.
      * intros c' [->|Hin]; [done|]. intros Hr'. apply (Hall c' Hin). by right.
    + intros [[Hc Hnd] Hall]. split; [done|]. intros c' Hin [Heq|Hr']; [apply Hc; by exists c'|]. apply (Hall c'); [by right|done].
Qed.

Lemma MustRegister_names cs r : (MustRegister cs r).2 = Returns tt ->
  registered (MustRegister cs r).1 = list_to_set (map full_name cs) ∪ registered r.
Proof.
  revert r. induction cs as [|c cs IH]; intros r; cbn; [set_solver|].
  unfold Register. destruct (reg_Register c r) as [r1 err] eqn:E. apply register_law in E. case_decide as Hd.
  - by destruct E as [[e ->] _].
  - destruct E as [-> Hr]. intros Hok. rewrite (IH _ Hok), Hr. set_solver.
Qed.
End registration.

(** ** The collectors of internal/metrics *)

(* go: internal/metrics/metrics.go | HTTPEgressDuration = | L25-L51 *)
Definition HTTPEgressDuration : collector := NewHistogramVec "http_egress_duration" "Histogram of egress request durations in seconds"
  [10; 50; 100; 200; 300; 500; 800; 1000; 1200; 1500; 2000; 3000; 5000; 7000; 10000; 15000; 20000; 30000; 60000; 120000]%Z ["uri"; "method"; "code"; "http_client"; "stand_id"].
(* go: internal/metrics/metrics.go | HTTPEgressTotal = | L52-L56 *)
Definition HTTPEgressTotal : collector := NewCounterVec "http_egress_total" "outgoing http requests status codes."
  ["uri"; "method"; "code"; "http_client"; "stand_id"].
(* go: internal/metrics/metrics.go | func HTTPEgress *)
Definition HTTPEgress : list collector := [HTTPEgressDuration; HTTPEgressTotal].
(* go: internal/metrics/metrics.go | RDBConnectionsOpen = | L67-L72 *)
Definition RDBConnectionsOpen : collector := NewGaugeVec "rdb_connections_open" "Database connection pool status."
  ["status"; "type"].
(* go: internal/metrics/metrics.go | RDBConnectionsWaitTotal = | L73-L77 *)
Definition RDBConnectionsWaitTotal : collector := NewGaugeVec "rdb_connections_wait_total" "The total number of connections waited for."
  ["type"].
(* go: internal/metrics/metrics.go | RDBConnectionsWaitSec = | L78-L82 *)
Definition RDBConnectionsWaitSec : collector := NewGaugeVec "rdb_connections_wait_sec" "The total time blocked waiting for a new connection."
  ["type"].
(* go: internal/metrics/metrics.go | func rdbMetrics *)
Definition rdbMetrics : list collector := [RDBConnectionsOpen; RDBConnectionsWaitTotal; RDBConnectionsWaitSec].
(* go: internal/metrics/metrics.go | CHDBConnectionsOpen = | L93-L98 *)
Definition CHDBConnectionsOpen : collector := NewGaugeVec "chdb_connections_open" "ClickHouse database connection pool status."
  ["status"].
(* go: internal/metrics/metrics.go | func chdbMetrics *)
Definition chdbMetrics : list collector := [CHDBConnectionsOpen].
(* go: internal/metrics/metrics.go | CloudBackgroundCacheJobSkips = | L110-L114 *)
Definition CloudBackgroundCacheJobSkips : collector := NewCounterVec "cloud_background_cache_job_skips" "Number of skipped background cache job, per job type"
  ["background_cache_job_name"].
(* go: internal/metrics/metrics.go | CloudBackgroundCacheJobRuns = | L115-L119 *)
Definition CloudBackgroundCacheJobRuns : collector := NewCounterVec "cloud_background_cache_job_runs" "Number of background job cache runs, per job type"
  ["background_cache_job_name"].
(* go: internal/metrics/metrics.go | CloudBackgroundCacheJobDurationSec = | L120-L128 *)
Definition CloudBackgroundCacheJobDurationSec : collector := NewHistogramVec "cloud_background_cache_job_duration_sec" "Histogram of background cache job duration since start, per job type"
  [500; 1000; 2000; 5000; 7000; 10000; 15000; 20000; 30000; 45000; 60000; 90000; 120000; 180000; 240000; 300000; 600000; 900000; 1200000; 1800000; 2400000; 3000000; 3600000]%Z ["background_cache_job_name"].
(* go: internal/metrics/metrics.go | CloudBackgroundCacheJobsRunning = | L129-L133 *)
Definition CloudBackgroundCacheJobsRunning : collector := NewGaugeVec "cloud_background_cache_jobs_in_progress" "Number of in progress background cache jobs, per job type"
  ["background_cache_job_name"].
(* go: internal/metrics/metrics.go | func cacheMetrics *)
Definition cacheMetrics : list collector :=
  [CloudBackgroundCacheJobSkips; CloudBackgroundCacheJobRuns; CloudBackgroundCacheJobDurationSec; CloudBackgroundCacheJobsRunning].

(* go: internal/metrics/mbus.go | MBusMessageConsumptionDelayDuration = | L11-L36 *)
Definition MBusMessageConsumptionDelayDuration : collector := NewHistogramVec "cloud_mbus_ingress_message_delay" "Histogram of ingress messages production delay from now in seconds"
  [10; 50; 100; 200; 400; 600; 800; 1000; 3000; 6000; 10000; 20000; 40000; 60000; 90000; 120000; 240000; 600000; 3600000]%Z ["bus"; "topic"; "cons_group"; "cons_id"].
(* go: internal/metrics/mbus.go | MBusMessagesConsumedTotal = | L37-L41 *)
Definition MBusMessagesConsumedTotal : collector := NewCounterVec "cloud_mbus_messages_consumed_total" "Count messages consumed total"
  ["bus"; "topic"; "cons_group"; "cons_id"].
(* go: internal/metrics/mbus.go | MBusMessagesConsumedProcessed = | L42-L46 *)
Definition MBusMessagesConsumedProcessed : collector := NewCounterVec "cloud_mbus_messages_consumed_processed" "Count messages consumed and successfully processed"
  ["bus"; "topic"; "cons_group"; "cons_id"].
(* go: internal/metrics/mbus.go | MBusPendingAckMessages = | L47-L51 *)
Definition MBusPendingAckMessages : collector := NewGaugeVec "cloud_mbus_pending_ack_messages" "Count messages pending ack"
  ["bus"; "topic"; "cons_group"; "cons_id"].
(* go: internal/metrics/mbus.go | MBusFetchedEntries = | L52-L56 *)
Definition MBusFetchedEntries : collector := NewGaugeVec "cloud_mbus_fetched_entries" "Count entries fetched from stream"
  ["bus"; "topic"; "cons_group"; "cons_id"].
(* go: internal/metrics/mbus.go | MBusUnprocessedAckErrors = | L57-L61 *)
Definition MBusUnprocessedAckErrors : collector := NewGaugeVec "cloud_mbus_unprocessed_ack_errors" "Count unprocessed ack errors"
  ["bus"; "topic"; "cons_group"; "cons_id"].
(* go: internal/metrics/mbus.go | MBusMessagePersistDuration = | L66-L84 *)
Definition MBusMessagePersistDuration : collector := NewHistogramVec "cloud_mbus_egress_message_persist_duration" "Histogram of time to persist a messages to message bus in seconds"
  [10; 50; 100; 200; 400; 600; 800; 1000; 3000; 6000; 10000; 20000]%Z ["bus"; "topic"].
(* go: internal/metrics/mbus.go | MBusMessagesProducedTotal = | L85-L89 *)
Definition MBusMessagesProducedTotal : collector := NewCounterVec "cloud_mbus_messages_produced_total" "Count messages produced"
  ["bus"; "topic"].
(* go: internal/metrics/mbus.go | MBusMessagesProducedSuccess = | L90-L94 *)
Definition MBusMessagesProducedSuccess : collector := NewCounterVec "cloud_mbus_messages_produced_success" "Count messages produced and written successfully"
  ["bus"; "topic"].
(* go: internal/metrics/mbus.go | MBusMessagesLastDelivered = | L95-L99 *)
Definition MBusMessagesLastDelivered : collector := NewGaugeVec "cloud_mbus_messages_last_delivered" "Timestamp part of ID of last delivered message"
  ["bus"; "topic"; "cons_group"].
(* go: internal/metrics/mbus.go | MBusMessagesFirstStored = | L100-L104 *)
Definition MBusMessagesFirstStored : collector := NewGaugeVec "cloud_mbus_messages_first_stored" "Timestamp part of ID of first message stored for topic"
  ["bus"; "topic"].
(* go: internal/metrics/mbus.go | MBusMessagesLastStored = | L105-L109 *)
Definition MBusMessagesLastStored : collector := NewGaugeVec "cloud_mbus_messages_last_stored" "Timestamp part of ID of last message stored for topic"
  ["bus"; "topic"].
(* go: internal/metrics/mbus.go | MBusMessagesLen = | L110-L114 *)
Definition MBusMessagesLen : collector := NewGaugeVec "cloud_mbus_messages_len" "Current stream len" ["bus"; "topic"].
(* go: internal/metrics/mbus.go | MBusMessagesLag = | L115-L119 *)
Definition MBusMessagesLag : collector := NewGaugeVec "cloud_mbus_messages_lag" "Reported lag"
  ["bus"; "topic"; "cons_group"].
(* go: internal/metrics/mbus.go | MBusMessagesPending = | L120-L124 *)
Definition MBusMessagesPending : collector := NewGaugeVec "cloud_mbus_messages_pending" "Number of messages pending ack"
  ["bus"; "topic"; "cons_group"].
(* go: internal/metrics/mbus.go | func mbusMetrics *)
Definition mbusMetrics : list collector :=
  [MBusMessageConsumptionDelayDuration; MBusMessagePersistDuration; MBusMessagesProducedTotal; MBusMessagesProducedSuccess;
   MBusMessagesConsumedProcessed; MBusMessagesConsumedTotal; MBusMessagesLastDelivered; MBusMessagesFirstStored; MBusMessagesLag;
   MBusMessagesPending; MBusMessagesLastStored; MBusMessagesLen; MBusPendingAckMessages; MBusFetchedEntries; MBusUnprocessedAckErrors].

(** The metrics of the middleware, which an application registers itself. *)
(* go: internal/metrics/api.go | APIRequestsTotal = | L10-L14 *)
Definition APIRequestsTotal : collector := NewCounterVec "gin_request_total" "Total number of requests served by the server"
  ["app_name"].
(* go: internal/metrics/api.go | APIRequestsTotalURI = | L15-L19 *)
Definition APIRequestsTotalURI : collector := NewCounterVec "gin_uri_request_total" "Number of requests served by the server per URI"
  ["app_name"; "uri"; "method"; "code"].
(* go: internal/metrics/api.go | APIRequestsDuration = | L20-L47 *)
Definition APIRequestsDuration : collector := NewHistogramVec "gin_request_duration" "Histogram of request durations in seconds"
  [10; 50; 100; 200; 300; 400; 500; 800; 1000; 1200; 1500; 2000; 3000; 5000; 7000; 10000; 15000; 20000; 30000; 60000; 120000]%Z ["app_name"; "uri"].
(* go: internal/metrics/api.go | func APIMetrics *)
Definition APIMetrics : list collector := [APIRequestsTotal; APIRequestsTotalURI; APIRequestsDuration].

(* go: internal/metrics/metrics.go | func registerMetrics *)
Definition metrics_registerMetrics {R} `{Registry R} (r : R) : R * outcome unit :=
  let coll := [] in
  let coll := coll ++ HTTPEgress in
  let coll := coll ++ mbusMetrics in
  let coll := coll ++ rdbMetrics in
  let coll := coll ++ chdbMetrics in
  let coll := coll ++ cacheMetrics in
  MustRegister coll r.

(** ** Those of jobs and of the rate limiter *)

(* go: internal/scheduletooling/worker/metrics.go | CloudBackgroundJobStatus = | L19-L23 *)
Definition CloudBackgroundJobStatus : collector := NewGaugeVec "cloud_background_job_status" "Number of background job finished with status, per job type"
  ["background_job_name"; "status"].
(* go: internal/scheduletooling/worker/metrics.go | CloudBackgroundJobSkips = | L24-L28 *)
Definition CloudBackgroundJobSkips : collector := NewCounterVec "cloud_background_job_skips" "Number of skipped background job, per job type"
  ["background_job_name"].
(* go: internal/scheduletooling/worker/metrics.go | CloudBackgroundJobRuns = | L29-L33 *)
Definition CloudBackgroundJobRuns : collector := NewCounterVec "cloud_background_job_runs" "Number of background job runs, per job type"
  ["background_job_name"].
(* go: internal/scheduletooling/worker/metrics.go | CloudBackgroundJobDurationSec = | L34-L42 *)
Definition CloudBackgroundJobDurationSec : collector := NewHistogramVec "cloud_background_job_duration_sec" "Histogram of background job duration since start, per job type"
  [500; 1000; 2000; 5000; 7000; 10000; 15000; 20000; 30000; 45000; 60000; 90000; 120000; 180000; 240000; 300000; 600000; 900000; 1200000; 1800000; 2400000; 3000000; 3600000]%Z ["background_job_name"].
(* go: internal/scheduletooling/worker/metrics.go | CloudBackgroundJobsRunning = | L43-L47 *)
Definition CloudBackgroundJobsRunning : collector := NewGaugeVec "cloud_background_jobs_in_progress" "Number of in progress background jobs, per job type"
  ["background_job_name"].
(* go: internal/scheduletooling/worker/metrics.go | func cloudBackgroundJobMetrics *)
Definition cloudBackgroundJobMetrics : list collector :=
  [CloudBackgroundJobStatus; CloudBackgroundJobSkips; CloudBackgroundJobRuns; CloudBackgroundJobDurationSec; CloudBackgroundJobsRunning].
(* go: internal/scheduletooling/worker/metrics.go | func registerMetrics *)
Definition worker_registerMetrics {R} `{Registry R} (r : R) : R * outcome unit := MustRegister ([] ++ cloudBackgroundJobMetrics) r.

(* go: internal/resttooling/ratelimiter/v2/metrics.go | SeenRequestsTotal = | L11-L15 *)
Definition SeenRequestsTotal : collector := NewCounterVec "ratelimiter_seen_requests_total" "Total number of requests seen by the rate limiter"
  ["app_name"; "pattern"; "key"].
(* go: internal/resttooling/ratelimiter/v2/metrics.go | RejectedRequestsTotal = | L18-L22 *)
Definition RejectedRequestsTotal : collector := NewCounterVec "ratelimiter_rejected_requests_total" "Total number of requests rejected by the rate limiter"
  ["app_name"; "pattern"; "key"].
(* go: internal/resttooling/ratelimiter/v2/metrics.go | WouldBeRejectedRequestsTotal = | L26-L30 *)
Definition WouldBeRejectedRequestsTotal : collector := NewCounterVec "ratelimiter_would_be_rejected_requests_total" "Total number of requests that would be rejected by the rate limiter if it was enforcing its configuration"
  ["app_name"; "pattern"; "key"].
(* go: internal/resttooling/ratelimiter/v2/metrics.go | // Metrics returns *)
Definition ratelimiter_Metrics : list collector := [SeenRequestsTotal; RejectedRequestsTotal; WouldBeRejectedRequestsTotal].

(** ** Registration never fails *)

(** All collectors of the repository. *)
Definition all_collectors : list collector :=
  HTTPEgress ++ mbusMetrics ++ rdbMetrics ++ chdbMetrics ++ cacheMetrics ++ cloudBackgroundJobMetrics ++ ratelimiter_Metrics ++ APIMetrics.

Lemma all_names_differ : NoDup (map full_name all_collectors).
Proof. apply (bool_decide_unpack _). vm_compute. exact I. Qed.

(** The packages register their collectors without a panic, in an empty registry and in any that
    knows none of their names, in whatever order the packages are initialised. *)
Theorem packages_register {R} `{RegistryLaws R} (r : R) (order : list (list collector)) :
  order ≡ₚ [HTTPEgress ++ mbusMetrics ++ rdbMetrics ++ chdbMetrics ++ cacheMetrics; cloudBackgroundJobMetrics; ratelimiter_Metrics; APIMetrics] ->
  (forall c, c ∈ all_collectors -> full_name c ∉ registered r) ->
  exists r', foldl (fun m cs => match m with (r, Returns tt) => MustRegister cs r | (r, Panics why) => (r, Panics why) end) (r, Returns tt) order = (r', Returns tt) /\
    registered r' = list_to_set (map full_name all_collectors) ∪ registered r.
Proof.
  intros Hord Hnew. assert (Hall : concat order ≡ₚ all_collectors).
  { rewrite Hord. cbn [concat]. unfold all_collectors. rewrite app_nil_r. by rewrite <- !app_assoc. }
  assert (Hfold : forall l r, foldl (fun m cs => match m with (r, Returns tt) => MustRegister cs r | (r, Panics why) => (r, Panics why) end) (r, Returns tt) l = MustRegister (concat l) r).
  { assert (Hp : forall l (r : R) why, foldl (fun m cs => match m with (r, Returns tt) => MustRegister cs r | (r, Panics why) => (r, Panics why) end) (r, Panics why) l = (r, Panics why)) by (induction l; done).
    assert (Happ : forall l1 l2 (r : R), MustRegister (l1 ++ l2) r = match MustRegister l1 r with (r, Returns tt) => MustRegister l2 r | (r, Panics why) => (r, Panics why) end).
    { induction l1 as [|c l1 IH]; intros l2 r1; cbn; [done|]. destruct (Register c r1) as [r2 [e|]]; [done|apply IH]. }
    induction l as [|cs l IH]; intros r1; [done|]. cbn. rewrite Happ. destruct (MustRegister cs r1) as [r2 [[]|why]]; [apply IH|apply Hp]. }
  rewrite Hfold. exists (MustRegister (concat order) r).1.
  assert (Hok : (MustRegister (concat order) r).2 = Returns tt).
  { apply MustRegister_spec. split; [rewrite Hall; apply all_names_differ|]. intros c Hc. apply Hnew. by rewrite <- Hall. }
  split; [rewrite <- Hok; apply surjective_pairing|]. rewrite (MustRegister_names _ _ Hok). by rewrite Hall.
Qed.

(** The library takes the bounds of a histogram only in increasing order. *)
Theorem buckets_increase c : c ∈ all_collectors -> StronglySorted Z.lt (m_Buckets c).
Proof.
  assert (Hall : Forall (fun c => forallb (fun p => bool_decide (p.1 < p.2)%Z) (zip (m_Buckets c) (tail (m_Buckets c))) = true) all_collectors).
  { repeat (apply List.Forall_cons; [vm_compute; reflexivity|]). apply List.Forall_nil. }
  intros Hc. rewrite Forall_forall in Hall. specialize (Hall c Hc). cbn beta in Hall.
  apply Sorted_StronglySorted; [intros x y z; lia|]. revert Hall. generalize (m_Buckets c). intros l.
  induction l as [|x l IH]; [constructor|]. destruct l as [|y l]; [by repeat constructor|]. cbn.
  intros [Hxy%bool_decide_eq_true Hl]%andb_true_iff. constructor; [by apply IH|by constructor].
Qed.

(** ** Labels *)

(** A metric is counted under as many labels as its collector declares: otherwise the library
    panics. *)
Definition well_labelled (e : event) : Prop :=
  match e with Metric name labels => exists c, c ∈ all_collectors /\ full_name c = name /\ length labels = length (m_Labels c) | _ => True end.

Lemma declared c labels : c ∈ all_collectors -> length labels = length (m_Labels c) -> well_labelled (Metric (full_name c) labels).
Proof. intros. by exists c. Qed.

(** The middleware and the client's layer count with the labels that are declared. *)
Theorem metrics_are_well_labelled app routeF next w r s st e event rt s2 :
  (forall r s, events (routeF r s).2 = events s) ->
  (forall w r s, exists l, events (next w (r, s)).1.2 = events s ++ l /\ Forall well_labelled l) ->
  (forall r s, exists l, events (rt (r, s)).1.2 = events s ++ l /\ Forall well_labelled l) ->
  MetricsMiddleware app routeF next w (r, s) = (st, e) -> s2 = (metrics_RoundTrip event rt (r, s)).1.2 ->
  (exists l, events st.2 = events s ++ l /\ Forall well_labelled l) /\ (exists l, events s2 = events s ++ l /\ Forall well_labelled l).
Proof.
  intros Hroute Hnext Hrt Hm ->. split.
  - revert Hm. unfold MetricsMiddleware. destruct (existsb _ _).
    { intros E. destruct (Hnext w r s) as (l & Hl & Hwl). rewrite E in Hl. by exists l. }
    specialize (Hroute r s). destruct (routeF r s) as [route s1]. cbn in Hroute.
    unfold newLoggingResponseWriter. cbn zeta. cbn beta iota. match goal with |- context [next ?w0 (r, ?s0)] => destruct (Hnext w0 r s0) as (l & Hl & Hwl); destruct (next w0 (r, s0)) as [[r3 s3] [|p]] end;
      cbn in Hl |- *; rewrite Hroute in Hl; intros [= <- <-]; cbn; [|by exists l].
    eexists. rewrite Hl, <- app_assoc. split; [reflexivity|]. apply Forall_app. split; [done|].
    repeat (apply List.Forall_cons); [apply (declared APIRequestsTotal)|apply (declared APIRequestsTotalURI)|apply (declared APIRequestsDuration)|apply List.Forall_nil];
      try done; by apply (bool_decide_unpack _); vm_compute.
  - destruct (Hrt r s) as (l & Hl & Hwl). unfold metrics_RoundTrip. destruct (rt (r, s)) as [[r3 s3] [[response err]|why]]; cbn in Hl |- *; [|by exists l].
    eexists. rewrite Hl, <- app_assoc. split; [reflexivity|]. apply Forall_app. split; [done|].
    repeat (apply List.Forall_cons); [apply (declared HTTPEgressDuration)|apply (declared HTTPEgressTotal)|apply List.Forall_nil];
      try done; by apply (bool_decide_unpack _); vm_compute.
Qed.

(** ** A demonstration: a registry as the set of its names *)

#[export] Instance set_registry : Registry (gset string) := {
  reg_Register c r := if decide (full_name c ∈ r) then (r, Some (Leaf (LText "duplicate metrics collector registration attempted"))) else ({[full_name c]} ∪ r, None);
  reg_Unregister c r := (r ∖ {[full_name c]}, bool_decide (full_name c ∈ r));
  registered r := r
}.
#[export] Instance set_registry_laws : RegistryLaws (gset string).
Proof.
  split.
  - intros c r r' err. unfold reg_Register, registered. cbn. case_decide; intros [= <- <-]; by split.
  - intros c r r' b. unfold reg_Unregister, registered. cbn. intros [= <- <-]. done.
Qed.

Notation package_collectors := [HTTPEgress ++ mbusMetrics ++ rdbMetrics ++ chdbMetrics ++ cacheMetrics; cloudBackgroundJobMetrics; ratelimiter_Metrics; APIMetrics].
Lemma packages_register_witness : exists r' : gset string,
  foldl (fun m cs => match m with (r, Returns tt) => MustRegister cs r | (r, Panics why) => (r, Panics why) end) ((∅ : gset string), Returns tt) package_collectors = (r', Returns tt) /\
  registered r' = list_to_set (map full_name all_collectors) ∪ registered (∅ : gset string).
Proof.
  apply (packages_register (∅ : gset string) package_collectors).
  - reflexivity.
  - intros c _. apply not_elem_of_empty.
Defined.
