(* ===== verification/CyprusBus.v ===== *)
(** * Buses of Cyprus (internal/buses, internal/buses/cyprusbus)

    [GetNearest] asks twice where the buses are and gives those that have come nearer. The
    fetcher reads a feed and names routes from a table that is read once. Floating point
    arithmetic, the feed's transport and encoding, the CSV reader and the sorting function are
    parameters. *)
From S2P Require Import Prelude Codes GoErrors.

(** ** Data (buses/model.go) *)

(** The operations on float64 that the code uses. *)
Class Float (F : Type) := {
  of_int : Z -> F; pi : F;
  fadd : F -> F -> F; fsub : F -> F -> F; fmul : F -> F -> F; fdiv : F -> F -> F;
  sin : F -> F; cos : F -> F; sqrt : F -> F; atan2 : F -> F -> F;
  flt : F -> F -> bool; fle : F -> F -> bool
}.

Section buses.
Context {F : Type} `{Float F}.

(* go: internal/buses/model.go | type Dot struct *)
Record Dot := { Lat : F; Long : F }.
(* go: internal/buses/model.go | type Route struct *)
Record Route := { route_ID : string; ShortName : string; LongName : string }.
(* go: internal/buses/model.go | type Bus struct *)
Record Bus := { bus_ID : string; bus_Route : Route; Position : Dot }.

(** ** The distance (transport.go) *)

(* go: internal/buses/cyprusbus/transport.go | func CalculateDistance *)
Definition CalculateDistance (a b : Dot) : F :=
  let earthRadius := of_int 6378137 in
  let rad x := fdiv (fmul x pi) (of_int 180) in
  let phi1 := rad (Lat a) in
  let phi2 := rad (Lat b) in
  let deltaPhi := rad (fsub (Lat b) (Lat a)) in
  let deltaLambda := rad (fsub (Long b) (Long a)) in
  let half x := sin (fdiv x (of_int 2)) in
  let sinTerm := fadd (fmul (half deltaPhi) (half deltaPhi))
    (fmul (fmul (fmul (cos phi1) (cos phi2)) (half deltaLambda)) (half deltaLambda)) in
  let c := fmul (of_int 2) (atan2 (sqrt sinTerm) (sqrt (fsub (of_int 1) sinTerm))) in
  fmul earthRadius c.

(** The box around a point. *)
(* go: internal/buses/cyprusbus/transport.go | // Calculate 1km bounding box | L36-L52 *)
Definition in_box (boxSize : F) (dot : Dot) (bus : Bus) : bool :=
  let latDelta := fdiv boxSize (of_int 111000) in
  let longDelta := fdiv boxSize (fmul (of_int 111000) (cos (fdiv (fmul (Lat dot) pi) (of_int 180)))) in
  let latMin := fsub (Lat dot) latDelta in
  let latMax := fadd (Lat dot) latDelta in
  let longMin := fsub (Long dot) longDelta in
  let longMax := fadd (Long dot) longDelta in
  fle latMin (Lat (Position bus)) && fle (Lat (Position bus)) latMax &&
  fle longMin (Long (Position bus)) && fle (Long (Position bus)) longMax.

(** ** The client *)

Section client.
(** The world the fetcher works on; [sort.Slice]. *)
Context {W : Type} (FetchBuses : W -> W * outcome (result error (list Bus))) (sleepFunc : Z -> W -> W)
  (sort_Slice : (Bus -> Bus -> bool) -> list Bus -> list Bus).

(* go: internal/buses/cyprusbus/transport.go | type Client struct *)
Record Client := { timer : Z; boxSize : F }.

(* go: internal/buses/cyprusbus/transport.go | // Create current bus map | L72-L76 *)
Definition by_id (l : list Bus) : gmap string Bus := fold_left (fun m bus => <[bus_ID bus := bus]> m) l ∅.
(** A bus that was seen before and has come nearer since. *)
(* go: internal/buses/cyprusbus/transport.go | // Filter approaching buses | L78-L93 *)
Definition approaching (dot : Dot) (initialMap : gmap string Bus) (currentBus : Bus) : bool :=
  match initialMap !! bus_ID currentBus with
  | None => false
  | Some initialBus => flt (CalculateDistance dot (Position currentBus)) (CalculateDistance dot (Position initialBus))
  end.
Definition nearer (dot : Dot) (a b : Bus) : bool := flt (CalculateDistance dot (Position a)) (CalculateDistance dot (Position b)).

(* go: internal/buses/cyprusbus/transport.go | func (c *Client) GetNearest *)
Definition GetNearest (c : Client) (dot : Dot) (w : W) : W * outcome (result error (list Bus)) :=
  match FetchBuses w with
  | (w, Panics why) => (w, Panics why)
  | (w, Returns (Err err)) => (w, Returns (Err (Wrap (WText "initial fetch failed") err)))
  | (w, Returns (Ok fetchedBuses)) =>
      let initialBuses := filter (fun b => in_box (boxSize c) dot b = true) fetchedBuses in
      let w := sleepFunc (timer c) w in
      match FetchBuses w with
      | (w, Panics why) => (w, Panics why)
      | (w, Returns (Err err)) => (w, Returns (Err (Wrap (WText "second fetch failed") err)))
      | (w, Returns (Ok secondFetchedBuses)) =>
          let currentBuses := filter (fun b => in_box (boxSize c) dot b = true) secondFetchedBuses in
          let initialMap := by_id initialBuses in
          let filteredBuses := filter (fun b => approaching dot initialMap b = true) currentBuses in
          (w, Returns (Ok (sort_Slice (nearer dot) filteredBuses)))
      end
  end.
End client.

(** ** The fetcher (transport_fetcher.go) *)

(** An entity of the feed: its vehicle's identifier, trip and position, where it has them. *)
Record Vehicle := { v_id : string; v_trip : option string; v_pos : option (F * F) }.
Notation Entity := (option Vehicle).

Section fetcher.
Context {W : Type}.
(** [http.NewRequestWithContext], [httpClient.Do] with the status and the body (which may not be
    read to its end), and [proto.Unmarshal]. *)
Context (NewRequest : string -> option error) (Do : string -> W -> W * result error (Z * result error string))
  (Close : W -> W) (Unmarshal : string -> result error (list Entity)).
(** The lines of a CSV file: records, or the error of a line. *)
Context (csv : string -> list (result error (list string))) (TrimSpace : string -> string).

(* go: internal/buses/cyprusbus/transport_fetcher.go | type routeCache struct *)
Record routeCache := { routes : gmap string Route }.
(** The pointer to the cache is nil until [Ready] has been called. *)
(* go: internal/buses/cyprusbus/transport_fetcher.go | type protobufFetcher struct *)
Record protobufFetcher := { baseURL : string; cache : option routeCache }.
(* go: internal/buses/cyprusbus/transport_fetcher.go | func newProtobufFetcher *)
Definition newProtobufFetcher (url : string) : protobufFetcher := {| baseURL := url; cache := None |}.

(* go: internal/buses/cyprusbus/transport_fetcher.go | func (rc *routeCache) getRoutes *)
Definition getRoutes (rc : option routeCache) (routeID : string) : outcome (option Route) :=
  match rc with
  | None => Panics "runtime error: invalid memory address or nil pointer dereference"
  | Some c => Returns (routes c !! routeID)
  end.

(** [bytes.TrimLeft] of the byte order mark, which is one character of three bytes. *)
Definition bom : string := String "239" (String "187" (String "191" "")).
Fixpoint trim_bom (fuel : nat) (s : string) : string :=
  match fuel with 0 => s | S fuel => if has_prefix s bom then trim_bom fuel (sdrop 3 s) else s end.

Definition requiredFields : list string := ["route_id"; "route_short_name"; "route_long_name"].
(** The header: the last column of a name counts. *)
Definition field_index (header : list string) : gmap string nat :=
  fold_left (fun m f => <[TrimSpace f.2 := f.1]> m) (zip (seq 0 (length header)) header) ∅.
Definition has_fields (fieldIndex : gmap string nat) : bool :=
  forallb (fun f => match fieldIndex !! f with Some _ => true | None => false end) requiredFields.
(** [record[fieldIndex[field]]]. *)
Definition field_of (fieldIndex : gmap string nat) (record : list string) (field : string) : outcome string :=
  match record !! default 0 (fieldIndex !! field) with Some v => Returns v | None => Panics index_out_of_range end.
(* go: internal/buses/cyprusbus/transport_fetcher.go | // Read and parse routes | L97-L113 *)
Fixpoint read_routes (fieldIndex : gmap string nat) (records : list (result error (list string))) (m : gmap string Route)
    : outcome (result error (gmap string Route)) :=
  match records with
  | [] => Returns (Ok m)
  | Err err :: _ => Returns (Err (Wrap (WText "failed to read route record") err))
  | Ok record :: records' =>
      i ← field_of fieldIndex record "route_id";
      s ← field_of fieldIndex record "route_short_name";
      l ← field_of fieldIndex record "route_long_name";
      read_routes fieldIndex records' (<[i := {| route_ID := i; ShortName := s; LongName := l |}]> m)
  end.
(** [file] is the embedded file, if it can be opened and read. *)
(* go: internal/buses/cyprusbus/transport_fetcher.go | func newRouteCache *)
Definition newRouteCache (file : result error string) : outcome (result error routeCache) :=
  match file with
  | Err err => Returns (Err err)
  | Ok data =>
      match csv (trim_bom (String.length data) data) with
      | [] => Returns (Err (Wrap (WText "failed to read routes.txt header") (Leaf (LText "EOF"))))
      | Err err :: _ => Returns (Err (Wrap (WText "failed to read routes.txt header") err))
      | Ok header :: records =>
          let fieldIndex := field_index header in
          if has_fields fieldIndex
          then read ← read_routes fieldIndex records ∅; Returns (m ← read; Ok {| routes := m |})
          else Returns (Err (Leaf (LText "required field is not present in routes.txt")))
      end
  end.
(* go: internal/buses/cyprusbus/transport_fetcher.go | // Ready checks if cache *)
Definition Ready (file : result error string) (pf : protobufFetcher) : protobufFetcher * outcome (option error) :=
  match cache pf with
  | Some _ => (pf, Returns None)
  | None =>
      match newRouteCache file with
      | Panics why => (pf, Panics why)
      | Returns (Err err) => (pf, Returns (Some (Wrap (WText "failed to initialize route cache") err)))
      | Returns (Ok c) => ({| baseURL := baseURL pf; cache := Some c |}, Returns None)
      end
  end.

(** A vehicle without a trip or a position is left out; a route that is not known has its
    identifier only. *)
(* go: internal/buses/cyprusbus/transport_fetcher.go | for _, entity := range feed.Entity { *)
Fixpoint read_feed (rc : option routeCache) (feed : list Entity) : outcome (list Bus) :=
  match feed with
  | [] => Returns []
  | entity :: feed' =>
      match entity with
      | Some bp =>
          match v_pos bp, v_trip bp with
          | Some (lat, long), Some routeID =>
              route ← getRoutes rc routeID;
              rest ← read_feed rc feed';
              Returns ({| bus_ID := v_id bp;
                          bus_Route := default {| route_ID := routeID; ShortName := ""; LongName := "" |} route;
                          Position := {| Lat := lat; Long := long |} |} :: rest)
          | _, _ => read_feed rc feed'
          end
      | None => read_feed rc feed'
      end
  end.
(* go: internal/buses/cyprusbus/transport_fetcher.go | func (f *protobufFetcher) FetchBuses *)
Definition FetchBuses (f : protobufFetcher) (w : W) : W * outcome (result error (list Bus)) :=
  let url := baseURL f +:+ "/api/gtfs-realtime" in
  match NewRequest url with
  | Some err => (w, Returns (Err err))
  | None =>
      match Do url w with
      | (w, Err err) => (w, Returns (Err err))
      | (w, Ok (status, body)) =>
          let res :=
            if decide (status <> 200)%Z then Returns (Err (Leaf (LText ("unexpected status code: " +:+ pretty status))))
            else match body with
                 | Err err => Returns (Err err)
                 | Ok data => match Unmarshal data with
                              | Err err => Returns (Err err)
                              | Ok feed => buses ← read_feed (cache f) feed; Returns (Ok buses)
                              end
                 end in
          (Close w, res)
      end
  end.
End fetcher.
End buses.
Arguments Dot F : clear implicits.
Arguments Bus F : clear implicits.
Arguments Vehicle F : clear implicits.
Arguments Client F : clear implicits.

(** ** What is found near a point *)

Section theorems.
Context {F : Type} `{Float F}.

Lemma by_id_spec (l : list (Bus F)) k : by_id l !! k = last (filter (fun b => bus_ID b = k) l).
Proof.
  unfold by_id. induction l as [|b l IH] using rev_ind; [done|]. rewrite fold_left_app, filter_app. cbn [fold_left].
  rewrite filter_cons, filter_nil. case_decide as Hk.
  - subst k. by rewrite lookup_insert_eq, last_snoc.
  - rewrite lookup_insert_ne by done. by rewrite app_nil_r.
Qed.

(** A comparison that orders a list: of two elements one is not less, and what is not less is
    transitive. *)
Definition weak_order {A} (less : A -> A -> bool) (l : list A) : Prop :=
  (forall a b, a ∈ l -> b ∈ l -> less a b = true -> less b a = false) /\
  (forall a b c, a ∈ l -> b ∈ l -> c ∈ l -> less a b = false -> less b c = false -> less a c = false).

Section client.
Context {W : Type} (fetch : W -> W * outcome (result error (list (Bus F)))) (sleep : Z -> W -> W)
  (sort_Slice : (Bus F -> Bus F -> bool) -> list (Bus F) -> list (Bus F)).
Hypothesis sort_perm : forall less l, sort_Slice less l ≡ₚ l.
Hypothesis sort_sorted : forall less l, weak_order less l -> StronglySorted (fun a b => less b a = false) (sort_Slice less l).
Notation nearest := (GetNearest fetch sleep sort_Slice).

(** C39. The buses that are given: they are in the box now, were in the box at the first look, where
    the last bus with the same identifier counts, and have come nearer; the nearest are first. *)
Theorem GetNearest_spec c dot w w1 w2 first second : fetch w = (w1, Returns (Ok first)) ->
  fetch (sleep (timer c) w1) = (w2, Returns (Ok second)) ->
  exists found, nearest c dot w = (w2, Returns (Ok found)) /\
    (forall b, b ∈ found <-> b ∈ second /\ in_box (boxSize c) dot b = true /\ exists b0,
       last (filter (fun x => bus_ID x = bus_ID b) (filter (fun x => in_box (boxSize c) dot x = true) first)) = Some b0 /\
       flt (CalculateDistance dot (Position b)) (CalculateDistance dot (Position b0)) = true) /\
    (NoDup second -> NoDup found) /\ length found <= length second /\
    (weak_order (nearer dot) second -> StronglySorted (fun a b => nearer dot b a = false) found).
Proof.
  intros H1 H2. unfold GetNearest. rewrite H1, H2. cbn zeta.
  set (near := filter (fun b => approaching dot _ b = true) _). eexists. split; [reflexivity|].
  assert (Hin : forall b, b ∈ near <-> b ∈ second /\ in_box (boxSize c) dot b = true /\
    approaching dot (by_id (filter (fun b => in_box (boxSize c) dot b = true) first)) b = true).
  { intros b. subst near. rewrite !list_elem_of_filter. naive_solver. }
  split_and!.
  - intros b. rewrite sort_perm, Hin. unfold approaching. rewrite by_id_spec.
    destruct (last _) as [b0|]; [naive_solver|]. split; [naive_solver|]. intros (_ & _ & b0 & ? & _). done.
  - intros Hnd. rewrite sort_perm. by repeat apply NoDup_filter.
  - rewrite sort_perm. subst near. etrans; [apply length_filter|]. apply length_filter.
  - intros [Hirr Htr]. apply sort_sorted. split; [intros a b Ha Hb; apply Hirr|intros a b d Ha Hb Hd; apply Htr]; by apply Hin.
Qed.

(** An error of either look is the answer; after the first one nobody waits. *)
Theorem GetNearest_errors c dot w w1 err : fetch w = (w1, Returns (Err err)) ->
  nearest c dot w = (w1, Returns (Err (Wrap (WText "initial fetch failed") err))).
Proof. intros H1. unfold GetNearest. by rewrite H1. Qed.
End client.

(** ** The table of routes *)

Section fetcher.
Context {W : Type} (NewRequest : string -> option error) (Do : string -> W -> W * result error (Z * result error string))
  (Close : W -> W) (Unmarshal : string -> result error (list (option (Vehicle F)))).
Context (csv : string -> list (result error (list string))) (TrimSpace : string -> string).
(** Every record of a file has as many fields as its first one. *)
Hypothesis csv_law : forall data h l r, csv data = Ok h :: l -> Ok r ∈ l -> length r = length h.

Lemma field_index_bound h k i : field_index TrimSpace h !! k = Some i -> i < length h.
Proof.
  unfold field_index. assert (Hz : forall l (m : gmap string nat), (forall k i, m !! k = Some i -> i < length h) ->
    (forall f, f ∈ l -> f.1 < length h) -> forall k i, fold_left (fun m f => <[TrimSpace f.2 := f.1]> m) l m !! k = Some i -> i < length h).
  { induction l as [|f l IH]; intros m Hm Hl; [done|]. cbn. apply IH; [|intros g Hg; apply Hl; by right].
    intros k' i'. destruct (decide (k' = TrimSpace f.2)) as [->|Hne]; [rewrite lookup_insert_eq|rewrite lookup_insert_ne by done; apply Hm].
    intros [= <-]. apply Hl. by left. }
  apply Hz; [by intros ??|]. intros [j f] Hf%elem_of_zip_l. apply elem_of_seq in Hf. cbn. lia.
Qed.

(** The route of a record. *)
Definition route_of (idx : gmap string nat) (r : list string) : Route :=
  let get k := default "" (r !! default 0 (idx !! k)) in
  {| route_ID := get "route_id"; ShortName := get "route_short_name"; LongName := get "route_long_name" |}.

Lemma read_routes_spec idx (n : nat) rs m : (forall k, k ∈ requiredFields -> exists i, idx !! k = Some i /\ i < n) ->
  (forall r, Ok r ∈ rs -> length r = n) ->
  (forall rows, rs = map Ok rows ->
     read_routes idx rs m = Returns (Ok (fold_left (fun m r => <[route_ID (route_of idx r) := route_of idx r]> m) rows m))) /\
  (exists res, read_routes idx rs m = Returns res).
Proof.
  intros Hk. revert m. induction rs as [|[r|e] rs IH]; intros m Hr.
  - split; [|by eexists]. intros [|] [=]. done.
  - assert (Hf : forall k, k ∈ requiredFields -> field_of idx r k = Returns (default "" (r !! default 0 (idx !! k)))).
    { intros k Hin. destruct (Hk k Hin) as (i & Hi & Hlt). unfold field_of. rewrite Hi. cbn.
      rewrite <- (Hr r) in Hlt by by left. apply lookup_lt_is_Some in Hlt as [v Hv]. by rewrite Hv. }
    assert (Hstep : read_routes idx (Ok r :: rs) m = read_routes idx rs (<[route_ID (route_of idx r) := route_of idx r]> m)).
    { cbn [read_routes]. rewrite !Hf by (apply (bool_decide_unpack _); vm_compute; exact I). reflexivity. }
    rewrite Hstep. destruct (IH (<[route_ID (route_of idx r) := route_of idx r]> m)) as [IH1 IH2]; [intros r' ?; apply Hr; by right|].
    split; [|done]. intros [|r' rows] [=]. subst r'. by apply IH1.
  - split; [|by eexists]. by intros [|] [=].
Qed.

(** Reading the table returns, whatever the file holds; when every line can be read, a route is
    known by the last line with its identifier. *)
Theorem newRouteCache_spec file : (exists res, newRouteCache csv TrimSpace file = Returns res) /\
  forall data h rows, file = Ok data -> csv (trim_bom (String.length data) data) = Ok h :: map Ok rows ->
    (forall k, k ∈ requiredFields -> is_Some (field_index TrimSpace h !! k)) ->
    exists c, newRouteCache csv TrimSpace file = Returns (Ok c) /\
      forall id, routes c !! id = last (filter (fun r => route_ID r = id) (map (route_of (field_index TrimSpace h)) rows)).
Proof.
  assert (Hreq : forall h, has_fields (field_index TrimSpace h) = true <->
    forall k, k ∈ requiredFields -> is_Some (field_index TrimSpace h !! k)).
  { intros h. unfold has_fields. rewrite forallb_forall. setoid_rewrite list_elem_of_In.
    split; intros Hall k Hk; specialize (Hall k Hk); [|by destruct Hall as [i ->]].
    destruct (field_index TrimSpace h !! k); [by eexists|done]. }
  assert (Hidx : forall h, (forall k, k ∈ requiredFields -> is_Some (field_index TrimSpace h !! k)) ->
    forall k, k ∈ requiredFields -> exists i, field_index TrimSpace h !! k = Some i /\ i < length h).
  { intros h Hall k Hk. destruct (Hall k Hk) as [i Hi]. exists i. split; [done|]. by eapply field_index_bound. }
  split.
  - destruct file as [data|e]; [|by eexists]. unfold newRouteCache. destruct (csv _) as [|[h|e] rs] eqn:E; [by eexists| |by eexists].
    cbn zeta. destruct (has_fields _) eqn:Ef; [|by eexists]. pose proof (proj1 (Hreq h) Ef) as Hf.
    destruct (read_routes_spec (field_index TrimSpace h) (length h) rs ∅) as [_ [res ->]]; [by apply Hidx|..|by eexists].
    intros r Hr. by eapply csv_law.
  - intros data h rows -> Hcsv Hall. unfold newRouteCache. rewrite Hcsv. cbn zeta. rewrite (proj2 (Hreq h) Hall).
    destruct (read_routes_spec (field_index TrimSpace h) (length h) (map Ok rows) ∅) as [Hrows _]; [by apply Hidx| |].
    { intros r Hr. eapply csv_law; [done|]. exact Hr. }
    rewrite (Hrows rows eq_refl). eexists. split; [reflexivity|]. intros id. cbn [routes]. clear Hcsv Hrows.
    induction rows as [|r rows IH] using rev_ind; [done|].
    rewrite fold_left_app, map_app, filter_app. cbn [fold_left map]. rewrite filter_cons, filter_nil. case_decide as Hk.
    + subst id. by rewrite lookup_insert_eq, last_snoc.
    + by rewrite lookup_insert_ne, app_nil_r.
Qed.

(** A vehicle that is shown: it has a trip and a position. *)
Definition shown (e : option (Vehicle F)) : Prop := exists v, e = Some v /\ is_Some (v_trip v) /\ is_Some (v_pos v).

Lemma read_feed_nil (feed : list (option (Vehicle F))) : (exists e, e ∈ feed /\ shown e) -> exists why, read_feed None feed = Panics why.
Proof.
  induction feed as [|e feed IH]; intros (e0 & Hin & Hs); [by apply not_elem_of_nil in Hin|]. cbn.
  destruct e as [bp|]; [|apply IH; apply elem_of_cons in Hin as [->|?]; [by destruct Hs as (v & ? & _)|by exists e0]].
  destruct (v_pos bp) as [[lat long]|] eqn:Hp, (v_trip bp) as [t|] eqn:Ht; cbn; [by eexists|..];
    (apply IH; apply elem_of_cons in Hin as [->|?]; [destruct Hs as (v & [= ->] & Htr & Hpo); rewrite ?Ht, ?Hp in *; by destruct Htr, Hpo|by exists e0]).
Qed.

Lemma read_feed_some c (feed : list (option (Vehicle F))) : exists buses, read_feed (Some c) feed = Returns buses.
Proof.
  induction feed as [|e feed IH]; [by eexists|]. cbn. destruct e as [bp|]; [|done].
  destruct (v_pos bp) as [[lat long]|], (v_trip bp) as [t|]; cbn; try done. destruct IH as [buses ->]. by eexists.
Qed.

(** A fetcher that is not ready panics on the first vehicle it would show; one that is never
    panics. *)
Theorem FetchBuses_needs_Ready f w w1 data feed : NewRequest (baseURL f +:+ "/api/gtfs-realtime") = None ->
  Do (baseURL f +:+ "/api/gtfs-realtime") w = (w1, Ok (200%Z, Ok data)) -> Unmarshal data = Ok feed ->
  (cache f = None -> (exists e, e ∈ feed /\ shown e) -> exists why, FetchBuses NewRequest Do Close Unmarshal f w = (Close w1, Panics why)) /\
  (is_Some (cache f) -> exists buses, FetchBuses NewRequest Do Close Unmarshal f w = (Close w1, Returns (Ok buses))).
Proof.
  intros Hn Hd Hu. unfold FetchBuses. rewrite Hn, Hd, Hu. rewrite decide_False by auto. split.
  - intros -> Hs. destruct (read_feed_nil feed Hs) as [why ->]. by exists why.
  - intros [c ->]. destruct (read_feed_some c feed) as [buses ->]. by exists buses.
Qed.

(** The fetcher of a new client is not ready, and the client has no operation that makes it so. *)
Theorem new_client_panics url c sleep sort dot w w1 data feed : NewRequest (url +:+ "/api/gtfs-realtime") = None ->
  Do (url +:+ "/api/gtfs-realtime") w = (w1, Ok (200%Z, Ok data)) -> Unmarshal data = Ok feed -> (exists e, e ∈ feed /\ shown e) ->
  exists why, GetNearest (FetchBuses NewRequest Do Close Unmarshal (newProtobufFetcher url)) sleep sort c dot w = (Close w1, Panics why).
Proof.
  intros Hn Hd Hu Hs. destruct (proj1 (FetchBuses_needs_Ready (newProtobufFetcher url) w w1 data feed Hn Hd Hu) eq_refl Hs) as [why Hw].
  exists why. unfold GetNearest. by rewrite Hw.
Qed.
End fetcher.
End theorems.


(** ** An instance *)

(** Integers in place of floating point numbers, with the distance on the line. *)
#[local] Instance integers : Float Z := {|
  of_int z := z; pi := 180%Z; fadd := Z.add; fsub := Z.sub; fmul := Z.mul; fdiv := Z.div;
  sin := id; cos _ := 1%Z; sqrt := Z.sqrt; atan2 a _ := a; flt := Z.ltb; fle := Z.leb |}.

Section insertion.
Context {A : Type} (less : A -> A -> bool).
Fixpoint insert_by (x : A) (l : list A) : list A :=
  match l with [] => [x] | y :: l' => if less x y then x :: y :: l' else y :: insert_by x l' end.
Definition insertion_sort (l : list A) : list A := foldr insert_by [] l.

Lemma insert_by_perm x l : insert_by x l ≡ₚ x :: l.
Proof. induction l as [|y l IH]; cbn; [done|]. destruct (less x y); [done|]. rewrite IH. apply Permutation_swap. Qed.
Lemma insertion_sort_perm l : insertion_sort l ≡ₚ l.
Proof. induction l as [|x l IH]; cbn; [done|]. by rewrite insert_by_perm, IH. Qed.

Lemma insert_by_sorted x l : weak_order less (x :: l) -> StronglySorted (fun a b => less b a = false) l ->
  StronglySorted (fun a b => less b a = false) (insert_by x l).
Proof.
  intros [Hasym Htr] Hs. induction Hs as [|y l Hs IH Hall]; cbn; [by repeat constructor|].
  assert (Hsub : forall z, z ∈ x :: l -> z ∈ x :: y :: l) by set_solver.
  destruct (less x y) eqn:E.
  - assert (Hyx : less y x = false) by (apply Hasym; [set_solver..|done]).
    repeat constructor; try done. rewrite Forall_forall in Hall |- *. intros z Hz. apply (Htr z y x); [set_solver..| |done].
    by apply Hall.
  - constructor.
    + apply IH; [intros a b ??; apply Hasym|intros a b c ???; apply Htr]; by apply Hsub.
    + rewrite insert_by_perm. by constructor.
Qed.
Lemma insertion_sort_sorted l : weak_order less l -> StronglySorted (fun a b => less b a = false) (insertion_sort l).
Proof.
  induction l as [|x l IH]; cbn; [constructor|]. intros [Hasym Htr]. apply insert_by_sorted.
  - split; [intros a b|intros a b c]; rewrite !elem_of_cons, ?insertion_sort_perm; rewrite <- !elem_of_cons; [apply Hasym|apply Htr].
  - apply IH. split; [intros a b ??; apply Hasym|intros a b c ???; apply Htr]; by right.
Qed.
End insertion.

Definition demo_bus (id : string) (at_ : Z) : Bus Z :=
  {| bus_ID := id; bus_Route := {| route_ID := id; ShortName := id; LongName := id |}; Position := {| Lat := 0%Z; Long := at_ |} |}.
(** Two looks: the bus a comes nearer, b goes away, c appears. *)
Definition demo_fetch (n : nat) : nat * outcome (result error (list (Bus Z))) :=
  (S n, Returns (Ok match n with
     | O => [demo_bus "a" 900; demo_bus "b" 500; demo_bus "d" 800]
     | _ => [demo_bus "a" 700; demo_bus "b" 600; demo_bus "c" 10; demo_bus "d" 300]
     end%Z)).
Definition demo_client : Client Z := {| timer := 10%Z; boxSize := 111000000%Z |}.

Lemma GetNearest_spec_witness : exists found,
  GetNearest demo_fetch (fun _ w => w) (fun less => insertion_sort less) demo_client {| Lat := 0; Long := 0 |}%Z 0 = (2, Returns (Ok found)) /\
  (weak_order (nearer {| Lat := 0; Long := 0 |}%Z) [demo_bus "a" 700; demo_bus "b" 600; demo_bus "c" 10; demo_bus "d" 300]%Z ->
   StronglySorted (fun a b => nearer {| Lat := 0; Long := 0 |}%Z b a = false) found).
Proof.
  destruct (GetNearest_spec demo_fetch (fun _ w => w) (fun less => insertion_sort less) insertion_sort_perm insertion_sort_sorted
    demo_client {| Lat := 0; Long := 0 |}%Z 0 1 2 [demo_bus "a" 900; demo_bus "b" 500; demo_bus "d" 800]%Z
    [demo_bus "a" 700; demo_bus "b" 600; demo_bus "c" 10; demo_bus "d" 300]%Z eq_refl eq_refl) as (found & Hf & _ & _ & _ & Hs).
  exists found. by split.
Defined.

(** The nearest bus that comes nearer is first. *)
Example GetNearest_demo :
  GetNearest demo_fetch (fun _ w => w) (fun less => insertion_sort less) demo_client {| Lat := 0; Long := 0 |}%Z 0 =
  (2, Returns (Ok [demo_bus "d" 300; demo_bus "a" 700]%Z)).
Proof. vm_compute. reflexivity. Qed.
