(* ===== verification/Durations.v ===== *)
(** * Durations and sizes as texts (internal/encodingtooling/duration.go, size.go)

    The first part is [Duration.String] and [ParseDuration] of package time, on the bytes of a
    text. The second part is the wrapper that writes durations to JSON and YAML and reads them
    back, and the wrapper of sizes, whose texts are made by a library. *)
From S2P Require Import Prelude Codes GoErrors Decimal.

(** ** time.Duration.String *)

Section format.
Local Open Scope N_scope.

(** [fmtFrac]: the digits of [v / 10^n] after the point, without zeros at the end, are put
    before [buf]; the rest of the number is returned. *)
Fixpoint fmtFrac (n : nat) (print : bool) (v : N) (buf : string) : string * N :=
  match n with
  | O => ((if print then String "." buf else buf), v)
  | S n =>
      let digit := v mod 10 in
      let print := print || negb (digit =? 0) in
      fmtFrac n print (v / 10) (if print then String (pretty_N_char digit) buf else buf)
  end.
Definition fmtInt (v : N) (buf : string) : string := if decide (v = 0) then String "0" buf else pretty_N_go v buf.

(** The micro sign, two bytes of UTF-8. *)
Definition micros : string := String "194" (String "181" "s").
(** The unit that a duration below a second is written in, and the digits it has after the point. *)
Definition small_unit (u : N) : nat * string :=
  if u <? 1000 then (0%nat, "ns") else if u <? 1000000 then (3%nat, micros) else (6%nat, "ms").
Definition format (u : N) : string :=
  if u <? 1000000000 then
    if u =? 0 then "0s"
    else let '(prec, unit) := small_unit u in
         let '(buf, u) := fmtFrac prec false u unit in
         fmtInt u buf
  else
    let '(buf, u) := fmtFrac 9 false u "s" in
    let buf := fmtInt (u mod 60) buf in
    let u := u / 60 in
    if 0 <? u then
      let buf := fmtInt (u mod 60) (String "m" buf) in
      let u := u / 60 in
      if 0 <? u then fmtInt u (String "h" buf) else buf
    else buf.
(** The least duration is its own negation, whose value as a uint64 is right. *)
Definition Duration_String (d : Z) : string :=
  if (d <? 0)%Z then String "-" (format (Z.to_N (- d))) else format (Z.to_N d).
End format.

(** ** time.ParseDuration *)

Section parse.
Local Open Scope N_scope.
(** [uint64(float64(f) * (float64(unit) / scale))]. *)
Context (fraction : N -> N -> N -> N).

Definition is_digit (c : ascii) : bool := (48 <=? N_of_ascii c) && (N_of_ascii c <=? 57).
Definition is_dot (c : ascii) : bool := bool_decide (c = "."%char).
Definition digit_value (c : ascii) : N := N_of_ascii c - 48.

(** [leadingInt]: [None] is its error, an overflow. *)
Fixpoint leadingInt (x : N) (s : string) : option (N * string) :=
  match s with
  | "" => Some (x, s)
  | String c s' =>
      if is_digit c then
        if 2 ^ 63 / 10 <? x then None
        else let x := x * 10 + digit_value c in if 2 ^ 63 <? x then None else leadingInt x s'
      else Some (x, s)
  end.
(** [leadingFraction]: digits that are too many are skipped. *)
Fixpoint leadingFraction (x scale : N) (overflow : bool) (s : string) : N * N * string :=
  match s with
  | "" => (x, scale, s)
  | String c s' =>
      if is_digit c then
        if overflow then leadingFraction x scale true s'
        else if (2 ^ 63 - 1) / 10 <? x then leadingFraction x scale true s'
        else let y := x * 10 + digit_value c in
             if 2 ^ 63 <? y then leadingFraction x scale true s' else leadingFraction y (scale * 10) false s'
      else (x, scale, s)
  end.
Fixpoint take_unit (s : string) : string * string :=
  match s with
  | "" => ("", "")
  | String c s' => if is_dot c || is_digit c then ("", s) else let '(u, rest) := take_unit s' in (String c u, rest)
  end.
Definition unitMap (u : string) : option N :=
  if decide (u = "ns") then Some 1
  else if decide (u = "us" \/ u = micros \/ u = String "206" (String "188" "s")) then Some 1000
  else if decide (u = "ms") then Some 1000000
  else if decide (u = "s") then Some 1000000000
  else if decide (u = "m") then Some 60000000000
  else if decide (u = "h") then Some 3600000000000
  else None.

Definition hex_digit (n : N) : ascii := ascii_of_N (if n <? 10 then 48 + n else 87 + n).
(** [quote] of package time. *)
Fixpoint quote_bytes (s : string) : string :=
  match s with
  | "" => ""
  | String c s' =>
      let n := N_of_ascii c in
      (if (128 <=? n) || (n <? 32) then String "\" (String "x" (String (hex_digit (n / 16)) (String (hex_digit (n mod 16)) "")))
       else if (n =? 34) || (n =? 92) then String "\" (String c "") else String c "") +:+ quote_bytes s'
  end.
Definition quote (s : string) : string := String dquote (quote_bytes s +:+ String dquote "").

Definition invalid (orig : string) : error := Leaf (LText ("time: invalid duration " +:+ quote orig)).
Definition missing_unit (orig : string) : error := Leaf (LText ("time: missing unit in duration " +:+ quote orig)).
Definition unknown_unit (u orig : string) : error :=
  Leaf (LText ("time: unknown unit " +:+ quote u +:+ " in duration " +:+ quote orig)).

(** One number with its fraction: the values, whether there were digits, and the rest. *)
Definition read_number (s : string) : option (N * N * N * bool * string) :=
  '(v, s1) ← leadingInt 0 s;
  let pre := negb (String.length s1 =? String.length s)%nat in
  Some match s1 with
       | String "." s1 => let '(f, scale, s2) := leadingFraction 0 1 false s1 in
                          (v, f, scale, pre || negb (String.length s2 =? String.length s1)%nat, s2)
       | _ => (v, 0, 1, pre, s1)
       end.
(** The sums are uint64. *)
Fixpoint parse_loop (fuel : nat) (orig s : string) (d : N) : option (result error N) :=
  match s, fuel with
  | "", _ => Some (Ok d)
  | _, O => None
  | String c _, S fuel =>
      if negb (is_dot c || is_digit c) then Some (Err (invalid orig))
      else match read_number s with
           | None => Some (Err (invalid orig))
           | Some (v, f, scale, some_digits, s) =>
               if negb some_digits then Some (Err (invalid orig))
               else let '(u, s) := take_unit s in
                    if decide (u = "") then Some (Err (missing_unit orig))
                    else match unitMap u with
                         | None => Some (Err (unknown_unit u orig))
                         | Some unit =>
                             if 2 ^ 63 / unit <? v then Some (Err (invalid orig))
                             else let v := v * unit in
                                  let v := if 0 <? f then (v + fraction f unit scale) mod 2 ^ 64 else v in
                                  if (0 <? f) && (2 ^ 63 <? v) then Some (Err (invalid orig))
                                  else let d := (d + v) mod 2 ^ 64 in
                                       if 2 ^ 63 <? d then Some (Err (invalid orig)) else parse_loop fuel orig s d
                         end
           end
  end.
(** The sign, and the text after it. *)
Definition take_sign (s : string) : bool * string :=
  match s with String "-" s' => (true, s') | String "+" s' => (false, s') | _ => (false, s) end.
Definition ParseDuration (s : string) : result error Z :=
  let orig := s in
  let '(neg, s) := take_sign s in
  if decide (s = "0") then Ok 0%Z
  else if decide (s = "") then Err (invalid orig)
  else match parse_loop (String.length s) orig s 0 with
       | None => Err (invalid orig)
       | Some (Err e) => Err e
       | Some (Ok d) => if neg then Ok (wraps 64 (- wraps 64 (Z.of_N d)))
                        else if 2 ^ 63 - 1 <? d then Err (invalid orig) else Ok (Z.of_N d)
       end.
End parse.

(** ** Printing is undone by parsing *)

Section digits.
Local Open Scope N_scope.

Lemma digits_step acc c s : digits acc (String c s) = if is_digit c then digits (acc * 10 + digit_value c) s else None.
Proof. cbn [digits]. unfold is_digit, digit_value. case_decide; destruct (N.leb_spec 48 (N_of_ascii c)), (N.leb_spec (N_of_ascii c) 57); cbn; (done || lia). Qed.

Lemma digits_ge s acc n : digits acc s = Some n -> acc <= n.
Proof.
  revert acc. induction s as [|c s IH]; intros acc; [by intros [= ->]|]. rewrite digits_step. destruct (is_digit c); [|done].
  intros H%IH. lia.
Qed.

Lemma digits_acc s acc n : digits 0 s = Some n -> digits acc s = Some (acc * 10 ^ N.of_nat (String.length s) + n).
Proof.
  enough (H : forall a b m, digits a s = Some m -> digits (b + a) s = Some (b * 10 ^ N.of_nat (String.length s) + m)).
  { intros H0. apply (H 0 acc) in H0. by rewrite N.add_0_r in H0. }
  induction s as [|c s IH]; intros a b m.
  - cbn. intros [= ->]. f_equal. lia.
  - rewrite !digits_step. destruct (is_digit c); [|done]. intros Hd. rewrite N.mul_add_distr_r, <- N.add_assoc, (IH _ _ _ Hd).
    cbn [String.length]. rewrite Nat2N.inj_succ, N.pow_succ_r'. f_equal. lia.
Qed.

(** The rest of a text that no number goes on into. *)
Definition stops (s : string) : Prop := match s with "" => True | String c _ => is_digit c = false end.

Lemma leadingInt_digits s x n rest : digits x s = Some n -> n <= 2 ^ 63 -> stops rest -> leadingInt x (s +:+ rest) = Some (n, rest).
Proof.
  intros Hd Hn Hr. revert x Hd. induction s as [|c s IH]; intros x.
  - intros [= ->]. change ("" +:+ rest) with rest. destruct rest as [|c rest]; [done|]. cbn in Hr |- *. by rewrite Hr.
  - change (String c s +:+ rest) with (String c (s +:+ rest)). rewrite digits_step. cbn [leadingInt].
    destruct (is_digit c); [|done]. intros Hd. pose proof (digits_ge _ _ _ Hd) as Hge.
    destruct (N.ltb_spec (2 ^ 63 / 10) x) as [Hx|_]; [change (2 ^ 63 / 10) with 922337203685477580 in Hx; change (2 ^ 63) with 9223372036854775808 in Hn; lia|].
    destruct (N.ltb_spec (2 ^ 63) (x * 10 + digit_value c)) as [|_]; [lia|]. by apply IH.
Qed.

Lemma leadingFraction_digits s x scale n rest : digits x s = Some n -> n <= (2 ^ 63 - 1) / 10 -> stops rest ->
  leadingFraction x scale false (s +:+ rest) = (n, scale * 10 ^ N.of_nat (String.length s), rest).
Proof.
  intros Hd Hn Hr. revert x scale Hd. induction s as [|c s IH]; intros x scale.
  - intros [= ->]. change ("" +:+ rest) with rest. replace (scale * _) with scale by (cbn; lia).
    destruct rest as [|c rest]; [done|]. cbn in Hr |- *. by rewrite Hr.
  - change (String c s +:+ rest) with (String c (s +:+ rest)). rewrite digits_step. cbn [leadingFraction String.length].
    destruct (is_digit c); [|done]. intros Hd. pose proof (digits_ge _ _ _ Hd) as Hge.
    destruct (N.ltb_spec ((2 ^ 63 - 1) / 10) x) as [|_]; [lia|].
    destruct (N.ltb_spec (2 ^ 63) (x * 10 + digit_value c)) as [Hx|_];
      [change ((2 ^ 63 - 1) / 10) with 922337203685477580 in Hn; change (2 ^ 63) with 9223372036854775808 in Hx; lia|].
    rewrite (IH _ _ Hd), Nat2N.inj_succ, N.pow_succ_r'. f_equal. f_equal. lia.
Qed.

Lemma pretty_N_go_app v s : pretty_N_go v s = pretty_N_go v "" +:+ s.
Proof.
  enough (H : forall t, pretty_N_go v (t +:+ s) = pretty_N_go v t +:+ s) by apply (H "").
  induction (N.lt_wf_0 v) as [v _ IH]. intros t. destruct (decide (0 < v)) as [Hv|Hv].
  - rewrite !(pretty_N_go_step v) by done. rewrite <- IH by (apply N.div_lt; lia). done.
  - assert (v = 0) as -> by lia. by rewrite !pretty_N_go_0.
Qed.

Lemma fmtInt_pretty v buf : fmtInt v buf = pretty v +:+ buf.
Proof. unfold fmtInt, pretty, pretty_N. case_decide; [done|]. apply pretty_N_go_app. Qed.

(** The text of a fraction: nothing, or a point with [k] digits whose value is [f]. *)
Inductive fraction_text : string -> N -> nat -> Prop :=
| no_fraction : fraction_text "" 0 0
| some_fraction s f : s <> "" -> digits 0 s = Some f -> fraction_text (String "." s) f (String.length s).

Lemma div_mod_digit n v : v / 10 / 10 ^ N.of_nat n = v / 10 ^ N.of_nat (S n) /\
  v mod 10 ^ N.of_nat (S n) = ((v / 10) mod 10 ^ N.of_nat n) * 10 + v mod 10.
Proof.
  rewrite Nat2N.inj_succ, N.pow_succ_r'. assert (H10 : 10 ^ N.of_nat n <> 0) by (apply N.pow_nonzero; lia). split.
  - by rewrite N.Div0.div_div.
  - rewrite N.Div0.mod_mul_r. lia.
Qed.

Lemma digits_prefix d s f : d < 10 -> digits 0 s = Some f ->
  digits 0 (String (pretty_N_char d) s) = Some (d * 10 ^ N.of_nat (String.length s) + f).
Proof. intros Hd Hs. rewrite digits_cons by done. by apply digits_acc. Qed.

Lemma fmtFrac_printing n v s f rest : digits 0 s = Some f ->
  exists s', fmtFrac n true v (s +:+ rest) = (String "." s' +:+ rest, v / 10 ^ N.of_nat n) /\
    String.length s' = (n + String.length s)%nat /\
    digits 0 s' = Some ((v mod 10 ^ N.of_nat n) * 10 ^ N.of_nat (String.length s) + f).
Proof.
  revert v s f. induction n as [|n IH]; intros v s f Hs; cbn [fmtFrac].
  - exists s. replace (v / 10 ^ N.of_nat 0) with v by (cbn; by rewrite N.div_1_r). cbn [N.of_nat]. by rewrite N.mod_1_r.
  - cbn [orb]. set (d := v mod 10). assert (Hd : d < 10) by (apply N.mod_lt; lia).
    destruct (IH (v / 10) (String (pretty_N_char d) s) _ (digits_prefix d s f Hd Hs)) as (s' & E & Hl & Hv).
    exists s'. destruct (div_mod_digit n v) as [Hdiv Hmod]. rewrite Hdiv in E. split; [exact E|]. split; [rewrite Hl; cbn; lia|].
    rewrite Hv, Hmod. cbn [String.length]. rewrite Nat2N.inj_succ, N.pow_succ_r'. fold d. f_equal. lia.
Qed.

Lemma fmtFrac_spec n v rest : exists t f k, fmtFrac n false v rest = (t +:+ rest, v / 10 ^ N.of_nat n) /\
  fraction_text t f k /\ (k <= n)%nat /\ f * 10 ^ N.of_nat (n - k) = v mod 10 ^ N.of_nat n.
Proof.
  revert v. induction n as [|n IH]; intros v; cbn [fmtFrac orb].
  - exists "", 0, 0%nat. replace (v / 10 ^ N.of_nat 0) with v by (cbn; by rewrite N.div_1_r). cbn [N.of_nat Nat.sub].
    rewrite N.mod_1_r. split_and!; [done|constructor|lia|done].
  - destruct (div_mod_digit n v) as [Hdiv Hmod]. rewrite <- Hdiv. destruct (N.eqb_spec (v mod 10) 0) as [Hz|Hz]; cbn [negb].
    + destruct (IH (v / 10)) as (t & f & k & E & Ht & Hk & Hv). exists t, f, k. split_and!; [exact E|exact Ht|lia|].
      rewrite Hmod, Hz, <- Hv. replace (S n - k)%nat with (S (n - k)) by lia. rewrite Nat2N.inj_succ, N.pow_succ_r'. lia.
    + assert (Hd : v mod 10 < 10) by (apply N.mod_lt; lia).
      destruct (fmtFrac_printing n (v / 10) _ _ rest (digits_prefix (v mod 10) "" 0 Hd eq_refl)) as (s' & E & Hl & Hv).
      exists (String "." s'), (v mod 10 ^ N.of_nat (S n)), (String.length s'). cbn [String.length] in Hl. split_and!.
      * exact E.
      * constructor; [intros ->; cbn in Hl; lia|]. rewrite Hv, Hmod. cbn. f_equal. lia.
      * lia.
      * replace (S n - String.length s')%nat with 0%nat by lia. cbn. lia.
Qed.
Lemma digits_lt s f : digits 0 s = Some f -> f < 10 ^ N.of_nat (String.length s).
Proof.
  revert f. induction s as [|c s IH]; intros f; [by intros [= <-]|]. rewrite digits_step. destruct (is_digit c) eqn:Ec; [|done].
  assert (Hc : digit_value c < 10). { unfold is_digit, digit_value in *. apply andb_true_iff in Ec as [?%N.leb_le ?%N.leb_le]. lia. }
  intros Hd. destruct (digits 0 s) as [g|] eqn:Eg.
  - rewrite (digits_acc _ _ _ Eg) in Hd. injection Hd as <-. specialize (IH g eq_refl). cbn [String.length].
    rewrite Nat2N.inj_succ, N.pow_succ_r'. nia.
  - exfalso. clear -Hd Eg. revert Hd Eg. generalize 0 at 2 as b. generalize (0 * 10 + digit_value c) as a.
    induction s as [|x s IH]; intros a b; [done|]. rewrite !digits_step. destruct (is_digit x); [|done]. apply IH.
Qed.

(** A text that a unit may be followed by, and what a unit begins with. *)
Definition ends (s : string) : Prop := match s with "" => True | String c _ => is_digit c = true end.
Definition begins_unit (s : string) : Prop := match s with "" => False | String c _ => is_digit c = false /\ is_dot c = false end.

Lemma pretty_ends (n : N) s : ends (pretty n +:+ s).
Proof.
  pose proof (pretty_nonempty n). pose proof (digits_pretty n) as Hd. destruct (pretty n) as [|c t]; [done|].
  rewrite digits_step in Hd. change (is_digit c = true). by destruct (is_digit c).
Qed.

Lemma read_number_spec n t f k s : fraction_text t f k -> n <= 2 ^ 63 -> f <= (2 ^ 63 - 1) / 10 -> begins_unit s ->
  read_number (pretty n +:+ t +:+ s) = Some (n, f, 10 ^ N.of_nat k, true, s).
Proof.
  intros Ht Hn Hf Hs. assert (Hstop : stops s) by (destruct s; [done|apply Hs]).
  assert (Hlen : String.length (t +:+ s) <> String.length (pretty n +:+ t +:+ s)).
  { rewrite (string_length_app (pretty n)). pose proof (pretty_nonempty n). destruct (pretty n); cbn; [done|lia]. }
  unfold read_number. destruct Ht as [|x f Hx Hd].
  - change ("" +:+ s) with s in *. rewrite (leadingInt_digits _ 0 n) by (done || apply digits_pretty). cbn [mbind option_bind].
    destruct s as [|c s]; [done|]. destruct Hs as [_ Hdot]. rewrite (proj2 (Nat.eqb_neq _ _) Hlen).
    unfold is_dot in Hdot. apply bool_decide_eq_false in Hdot. repeat f_equal.
    destruct c as [[] [] [] [] [] [] [] []]; done.
  - rewrite (leadingInt_digits _ 0 n) by (done || apply digits_pretty). cbn [mbind option_bind].
    change (String "." x +:+ s) with (String "." (x +:+ s)) in *. rewrite (proj2 (Nat.eqb_neq _ _) Hlen).
    rewrite (leadingFraction_digits x 0 1 f s) by done. by rewrite N.mul_1_l.
Qed.
End digits.

Section roundtrip.
Local Open Scope N_scope.
Context (fraction : N -> N -> N -> N).
(** The floating point numbers are exact where the result is an integer. *)
Hypothesis fraction_law : forall f unit scale, unit <= 3600000000000 -> (scale | unit) -> f < scale ->
  fraction f unit scale = f * (unit / scale).

Lemma take_unit_spec u unit rest : unitMap u = Some unit -> ends rest -> take_unit (u +:+ rest) = (u, rest) /\ u <> "" /\
  begins_unit (u +:+ rest) /\ 0 < unit <= 3600000000000.
Proof.
  intros Hu Hr. assert (H0 : take_unit rest = ("", rest)) by (destruct rest as [|c rest]; [done|cbn in Hr |- *; by rewrite Hr, orb_true_r]).
  unfold unitMap in Hu.
  repeat case_decide; destruct_or?; simplify_eq; lazy beta iota delta [String.append micros]; cbn -[ends]; rewrite ?H0;
    by split_and!.
Qed.

Lemma parse_component fuel orig n t f k u unit rest d : fraction_text t f k -> unitMap u = Some unit -> (10 ^ N.of_nat k | unit) ->
  ends rest -> d + (n * unit + f * (unit / 10 ^ N.of_nat k)) <= 2 ^ 63 ->
  (String.length (pretty n +:+ t +:+ u +:+ rest) <= fuel)%nat ->
  exists fuel', (String.length rest <= fuel')%nat /\
    parse_loop fraction fuel orig (pretty n +:+ t +:+ u +:+ rest) d =
    parse_loop fraction fuel' orig rest (d + (n * unit + f * (unit / 10 ^ N.of_nat k))).
Proof.
  intros Ht Hu Hk Hr Hsum Hfuel. destruct (take_unit_spec u unit rest Hu Hr) as (Htake & Hu0 & Hbu & Hunit).
  assert (Hf : f < 10 ^ N.of_nat k) by (destruct Ht; [done|by apply digits_lt]).
  assert (Hk' : 10 ^ N.of_nat k <= unit) by (apply N.divide_pos_le; [lia|done]).
  set (q := unit / 10 ^ N.of_nat k) in *. assert (Hnu : n * unit <= 2 ^ 63) by (pose proof (N.le_0_l (f * q)); lia).
  assert (Hn : n <= 2 ^ 63 / unit) by (apply N.div_le_lower_bound; lia).
  assert (Hn' : n <= 2 ^ 63) by nia.
  assert (Hread := read_number_spec n t f k (u +:+ rest) Ht Hn' ltac:(change ((2 ^ 63 - 1) / 10) with 922337203685477580; lia) Hbu).
  pose proof (pretty_ends n (t +:+ u +:+ rest)) as Hhead. rewrite !string_length_app in Hfuel.
  pose proof (pretty_nonempty n) as Hne.
  destruct (pretty n +:+ t +:+ u +:+ rest) as [|c s] eqn:Etext; [by destruct (pretty n)|]. cbn in Hhead.
  destruct fuel as [|fuel]; [destruct (pretty n); [done|cbn in Hfuel; lia]|].
  exists fuel. split; [destruct u; [done|cbn in Hfuel; lia]|].
  cbn [parse_loop]. rewrite Hhead, orb_true_r, Hread. cbn [negb]. rewrite Htake, decide_False by done. rewrite Hu.
  destruct (N.ltb_spec (2 ^ 63 / unit) n) as [|_]; [lia|].
  assert (Hsmall : forall x, x <= 2 ^ 63 -> x mod 2 ^ 64 = x) by (intros x Hx; apply N.mod_small; change (2 ^ 64) with (2 * 2 ^ 63); lia).
  destruct (N.ltb_spec 0 f) as [Hf0|Hf0].
  - rewrite fraction_law by (done || lia). fold q. rewrite (Hsmall (_ + f * _)) by lia.
    destruct (N.ltb_spec (2 ^ 63) (n * unit + f * q)) as [|_]; [lia|]. cbn [andb].
    rewrite Hsmall by lia. by destruct (N.ltb_spec (2 ^ 63) (d + (n * unit + f * q))) as [|_]; [lia|].
  - assert (f = 0) as -> by lia. rewrite N.mul_0_l, N.add_0_r in *. cbn [andb]. rewrite Hsmall by lia.
    by destruct (N.ltb_spec (2 ^ 63) (d + n * unit)) as [|_]; [lia|].
Qed.
(** A number whose fraction has been printed with [n] digits at most. *)
Lemma fmtFrac_value n v rest t f k : fmtFrac n false v rest = (t +:+ rest, v / 10 ^ N.of_nat n) -> (k <= n)%nat ->
  f * 10 ^ N.of_nat (n - k) = v mod 10 ^ N.of_nat n ->
  (10 ^ N.of_nat k | 10 ^ N.of_nat n) /\ f * (10 ^ N.of_nat n / 10 ^ N.of_nat k) = v mod 10 ^ N.of_nat n.
Proof.
  intros _ Hk Hv. assert (E : 10 ^ N.of_nat n = 10 ^ N.of_nat (n - k) * 10 ^ N.of_nat k) by (rewrite <- N.pow_add_r; f_equal; lia).
  split; [by exists (10 ^ N.of_nat (n - k))|]. rewrite <- Hv, E. f_equal. apply N.div_mul, N.pow_nonzero. lia.
Qed.

Lemma parse_number fuel orig n u unit rest d : unitMap u = Some unit -> ends rest -> d + n * unit <= 2 ^ 63 ->
  (String.length (fmtInt n (u +:+ rest)) <= fuel)%nat ->
  exists fuel', (String.length rest <= fuel')%nat /\
    parse_loop fraction fuel orig (fmtInt n (u +:+ rest)) d = parse_loop fraction fuel' orig rest (d + n * unit).
Proof.
  intros Hu Hr Hsum Hfuel. rewrite fmtInt_pretty in *.
  destruct (parse_component fuel orig n "" 0 0 u unit rest d no_fraction Hu (N.divide_1_l _) Hr) as (fuel' & Hl & E);
    [lia|done|]. exists fuel'. split; [done|]. rewrite N.mul_0_l, N.add_0_r in E. exact E.
Qed.

(** The part below a minute or below a second. *)
Lemma parse_with_fraction fuel orig prec v m u unit d : unitMap u = Some unit -> unit = 10 ^ N.of_nat prec ->
  let '(buf, q) := fmtFrac prec false v u in
  d + (m * unit + v mod unit) <= 2 ^ 63 -> (String.length (fmtInt m buf) <= fuel)%nat ->
  exists fuel', parse_loop fraction fuel orig (fmtInt m buf) d = parse_loop fraction fuel' orig "" (d + (m * unit + v mod unit)) /\
    q = v / unit.
Proof.
  intros Hu Hunit. destruct (fmtFrac_spec prec v u) as (t & f & k & E & Ht & Hk & Hv). rewrite E. cbn zeta. intros Hsum Hfuel.
  destruct (fmtFrac_value prec v u t f k E Hk Hv) as [Hdiv Hval]. rewrite <- Hunit in *. rewrite fmtInt_pretty in *.
  rewrite <- (string_app_nil_r u) in Hfuel |- *.
  destruct (parse_component fuel orig m t f k u unit "" d Ht Hu Hdiv I) as (fuel' & _ & E'); [by rewrite Hval|done|].
  exists fuel'. rewrite Hval in E'. by split.
Qed.

Lemma parse_loop_nil fuel orig d : parse_loop fraction fuel orig "" d = Some (Ok d).
Proof. by destruct fuel. Qed.

Lemma fmtInt_ends n s : ends (fmtInt n s).
Proof. rewrite fmtInt_pretty. apply pretty_ends. Qed.

Lemma split_by k v : k <> 0 -> v = v / k * k + v mod k.
Proof. intros. rewrite N.mul_comm. apply N.Div0.div_mod. Qed.

Lemma parse_format_small orig u fuel : 0 < u -> u < 1000000000 -> (String.length (format u) <= fuel)%nat ->
  parse_loop fraction fuel orig (format u) 0 = Some (Ok u).
Proof.
  intros Hu0 Hu. unfold format. rewrite (proj2 (N.ltb_lt _ _) Hu). destruct (N.eqb_spec u 0) as [->|_]; [done|].
  destruct (small_unit u) as [prec unit] eqn:Eu.
  assert (Hunit : unitMap unit = Some (10 ^ N.of_nat prec)) by (unfold small_unit in Eu; repeat case_match; simplify_eq; reflexivity).
  pose proof (fun fuel m => parse_with_fraction fuel orig prec u m unit _ 0 Hunit eq_refl) as Hp.
  destruct (fmtFrac prec false u unit) as [buf q] eqn:Ef. intros Hfuel.
  assert (q = u / 10 ^ N.of_nat prec) as ->. { destruct (fmtFrac_spec prec u unit) as (? & ? & ? & E & _). congruence. }
  assert (Hsum := split_by (10 ^ N.of_nat prec) u ltac:(apply N.pow_nonzero; lia)).
  destruct (Hp fuel (u / 10 ^ N.of_nat prec)) as (fuel' & -> & _); [|done|].
  - rewrite <- Hsum. change (2 ^ 63) with 9223372036854775808. lia.
  - by rewrite <- Hsum, parse_loop_nil.
Qed.

Lemma parse_format_large orig u fuel : 1000000000 <= u -> u <= 2 ^ 63 -> (String.length (format u) <= fuel)%nat ->
  parse_loop fraction fuel orig (format u) 0 = Some (Ok u).
Proof.
  intros Hu Hmax. unfold format. destruct (N.ltb_spec u 1000000000) as [|_]; [lia|].
  pose proof (fun fuel m d => parse_with_fraction fuel orig 9 u m "s" 1000000000 d eq_refl eq_refl) as Hp.
  destruct (fmtFrac 9 false u "s") as [buf q] eqn:Ef.
  assert (q = u / 1000000000) as ->. { destruct (fmtFrac_spec 9 u "s") as (? & ? & ? & E & _). rewrite E in Ef. by injection Ef as _ <-. }
  pose proof (split_by 1000000000 u ltac:(done)) as E1. set (q := u / 1000000000) in *. set (r := u mod 1000000000) in *.
  pose proof (split_by 60 q ltac:(done)) as E2. set (mins := q / 60) in *. set (secs := q mod 60) in *.
  pose proof (split_by 60 mins ltac:(done)) as E3. set (hours := mins / 60) in *. set (mm := mins mod 60) in *. clearbody q r mins secs hours mm.
  change (2 ^ 63) with 9223372036854775808 in *. cbn zeta.
  assert (Hsec : forall fuel d, d + (secs * 1000000000 + r) = u -> (String.length (fmtInt secs buf) <= fuel)%nat ->
    parse_loop fraction fuel orig (fmtInt secs buf) d = Some (Ok u)).
  { intros fl d Hd Hfl. destruct (Hp fl secs d) as (fl' & -> & _); [lia|done|]. by rewrite Hd, parse_loop_nil. }
  assert (Hmin : forall fuel d, d + (mm * 60000000000 + (secs * 1000000000 + r)) = u ->
    (String.length (fmtInt mm ("m" +:+ fmtInt secs buf)) <= fuel)%nat ->
    parse_loop fraction fuel orig (fmtInt mm ("m" +:+ fmtInt secs buf)) d = Some (Ok u)).
  { intros fl d Hd Hfl. destruct (parse_number fl orig mm "m" 60000000000 (fmtInt secs buf) d eq_refl (fmtInt_ends _ _)) as (fl' & Hfl' & ->);
      [lia|done|]. apply Hsec; [lia|done]. }
  destruct (N.ltb_spec 0 mins) as [Hm|Hm]; [|intros Hfuel; apply Hsec; [lia|done]].
  destruct (N.ltb_spec 0 hours) as [Hh|Hh]; [|intros Hfuel; apply Hmin; [lia|done]].
  intros Hfuel.
  destruct (parse_number fuel orig hours "h" 3600000000000 (fmtInt mm ("m" +:+ fmtInt secs buf)) 0 eq_refl (fmtInt_ends _ _)) as (fl' & Hfl' & E);
    [lia|exact Hfuel|]. change (String "h" ?x) with ("h" +:+ x). change (String "m" ?x) with ("m" +:+ x). rewrite E. apply Hmin; [lia|done].
Qed.

Lemma format_head u : exists c s, format u = String c s /\ is_digit c = true.
Proof.
  assert (H : ends (format u) /\ format u <> ""); [|destruct (format u) as [|c s]; [by destruct H|exists c, s; by destruct H]].
  assert (Hf : forall n s, ends (fmtInt n s) /\ fmtInt n s <> "").
  { intros n s. split; [apply fmtInt_ends|]. rewrite fmtInt_pretty. pose proof (pretty_nonempty n). by destruct (pretty n). }
  unfold format. repeat case_match; auto; done.
Qed.

Lemma parse_format orig u : u <= 2 ^ 63 -> u <> 0 ->
  format u <> "0" /\ format u <> "" /\ parse_loop fraction (String.length (format u)) orig (format u) 0 = Some (Ok u).
Proof.
  intros Hu Hu0. assert (H : forall fuel, (String.length (format u) <= fuel)%nat -> parse_loop fraction fuel orig (format u) 0 = Some (Ok u)).
  { intros fuel Hf. destruct (decide (u < 1000000000)); [apply parse_format_small|apply parse_format_large]; (done || lia). }
  split_and!; [| |by apply H].
  - intros E. specialize (H 1%nat). rewrite E in H. by specialize (H (le_n 1)).
  - destruct (format_head u) as (c & s & -> & _). done.
Qed.

Lemma take_sign_format u : take_sign (format u) = (false, format u).
Proof.
  destruct (format_head u) as (c & s & -> & Hc). unfold is_digit in Hc. apply andb_true_iff in Hc as [H1%N.leb_le H2%N.leb_le].
  destruct c as [[] [] [] [] [] [] [] []]; cbn in H1, H2; (reflexivity || lia).
Qed.

(** Any duration of 64 bits is read back from its text. *)
Lemma ParseDuration_String d : is_int64 d -> ParseDuration fraction (Duration_String d) = Ok d.
Proof.
  unfold is_int64, min_int64, max_int64. intros Hd. unfold ParseDuration, Duration_String. destruct (Z.ltb_spec d 0) as [Hneg|Hpos].
  - cbn [take_sign]. set (u := Z.to_N (- d)).
    destruct (parse_format (String "-" (format u)) u) as (Hn0 & Hne & ->); [unfold u; lia..|].
    rewrite decide_False, decide_False by done. f_equal. subst u. rewrite Z2N.id by lia. unfold wraps. destruct (decide (d = - 2 ^ 63)%Z) as [->|Hmin]; [reflexivity|].
    rewrite (Z.mod_small (- d)) by lia. destruct (Z.ltb_spec (- d) (2 ^ (64 - 1))) as [_|]; [|lia].
    rewrite Z.opp_involutive. rewrite <- (Z.mod_add d 1 (2 ^ 64)) by lia. rewrite Z.mod_small by lia.
    destruct (Z.ltb_spec (d + 1 * 2 ^ 64) (2 ^ (64 - 1))); lia.
  - rewrite take_sign_format. destruct (decide (d = 0%Z)) as [->|Hd0]; [reflexivity|].
    destruct (parse_format (format (Z.to_N d)) (Z.to_N d)) as (Hn0 & Hne & ->); [lia..|].
    rewrite decide_False, decide_False by done. destruct (N.ltb_spec (2 ^ 63 - 1) (Z.to_N d)); [lia|]. by rewrite Z2N.id by lia.
Qed.
End roundtrip.

(** The loop never runs out of its fuel, the length of the text. *)
Section fuel.
Context (fraction : N -> N -> N -> N).

Lemma leadingInt_shorter s x n rest : leadingInt x s = Some (n, rest) -> String.length rest <= String.length s.
Proof.
  revert x. induction s as [|c s IH]; intros x; cbn [leadingInt]; [by intros [= _ <-]|].
  repeat case_match; try done; [|by intros [= _ <-]]. intros H'%IH. cbn. lia.
Qed.
Lemma leadingFraction_shorter s x scale o n k rest : leadingFraction x scale o s = (n, k, rest) -> String.length rest <= String.length s.
Proof.
  revert x scale o. induction s as [|c s IH]; intros x scale o; cbn [leadingFraction]; [by intros [= _ _ <-]|].
  repeat case_match; try (intros H'%IH; cbn; lia). intros [= _ _ <-]. done.
Qed.
Lemma take_unit_length s u rest : take_unit s = (u, rest) -> String.length s = String.length u + String.length rest.
Proof.
  revert u rest. induction s as [|c s IH]; intros u rest; cbn [take_unit]; [by intros [= <- <-]|]. case_match; [by intros [= <- <-]|].
  destruct (take_unit s) as [u' rest'] eqn:E. intros [= <- <-]. cbn. by rewrite (IH _ _ eq_refl).
Qed.
Lemma read_number_shorter s v f k b rest : read_number s = Some (v, f, k, b, rest) -> String.length rest <= String.length s.
Proof.
  unfold read_number. intros ([n s1] & E%leadingInt_shorter & Hs)%bind_Some. injection Hs as Hs.
  destruct s1 as [|c s1]; [by injection Hs as _ _ _ _ <-|].
  destruct (decide (c = "."%char)) as [->|Hc].
  - destruct (leadingFraction 0 1 false s1) as [[f' k'] s2] eqn:Ef. apply leadingFraction_shorter in Ef.
    injection Hs as _ _ _ _ <-. cbn in E. lia.
  - assert (Hr : (n, 0%N, 1%N, negb (String.length (String c s1) =? String.length s), String c s1) = (v, f, k, b, rest))
      by (rewrite <- Hs; by destruct c as [[] [] [] [] [] [] [] []]). by injection Hr as _ _ _ _ <-.
Qed.

Lemma parse_loop_total fuel orig s d : String.length s <= fuel -> parse_loop fraction fuel orig s d <> None.
Proof.
  revert s d. induction fuel as [|fuel IH]; intros [|c s] d Hf; cbn [parse_loop]; try done; [cbn in Hf; lia|].
  case_match; [done|]. destruct (read_number (String c s)) as [[[[[v f] k] b] rest]|] eqn:E; [|done]. apply read_number_shorter in E.
  case_match; [done|]. destruct (take_unit rest) as [u rest'] eqn:Eu. apply take_unit_length in Eu. case_decide as Hu; [done|].
  assert (Hrest : String.length rest' <= fuel) by (destruct u; [done|cbn in *; lia]).
  repeat (case_match; try done); by apply IH.
Qed.
End fuel.

(** ** The wrappers *)

Section wrappers.
Context (fraction : N -> N -> N -> N).
(** [json.Unmarshal] of a text into a string; [units.BytesSize] and [units.RAMInBytes] of
    docker/go-units. *)
Context (json_string : string -> result error string) (BytesSize : Z -> string) (RAMInBytes : string -> result error Z).

Definition quoted (s : string) : string := String dquote (s +:+ String dquote "").
(** A decoder fills the receiver only when it is done. *)
Definition assign {A} (old : A) (r : result error A) : A * option error :=
  match r with Ok v => (v, None) | Err e => (old, Some e) end.

(* go: internal/encodingtooling/duration.go | type Duration struct *)
Record Duration := MkDuration { d_Duration : Z }.
(* go: internal/encodingtooling/duration.go | func NewDuration( *)
Definition NewDuration (dur : Z) : Duration := MkDuration dur.
(* go: internal/encodingtooling/duration.go | func (d Duration) String() *)
Definition String_ (d : Duration) : string := Duration_String (d_Duration d).
(* go: internal/encodingtooling/duration.go | func (d Duration) MarshalYAML() *)
Definition MarshalYAML (d : Duration) : result error string := Ok (String_ d).
(* go: internal/encodingtooling/duration.go | func (d Duration) MarshalJSON() *)
Definition MarshalJSON (d : Duration) : result error string := Ok (quoted (String_ d)).
(** [unmarshal] decodes the node into a string. *)
(* go: internal/encodingtooling/duration.go | func (d *Duration) UnmarshalYAML( *)
Definition UnmarshalYAML (unmarshal : result error string) (d : Duration) : Duration * option error :=
  assign d (s ← unmarshal; v ← ParseDuration fraction s; Ok (MkDuration v)).
(* go: internal/encodingtooling/duration.go | func (d *Duration) UnmarshalJSON( *)
Definition UnmarshalJSON (data : string) (d : Duration) : Duration * option error :=
  assign d (s ← json_string data; v ← ParseDuration fraction s; Ok (MkDuration v)).

(* go: internal/encodingtooling/size.go | type Size struct *)
Record Size := MkSize { s_Size : Z }.
(* go: internal/encodingtooling/size.go | func NewSize( *)
Definition NewSize (size : Z) : Size := MkSize size.
(* go: internal/encodingtooling/size.go | func (d Size) String() *)
Definition Size_String (d : Size) : string := BytesSize (s_Size d).
(* go: internal/encodingtooling/size.go | func (d Size) MarshalYAML() *)
Definition Size_MarshalYAML (d : Size) : result error string := Ok (Size_String d).
(* go: internal/encodingtooling/size.go | func (d *Size) UnmarshalYAML( *)
Definition Size_UnmarshalYAML (unmarshal : result error string) (d : Size) : Size * option error :=
  assign d (s ← unmarshal; v ← RAMInBytes s; Ok (MkSize v)).
(* go: internal/encodingtooling/size.go | func (d Size) MarshalJSON() *)
Definition Size_MarshalJSON (d : Size) : result error string := Ok (quoted (Size_String d)).
(* go: internal/encodingtooling/size.go | func (d *Size) UnmarshalJSON( *)
Definition Size_UnmarshalJSON (data : string) (d : Size) : Size * option error :=
  assign d (s ← json_string data; v ← RAMInBytes s; Ok (MkSize v)).

(** *** What is written is read back *)

Section theorems.
Hypothesis fraction_law : forall f unit scale, (unit <= 3600000000000)%N -> (scale | unit)%N -> (f < scale)%N ->
  fraction f unit scale = (f * (unit / scale))%N.
(** A JSON string of printable characters is itself. The bytes of the micro sign are the only
    ones outside of ASCII that durations have. *)
Fixpoint plain (s : string) : bool :=
  match s with
  | "" => true
  | String "194" (String "181" s') => plain s'
  | String c s' => let n := N_of_ascii c in (32 <=? n)%N && (n <? 127)%N && negb (n =? 34)%N && negb (n =? 92)%N && plain s'
  end.
Hypothesis json_law : forall s, plain s = true -> json_string (quoted s) = Ok s.

Lemma plain_char c s : is_digit c = true -> plain (String c s) = plain s.
Proof.
  unfold is_digit. intros [H1%N.leb_le H2%N.leb_le]%andb_true_iff.
  destruct c as [[] [] [] [] [] [] [] []]; cbn in H1, H2; (reflexivity || lia).
Qed.
Lemma plain_digits s n t : digits 0 s = Some n -> plain (s +:+ t) = plain t.
Proof.
  generalize 0%N at 1 as acc. induction s as [|c s IH]; intros acc; [done|]. rewrite digits_step. destruct (is_digit c) eqn:Ec; [|done].
  intros Hd. change (String c s +:+ t) with (String c (s +:+ t)). rewrite plain_char by done. by eapply IH.
Qed.
Lemma plain_fmtInt n s : plain (fmtInt n s) = plain s.
Proof. rewrite fmtInt_pretty. eapply plain_digits, digits_pretty. Qed.
Lemma plain_fmtFrac n v s : plain (fmtFrac n false v s).1 = plain s.
Proof.
  destruct (fmtFrac_spec n v s) as (t & f & k & -> & Ht & _). cbn [fst]. destruct Ht as [|x f _ Hd]; [done|].
  change (String "." x +:+ s) with (String "." (x +:+ s)). change (plain (x +:+ s) = plain s). by eapply plain_digits.
Qed.
Lemma plain_format u : plain (format u) = true.
Proof.
  unfold format. case_match.
  - case_match; [done|]. destruct (small_unit u) as [prec unit] eqn:E.
    assert (Hu : plain unit = true) by (unfold small_unit in E; repeat case_match; simplify_eq; reflexivity).
    pose proof (plain_fmtFrac prec u unit) as Hf. destruct (fmtFrac prec false u unit). by rewrite plain_fmtInt, <- Hu.
  - pose proof (plain_fmtFrac 9 u "s") as Hf. destruct (fmtFrac 9 false u "s") as [buf q]. cbn [fst] in Hf. cbn zeta.
    assert (Hc : forall c t, is_digit c = false -> (c = "m"%char \/ c = "h"%char) -> plain (String c t) = plain t) by (by intros c t _ [-> | ->]).
    repeat case_match; rewrite ?plain_fmtInt, ?Hc, ?plain_fmtInt, ?Hc, ?plain_fmtInt, ?Hf; auto.
Qed.

(** C34. Every duration is written to JSON and YAML in a form that is read back to the same
    duration, whatever the receiver holds. *)
Theorem Duration_roundtrip d old : is_int64 (d_Duration d) ->
  (exists text, MarshalJSON d = Ok text /\ UnmarshalJSON text old = (d, None)) /\
  UnmarshalYAML (MarshalYAML d) old = (d, None).
Proof.
  intros Hd. assert (Hp : ParseDuration fraction (String_ d) = Ok (d_Duration d)) by by apply ParseDuration_String.
  assert (Hplain : plain (String_ d) = true).
  { unfold String_, Duration_String. case_match; [change (plain (String "-" ?x)) with (plain x)|]; apply plain_format. }
  destruct d as [d]. split.
  - eexists. split; [reflexivity|]. unfold UnmarshalJSON. rewrite json_law by done. cbn in Hp |- *. by rewrite Hp.
  - unfold UnmarshalYAML, MarshalYAML. cbn in Hp |- *. by rewrite Hp.
Qed.
End theorems.

(** A text that cannot be read leaves the receiver as it was; one that can is an int64. *)
Theorem Duration_errors d data e : json_string data = Err e \/ (exists s, json_string data = Ok s /\ ParseDuration fraction s = Err e) ->
  UnmarshalJSON data d = (d, Some e).
Proof. unfold UnmarshalJSON. intros [-> | (s & -> & Hp)]; [done|]. cbn. by rewrite Hp. Qed.
End wrappers.

Lemma ParseDuration_int64 fraction s d : ParseDuration fraction s = Ok d -> is_int64 d.
Proof.
  unfold ParseDuration. destruct (take_sign s) as [neg s']. case_decide; [by intros [= <-]|]. case_decide; [done|].
  destruct (parse_loop fraction (String.length s') s s' 0) as [[n|e]|]; [|done..]. destruct neg.
  - intros [= <-]. apply wraps_range.
  - case_match eqn:E; [done|]. intros [= <-]. apply N.ltb_ge in E. unfold is_int64, min_int64, max_int64. lia.
Qed.

(** What is decoded is an int64 again. *)
Theorem UnmarshalJSON_int64 fraction json_string data d d' err : is_int64 (d_Duration d) ->
  UnmarshalJSON fraction json_string data d = (d', err) -> is_int64 (d_Duration d').
Proof.
  intros Hd. unfold UnmarshalJSON. destruct (json_string data) as [s|e]; cbn; [|by intros [= <- _]].
  destruct (ParseDuration fraction s) as [v|e] eqn:E; cbn; intros [= <- _]; [|done]. by eapply ParseDuration_int64.
Qed.

(** ** Instances *)

Definition exact_fraction (f unit scale : N) : N := (f * unit / scale)%N.
Definition plain_json (data : string) : result error string := Ok (stake (String.length data - 2) (sdrop 1 data)).

Lemma Duration_roundtrip_witness :
  (exists text, MarshalJSON (MkDuration (-5400000000123)) = Ok text /\
     UnmarshalJSON exact_fraction plain_json text (MkDuration 7) = (MkDuration (-5400000000123), None)) /\
  UnmarshalYAML exact_fraction (MarshalYAML (MkDuration (-5400000000123))) (MkDuration 7) = (MkDuration (-5400000000123), None).
Proof.
  apply (Duration_roundtrip exact_fraction plain_json).
  - intros f unit scale _ [k ->] Hf. unfold exact_fraction. rewrite N.div_mul by lia. rewrite N.mul_assoc. apply N.div_mul. lia.
  - intros s _. unfold plain_json, quoted. cbn [sdrop String.length]. rewrite string_length_app. cbn [String.length].
    replace (S (String.length s + 1) - 2) with (String.length s) by lia. by rewrite stake_app.
  - unfold is_int64, min_int64, max_int64. cbn. lia.
Defined.

Example Duration_texts :
  map Duration_String [0; 1; 1500; 1500000; 1000000000; 3661000000000; 5400000000123; -9223372036854775808]%Z =
  ["0s"; "1ns"; "1.5" +:+ micros; "1.5ms"; "1s"; "1h1m1s"; "1h30m0.000000123s"; "-2562047h47m16.854775808s"].
Proof. vm_compute. reflexivity. Qed.

(** Two numbers whose sum is two to the power of 64 pass the check for an overflow. *)
Example overflow_unnoticed : ParseDuration exact_fraction "9223372036854775808ns9223372036854775808ns" = Ok 0%Z.
Proof. vm_compute. reflexivity. Qed.
