(* ===== verification/Helpers.v ===== *)
(** * Small packages (internal/secret, clitooling, slicetooling, unittooling, retrytooling,
    config, buildtooling, haikutooling)

    Each package is a Module of its name. *)
From S2P Require Import Prelude Codes GoErrors Decimal.

(** ** Secrets *)

Module secret.
(** The types a secret is made of, as [FromEnv] tells them apart: [string], [bool] and [int]
    themselves, a type with [UnmarshalJSON], and any other. *)
Inductive kind := KString | KBool | KInt | KJson | KOther.
#[export] Instance kind_eq_dec : EqDecision kind.
Proof. solve_decision. Defined.

Section values.
(** Values with [UnmarshalJSON] and others; the world their methods work on. *)
Context {J O W : Type} (zero_json : J) (zero_other : O).
Definition denote (k : kind) : Type := match k with KString => string | KBool => bool | KInt => Z | KJson => J | KOther => O end.

(* go: internal/secret/string.go | const maskedString *)
Definition maskedString : string := "xxx".
(* go: internal/secret/string.go | type Value[T any] struct *)
Record Value (k : kind) := MkValue { value : denote k }.
#[local] Arguments MkValue {k} value.
#[local] Arguments value {k} v.
(* go: internal/secret/string.go | func NewValue[T any] *)
Definition NewValue {k} (v : denote k) : Value k := MkValue v.
(* go: internal/secret/string.go | func NewString( *)
Definition NewString (s : string) : Value KString := @NewValue KString s.
(* go: internal/secret/string.go | func (s Value[T]) Unmask() *)
Definition Unmask {k} (s : Value k) : denote k := value s.
(* go: internal/secret/string.go | func (Value[T]) String() *)
Definition String_ {k} (s : Value k) : string := maskedString.
(** Whatever the verb is. *)
(* go: internal/secret/string.go | func (Value[T]) Format( *)
Definition Format {k} (s : Value k) (verb : ascii) : string := maskedString.

(** A value of a type that is not known statically. *)
Definition any : Type := { k : kind & denote k }.
(* go: internal/secret/string.go | func (s Value[T]) Value() *)
Definition Value_ {k} (s : Value k) : any := existT k (value s).
(** [v, ok := src.(T)]. *)
Definition assert_type (k : kind) (src : any) : option (denote k) :=
  match decide (projT1 src = k) with left e => Some (eq_rect _ denote (projT2 src) _ e) | right _ => None end.
(* go: internal/secret/string.go | func (s *Value[T]) Scan( *)
Definition Scan {k} (src : any) (s : Value k) : Value k * option error :=
  match assert_type k src with
  | Some v => (MkValue v, None)
  | None => (s, Some (Leaf (LText "type assertion for secret failed")))
  end.

(** [json.Unmarshal] and a decoder of YAML into a value, which they may change even when they
    fail; [json.Marshal] of a string. *)
Context (json_Unmarshal : forall k, string -> denote k -> denote k * option error) (json_string : string -> string).
(* go: internal/secret/string.go | func (s *Value[T]) UnmarshalJSON( *)
Definition UnmarshalJSON {k} (b : string) (s : Value k) : Value k * option error :=
  let '(v, err) := json_Unmarshal k b (value s) in (MkValue v, err).
(* go: internal/secret/string.go | func (s Value[T]) MarshalJSON() *)
Definition MarshalJSON {k} (s : Value k) : string := json_string (String_ s).
(* go: internal/secret/string.go | func (s *Value[T]) UnmarshalYAML( *)
Definition UnmarshalYAML {k} (unmarshal : denote k -> denote k * option error) (s : Value k) : Value k * option error :=
  let '(v, err) := unmarshal (value s) in (MkValue v, err).
(* go: internal/secret/string.go | func (s Value[T]) MarshalYAML() *)
Definition MarshalYAML {k} (s : Value k) : string := String_ s.

(** The method of a value, called on a copy of it: what the value points to is in the world. *)
Context (method : J -> string -> W -> W * option error).
Definition parse_bool (v : string) : option bool :=
  if decide (v = "true" \/ v = "True") then Some true else if decide (v = "false" \/ v = "False") then Some false else None.
(* go: internal/secret/string.go | func (s *Value[T]) FromEnv( *)
Definition FromEnv {k} (env : gmap string string) (name : string) : Value k -> W -> W * Value k * bool :=
  match k return Value k -> W -> W * Value k * bool with
  | KString => fun s w => match env !! name with
                          | Some v => if decide (v = "") then (w, s, false) else (w, @MkValue KString v, true)
                          | None => (w, s, false)
                          end
  | KBool => fun s w => match env !! name ≫= parse_bool with Some b => (w, @MkValue KBool b, true) | None => (w, s, false) end
  | KInt => fun s w => match env !! name ≫= ParseInt 64 with Some n => (w, @MkValue KInt n, true) | None => (w, s, false) end
  | KJson => fun s w => match env !! name with
                        | Some v => let '(w, err) := method (value s) v w in (w, s, match err with None => true | _ => false end)
                        | None => (w, s, false)
                        end
  | KOther => fun s w => (w, s, false)
  end.

(** *** What is read, and what is shown *)

(** A secret is set from the environment exactly if the variable can be read as its type, and
    is as it was otherwise. *)
Theorem FromEnv_string env name (s : Value KString) w : FromEnv env name s w =
  match env !! name with Some (String c v) => (w, NewString (String c v), true) | _ => (w, s, false) end.
Proof. cbn. destruct (env !! name) as [[|c v]|]; [by rewrite decide_True|by rewrite decide_False|done]. Qed.

Lemma FromEnv_int env name (s : Value KInt) w n : (- 2 ^ 63 <= n < 2 ^ 63)%Z -> (0 <= n)%Z -> env !! name = Some (pretty (Z.to_N n)) ->
  FromEnv env name s w = (w, @NewValue KInt n, true).
Proof.
  intros Hn H0 He. cbn. rewrite He. cbn [mbind option_bind]. rewrite ParseInt_pretty, Z2N.id by done.
  by rewrite decide_True by (cbn; lia).
Qed.

(** The value of a type with [UnmarshalJSON] is the receiver of a copy: only what it points to
    can change, and the answer may be true all the same. *)
Theorem FromEnv_json env name (s : Value KJson) w : (FromEnv env name s w).1.2 = s.
Proof. cbn. destruct (env !! name); [|done]. by destruct (method _ _ _). Qed.

(** What is given to a database and read back is the secret itself; a value of another type is
    refused and changes nothing. *)
Theorem Scan_spec k (src : any) (s : Value k) :
  (forall s', src = Value_ s' -> Scan src s = (s', None)) /\ (projT1 src <> k -> exists err, Scan src s = (s, Some err)).
Proof.
  unfold Scan, assert_type. split.
  - intros s' ->. cbn. destruct (decide (k = k)) as [e|]; [|done]. rewrite <- Eqdep_dec.eq_rect_eq_dec by apply kind_eq_dec. by destruct s'.
  - intros Hne. destruct (decide _); [done|]. by eexists.
Qed.
End values.
End secret.

(** ** Flags *)

Module clitooling.
Section flags.
Context {J O : Type}.
Notation Value := (@secret.Value J O secret.KString).
(* go: internal/clitooling/secretflag.go | type SecretFlag struct *)
Record SecretFlag := MkFlag { v : Value }.
(* go: internal/clitooling/secretflag.go | func (s *SecretFlag) String() *)
Definition SecretFlag_String (s : SecretFlag) : string := secret.String_ (v s).
(* go: internal/clitooling/secretflag.go | func (s *SecretFlag) Get() *)
Definition Get (s : SecretFlag) : Value := v s.
(* go: internal/clitooling/secretflag.go | func (s *SecretFlag) Set( *)
Definition Set_ (s : SecretFlag) (s2 : string) : SecretFlag * option error := (MkFlag (secret.NewString s2), None).

(** A flag holds what it was set to, and shows nothing of it. *)
Theorem SecretFlag_spec s s2 : secret.Unmask (Get (Set_ s s2).1) = s2 /\ SecretFlag_String (Set_ s s2).1 = "xxx".
Proof. done. Qed.
End flags.

(** A command: its own step before a run, and its parent. *)
Inductive Command := MkCommand (PersistentPreRunE : list string -> option error) (Parent : option Command).
(* go: internal/clitooling/cobra.go | func RunParentPersistentPreRun( *)
Definition RunParentPersistentPreRun (cmd : Command) (args : list string) : option error :=
  match cmd with MkCommand _ (Some (MkCommand run _)) => run args | MkCommand _ None => None end.
End clitooling.

(** ** Slices *)

Module slicetooling.
Section closest.
Local Open Scope Z_scope.
(** The numbers are ints of 64 bits, whose differences wrap around. *)
(* go: internal/slicetooling/closest.go | func abs( *)
Definition abs (n : Z) : Z := if n <? 0 then wraps 64 (- n) else n.
(* go: internal/slicetooling/closest.go | lo.ForEach(numbers *)
Definition closer (num current n : Z) : Z :=
  if abs (wraps 64 (n - num)) <? abs (wraps 64 (current - num)) then n else current.
(* go: internal/slicetooling/closest.go | func Closest( *)
Definition Closest (numbers : list Z) (num : Z) : Z :=
  match numbers with [] => num | n :: _ => fold_left (closer num) numbers n end.

Definition small (n : Z) : Prop := - 2 ^ 62 <= n < 2 ^ 62.
Lemma abs_sub n num : small n -> small num -> abs (wraps 64 (n - num)) = Z.abs (n - num).
Proof.
  unfold small. intros Hn Hm. rewrite wraps_small by (unfold is_int64, min_int64, max_int64; lia). unfold abs.
  case_match eqn:E; [|lia]. rewrite wraps_small by (unfold is_int64, min_int64, max_int64; lia). lia.
Qed.

Lemma closer_small num c n : small num -> small c -> small n ->
  closer num c n = if decide (Z.abs (n - num) < Z.abs (c - num)) then n else c.
Proof. intros. unfold closer. rewrite !abs_sub by done. case_decide; destruct (Z.ltb_spec (Z.abs (n - num)) (Z.abs (c - num))); (done || lia). Qed.

(** The element [c] at [i] is the first of those that are closest. *)
Definition closest_at (num : Z) (l : list Z) (i : nat) (c : Z) : Prop :=
  l !! i = Some c /\ forall j n, l !! j = Some n ->
    Z.abs (c - num) <= Z.abs (n - num) /\ ((j < i)%nat -> Z.abs (c - num) < Z.abs (n - num)).

Lemma closest_snoc num l i c n : small num -> Forall small l -> small n -> closest_at num l i c ->
  exists i', closest_at num (l ++ [n]) i' (closer num c n).
Proof.
  intros Hnum Hl Hn [Hi Hmin]. rewrite closer_small by (done || by eapply Forall_lookup_1 in Hi). case_decide as Hd.
  - exists (length l). split; [by apply list_lookup_middle|]. intros j m [Hj|[Hj Hm]]%lookup_app_Some.
    + destruct (Hmin j m Hj). lia.
    + apply list_lookup_singleton_Some in Hm as [Hj' <-]. lia.
  - exists i. split; [by apply lookup_app_l_Some|]. intros j m [Hj|[Hj Hm]]%lookup_app_Some; [by apply Hmin|].
    apply lookup_lt_Some in Hi. apply list_lookup_singleton_Some in Hm as [Hj' <-]. lia.
Qed.

(** Of the numbers, none is closer, and the first of the closest ones is chosen; where the
    differences do not overflow. *)
Theorem Closest_spec numbers num : Forall small numbers -> small num -> numbers <> [] ->
  exists i, closest_at num numbers i (Closest numbers num).
Proof.
  intros Hs Hnum Hne. destruct numbers as [|n0 ns]; [done|]. unfold Closest. cbn [fold_left].
  assert (Hn0 : small n0) by by apply Forall_cons in Hs as [? _].
  rewrite closer_small by done. rewrite decide_False by lia. change (n0 :: ns) with ([n0] ++ ns) in *. clear Hne.
  induction ns as [|n ns IH] using rev_ind.
  - exists 0%nat. split; [done|]. intros [|j] m; cbn; [intros [= <-]; lia|done].
  - rewrite app_assoc, fold_left_app in *. apply Forall_app in Hs as [Hs Hn]. apply Forall_cons in Hn as [Hn _].
    destruct (IH Hs) as [i Hi]. by eapply closest_snoc.
Qed.

(** Far numbers: the difference wraps around, and the farthest number is chosen. *)
Example Closest_overflow : Closest [0; min_int64] max_int64 = min_int64.
Proof. vm_compute. reflexivity. Qed.
End closest.

Section sets.
Context {T1 T2 C : Type} `{Countable C}.

(* go: internal/slicetooling/difference.go | for _, elem := range list1 { *)
Definition seen {T} (id : T -> C) (l : list T) : gset C := fold_left (fun m elem => {[ id elem ]} ∪ m) l ∅.
(* go: internal/slicetooling/difference.go | for _, elem := range list1 { | L27-L31 *)
Definition absent {T} (id : T -> C) (other : gset C) (l : list T) : list T :=
  fold_left (fun left elem => if decide (id elem ∈ other) then left else left ++ [elem]) l [].
(* go: internal/slicetooling/difference.go | func Difference[T1 any *)
Definition Difference (list1 : list T1) (list2 : list T2) (t1ID : T1 -> C) (t2ID : T2 -> C) : list T1 * list T2 :=
  let seenLeft := seen t1ID list1 in
  let seenRight := seen t2ID list2 in
  (absent t1ID seenRight list1, absent t2ID seenLeft list2).
(* go: internal/slicetooling/intersect.go | func IntersectTakeRight[T any *)
Definition IntersectTakeRight (list1 list2 : list T1) (idFunc : T1 -> C) : list T1 :=
  let seen := seen idFunc list1 in
  fold_left (fun result elem => if decide (idFunc elem ∈ seen) then result ++ [elem] else result) list2 [].

Lemma seen_spec {T} (id : T -> C) l c : c ∈ seen id l <-> c ∈ map id l.
Proof.
  unfold seen. induction l as [|x l IH] using rev_ind; [set_solver|]. rewrite fold_left_app, map_app. cbn.
  rewrite elem_of_union, elem_of_singleton, elem_of_app, list_elem_of_singleton, IH. tauto.
Qed.
Lemma absent_spec {T} (id : T -> C) other l : absent id other l = filter (fun x => id x ∉ other) l.
Proof.
  unfold absent. induction l as [|x l IH] using rev_ind; [done|]. rewrite fold_left_app, filter_app. cbn [fold_left]. rewrite IH.
  rewrite filter_cons, filter_nil. repeat case_decide; (done || by rewrite app_nil_r).
Qed.

(** Each side is what it has and the other has not, in its order and with its repetitions. *)
Theorem Difference_spec list1 list2 t1ID t2ID : Difference list1 list2 t1ID t2ID =
  (filter (fun x => t1ID x ∉ map t2ID list2) list1, filter (fun x => t2ID x ∉ map t1ID list1) list2).
Proof. unfold Difference. rewrite !absent_spec. f_equal; apply list_filter_iff; intros x; by rewrite seen_spec. Qed.

Theorem IntersectTakeRight_spec list1 list2 idFunc :
  IntersectTakeRight list1 list2 idFunc = filter (fun x => idFunc x ∈ map idFunc list1) list2.
Proof.
  unfold IntersectTakeRight. induction list2 as [|x l IH] using rev_ind; [done|]. rewrite fold_left_app, filter_app. cbn [fold_left].
  rewrite IH, filter_cons, filter_nil. repeat case_decide; rewrite ?seen_spec in *; (done || by rewrite app_nil_r).
Qed.
End sets.
End slicetooling.

(** ** Units *)

Module unittooling.
Section units.
Local Open Scope Z_scope.
(** Floating point numbers, the decimals of shopspring, and their rounding. *)
Context {F D : Type} (of_uint : Z -> F) (fdiv fmul : F -> F -> F) (to_uint : F -> Z) (FormatFloat : F -> nat -> string).
Context (NewFromString : string -> result error D) (Mul100Round : D -> Z).

(* go: internal/unittooling/unit_cast.go | secondsInHour = *)
Definition secondsInHour : Z := 60 * 60.
(* go: internal/unittooling/unit_cast.go | bytesInGiB *)
Definition bytesInGiB : Z := 1024 * 1024 * 1024.
(* go: internal/unittooling/unit_cast.go | bytesInMiB *)
Definition bytesInMiB : Z := 1024 * 1024.
(* go: internal/unittooling/unit_cast.go | centsInDollar *)
Definition centsInDollar : Z := 100.
(* go: internal/unittooling/unit_cast.go | func BytesToGiB( *)
Definition BytesToGiB (b : Z) : F := fdiv (of_uint b) (of_uint bytesInGiB).
(* go: internal/unittooling/unit_cast.go | func BytesFromGiB( *)
Definition BytesFromGiB (gib : F) : Z := to_uint (fmul gib (of_uint bytesInGiB)).
(** The product is an int64, its conversion keeps the bits. *)
(* go: internal/unittooling/unit_cast.go | func BytesFromMiB( *)
Definition BytesFromMiB (mib : Z) : Z := wrapu 64 (wraps 64 (mib * bytesInMiB)).
(* go: internal/unittooling/unit_cast.go | func SecondsToHours( *)
Definition SecondsToHours (s : Z) : F := fdiv (of_uint s) (of_uint secondsInHour).
(* go: internal/unittooling/unit_cast.go | func SecondsFromHours( *)
Definition SecondsFromHours (hours : F) : Z := to_uint (fmul hours (of_uint secondsInHour)).
(* go: internal/unittooling/unit_cast.go | func CentsToDollars( *)
Definition CentsToDollars (c : Z) : F := fdiv (of_uint c) (of_uint centsInDollar).
(** [big.Int.Uint64] is the low 64 bits of the absolute value. *)
(* go: internal/unittooling/unit_cast.go | func DollarsToCents( *)
Definition DollarsToCents (d : D) : Z := wrapu 64 (Z.abs (Mul100Round d)).
(* go: internal/unittooling/unit_cast.go | func DollarsStrToCents( *)
Definition DollarsStrToCents (d : string) : result error Z := result ← NewFromString d; Ok (DollarsToCents result).
(* go: internal/unittooling/unit_cast.go | func FormatFloat4( *)
Definition FormatFloat4 (f : F) : string := FormatFloat f 4%nat.

(** The number of bytes is right exactly up to what 64 bits hold; it is never another number
    than that modulo 2^64. *)
Theorem BytesFromMiB_spec mib : BytesFromMiB mib = (mib * bytesInMiB) mod 2 ^ 64 /\
  (BytesFromMiB mib = mib * bytesInMiB <-> 0 <= mib < 2 ^ 44).
Proof.
  assert (E : BytesFromMiB mib = (mib * bytesInMiB) mod 2 ^ 64).
  { unfold BytesFromMiB, wrapu, wraps. case_match; [by rewrite Z.mod_mod by lia|].
    rewrite <- (Z.mod_add (mib * bytesInMiB mod 2 ^ 64 - 2 ^ 64) 1) by lia.
    replace (mib * bytesInMiB mod 2 ^ 64 - 2 ^ 64 + 1 * 2 ^ 64) with (mib * bytesInMiB mod 2 ^ 64) by lia. by rewrite Z.mod_mod by lia. }
  split; [done|]. rewrite E. unfold bytesInMiB. split.
  - intros Hm. pose proof (Z.mod_pos_bound (mib * (1024 * 1024)) (2 ^ 64) ltac:(lia)). lia.
  - intros Hm. apply Z.mod_small. lia.
Qed.

(** An amount and its negation are the same number of cents. *)
Theorem DollarsToCents_sign d d' : Mul100Round d' = - Mul100Round d -> DollarsToCents d' = DollarsToCents d.
Proof. unfold DollarsToCents. intros ->. by rewrite Z.abs_opp. Qed.
End units.
End unittooling.

(** ** Jitter *)

Module retrytooling.
Section jitter.
Local Open Scope Z_scope.
(** The bounds of a deviation, rounded to integers, and a normally distributed summand;
    [draw n] is what [rand.Int64N] gives. *)
Context (floor_below ceil_above : Z -> Z) (normal : Z -> Z) (draw : Z -> Z).
(** [rand.Int64N] panics if its argument is not positive. *)
Definition Int64N (n : Z) : outcome Z := if decide (n <= 0) then Panics "invalid argument to Int64N" else Returns (draw n).

(* go: internal/retrytooling/jitter.go | func Deviation( *)
Definition Deviation (duration : Z) : outcome Z :=
  let min := floor_below duration in
  let max := ceil_above duration in
  n ← Int64N (wraps 64 (max - min)); Returns (wraps 64 (n + min)).
(* go: internal/retrytooling/jitter.go | func NormalDistribution( *)
Definition NormalDistribution (duration : Z) : Z := normal duration.

Hypothesis draw_law : forall n, 0 < n -> 0 <= draw n < n.
(** The result lies between the bounds, and there must be something between them: without a
    duration, or without a deviation, the transformation panics. *)
Theorem Deviation_spec d : is_int64 (floor_below d) -> is_int64 (ceil_above d) -> is_int64 (ceil_above d - floor_below d) ->
  if decide (floor_below d < ceil_above d)
  then exists r, Deviation d = Returns r /\ floor_below d <= r < ceil_above d
  else exists why, Deviation d = Panics why.
Proof.
  unfold Deviation, Int64N. intros H1 H2 H3. rewrite wraps_small by done. case_decide as Hlt.
  - rewrite decide_False by lia. cbn. eexists. split; [reflexivity|]. pose proof (draw_law (ceil_above d - floor_below d) ltac:(lia)).
    rewrite wraps_small; [lia|]. unfold is_int64 in *. lia.
  - rewrite decide_True by lia. by eexists.
Qed.
End jitter.
End retrytooling.

(** ** Paths *)

(** [path.Clean], [path.Join] and [path.Base] of the standard library. *)
Module path.
Definition slash : ascii := "/"%char.
(** The elements of a cleaned path, the last one first. *)
Definition push (rooted : bool) (stack : list string) (e : string) : list string :=
  if decide (e = "" \/ e = ".") then stack
  else if decide (e = "..") then
    match stack with
    | top :: stack' => if decide (top = "..") then e :: stack else stack'
    | [] => if rooted then [] else [e]
    end
  else e :: stack.
Definition Clean (p : string) : string :=
  let rooted := match p with String c _ => bool_decide (c = slash) | "" => false end in
  let s := (if rooted then "/" else "") +:+ join "/" (reverse (fold_left (push rooted) (split_byte slash p) [])) in
  if decide (s = "") then "." else s.
Definition Join (elems : list string) : string :=
  match filter (fun e => e <> "") elems with [] => "" | l => Clean (join "/" l) end.
Fixpoint strip_slashes (fuel : nat) (p : string) : string :=
  match fuel with
  | 0 => p
  | S fuel => if decide (last_byte p = Some slash) then strip_slashes fuel (stake (String.length p - 1) p) else p
  end.
Definition Base (p : string) : string :=
  if decide (p = "") then "."
  else let q := default "" (last (split_byte slash (strip_slashes (String.length p) p))) in
       if decide (q = "") then "/" else q.

Example Join_etc : Join ["/etc"; "bot"; "app.yaml"] = "/etc/bot/app.yaml". Proof. reflexivity. Qed.
Example Join_up : Join ["/home/me"; ".bot"; "../x"] = "/home/me/x". Proof. reflexivity. Qed.
Example Base_go : Base "/go/src/semerr/stack.go" = "stack.go". Proof. reflexivity. Qed.
End path.

(** ** Configurations *)

Module config.
(** [io.EOF]. *)
Definition EOF : leaf := LNew 29 "EOF".

Section load.
(** Backends, which give values to keys, and configurations with a value for every key. *)
Context {B Cfg V : Type} (file : string -> B) (env : B).
Context (DefaultConfig : Cfg -> Cfg) (Validate : Cfg -> option error) (confita_Load : list B -> Cfg -> Cfg * option error).

(* go: internal/config/load.go | dir := usr.HomeDir | L42-L55 *)
Definition loaders (dir cfgFolder filename : string) (customBackends : list B) : list B :=
  (if decide (filename <> "")
   then [file (path.Join ["/etc"; cfgFolder; filename]); file (path.Join [dir; "." +:+ cfgFolder; filename]); file filename]
   else []) ++ [env] ++ customBackends.
(** [user] is the home directory, if the user is known. *)
(* go: internal/config/load.go | func Load( *)
Definition Load (user : result error string) (cfgFolder : string) (unmarshalTo : Cfg) (filename : string) (customBackends : list B)
    : Cfg * option error :=
  let unmarshalTo := DefaultConfig unmarshalTo in
  match user with
  | Err err => (unmarshalTo, Some err)
  | Ok dir =>
      match confita_Load (loaders dir cfgFolder filename customBackends) unmarshalTo with
      | (unmarshalTo, Some err) => if negb (Is EOF err) then (unmarshalTo, Some err) else (unmarshalTo, Validate unmarshalTo)
      | (unmarshalTo, None) => (unmarshalTo, Validate unmarshalTo)
      end
  end.

(** Every backend in turn overwrites what it has a value for. *)
Context (get : string -> Cfg -> V) (has : string -> B -> option V).
Hypothesis confita_law : forall l c c', confita_Load l c = (c', None) -> forall k, get k c' = default (get k c) (last (omap (has k) l)).

(** The precedence of the sources: custom backends, the environment, the file in the working
    directory, the user's, the system's, and the defaults; what is loaded is validated. *)
Theorem Load_precedence dir folder c filename c' err0 : filename <> "" ->
  confita_Load (loaders dir folder filename []) (DefaultConfig c) = (c', None) ->
  Load (Ok dir) folder c filename [] = (c', err0) ->
  err0 = Validate c' /\
  forall k, get k c' =
    match has k env with Some v => v | None =>
    match has k (file filename) with Some v => v | None =>
    match has k (file (path.Join [dir; "." +:+ folder; filename])) with Some v => v | None =>
    match has k (file (path.Join ["/etc"; folder; filename])) with Some v => v | None => get k (DefaultConfig c) end end end end.
Proof.
  intros Hf Hl. unfold Load. rewrite Hl. intros [= <-]. split; [done|]. intros k. rewrite (confita_law _ _ _ Hl). unfold loaders. rewrite decide_True by done.
  cbn. destruct (has k env), (has k (file filename)), (has k (file (path.Join [dir; "." +:+ folder; filename]))),
    (has k (file (path.Join ["/etc"; folder; filename]))); reflexivity.
Qed.

(** An empty file is no error: what was loaded until then is validated. *)
Theorem Load_errors dir folder c filename custom c' err : confita_Load (loaders dir folder filename custom) (DefaultConfig c) = (c', Some err) ->
  Load (Ok dir) folder c filename custom = (c', if Is EOF err then Validate c' else Some err).
Proof. intros Hl. unfold Load. rewrite Hl. by destruct (Is EOF err). Qed.
End load.

Section write.
(** [yaml.Marshal], [os.Create] with [Close], and [os.WriteFile]. *)
Context {Cfg W : Type} (Marshal : Cfg -> result error string) (Error : error -> string).
Context (Create Close : string -> W -> W * option error) (WriteFile : string -> string -> W -> W * option error).
(* go: internal/config/write.go | func genConfig( *)
Definition genConfig (cfg : Cfg) : outcome string := match Marshal cfg with Ok m => Returns m | Err err => Panics (Error err) end.
(** A call whose error is a panic. *)
Definition must (r : W * option error) : W * outcome unit :=
  match r with (w, Some err) => (w, Panics (Error err)) | (w, None) => (w, Returns tt) end.
Definition and_then (r : W * outcome unit) (k : W -> W * outcome unit) : W * outcome unit :=
  match r with (w, Returns _) => k w | (w, Panics why) => (w, Panics why) end.
(* go: internal/config/write.go | func Write( *)
Definition Write (cfg : Cfg) (filename : string) (w : W) : W * outcome unit :=
  match genConfig cfg with
  | Panics why => (w, Panics why)
  | Returns marshal =>
      and_then (must (Create filename w)) (fun w =>
      and_then (must (Close filename w)) (fun w =>
      must (WriteFile filename marshal w)))
  end.

(** No file is made for a configuration that cannot be printed. *)
Theorem Write_marshals_first cfg filename w err : Marshal cfg = Err err -> Write cfg filename w = (w, Panics (Error err)).
Proof. unfold Write, genConfig. by intros ->. Qed.
End write.
End config.

(** ** The build, and names *)

Module buildtooling.
(* go: internal/buildtooling/commit.go | type BuildInfo struct *)
Record BuildInfo := MkBuild { CleanTree : bool; Commit : string; Time : string }.
Definition set_setting (b : BuildInfo) (s : string * string) : BuildInfo :=
  if decide (s.1 = "vcs.modified") then MkBuild (bool_decide (s.2 = "false")) (Commit b) (Time b)
  else if decide (s.1 = "vcs.revision") then MkBuild (CleanTree b) s.2 (Time b)
  else if decide (s.1 = "vcs.time") then MkBuild (CleanTree b) (Commit b) s.2
  else b.
(** [settings] is [None] where the binary has no build information. *)
(* go: internal/buildtooling/commit.go | func getBuildInfo( *)
Definition getBuildInfo (settings : option (list (string * string))) : BuildInfo :=
  fold_left set_setting (default [] settings) (MkBuild false "" "").
End buildtooling.

Module haikutooling.
(** A generator of the library: its words and the length and letters of its token. *)
Record Haikunator := { Adjectives : list string; Nouns : list string; TokenLength : Z; TokenChars : string }.
(* go: internal/haikutooling/haiku.go | func filter( *)
Definition filter_words (vals toRemove : list string) : list string :=
  fold_left (fun out v => if decide (v ∈ toRemove) then out else out ++ [v]) vals [].
(* go: internal/haikutooling/haiku.go | const alphaNumericSymbols *)
Definition alphaNumericSymbols : string := "0123456789abcdefghijklmnopqrstuvwxyz".
(* go: internal/haikutooling/haiku.go | func init() *)
Definition init (new : Haikunator) : Haikunator * Haikunator :=
  let generator := {| Adjectives := filter_words (Adjectives new) ["broken"; "limit"; "throbbing"];
                      Nouns := filter_words (Nouns new) ["disk"; "wood"]; TokenLength := 8; TokenChars := TokenChars new |} in
  (generator,
   {| Adjectives := filter_words (Adjectives generator) ["broken"; "limit"; "throbbing"];
      Nouns := filter_words (Nouns generator) ["disk"; "wood"]; TokenLength := 6; TokenChars := alphaNumericSymbols |}).

Lemma filter_words_spec vals toRemove : filter_words vals toRemove = filter (fun v => v ∉ toRemove) vals.
Proof.
  unfold filter_words. induction vals as [|v vals IH] using rev_ind; [done|]. rewrite fold_left_app, filter_app. cbn [fold_left].
  rewrite IH, filter_cons, filter_nil. repeat case_decide; (done || by rewrite app_nil_r).
Qed.

(** Neither generator uses one of the words that were taken out; both use the same ones. *)
Theorem init_spec new : let '(g, g2) := init new in
  Adjectives g2 = Adjectives g /\ Nouns g2 = Nouns g /\
  (forall w, w ∈ Adjectives g <-> w ∈ Adjectives new /\ w <> "broken" /\ w <> "limit" /\ w <> "throbbing") /\
  (forall w, w ∈ Nouns g <-> w ∈ Nouns new /\ w <> "disk" /\ w <> "wood").
Proof.
  unfold init. cbn [Adjectives Nouns]. rewrite !filter_words_spec. split_and!.
  1,2: rewrite list_filter_filter; apply list_filter_iff; naive_solver.
  all: intros w; rewrite list_elem_of_filter, !not_elem_of_cons; pose proof (not_elem_of_nil w); tauto.
Qed.
End haikutooling.
