(* ===== verification/Redis.v ===== *)
(** * Redis (internal/redis)

    A client is made for a password in its URL, or for tokens that are signed for AWS
    Elasticache. The Redis library, the AWS libraries and the clock are parameters. *)
From S2P Require Import Prelude Urls Codes GoErrors Durations Helpers.

(** [strings.Replace] of the first occurrence. *)
Fixpoint replace_once (s old new : string) : string :=
  if has_prefix s old then new +:+ sdrop (String.length old) s
  else match s with "" => "" | String c s' => String c (replace_once s' old new) end.

(** ** Configurations *)

(* go: internal/redis/redis.go | AuthPlain AuthType *)
Definition AuthPlain : string := "plain".
(* go: internal/redis/redis.go | AuthAWSElasticacheIRSA AuthType *)
Definition AuthAWSElasticacheIRSA : string := "aws_elasticache_irsa".
(* go: internal/redis/elasticacheirsa.go | autodetectRegion = *)
Definition autodetectRegion : string := "auto-detect-region".
(* go: internal/redis/elasticacheirsa.go | connectAction *)
Definition connectAction : string := "connect".
(* go: internal/redis/elasticacheirsa.go | hexEncodedSHA256EmptyString *)
Definition hexEncodedSHA256EmptyString : string := "e3b0c44298fc1c149afbf4c8996fb92427ae41e4649b934ca495991b7852b855".

(* go: internal/redis/elasticacheirsa.go | type AWSIRSAConfig struct *)
Record AWSIRSAConfig := MkIRSA {
  Region : string; ElasticacheClusterEnabled : bool; TokenLifeSpan : Duration;
  ServiceName : string; ClusterName : string; UserID : string
}.
(** The secret URL is its text. *)
(* go: internal/redis/redis.go | type Config struct *)
Record Config := { AuthType : string; AwsIRSA : option AWSIRSAConfig; URL : string; ClientName : string }.
(* go: internal/redis/elasticacheirsa.go | func DefaultAWSIRSAConfig() *)
Definition DefaultAWSIRSAConfig : AWSIRSAConfig :=
  MkIRSA autodetectRegion false (NewDuration (Second * 900)) "elasticache" "regional-redis" "yanakipre".
(* go: internal/redis/redis.go | func DefaultConfig() *)
Definition DefaultConfig : Config :=
  {| AuthType := AuthPlain; AwsIRSA := Some DefaultAWSIRSAConfig; URL := "redis://10.30.42.54:6379"; ClientName := "yanakipre" |}.

(** [quote] is the verb q. *)
(* go: internal/redis/elasticacheirsa.go | func (c AWSIRSAConfig) Validate() *)
Definition AWSIRSAConfig_Validate (c : AWSIRSAConfig) : option error :=
  if ElasticacheClusterEnabled c then Some (Leaf (LText "cluster enabled configurations are not implemented")) else None.
(* go: internal/redis/redis.go | func (c Config) Validate() *)
Definition Validate (quote : string -> string) (c : Config) : option error :=
  if decide (AuthType c = AuthAWSElasticacheIRSA) then
    match AwsIRSA c with
    | None => Some (Leaf (LText ("chosen " +:+ quote AuthAWSElasticacheIRSA +:+ " authentication requires 'aws_irsa' to be set")))
    | Some i => AWSIRSAConfig_Validate i
    end
  else if decide (AuthType c = AuthPlain) then None
  else Some (Leaf (LText ("unknown auth type " +:+ quote (AuthType c)))).

(** ** Tokens *)

Section redis.
(** Credentials providers and credentials of AWS; options and clients of the Redis library. *)
Context {P Addr W : Type}.
Record Credentials := { AccessKeyID : string; SecretAccessKey : string; Session : string }.
Record aws_Config := { aws_Region : string; aws_Credentials : P }.
Context (NewRequest : string -> option error) (Seconds : Z -> Z) (quote : string -> string).
Context (LoadDefaultConfig : W -> W * result error aws_Config) (Retrieve : P -> W -> W * result error Credentials)
  (Now : W -> Z) (PresignHTTP : Credentials -> string -> string -> string -> string -> Z -> result error string).

(** The loaded configuration is missing before [Ready]. *)
(* go: internal/redis/elasticacheirsa.go | type awsIamTokenGenerator struct *)
Record awsIamTokenGenerator := MkGenerator { cfg : AWSIRSAConfig; aws : option aws_Config; targetAWSRegion : string; req : string }.

(** The parameters of the query, sorted by their keys. *)
(* go: internal/redis/elasticacheirsa.go | queryParams := url.Values{ | L38-L50 *)
Definition authURL (cfg : AWSIRSAConfig) : string :=
  URL_String {| Scheme := "http"; User := None; Host := ClusterName cfg; Path := "/";
    RawQuery := Encode [("Action", connectAction); ("User", UserID cfg); ("X-Amz-Expires", pretty (Seconds (d_Duration (TokenLifeSpan cfg))))] |}.
(* go: internal/redis/elasticacheirsa.go | func newAuthTokenGenerator( *)
Definition newAuthTokenGenerator (cfg : AWSIRSAConfig) : result error awsIamTokenGenerator :=
  match NewRequest (authURL cfg) with Some err => Err err | None => Ok (MkGenerator cfg None "" (authURL cfg)) end.

(* go: internal/redis/elasticacheirsa.go | func (atg *awsIamTokenGenerator) Ready( *)
Definition generator_Ready (atg : awsIamTokenGenerator) (w : W) : W * awsIamTokenGenerator * option error :=
  match LoadDefaultConfig w with
  | (w, Err err) => (w, atg, Some (Wrap (WText "cannot load AWS config") err))
  | (w, Ok c) =>
      let region := if decide (Region (cfg atg) = autodetectRegion) then aws_Region c else Region (cfg atg) in
      if decide (region = "") then (w, atg, Some (Leaf (LText "region cannot be empty")))
      else
        let atg := MkGenerator (cfg atg) (aws atg) region (req atg) in
        match Retrieve (aws_Credentials c) w with
        | (w, Err err) => (w, atg, Some (Wrap (WText "cannot creds from generator") err))
        | (w, Ok credentials) =>
            if decide (AccessKeyID credentials = "" \/ SecretAccessKey credentials = "")
            then (w, atg, Some (Leaf (LText "credentials are empty")))
            else (w, MkGenerator (cfg atg) (Some c) (targetAWSRegion atg) (req atg), None)
        end
  end.
(* go: internal/redis/elasticacheirsa.go | func (atg *awsIamTokenGenerator) Generate( *)
Definition Generate (atg : awsIamTokenGenerator) (w : W) : W * outcome (result error string) :=
  match aws atg with
  | None => (w, Panics "runtime error: invalid memory address or nil pointer dereference")
  | Some c =>
      match Retrieve (aws_Credentials c) w with
      | (w, Err err) => (w, Returns (Err (Wrap (WText "cannot retrieve AWS credentials") err)))
      | (w, Ok credentials) =>
          match PresignHTTP credentials (req atg) hexEncodedSHA256EmptyString (ServiceName (cfg atg)) (targetAWSRegion atg) (Now w) with
          | Err err => (w, Returns (Err (Wrap (WText "request signing failed -") err)))
          | Ok signedURL => (w, Returns (Ok (replace_once signedURL "http://" "")))
          end
      end
  end.

(** ** Clients *)

(** The options of the library that are set here: the name, TLS, and whether passwords come
    from the provider. *)
Record Options := { o_Addr : Addr; o_ClientName : string; o_TLS12 : bool; o_Provider : bool }.
Context (ParseURL : string -> result error Options) (Ping : W -> W * option error).

(** The client and its provider share the generator: it is kept here once. *)
(* go: internal/redis/redis.go | type Redis struct *)
Record Redis := { Client : Options; tokenProvider : option awsIamTokenGenerator }.
(* go: internal/redis/redis.go | func New( *)
Definition New (c : Config) : outcome (result error Redis) :=
  if decide (AuthType c = AuthPlain) then
    Returns (options ← ParseURL (URL c);
             Ok {| Client := {| o_Addr := o_Addr options; o_ClientName := ClientName c; o_TLS12 := o_TLS12 options; o_Provider := o_Provider options |};
                   tokenProvider := None |})
  else if decide (AuthType c = AuthAWSElasticacheIRSA) then
    match ParseURL (URL c) with
    | Err err => Returns (Err (Wrap (WText "cannot parse redis URL") err))
    | Ok options =>
        match AwsIRSA c with
        | None => Panics "runtime error: invalid memory address or nil pointer dereference"
        | Some irsa =>
            match newAuthTokenGenerator irsa with
            | Err err => Returns (Err (Wrap (WText "cannot create awsIamTokenGenerator") err))
            | Ok g => Returns (Ok {| Client := {| o_Addr := o_Addr options; o_ClientName := o_ClientName options; o_TLS12 := true; o_Provider := true |};
                                     tokenProvider := Some g |})
            end
        end
    end
  else Returns (Err (Leaf (LText ("unsupported auth method: " +:+ quote (AuthType c))))).
(** The user name and password of a new connection; an error is logged only. *)
(* go: internal/redis/redis.go | options.CredentialsProvider = func() *)
Definition CredentialsProvider (g : awsIamTokenGenerator) (w : W) : W * outcome (string * string) :=
  match Generate g w with
  | (w, Panics why) => (w, Panics why)
  | (w, Returns (Err _)) => (w, Returns (UserID (cfg g), ""))
  | (w, Returns (Ok generated)) => (w, Returns (UserID (cfg g), generated))
  end.
(* go: internal/redis/redis.go | func (r *Redis) Ready( *)
Definition Redis_Ready (r : Redis) (w : W) : W * Redis * option error :=
  match tokenProvider r with
  | Some g =>
      match generator_Ready g w with
      | (w, g, Some err) => (w, {| Client := Client r; tokenProvider := Some g |}, Some (Wrap (WText "token provider is not ready") err))
      | (w, g, None) => let '(w, err) := Ping w in (w, {| Client := Client r; tokenProvider := Some g |}, err)
      end
  | None => let '(w, err) := Ping w in (w, r, err)
  end.

(** ** What the clients promise *)

(** A configuration that is valid makes a client or an error; one without the settings of AWS
    that it asks for is only noticed by [Validate]. *)
Theorem New_spec c : (Validate quote c = None -> exists r, New c = Returns r) /\
  (forall o, AuthType c = AuthAWSElasticacheIRSA -> AwsIRSA c = None -> ParseURL (URL c) = Ok o -> exists why, New c = Panics why).
Proof.
  unfold Validate, New. split.
  - intros Hv. destruct (decide (AuthType c = AuthAWSElasticacheIRSA)) as [E|]; [|repeat case_decide; by eexists].
    rewrite decide_False by (rewrite E; done). destruct (ParseURL (URL c)); [|by eexists]. destruct (AwsIRSA c) as [i|]; [|done].
    destruct (newAuthTokenGenerator i); by eexists.
  - intros o -> -> ->. by eexists.
Qed.

(** A generator that became ready. *)
Definition is_ready (g : awsIamTokenGenerator) : Prop := is_Some (aws g) /\ targetAWSRegion g <> "".

Lemma generator_Ready_spec g w w' g' : generator_Ready g w = (w', g', None) ->
  is_ready g' /\ cfg g' = cfg g /\ req g' = req g /\
  (Region (cfg g) <> autodetectRegion -> targetAWSRegion g' = Region (cfg g)).
Proof.
  unfold generator_Ready, is_ready. destruct (LoadDefaultConfig w) as [w1 [c|]]; [|done]. cbn zeta.
  set (region := if decide (Region (cfg g) = autodetectRegion) then _ else _). case_decide as Hr; [done|].
  destruct (Retrieve _ _) as [w2 [cr|]]; [|done]. case_decide; [done|]. intros [= _ <-]. cbn. split_and!; [by eexists|done..|].
  intros Hne. subst region. by rewrite decide_False.
Qed.

(** A client for Elasticache that is ready signs a token for every connection, for the region
    that was configured; if that fails the password is empty. Before it is ready, a connection
    panics. *)
Theorem Redis_Ready_spec c r w w' r' g : New c = Returns (Ok r) -> tokenProvider r = Some g ->
  (forall v, exists why, CredentialsProvider g v = (v, Panics why)) /\
  (Redis_Ready r w = (w', r', None) -> exists g', tokenProvider r' = Some g' /\ is_ready g' /\
     (Region (cfg g) <> autodetectRegion -> targetAWSRegion g' = Region (cfg g)) /\
     forall v, exists v' password, CredentialsProvider g' v = (v', Returns (UserID (cfg g), password)) /\
       (password = "" \/ exists signed cr, password = replace_once signed "http://" "" /\
          PresignHTTP cr (authURL (cfg g)) hexEncodedSHA256EmptyString (ServiceName (cfg g)) (targetAWSRegion g') (Now v') = Ok signed)).
Proof.
  intros Hn Hg. assert (Hnew : aws g = None /\ req g = authURL (cfg g)).
  { unfold New, newAuthTokenGenerator in Hn. repeat case_decide; simplify_eq; [destruct (ParseURL _); simplify_eq/=; done|].
    destruct (ParseURL _); simplify_eq. destruct (AwsIRSA c) as [i|]; simplify_eq.
    destruct (NewRequest _); simplify_eq/=. done. }
  destruct Hnew as [Haws Hreq]. split; [intros v; unfold CredentialsProvider, Generate; rewrite Haws; by eexists|].
  unfold Redis_Ready. rewrite Hg. destruct (generator_Ready g w) as [[w1 g1] [e|]] eqn:E; [done|]. destruct (Ping w1). intros [= _ <- ->].
  apply generator_Ready_spec in E as (Hready & Hc & Hq & Hreg). exists g1. split_and!; try done. intros v.
  unfold CredentialsProvider, Generate. destruct Hready as [[ac ->] _]. rewrite Hc, Hq, Hreq.
  destruct (Retrieve (aws_Credentials ac) v) as [v1 [cr|]]; [|do 2 eexists; split; [done|by left]].
  destruct (PresignHTTP _ _ _ _ _ _) eqn:Es; (do 2 eexists; split; [done|]); [right; by do 2 eexists|by left].
Qed.

(** Readiness that fails keeps a generator that was ready as it was, but for the region. *)
Theorem generator_Ready_fails g w w' g' err : generator_Ready g w = (w', g', Some err) ->
  aws g' = aws g /\ cfg g' = cfg g /\ req g' = req g.
Proof.
  unfold generator_Ready. destruct (LoadDefaultConfig w) as [w1 [c|]]; [|by intros [= _ <- _]]. cbn zeta.
  set (region := if decide (Region (cfg g) = autodetectRegion) then _ else _). case_decide; [by intros [= _ <- _]|].
  destruct (Retrieve _ _) as [w2 [cr|]]; try case_decide; intros; simplify_eq; done.
Qed.

(** The name of the client is given to the server with a password only. *)
Theorem ClientName_spec c r : New c = Returns (Ok r) ->
  match tokenProvider r with
  | None => o_ClientName (Client r) = ClientName c
  | Some _ => exists o, ParseURL (URL c) = Ok o /\ o_ClientName (Client r) = o_ClientName o
  end.
Proof.
  unfold New. repeat case_decide; [destruct (ParseURL _); intros; simplify_eq/=; done| |done].
  destruct (ParseURL _) as [o|]; [|done]. destruct (AwsIRSA c) as [i|]; [|done]. destruct (newAuthTokenGenerator i); intros; simplify_eq/=.
  by exists o.
Qed.
End redis.
