(* ===== verification/Application.v ===== *)
(** * Starting and stopping an application (internal/application, internal/scheduletooling)

    The components of an application and the jobs of its scheduler are shut down side by side,
    under a deadline. The file also holds what job.go, noopjob and the worker package define
    around the jobs of Schedule.v. *)
From S2P Require Import Prelude Codes GoErrors Retry Readiness Schedule Decimal.
From stdpp Require Import relations.

(** ** Jobs (job.go, noopjob) *)

Section jobs.
Context {W : Type} (cron_error : string -> option error) (NewJobKey : string -> string).

(** A function of a job; [None] is nil. *)
Notation job_func := (W -> W * option error).
(* go: internal/scheduletooling/job.go | type InProcessJob struct *)
Record InProcessJob := {
  ip_close : option job_func; runningCount : job_state; maxRunningCount : Z; ip_trigger : trigger;
  key : string; ip_name : string; exec : job_func; getFreshConfig : Config * option error
}.
(* go: internal/scheduletooling/job.go | func (j *InProcessJob) Close( *)
Definition InProcessJob_Close (j : InProcessJob) (w : W) : W * option error :=
  match ip_close j with None => (w, None) | Some close => close w end.
(* go: internal/scheduletooling/job.go | func (j *InProcessJob) Description() *)
Definition Description (j : InProcessJob) : string := ip_name j.
(* go: internal/scheduletooling/job.go | func (j *InProcessJob) Key() *)
Definition Key (j : InProcessJob) : string := key j.
(** [next] is the trigger's own method; a nil trigger panics. *)
(* go: internal/scheduletooling/job.go | func (j *InProcessJob) NextFireTime( *)
Definition NextFireTime (next : trigger -> Z -> Z * option error) (j : InProcessJob) (prev : Z) : outcome (Z * option error) :=
  match ip_trigger j with
  | NilTrigger => Panics "runtime error: invalid memory address or nil pointer dereference"
  | t => Returns (next t prev)
  end.
(* go: internal/scheduletooling/job.go | func ConstantConfig( *)
Definition ConstantConfig (config : Config) : Config * option error := (config, None).
(** [in_middleware] is the middleware's [Execute] with the name of the job. *)
Context (in_middleware : string -> job_func -> job_func).
(* go: internal/scheduletooling/job.go | func NewConcurrentInProcessJobWithCloser( *)
Definition NewConcurrentInProcessJobWithCloser (execFunc : job_func) (closeFunc : option job_func) (cfg : Config)
    (fresh : Config * option error) (max : Z) : InProcessJob :=
  {| ip_close := closeFunc; runningCount := job0; maxRunningCount := max; ip_trigger := GetTriggerValidated cron_error cfg;
     key := NewJobKey (UniqueName cfg); ip_name := UniqueName cfg; exec := in_middleware (UniqueName cfg) execFunc;
     getFreshConfig := fresh |}.
(* go: internal/scheduletooling/job.go | func NewInProcessJob( *)
Definition NewInProcessJob (execFunc : job_func) (cfg : Config) (fresh : Config * option error) : InProcessJob :=
  NewConcurrentInProcessJobWithCloser execFunc None cfg fresh 1.
(* go: internal/scheduletooling/job.go | func NewConcurrentInProcessJob( *)
Definition NewConcurrentInProcessJob (execFunc : job_func) (cfg : Config) (fresh : Config * option error) (max : Z) : InProcessJob :=
  NewConcurrentInProcessJobWithCloser execFunc None cfg fresh max.

(** A job made without a number runs alone; one made with a number less than one never runs;
    closing a job without a closer does nothing. *)
Theorem NewInProcessJob_spec execFunc cfg fresh max :
  (forall tr s, job_run (maxRunningCount (NewInProcessJob execFunc cfg fresh)) tr s -> active s <= 1) /\
  ((max <= 0)%Z -> forall tr s, job_run (maxRunningCount (NewConcurrentInProcessJob execFunc cfg fresh max)) tr s -> active s = 0) /\
  forall w, InProcessJob_Close (NewConcurrentInProcessJob execFunc cfg fresh max) w = (w, None).
Proof. split_and!; [|intros Hmax|done]; intros tr s (_ & _ & Hm & _)%job_run_latch; cbn in Hm; lia. Qed.

(** The job that does nothing. *)
(* go: internal/scheduletooling/noopjob/noopjob.go | type NoopJobImpl struct *)
Record NoopJobImpl := { noop_key : string }.
(* go: internal/scheduletooling/noopjob/noopjob.go | func noopJob() *)
Definition NewNoopJob : NoopJobImpl := {| noop_key := NewJobKey "noop" |}.
(* go: internal/scheduletooling/noopjob/noopjob.go | func (n *NoopJobImpl) NextFireTime( *)
Definition noop_NextFireTime (n : NoopJobImpl) (prev : Z) : Z * option error := (prev, Some (Leaf (LText "noop job has no next fire time"))).
(* go: internal/scheduletooling/noopjob/noopjob.go | func (n *NoopJobImpl) GetConfig() *)
Definition noop_GetConfig (n : NoopJobImpl) : Config * option error := (zero_Config, Some (Leaf (LText "noop job has no config"))).
(* go: internal/scheduletooling/noopjob/noopjob.go | func (n *NoopJobImpl) Execute( *)
Definition noop_Execute (n : NoopJobImpl) (w : W) : W * option error := (w, None).
(* go: internal/scheduletooling/noopjob/noopjob.go | func (n *NoopJobImpl) Close( *)
Definition noop_Close (n : NoopJobImpl) (w : W) : W * option error := (w, None).
End jobs.

(** ** The index of a worker (worker/workerload_split.go) *)

(* go: internal/scheduletooling/worker/workerload_split.go | // WorkloadSplitConfig is *)
Record WorkloadSplitConfig := { WorkerCount : Z; WorkerIndex : Z }.
(* go: internal/scheduletooling/worker/workerload_split.go | // SingleWorkerDoesAllJob is *)
Definition SingleWorkerDoesAllJob : WorkloadSplitConfig := {| WorkerCount := 1; WorkerIndex := 0 |}.
(* go: internal/scheduletooling/worker/workerload_split.go | func DefaultWorkloadSplit() *)
Definition DefaultWorkloadSplit : WorkloadSplitConfig := {| WorkerCount := 1; WorkerIndex := 0 |}.
(* go: internal/scheduletooling/worker/workerload_split.go | // GetWorkerIndex calculates *)
Definition GetWorkerIndex (hostname : string) : result error Z :=
  let splitParts := split_byte "-" hostname in
  if decide (length splitParts = 1) then Ok 0%Z
  else match ParseInt 64 (default "" (last splitParts)) with
       | None => Ok 0%Z
       | Some parseInt => Ok (wrapu 64 parseInt)
       end.

Lemma digits_no_dash acc s n : digits acc s = Some n -> index_byte "-" s = None.
Proof.
  revert acc. induction s as [|c s IH]; intros acc; [done|]. cbn [digits index_byte]. case_decide as Hd; [|done].
  intros Hs. rewrite decide_False by (intros ->; cbn in Hd; lia). by rewrite (IH _ Hs).
Qed.

(** The pods of a stateful set are told apart: a host name that ends in a dash and a number has
    that number as its index, as long as it is an int64; any other host is the first worker. *)
Theorem GetWorkerIndex_spec host n :
  (n < 2 ^ 63)%N -> GetWorkerIndex (host +:+ "-" +:+ pretty n) = Ok (Z.of_N n) /\
  (index_byte "-" host = None -> GetWorkerIndex host = Ok 0%Z).
Proof.
  intros Hn. unfold GetWorkerIndex. split.
  - change (host +:+ "-" +:+ pretty n) with (host +:+ String "-" (pretty n)). rewrite split_byte_app.
    rewrite (split_byte_free "-" (pretty n)) by (eapply digits_no_dash, digits_pretty). rewrite last_snoc. cbn [default].
    rewrite decide_False.
    + unfold id. rewrite ParseInt_pretty, decide_True by (cbn; lia). unfold wrapu. by rewrite Z.mod_small by lia.
    + rewrite length_app. pose proof (split_byte_nonempty "-" host). destruct (split_byte "-" host); [done|cbn; lia].
  - intros Hh. by rewrite (split_byte_free "-" host).
Qed.

(** ** Waiting for goroutines with a deadline *)

(** [wg.Wait] in a goroutine of its own, and a select on its end and on the context's: the
    pattern of [Scheduler.Wait] and [Application.Shutdown]. A task is run once, at any time, even
    after the one who waits has gone. *)
Section waiting.
Context {T W : Type} (run : bool -> T -> W -> W -> Prop).

Record waiting := MkWaiting { world : W; pending : list T; finished : list T; expired : bool; verdict : option bool }.
Definition wait_start (tasks : list T) (w : W) : waiting := MkWaiting w tasks [] false None.
(** [expirable] is whether the context's end is near. *)
Inductive wait_step (expirable : bool) : waiting -> waiting -> Prop :=
| step_task w w' l1 t l2 fin e v : run e t w w' ->
    wait_step expirable (MkWaiting w (l1 ++ t :: l2) fin e v) (MkWaiting w' (l1 ++ l2) (fin ++ [t]) e v)
| step_expire w l fin v : expirable = true -> wait_step expirable (MkWaiting w l fin false v) (MkWaiting w l fin true v)
| step_clean w fin e : wait_step expirable (MkWaiting w [] fin e None) (MkWaiting w [] fin e (Some true))
| step_late w l fin : wait_step expirable (MkWaiting w l fin true None) (MkWaiting w l fin true (Some false)).

Record wait_inv (expirable : bool) (tasks : list T) (s : waiting) : Prop := {
  wi_all : finished s ++ pending s ≡ₚ tasks;
  wi_clean : verdict s = Some true -> pending s = [];
  wi_late : verdict s = Some false -> expired s = true;
  wi_expired : expired s = true -> expirable = true
}.

Lemma wait_inv_reachable expirable tasks w s : rtc (wait_step expirable) (wait_start tasks w) s -> wait_inv expirable tasks s.
Proof.
  enough (H : forall s0, rtc (wait_step expirable) s0 s -> wait_inv expirable tasks s0 -> wait_inv expirable tasks s).
  { intros Hr. eapply H; [done|]. by split. }
  induction 1 as [|s0 s1 s2 Hs _ IH]; [done|]. intros [Ha Hc Hl He]. apply IH. destruct Hs; split; cbn in *; try done.
  - rewrite <- app_assoc, <- Ha, <- Permutation_middle. done.
  - intros Hv. apply Hc in Hv. by destruct l1.
Qed.

(** Whatever the tasks do, and even if some never end, who waits is released once the context
    has ended, without waiting for another step of a task. *)
Lemma wait_released tasks w s : rtc (wait_step true) (wait_start tasks w) s -> verdict s = None ->
  exists s', rtc (wait_step true) s s' /\ is_Some (verdict s') /\ finished s' = finished s.
Proof.
  intros _. destruct s as [w' l fin [] v]; cbn; intros ->.
  - eexists. split; [apply rtc_once, step_late|]. cbn. by split; [eexists|].
  - eexists. split; [eapply rtc_l; [by apply step_expire|]; apply rtc_once, step_late|]. cbn. by split; [eexists|].
Qed.
End waiting.
Arguments waiting : clear implicits.

(** ** The application *)

(** What happens, as far as the application decides it. *)
Inductive app_event :=
| EStart (component : nat) | EStartScheduler | EFatal (why : string)
| EShutdown (component : nat) | EStop | EQuartzDone | EClosed (job : string) (err : option error) | EOtel (err : option error).

(** Closing the jobs of the scheduler: every job that was scheduled is closed by a goroutine. *)
Section scheduler_wait.
(** What closing a job gives, and whether quartz has waited for the jobs that run. *)
Context (close : string -> option error -> Prop).
Inductive close_job (expired : bool) (job : string) (w w' : list app_event) : Prop :=
| closed err : close job err -> w' = w ++ [EClosed job err] -> close_job expired job w w'.
(* go: internal/scheduletooling/scheduletooling.go | func (s *Scheduler) Stop() *)
Definition scheduler_Stop (w : list app_event) : list app_event := w ++ [EStop].
(** A finished [Wait]; a job may be closed only after it has returned. *)
(* go: internal/scheduletooling/scheduletooling.go | func (s *Scheduler) Wait( *)
Inductive scheduler_Wait (jobs : list string) (expirable : bool) (w w' : list app_event) : Prop :=
| waited s order : order ≡ₚ jobs ->
    rtc (wait_step close_job expirable) (wait_start order (w ++ [EQuartzDone])) s -> is_Some (verdict s) -> w' = world s ->
    scheduler_Wait jobs expirable w w'.

Lemma close_job_log expired job w w' : close_job expired job w w' -> exists err, w' = w ++ [EClosed job err].
Proof. intros [err _ ->]. by exists err. Qed.

Lemma close_run_log expirable s0 s : rtc (wait_step close_job expirable) s0 s -> forall base,
  (forall j, j ∈ finished s0 -> exists err, EClosed j err ∈ world s0) -> base `prefix_of` world s0 ->
  (forall j, j ∈ finished s -> exists err, EClosed j err ∈ world s) /\ base `prefix_of` world s.
Proof.
  induction 1 as [|s0 s1 s2 Hs _ IH]; [done|]. intros base Hf Hp. apply IH; destruct Hs as [w w' l1 t l2 fin e v Hrun| | |]; cbn in *; try done.
  - apply close_job_log in Hrun as [err ->]. intros j [Hj|Hj]%elem_of_app.
    + destruct (Hf j Hj) as [e' He']. exists e'. apply elem_of_app. by left.
    + apply list_elem_of_singleton in Hj as ->. exists err. apply elem_of_app. right. by left.
  - apply close_job_log in Hrun as [err ->]. by apply prefix_app_r.
Qed.

(** Without the deadline in reach, [Wait] returns only when every job has been closed. *)
Lemma scheduler_Wait_closes jobs w w' : scheduler_Wait jobs false w w' ->
  w `prefix_of` w' /\ EQuartzDone ∈ w' /\ forall j, j ∈ jobs -> exists err, EClosed j err ∈ w'.
Proof.
  intros [s order Hperm Hr [v Hv] ->]. destruct (wait_inv_reachable _ _ _ _ _ Hr) as [Ha Hc Hl He].
  destruct (close_run_log _ _ _ Hr (w ++ [EQuartzDone])) as [Hfin Hpre]; [by intros ? ?%not_elem_of_nil|done|].
  assert (Hpend : pending s = []).
  { destruct v; [by apply Hc|]. by specialize (He (Hl Hv)). }
  rewrite Hpend, app_nil_r in Ha. split_and!.
  - etrans; [|exact Hpre]. by apply prefix_app_r.
  - destruct Hpre as [k ->]. set_solver.
  - intros j Hj. apply Hfin. rewrite Ha, Hperm. done.
Qed.
End scheduler_wait.

Section application.
Context {W : Type} (close : string -> option error -> Prop) (otel_result : option error -> Prop).

(** Components by number; the scheduler by the keys of its jobs. *)
(* go: internal/application/application.go | type Application struct *)
Record Application := MkApp {
  readyChecker : @Readiness W; inProcessJobScheduler : option (list string); components : list nat; otelShutdown : bool
}.
(* go: internal/application/application.go | func (a *Application) ReadyCheck( *)
Definition ReadyCheck (type_name : string) (checker : @ReadyChecker W) (a : Application) : Application :=
  MkApp (Readiness.Add type_name checker (readyChecker a)) (inProcessJobScheduler a) (components a) (otelShutdown a).
(* go: internal/application/application.go | func (a *Application) OptionalCheck( *)
Definition OptionalCheck (type_name : string) (checker : @ReadyChecker W) (a : Application) : Application :=
  MkApp (Readiness.AddOptional type_name checker (readyChecker a)) (inProcessJobScheduler a) (components a) (otelShutdown a).
(* go: internal/application/application.go | func (a *Application) SetInProcessJobScheduler( *)
Definition SetInProcessJobScheduler (scheduler : list string) (a : Application) : Application :=
  MkApp (readyChecker a) (Some scheduler) (components a) (otelShutdown a).
(* go: internal/application/application.go | func (a *Application) AddComponent( *)
Definition AddComponent (c : nat) (a : Application) : Application :=
  MkApp (readyChecker a) (inProcessJobScheduler a) (components a ++ [c]) (otelShutdown a).
(** [install] is the result of installing the exporter; with an error the process ends. *)
(* go: internal/application/options.go | func WithOpenTelemetry( *)
Definition WithOpenTelemetry (install : result error unit) (a : Application) : Application + string :=
  match install with
  | Err _ => inr "could initialize tracing"
  | Ok _ => inl (MkApp (readyChecker a) (inProcessJobScheduler a) (components a) true)
  end.
(** [backoff] is the strategy of the retry library. *)
(* go: internal/application/application.go | func New( *)
Definition New (backoff : strategy) (opts : list (Application -> Application + string)) : Application + string :=
  foldl (fun a opt => match a with inl a => opt a | inr why => inr why end) (inl (MkApp (NewReadiness [backoff]) None [] false)) opts.
(** The process ends when the application is not ready. *)
(* go: internal/application/application.go | func (a *Application) IsReady( *)
Definition Application_IsReady (retry_Do : Z -> retry_Do_type (W * list event)) (a : Application) (s : W * list event)
    : (W * list event) * (outcome unit + string) :=
  match IsReady retry_Do (readyChecker a) s with
  | (s, Returns None) => (s, inl (Returns tt))
  | (s, Returns (Some _)) => (s, inr "application not ready")
  | (s, Panics why) => (s, inl (Panics why))
  end.
(** The goroutines are listed in the order they are made. *)
(* go: internal/application/application.go | func (a *Application) Start( *)
Definition Application_Start (sentry : option error) (a : Application) : list app_event :=
  match sentry with
  | Some _ => [EFatal "could not setup sentry"]
  | None => map EStart (components a) ++ match inProcessJobScheduler a with Some _ => [EStartScheduler] | None => [] end
  end.

(** The goroutines of [Shutdown]. *)
Inductive part := PComponent (i : nat) | PScheduler (jobs : list string) | POtel.
(* go: internal/application/application.go | for i := range a.components { | L123-L149 *)
Definition parts (a : Application) : list part :=
  map PComponent (components a) ++
  match inProcessJobScheduler a with Some jobs => [PScheduler jobs] | None => [] end ++
  (if otelShutdown a then [POtel] else []).
(** The events of the scheduler's goroutine are put together. *)
Inductive run_part : bool -> part -> list app_event -> list app_event -> Prop :=
| run_component e i w : run_part e (PComponent i) w (w ++ [EShutdown i])
| run_scheduler e jobs w w' : scheduler_Wait close jobs e (scheduler_Stop w) w' -> run_part e (PScheduler jobs) w w'
| run_otel e err w : otel_result err -> run_part e POtel w (w ++ [EOtel err]).
(** A finished [Shutdown]; its verdict is the line it logs. The deadline may pass at any time. *)
(* go: internal/application/application.go | // Shutdown makes application *)
Inductive Shutdown (a : Application) (w : list app_event) (s : waiting part (list app_event)) : Prop :=
| shut_down order : order ≡ₚ parts a -> rtc (wait_step run_part true) (wait_start order w) s -> is_Some (verdict s) -> Shutdown a w s.

(** *** What a shutdown guarantees *)

(** What a part leaves in the log. *)
Definition part_done (e : bool) (w : list app_event) (p : part) : Prop :=
  match p with
  | PComponent i => EShutdown i ∈ w
  | PScheduler jobs => EStop ∈ w /\ (e = false -> forall j, j ∈ jobs -> exists err, EClosed j err ∈ w)
  | POtel => exists err, EOtel err ∈ w
  end.

Lemma part_done_mono e e' w w' p : w `prefix_of` w' -> (e' = false -> e = false) -> part_done e w p -> part_done e' w' p.
Proof.
  intros [k ->] He. destruct p; cbn; [set_solver| |].
  - intros [Hs Hj]. split; [set_solver|]. intros Hf j Hin. destruct (Hj (He Hf) j Hin) as [err Herr]. exists err. set_solver.
  - intros [err Herr]. exists err. set_solver.
Qed.

Lemma scheduler_Wait_prefix jobs e w w' : scheduler_Wait close jobs e w w' -> w `prefix_of` w'.
Proof.
  intros [s order _ Hr _ ->]. destruct (close_run_log _ _ _ _ Hr (w ++ [EQuartzDone])) as [_ Hpre]; [by intros ? ?%not_elem_of_nil|done|].
  etrans; [|exact Hpre]. by apply prefix_app_r.
Qed.

Lemma run_part_done e p w w' : run_part e p w w' -> w `prefix_of` w' /\ part_done e w' p.
Proof.
  intros [e' i v|e' jobs v v' Hw|e' err v Ho]; cbn.
  - split; [by apply prefix_app_r|set_solver].
  - pose proof (scheduler_Wait_prefix _ _ _ _ Hw) as Hp. unfold scheduler_Stop in *. split; [|split].
    + etrans; [|exact Hp]. by apply prefix_app_r.
    + destruct Hp as [k ->]. set_solver.
    + intros ->. by apply scheduler_Wait_closes in Hw as (_ & _ & ?).
  - split; [by apply prefix_app_r|]. exists err. set_solver.
Qed.

Lemma shutdown_done s0 s : rtc (wait_step run_part true) s0 s ->
  Forall (part_done (expired s0) (world s0)) (finished s0) -> Forall (part_done (expired s) (world s)) (finished s).
Proof.
  induction 1 as [|s0 s1 s2 Hs _ IH]; [done|]. intros Hf. apply IH. destruct Hs as [w w' l1 t l2 fin e v Hrun|w l fin v| |]; cbn in *; try done.
  - apply run_part_done in Hrun as [Hp Hd]. apply Forall_app. split; [|by apply Forall_singleton].
    eapply Forall_impl; [exact Hf|]. intros p. by apply part_done_mono.
  - eapply Forall_impl; [exact Hf|]. intros p. by apply part_done_mono.
Qed.

(** C37. A shutdown that calls itself clean has shut down every component, stopped the scheduler and
    shut down the tracing; and, unless the deadline passed all the same, it has closed every
    job. One that does not has met its deadline. *)
Theorem Shutdown_spec a w s : Shutdown a w s ->
  (verdict s = Some true ->
     (forall i, i ∈ components a -> EShutdown i ∈ world s) /\
     (forall jobs, inProcessJobScheduler a = Some jobs -> EStop ∈ world s /\
        (expired s = false -> forall j, j ∈ jobs -> exists err, EClosed j err ∈ world s)) /\
     (otelShutdown a = true -> exists err, EOtel err ∈ world s)) /\
  (verdict s <> Some true -> expired s = true).
Proof.
  intros [order Hperm Hr [v Hv]]. destruct (wait_inv_reachable _ _ _ _ _ Hr) as [Ha Hc Hl _].
  assert (Hdone : Forall (part_done (expired s) (world s)) (finished s)) by (eapply shutdown_done; [exact Hr|constructor]).
  split.
  - intros Ht. rewrite (Hc Ht), app_nil_r, Hperm in Ha. rewrite Ha in Hdone. rewrite Forall_forall in Hdone. unfold parts in Hdone. split_and!.
    + intros i Hi. apply (Hdone (PComponent i)). apply elem_of_app. left. by apply list_elem_of_fmap_2.
    + intros jobs Hj. rewrite Hj in Hdone. apply (Hdone (PScheduler jobs)). set_solver.
    + intros Ho. rewrite Ho in Hdone. apply (Hdone POtel). set_solver.
  - intros Hf. apply Hl. rewrite Hv in *. destruct v; congruence.
Qed.

(** However the components behave, and even if one of them never returns, a shutdown that has
    not returned yet can return without waiting for any of them once its deadline has passed. *)
Theorem Shutdown_returns a w order s : order ≡ₚ parts a -> rtc (wait_step run_part true) (wait_start order w) s -> verdict s = None ->
  exists s', Shutdown a w s' /\ finished s' = finished s.
Proof.
  intros Hp Hr Hv. destruct (wait_released _ _ _ _ Hr Hv) as (s' & Hs' & Hv' & Hf). exists s'. split; [|done].
  econstructor; [exact Hp| |exact Hv']. by etrans.
Qed.
End application.

(** The deadline can pass while the jobs are closed, and the shutdown calls itself clean
    although a job was not. *)
Definition demo_app : @Application unit := MkApp (NewReadiness []) (Some ["a"]) [1] false.

Lemma demo_late_clean : exists s, Shutdown (fun _ _ => True) (fun _ => True) demo_app [] s /\
  verdict s = Some true /\ expired s = true /\ world s = [EShutdown 1; EStop; EQuartzDone].
Proof.
  eexists (MkWaiting [EShutdown 1; EStop; EQuartzDone] [] [PComponent 1; PScheduler ["a"]] true (Some true)). split_and!; try done.
  eapply (shut_down _ _ _ _ _ [PComponent 1; PScheduler ["a"]]); [done| |by eexists].
  eapply rtc_l; [apply (step_task _ _ [] [EShutdown 1] [] (PComponent 1) [PScheduler ["a"]]); constructor|].
  eapply rtc_l; [by apply step_expire|]. eapply rtc_l; [|apply rtc_once, step_clean].
  apply (step_task _ _ _ [EShutdown 1; EStop; EQuartzDone] [] (PScheduler ["a"]) []). constructor.
  apply (waited _ _ _ _ _ (MkWaiting [EShutdown 1; EStop; EQuartzDone] ["a"] [] true (Some false)) ["a"]); try done.
  eapply rtc_l; [by apply step_expire|]. apply rtc_once, step_late.
Qed.

Lemma demo_clean : exists s, Shutdown (fun _ _ => True) (fun _ => True) demo_app [] s /\ verdict s = Some true /\ expired s = false.
Proof.
  eexists (MkWaiting [EShutdown 1; EStop; EQuartzDone; EClosed "a" None] [] [PComponent 1; PScheduler ["a"]] false (Some true)). split_and!; try done.
  eapply (shut_down _ _ _ _ _ [PComponent 1; PScheduler ["a"]]); [done| |by eexists].
  eapply rtc_l; [apply (step_task _ _ [] [EShutdown 1] [] (PComponent 1) [PScheduler ["a"]]); constructor|].
  eapply rtc_l; [|apply rtc_once, step_clean].
  apply (step_task _ _ _ [EShutdown 1; EStop; EQuartzDone; EClosed "a" None] [] (PScheduler ["a"]) []). constructor.
  apply (waited _ _ _ _ _ (MkWaiting [EShutdown 1; EStop; EQuartzDone; EClosed "a" None] [] ["a"] false (Some true)) ["a"]); try done.
  eapply rtc_l; [|apply rtc_once, step_clean]. apply (step_task _ _ _ _ [] "a" []). by eapply (closed _ _ _ _ _ None).
Qed.

Lemma Shutdown_spec_witness : exists s : waiting part (list app_event), verdict s = Some true /\ EShutdown 1 ∈ world s /\
  exists err, EClosed "a" err ∈ world s.
Proof.
  destruct demo_clean as (s & Hs & Hv & He). exists s. destruct (Shutdown_spec _ _ _ _ _ Hs) as [Hclean _].
  destruct (Hclean Hv) as (Hc & Hj & _). split_and!; [done|apply Hc; by left|]. destruct (Hj ["a"] eq_refl) as [_ Hclosed].
  apply (Hclosed He). by left.
Defined.
