(* ===== verification/Stack.v ===== *)
(** * Stack traces of errors (internal/semerr/stack.go)

    The frames of an error and how they are printed. The program counters and what the runtime
    knows of them are parameters. *)
From S2P Require Import Prelude Helpers.

Section stack.
(** [runtime.FuncForPC]: the name of a function, and the file and line of a counter in it. *)
Context (FuncForPC : Z -> option (string * (Z -> string * Z))).

(* go: internal/semerr/stack.go | const UNKNOWN *)
Definition UNKNOWN : string := "unknown".
(** A frame is a program counter plus one. *)
(* go: internal/semerr/stack.go | // Frame represents *)
Definition Frame : Type := Z.
(* go: internal/semerr/stack.go | // pc returns *)
Definition pc (f : Frame) : Z := (wrapu 64 (f - 1))%Z.
(* go: internal/semerr/stack.go | // file returns *)
Definition file (f : Frame) : string :=
  match FuncForPC (pc f) with None => UNKNOWN | Some (_, FileLine) => (FileLine (pc f)).1 end.
(* go: internal/semerr/stack.go | // line returns *)
Definition line (f : Frame) : Z :=
  match FuncForPC (pc f) with None => 0%Z | Some (_, FileLine) => (FileLine (pc f)).2 end.
(* go: internal/semerr/stack.go | // name returns *)
Definition name (f : Frame) : string := match FuncForPC (pc f) with None => UNKNOWN | Some (n, _) => n end.

(** The part after the last slash, and of it the part after the first dot. *)
(* go: internal/semerr/stack.go | // funcname removes *)
Definition funcname (n : string) : string :=
  let n := default "" (last (split_byte "/" n)) in
  match index_byte "." n with Some i => sdrop (S i) n | None => n end.

(** The verbs and flags of package fmt that are asked for. *)
Inductive verb := Vs | Vd | Vn | Vv | Other.
Record flags := { plus : bool; sharp : bool }.
Definition line_break : string := String newline (String "009" "").

(** The verb v is the verb s, a colon, and the verb d. *)
Definition format_s (s : flags) (f : Frame) : string :=
  if plus s then name f +:+ line_break +:+ file f else path.Base (file f).
Definition format_d (f : Frame) : string := pretty (line f).
(* go: internal/semerr/stack.go | // Format formats the frame *)
Definition Frame_Format (f : Frame) (s : flags) (v : verb) : string :=
  match v with
  | Vs => format_s s f
  | Vd => format_d f
  | Vn => funcname (name f)
  | Vv => format_s s f +:+ ":" +:+ format_d f
  | Other => ""
  end.
(* go: internal/semerr/stack.go | // MarshalText formats *)
Definition MarshalText (f : Frame) : string :=
  let n := name f in
  if decide (n = UNKNOWN) then n else n +:+ " " +:+ file f +:+ ":" +:+ pretty (line f).

(* go: internal/semerr/stack.go | // StackTrace is stack of Frames *)
Definition StackTrace : Type := list Frame.
(* go: internal/semerr/stack.go | // formatSlice will format *)
Definition formatSlice (st : StackTrace) (s : flags) (v : verb) : string :=
  "[" +:+ join " " (map (fun f => Frame_Format f s v) st) +:+ "]".
(** [go_syntax] is what the verb v prints with the flag sharp. *)
(* go: internal/semerr/stack.go | // Format formats the stack of Frames *)
Definition StackTrace_Format (go_syntax : list Frame -> string) (st : StackTrace) (s : flags) (v : verb) : string :=
  match v with
  | Vv =>
      if plus s then foldr (fun f rest => String newline (Frame_Format f s v) +:+ rest) "" st
      else if sharp s then go_syntax st
      else formatSlice st s v
  | Vs => formatSlice st s v
  | _ => ""
  end.

(** A stack of program counters, as [runtime.Callers] gives it. *)
(* go: internal/semerr/stack.go | // stack represents *)
Definition stack : Type := list Z.
(* go: internal/semerr/stack.go | func (s *stack) Format( *)
Definition stack_Format (st : stack) (s : flags) (v : verb) : string :=
  match v with
  | Vv => if plus s then foldr (fun pc rest => String newline (Frame_Format pc s v) +:+ rest) "" st else ""
  | _ => ""
  end.
(* go: internal/semerr/stack.go | func (s *stack) StackTrace() *)
Definition stack_StackTrace (st : stack) : StackTrace := map (fun pc => pc) st.
(** The goroutine's stack begins with [runtime.Callers] and [callers]. *)
(* go: internal/semerr/stack.go | func callers() *)
Definition callers (goroutine : list Z) : stack := take 32 (drop 3 goroutine).
(** The stack of an error; a nil pointer is [None]. *)
(* go: internal/semerr/semantic.go | func (e *Error) StackTrace() *)
Definition Error_StackTrace (st : option stack) : outcome StackTrace :=
  match st with
  | None => Returns []
  | Some st => match stack_StackTrace st with [] => Panics slice_out_of_range | _ :: rest => Returns rest end
  end.

(** ** What the traces show *)

(** The trace of an error made by one of the constructors begins where the constructor was
    called: what lies between is [runtime.Callers], [callers], [newError] or [wrapError], and the
    constructor. The innermost 31 frames are kept. *)
Theorem trace_begins_at_caller callers_pc self make constructor user :
  Error_StackTrace (Some (callers (callers_pc :: self :: make :: constructor :: user))) = Returns (take 31 user).
Proof. unfold Error_StackTrace, callers, stack_StackTrace. rewrite map_id. reflexivity. Qed.

(** An error whose stack is empty panics when it is reported; one without a stack has no trace. *)
Theorem empty_stack_panics : Error_StackTrace (Some []) = Panics slice_out_of_range /\ Error_StackTrace None = Returns [].
Proof. done. Qed.

(** A text is the extended form in one line, where the function is known. *)
Theorem MarshalText_spec f : name f <> UNKNOWN ->
  exists before after, Frame_Format f {| plus := true; sharp := false |} Vv = before +:+ line_break +:+ after /\
    MarshalText f = before +:+ " " +:+ after /\ before = name f.
Proof.
  intros Hn. exists (name f), (file f +:+ ":" +:+ pretty (line f)). unfold MarshalText. rewrite decide_False by done.
  split_and!; [|done..]. cbn [Frame_Format]. unfold format_s. cbn [plus]. by rewrite <- !string_app_assoc.
Qed.

(** The name of a function without its package. *)
Theorem funcname_spec package fn : index_byte "/" package = None -> index_byte "." package = None -> index_byte "/" fn = None ->
  (forall prefix, funcname (prefix +:+ "/" +:+ package +:+ "." +:+ fn) = fn) /\ funcname (package +:+ "." +:+ fn) = fn.
Proof.
  intros Hp Hd Hf. assert (Hfree : index_byte "/" (package +:+ "." +:+ fn) = None).
  { rewrite !index_byte_app_None. by split_and!. }
  assert (Hi : index_byte "." (package +:+ "." +:+ fn) = Some (String.length package)).
  { rewrite index_byte_app_l by done. change ("." +:+ fn) with (String "." fn). cbn [index_byte]. rewrite decide_True by done. cbn. f_equal. lia. }
  assert (Hdrop : sdrop (S (String.length package)) (package +:+ "." +:+ fn) = fn).
  { replace (S (String.length package)) with (String.length (package +:+ ".")) by (rewrite string_length_app; cbn; lia).
    rewrite string_app_assoc. apply sdrop_app. }
  unfold funcname. split.
  - intros prefix. change (prefix +:+ "/" +:+ package +:+ "." +:+ fn) with (prefix +:+ String "/" (package +:+ "." +:+ fn)).
    rewrite split_byte_app, (split_byte_free "/" (package +:+ "." +:+ fn)) by done. rewrite last_snoc. cbn [default]. unfold id. by rewrite Hi, Hdrop.
  - rewrite split_byte_free by done. cbn [last default]. unfold id. by rewrite Hi, Hdrop.
Qed.

End stack.

Example funcname_method : funcname "github.com/yanakipre/bot/internal/semerr.(*Error).Is" = "(*Error).Is".
Proof. reflexivity. Qed.

Lemma funcname_spec_witness : funcname ("github.com/yanakipre/bot/internal" +:+ "/" +:+ "semerr" +:+ "." +:+ "Internal") = "Internal".
Proof. apply (funcname_spec "semerr" "Internal"); reflexivity. Defined.
