(* ===== verification/TestDb.v ===== *)
(** * Databases and containers for tests (internal/testtooling, internal/rdb/rdbtesttooling)

    The names of the databases that tests create, how they are created and dropped, and how the
    address of a container is found. Docker, the name resolver and pgx are parameters. *)
From S2P Require Import Prelude Codes GoErrors Status Decimal.

(** ** Names of databases (postgres.go) *)

Section names.
(** [strings.ToLower]; it takes the letters of ASCII one by one. *)
Context (ToLower : string -> string).

Definition between (lo hi : N) (c : ascii) : bool := ((lo <=? N_of_ascii c) && (N_of_ascii c <=? hi))%N.
(** All the characters except for letters and digits are replaced. *)
Definition name_char (c : ascii) : ascii := if between 97 122 c || between 65 90 c || between 48 57 c then c else "_"%char.
Fixpoint map_string (f : ascii -> ascii) (s : string) : string :=
  match s with "" => "" | String c s' => String (f c) (map_string f s') end.
(** The counter is a uint32 that is added to atomically. *)
(* go: internal/testtooling/postgres.go | func DbName( *)
Definition DbName (dbProject name : string) (testDBIdx : Z) : Z * string :=
  let idx := wrapu 32 (testDBIdx + 1) in
  let name := ToLower ("db" +:+ pretty (Z.to_N idx) +:+ "_" +:+ dbProject +:+ "_" +:+ name) in
  (idx, stake (Nat.min 64 (String.length name)) (map_string name_char name)).

Definition lower (c : ascii) : ascii := if between 65 90 c then ascii_of_N (N_of_ascii c + 32) else c.
Definition is_ascii (s : string) : Prop := map_string (fun c => if (N_of_ascii c <? 128)%N then c else "000"%char) s = s.
Hypothesis ToLower_law : forall s t, is_ascii s -> ToLower (s +:+ t) = map_string lower s +:+ ToLower t.

Lemma map_string_app f s t : map_string f (s +:+ t) = map_string f s +:+ map_string f t.
Proof. induction s as [|c s IH]; [done|]. change (String (f c) (map_string f (s +:+ t)) = String (f c) (map_string f s +:+ map_string f t)). by rewrite IH. Qed.
Lemma map_string_length f s : String.length (map_string f s) = String.length s.
Proof. induction s as [|c s IH]; [done|]. cbn. by rewrite IH. Qed.

(** Digits are left as they are. *)
Lemma digits_kept acc s n f : (forall c, between 48 57 c = true -> f c = c) -> digits acc s = Some n -> map_string f s = s.
Proof.
  intros Hf. revert acc. induction s as [|c s IH]; intros acc; [done|]. cbn [digits map_string]. case_decide as Hc; [|done].
  intros Hd. rewrite (IH _ Hd), Hf; [done|]. unfold between. destruct (N.leb_spec 48 (N_of_ascii c)), (N.leb_spec (N_of_ascii c) 57); (done || lia).
Qed.

Definition db_prefix (idx : N) : string := "db" +:+ pretty idx +:+ "_".

Lemma db_prefix_kept f idx : (forall c, between 48 57 c = true -> f c = c) -> f "d"%char = "d"%char -> f "b"%char = "b"%char -> f "_"%char = "_"%char ->
  map_string f (db_prefix idx) = db_prefix idx.
Proof.
  intros Hd H1 H2 H3. unfold db_prefix. change ("db" +:+ pretty idx +:+ "_") with (String "d" (String "b" (pretty idx +:+ "_"))). cbn [map_string].
  rewrite map_string_app, (digits_kept 0 (pretty idx) idx) by (done || apply digits_pretty). cbn. by rewrite H1, H2, H3.
Qed.

Lemma pretty_length (n : N) : (n < 10 ^ 10)%N -> String.length (pretty n) <= 10.
Proof.
  enough (H : forall k (m : N) s, (m < 10 ^ N.of_nat k)%N -> String.length (pretty_N_go m s) <= k + String.length s).
  { intros Hn. unfold pretty, pretty_N. case_decide; [cbn; lia|]. exact (H 10 n "" Hn). }
  induction k as [|k IH]; intros m s Hm.
  - assert (m = 0%N) as -> by (cbn in Hm; lia). by rewrite pretty_N_go_0.
  - destruct (decide (0 < m)%N) as [Hp|]; [|assert (m = 0%N) as -> by lia; rewrite pretty_N_go_0; lia].
    rewrite pretty_N_go_step by done. etrans; [apply IH|cbn; lia].
    rewrite Nat2N.inj_succ, N.pow_succ_r' in Hm. apply N.Div0.div_lt_upper_bound. lia.
Qed.

Lemma stake_app_ge s t k : String.length s <= k -> stake k (s +:+ t) = s +:+ stake (k - String.length s) t.
Proof.
  revert k. induction s as [|c s IH]; intros k Hk; [change ("" +:+ t) with t; cbn; by rewrite Nat.sub_0_r|]. cbn in Hk. destruct k as [|k]; [lia|].
  change (String c (stake k (s +:+ t)) = String c (s +:+ stake (k - String.length s) t)). by rewrite IH by lia.
Qed.

(** The name begins with its number, whatever the project and the test are called. *)
Lemma DbName_prefix p n i : exists idx rest, (DbName p n i).1 = Z.of_N idx /\ (idx < 2 ^ 32)%N /\ idx = Z.to_N (wrapu 32 (i + 1)) /\
  (DbName p n i).2 = db_prefix idx +:+ rest.
Proof.
  unfold DbName. cbn [fst snd]. pose proof (Z.mod_pos_bound (i + 1) (2 ^ 32) ltac:(lia)) as Hb. unfold wrapu. set (z := ((i + 1) mod 2 ^ 32)%Z) in *.
  set (idx := Z.to_N z). exists idx. set (raw := "db" +:+ pretty idx +:+ "_" +:+ p +:+ "_" +:+ n).
  assert (Hraw : raw = db_prefix idx +:+ (p +:+ "_" +:+ n)) by (unfold raw, db_prefix; by rewrite <- !string_app_assoc).
  assert (Hlow : ToLower raw = db_prefix idx +:+ ToLower (p +:+ "_" +:+ n)).
  { rewrite Hraw, ToLower_law; [f_equal|]; [|unfold is_ascii]; apply db_prefix_kept; try done;
      intros c Hc; unfold lower, between in *; apply andb_true_iff in Hc as [Hc1%N.leb_le Hc2%N.leb_le].
    - destruct (N.leb_spec 65 (N_of_ascii c)); [lia|done].
    - destruct (N.ltb_spec (N_of_ascii c) 128); [done|lia]. }
  assert (Hplen : String.length (db_prefix idx) <= 13).
  { unfold db_prefix. rewrite !string_length_app. assert (String.length (pretty idx) <= 10) by (apply pretty_length; subst idx z; lia). cbn. lia. }
  rewrite Hlow, map_string_app, (db_prefix_kept name_char) by
    (try done; intros c Hc; unfold name_char; rewrite Hc, orb_true_r; done).
  rewrite string_length_app. set (t := map_string name_char _). exists (stake (Nat.min 64 (String.length (db_prefix idx) + String.length (ToLower (p +:+ "_" +:+ n))) - String.length (db_prefix idx)) t).
  split_and!; [subst idx; lia|subst idx z; lia|done|].
  apply stake_app_ge. lia.
Qed.
Lemma pretty_prefix_inj (a b : N) s t : pretty a +:+ String "_" s = pretty b +:+ String "_" t -> a = b.
Proof.
  assert (Hi : forall (n : N) u, index_byte "_" (pretty n +:+ String "_" u) = Some (String.length (pretty n))).
  { intros n u. assert (Hn : index_byte "_" (pretty n) = None).
    { generalize (digits_pretty n). generalize 0%N at 1 as acc. induction (pretty n) as [|c w IH]; intros acc; [done|]. cbn [digits index_byte].
      case_decide as Hd; [|done]. intros Hw. rewrite decide_False by (intros ->; cbn in Hd; lia). by rewrite (IH _ Hw). }
    rewrite index_byte_app_l by done. cbn [index_byte]. rewrite decide_True by done. cbn. by rewrite Nat.add_0_r. }
  intros E. pose proof (Hi a s) as Ha. rewrite E, Hi in Ha. injection Ha as Hlen.
  apply (f_equal (stake (String.length (pretty a)))) in E. rewrite stake_app, <- Hlen, stake_app in E.
  apply (f_equal (digits 0)) in E. rewrite !digits_pretty in E. by injection E.
Qed.

Lemma map_string_stake f k s : map_string f (stake k s) = stake k (map_string f s).
Proof. revert s. induction k as [|k IH]; intros [|c s]; cbn; [done..|]. by rewrite IH. Qed.
Lemma name_char_idemp s : map_string name_char (map_string name_char s) = map_string name_char s.
Proof.
  assert (Hc : forall c, name_char (name_char c) = name_char c) by (intros [[] [] [] [] [] [] [] []]; reflexivity).
  induction s as [|c s IH]; [done|]. cbn. by rewrite Hc, IH.
Qed.

(** Names that are made at different values of the counter differ, whatever the project and the
    test are called and however much is cut off; a name has 64 bytes at most, which are letters,
    digits and underscores. *)
Theorem DbName_distinct p n i q m j : wrapu 32 (i + 1) <> wrapu 32 (j + 1) ->
  (DbName p n i).2 <> (DbName q m j).2 /\ String.length (DbName p n i).2 <= 64 /\
  (DbName p n i).2 = map_string name_char (DbName p n i).2.
Proof.
  intros Hne. split_and!.
  - destruct (DbName_prefix p n i) as (a & r & _ & Ha32 & Ha & ->), (DbName_prefix q m j) as (b & t & _ & Hb32 & Hb & ->).
    intros E. unfold db_prefix in E. rewrite <- !string_app_assoc in E. change ("db" +:+ ?x) with (String "d" (String "b" x)) in E.
    injection E as E. apply pretty_prefix_inj in E. apply Hne. subst a b. unfold wrapu in *.
    pose proof (Z.mod_pos_bound (i + 1) (2 ^ 32) ltac:(lia)). pose proof (Z.mod_pos_bound (j + 1) (2 ^ 32) ltac:(lia)). lia.
  - unfold DbName. cbn [snd]. rewrite stake_length; lia.
  - unfold DbName. cbn [snd]. by rewrite map_string_stake, name_char_idemp.
Qed.
End names.


(** ** Creating and dropping databases (postgres.go) *)

Definition DuplicateDatabase : string := "42P04".

Section databases.
Context {W Cfg PgConn : Type}.
(** pgx: reading a connection string, connecting to a database of a configuration, statements,
    and closing. *)
Context (ParseConfig : string -> result error Cfg).
Context (ConnectConfig : Cfg -> string -> W -> W * result error PgConn) (pg_Exec : PgConn -> string -> W -> W * option error)
  (pg_Close : PgConn -> W -> W * option error) (pg_Query : PgConn -> string -> W -> W * result error (list (result error string)))
  (error_text : error -> string).

(* go: internal/testtooling/postgres.go | const managementPostgresDB *)
Definition managementPostgresDB : string := "postgres".

(** One statement on a connection of its own, which is closed when the statement was executed. *)
Definition exec_and_close (cfg : Cfg) (database query : string) (w : W) : W * option error :=
  match ConnectConfig cfg database w with
  | (w, Err err) => (w, Some err)
  | (w, Ok conn) =>
      match pg_Exec conn query w with
      | (w, Some err) => (w, Some err)
      | (w, None) => pg_Close conn w
      end
  end.
(* go: internal/testtooling/postgres.go | func dbPostgresDrop( *)
Definition dbPostgresDrop (cfg : Cfg) (name : string) : W -> W * option error := exec_and_close cfg managementPostgresDB ("DROP DATABASE " +:+ name).
(* go: internal/testtooling/postgres.go | func dbPostgresCreate( *)
Definition dbPostgresCreate (cfg : Cfg) (name : string) : W -> W * option error := exec_and_close cfg managementPostgresDB ("CREATE DATABASE " +:+ name).

(** The rows up to the first that cannot be scanned. *)
Fixpoint scan_all (rows : list (result error string)) : result error (list string) :=
  match rows with
  | [] => Ok []
  | Err err :: _ => Err err
  | Ok subname :: rows => names ← scan_all rows; Ok (subname :: names)
  end.
Definition does_not_exist (subname : string) (err : error) : bool :=
  has_suffix (error_text err) ("subscription " +:+ String dquote subname +:+ String dquote " does not exist (SQLSTATE 42704)").
(* go: internal/testtooling/postgres.go | for _, subname := range subscriptions { *)
Fixpoint drop_subscriptions (conn : PgConn) (subscriptions : list string) (w : W) : W * option error :=
  match subscriptions with
  | [] => (w, None)
  | subname :: subscriptions' =>
      match pg_Exec conn ("ALTER SUBSCRIPTION " +:+ subname +:+ " DISABLE") w with
      | (w, Some err) => if does_not_exist subname err then drop_subscriptions conn subscriptions' w else (w, Some err)
      | (w, None) =>
          match pg_Exec conn ("ALTER SUBSCRIPTION " +:+ subname +:+ " SET (slot_name = NONE)") w with
          | (w, Some err) => (w, Some err)
          | (w, None) =>
              match pg_Exec conn ("DROP SUBSCRIPTION " +:+ subname) w with
              | (w, Some err) => (w, Some err)
              | (w, None) => drop_subscriptions conn subscriptions' w
              end
          end
      end
  end.
(* go: internal/testtooling/postgres.go | func dbPostgresDropSubscriptions( *)
Definition dbPostgresDropSubscriptions (cfg : Cfg) (name : string) (w : W) : W * option error :=
  match ConnectConfig cfg name w with
  | (w, Err err) => (w, Some err)
  | (w, Ok conn) =>
      match pg_Query conn "SELECT subname FROM pg_subscription" w with
      | (w, Err err) => (w, Some err)
      | (w, Ok rows) =>
          match scan_all rows with
          | Err err => (w, Some err)
          | Ok subscriptions =>
              match drop_subscriptions conn subscriptions w with
              | (w, Some err) => (w, Some err)
              | (w, None) => pg_Close conn w
              end
          end
      end
  end.

(** The connection string with another database: the part after the third slash. *)
(* go: internal/testtooling/postgres.go | connStrParts := strings.Split | L59-L61 *)
Definition with_database (dsn dbName : string) : outcome string :=
  let connStrParts := split_byte "/" dsn in
  if decide (3 < length connStrParts) then Returns (join "/" (<[3 := dbName]> connStrParts)) else Panics index_out_of_range.

(** [Ready] and [Close] of the database of RdbOpen.v. *)
Context {DB : Type} (rdb_New : string -> DB) (rdb_Ready : DB -> W -> W * (DB * option error)) (rdb_Close : DB -> W -> W * option error).
Record setup := { s_db : DB; s_conn : Cfg; s_name : string }.
(* go: internal/testtooling/postgres.go | func SetupDBWithName( *)
Definition SetupDBWithName (dsn dbName : string) (w : W) : W * outcome (option setup * option error) :=
  match with_database dsn dbName with
  | Panics why => (w, Panics why)
  | Returns dsn =>
      match ParseConfig dsn with
      | Err err => (w, Returns (None, Some err))
      | Ok connCfg =>
          let go_on w :=
            let '(w, (db, err)) := rdb_Ready (rdb_New dsn) w in
            (w, Returns (Some {| s_db := db; s_conn := connCfg; s_name := dbName |}, err)) in
          match dbPostgresCreate connCfg dbName w with
          | (w, None) => go_on w
          | (w, Some err) =>
              match As as_pg err with
              | Some code => if decide (code = DuplicateDatabase) then go_on w else (w, Returns (None, Some err))
              | None => (w, Returns (None, Some err))
              end
          end
      end
  end.
(* go: internal/testtooling/postgres.go | teardown := func() error { *)
Definition teardown (s : setup) (w : W) : W * option error :=
  match rdb_Close (s_db s) w with
  | (w, Some err) => (w, Some err)
  | (w, None) =>
      match dbPostgresDropSubscriptions (s_conn s) (s_name s) w with
      | (w, Some err) => (w, Some err)
      | (w, None) => dbPostgresDrop (s_conn s) (s_name s) w
      end
  end.

(** The database of a connection string is replaced, with the options after it. *)
Theorem with_database_spec scheme host database dbName : index_byte "/" scheme = None -> index_byte "/" host = None -> index_byte "/" database = None ->
  with_database (scheme +:+ "//" +:+ host +:+ "/" +:+ database) dbName = Returns (scheme +:+ "//" +:+ host +:+ "/" +:+ dbName) /\
  with_database (scheme +:+ "//" +:+ host) dbName = Panics index_out_of_range.
Proof.
  intros Hs Hh Hd. unfold with_database.
  assert (E : forall t, split_byte "/" (scheme +:+ "//" +:+ t) = scheme :: "" :: split_byte "/" t).
  { intros t. change (scheme +:+ "//" +:+ t) with (scheme +:+ String "/" (String "/" t)). rewrite split_byte_app, (split_byte_free "/" scheme) by done. done. }
  split; rewrite E.
  - change (host +:+ "/" +:+ database) with (host +:+ String "/" database). rewrite split_byte_app, !split_byte_free by done. cbn -[String.append]. done.
  - by rewrite split_byte_free.
Qed.

(** A database that exists already is used as it is; but the connection that found it out is
    never closed. *)
Theorem exists_already dsn dsn' dbName c conn w w1 w2 code msg : with_database dsn dbName = Returns dsn' -> ParseConfig dsn' = Ok c ->
  ConnectConfig c managementPostgresDB w = (w1, Ok conn) ->
  pg_Exec conn ("CREATE DATABASE " +:+ dbName) w1 = (w2, Some (Leaf (LPgError code msg))) ->
  SetupDBWithName dsn dbName w =
    if decide (code = DuplicateDatabase)
    then let '(w3, (db, err)) := rdb_Ready (rdb_New dsn') w2 in (w3, Returns (Some {| s_db := db; s_conn := c; s_name := dbName |}, err))
    else (w2, Returns (None, Some (Leaf (LPgError code msg)))).
Proof.
  intros Hd Hp Hc He. unfold SetupDBWithName, dbPostgresCreate, exec_and_close. rewrite Hd, Hp, Hc, He. cbn. by case_decide.
Qed.
End databases.

(** ** Addresses of containers (container/container.go) *)

Section address.
Context {W : Type}.
(* go: internal/testtooling/container/address.go | type Address struct *)
Record Address := { host : string; port : string; proto : string }.
(* go: internal/testtooling/container/address.go | func NewAddress( *)
Definition NewAddress (host port proto : string) : Address := {| host := host; port := port; proto := proto |}.
(* go: internal/testtooling/container/address.go | func (a Address) String() *)
Definition Address_String (a : Address) : string := proto a +:+ "://" +:+ host a +:+ ":" +:+ port a.
(* go: internal/testtooling/container/address.go | func (a Address) StringWithoutProto() *)
Definition StringWithoutProto (a : Address) : string := host a +:+ ":" +:+ port a.

(* go: internal/testtooling/container/container.go | func isIPv6( *)
Definition isIPv6 (address : string) : bool := 2 <=? length (split_byte ":" address) - 1.

(** A port with its protocol, and where it is bound on the host. *)
Record nat_Port := { p_port : string; p_proto : string }.
Record PortBinding := { HostIP : string; HostPort : string }.
(** The ports of a container, in the order the map is ranged over. *)
(* go: internal/testtooling/container/container.go | func mappedPorts( *)
Definition mappedPorts (Ports : result error (list (nat_Port * list PortBinding))) (p : nat_Port) : result error (list PortBinding) :=
  ports ← Ports;
  match list_find (fun kp => p_port kp.1 = p_port p /\ (p_proto p = "" \/ p_proto kp.1 = p_proto p) /\ kp.2 <> []) ports with
  | Some (_, (_, bindings)) => Ok bindings
  | None => Err (Leaf (LText "port not found"))
  end.

(** The host of the container; whether a text is an address and how that is printed; the
    addresses of a name. *)
Context (ParseIP : string -> option string) (LookupIP : string -> result error (list string)).
(* go: internal/testtooling/container/container.go | // Check if host is a dns name | L51-L69 *)
Definition resolve (h : string) (ipv6 : bool) : result error string :=
  match ParseIP h with
  | Some addr => Ok addr
  | None =>
      match LookupIP h with
      | Err err => Err (Wrap (WText "error getting ip address") err)
      | Ok ips =>
          match list_find (fun ip => isIPv6 ip = ipv6) ips with
          | Some (_, addr) => Ok addr
          | None => Err (Leaf (LText ("error resolving address: " +:+ h +:+ ", ipv6: " +:+ (if ipv6 then "true" else "false"))))
          end
      end
  end.
(* go: internal/testtooling/container/container.go | // portEndpoint replaces *)
Definition portEndpoint (Host : result error string) (Ports : result error (list (nat_Port * list PortBinding))) (p : nat_Port) (ipv6 : bool)
    : result error Address :=
  h ← Host;
  addr ← resolve h ipv6;
  match mappedPorts Ports p with
  | Err err => Err (Wrap (WText "cannot found mapped port") err)
  | Ok ports =>
      match list_find (fun b => isIPv6 (HostIP b) = ipv6) ports with
      | Some (_, b) => Ok (NewAddress addr (HostPort b) (p_proto p))
      | None => Err (Leaf (LText ("port not found, ipv6: " +:+ (if ipv6 then "true" else "false"))))
      end
  end.

(** What is found is a binding of the port that was asked for, on an address of the family that
    was asked for; of a host that is given by name also the address is of that family. *)
Theorem portEndpoint_spec h ports p ipv6 a : portEndpoint (Ok h) (Ok ports) p ipv6 = Ok a ->
  (exists k bindings b, (k, bindings) ∈ ports /\ p_port k = p_port p /\ (p_proto p = "" \/ p_proto k = p_proto p) /\
     b ∈ bindings /\ isIPv6 (HostIP b) = ipv6 /\ port a = HostPort b) /\
  (ParseIP h = None -> isIPv6 (host a) = ipv6) /\ (forall ip, ParseIP h = Some ip -> host a = ip).
Proof.
  unfold portEndpoint, mbind, result_bind. destruct (resolve h ipv6) as [addr|] eqn:Er; [|done].
  destruct (mappedPorts (Ok ports) p) as [bindings|] eqn:Em; [|done]. destruct (list_find _ bindings) as [[j b]|] eqn:Eb; [|done].
  intros [= <-]. cbn. apply list_find_Some in Eb as (Hb & Hfam & _). split.
  - unfold mappedPorts, mbind, result_bind in Em. destruct (list_find _ ports) as [[i [k bs]]|] eqn:Ek; [|done]. injection Em as ->.
    apply list_find_Some in Ek as (Hk & (Hport & Hproto & _) & _).
    exists k, bindings, b. split_and!; try done; by eapply list_elem_of_lookup_2.
  - unfold resolve in Er. destruct (ParseIP h) as [ip|]; [split; [done|congruence]|]. split; [|done]. intros _.
    destruct (LookupIP h) as [ips|e]; [|done]. destruct (list_find _ ips) as [[i ip]|] eqn:Ei; [|done]. injection Er as <-.
    by apply list_find_Some in Ei as (_ & Hip & _).
Qed.
End address.

Lemma DbName_distinct_witness :
  (DbName (map_string lower) "public" "TestA/b" 6).2 <> (DbName (map_string lower) "public" "TestA/b" 7).2 /\
  String.length (DbName (map_string lower) "public" "TestA/b" 6).2 <= 64 /\
  (DbName (map_string lower) "public" "TestA/b" 6).2 = map_string name_char (DbName (map_string lower) "public" "TestA/b" 6).2.
Proof.
  apply (DbName_distinct (map_string lower)); [|vm_compute; discriminate].
  intros s t _. apply map_string_app.
Defined.
Example DbName_demo : (DbName (map_string lower) "public" "TestA/b" 6).2 = "db7_public_testa_b".
Proof. vm_compute. reflexivity. Qed.
