(* ===== verification/OpenApi.v ===== *)
(** * Answers of an API (internal/openapiapp: errors.go, openapi.go, healthhandler.go)

    How an error is written as a response, and how the server of an application starts and
    stops. What an error becomes is the presentation of Presenter.v; here it is a parameter. *)
From S2P Require Import Prelude Codes GoErrors Semerr.
From S2P Require Import Http Middleware.

Section answers.
Context {X : Xerrors} {T : Type}.
(** The presented error: its status and its response, which may not be printable as JSON. *)
(* go: internal/openapiapp/errors.go | type GeneralErrorStatusCode[T any] interface *)
Record GeneralErrorStatusCode := { GetStatusCode : Z; GetResponse : T }.
Context (newError : Ctx -> error -> GeneralErrorStatusCode) (MarshalJSON : T -> result error string).

(** A value that cannot be printed is written as nothing, after the status. *)
(* go: internal/openapiapp/errors.go | // ErrorHandler allows presenters *)
Definition ErrorHandler_ : ErrorHandler := fun w appErr '(r, s) =>
  let ctx := Context_ r in
  let generalError := newError ctx appErr in
  let s := writer_Set "Content-Type" "application/json" s in
  andThen (let '(s, e) := WriteHeader w (GetStatusCode generalError) s in ((r, s), e)) (fun '(r, s) =>
    match MarshalJSON (GetResponse generalError) with
    | Ok marshal => ((r, Write marshal s), Done)
    | Err err =>
        ((r, Write "" (emit [LogError ctx (Wrap (WFields [StringField "app_err" (error_text appErr)])
                                             (Wrap (WText "cannot marshal err to JSON") err))] s)), Done)
    end).
(* go: internal/openapiapp/errors.go | // NotFound return *)
Definition NotFound (h : ErrorHandler) : Handler := fun w st => h w (to_error (semerr.NotFound "this route does not exist" [])) st.

Lemma WriteHeader_resp w code s : final_code code -> sent (resp s) = None ->
  exists s', WriteHeader w code s = (s', Done) /\
    resp s' = MkResponse (Some (code, resp_header (resp s))) (resp_header (resp s)) (body (resp s)).
Proof.
  intros Hc. revert s. induction w as [|p w IH]; intros s Hs; cbn [WriteHeader].
  - unfold conn_WriteHeader. rewrite Hs. unfold final_code in Hc. rewrite !decide_False by lia. eexists. by split.
  - apply (IH (set_lrws (<[p:=code]> (lrws s)) s)). done.
Qed.

Lemma Write_resp data s code h : sent (resp s) = Some (code, h) ->
  resp (Write data s) = MkResponse (Some (code, h)) (resp_header (resp s)) (body (resp s) +:+ data).
Proof. intros Hs. unfold Write, conn_WriteHeader. rewrite Hs. cbn. by rewrite Hs. Qed.

(** An error is answered with the status it is presented with, as JSON; if its text cannot be
    made, the status is sent with an empty body. *)
Theorem ErrorHandler_spec w err r s : sent (resp s) = None -> body (resp s) = "" ->
  let g := newError (Context_ r) err in final_code (GetStatusCode g) ->
  exists s', ErrorHandler_ w err (r, s) = ((r, s'), Done) /\
    (exists h, sent (resp s') = Some (GetStatusCode g, h) /\ Header_Get "Content-Type" h = "application/json") /\
    body (resp s') = match MarshalJSON (GetResponse g) with Ok text => text | Err _ => "" end.
Proof.
  intros Hs Hb g Hc. unfold ErrorHandler_. fold g. cbn zeta.
  destruct (WriteHeader_resp w (GetStatusCode g) (writer_Set "Content-Type" "application/json" s) Hc Hs) as (s1 & -> & H1).
  cbn [andThen]. assert (Hs1 : forall s2, resp s2 = resp s1 -> sent (resp s2) = Some (GetStatusCode g, Header_Set "Content-Type" "application/json" (resp_header (resp s))))
    by (intros s2 ->; by rewrite H1).
  assert (Hw : forall s2 data, resp s2 = resp s1 -> (exists h, sent (resp (Write data s2)) = Some (GetStatusCode g, h) /\
    Header_Get "Content-Type" h = "application/json") /\ body (resp (Write data s2)) = data).
  { intros s2 data E. rewrite (Write_resp data s2 _ _ (Hs1 s2 E)), E, H1. cbn. rewrite Hb. split; [|done]. eexists. split; [done|]. apply Get_Set. }
  destruct (MarshalJSON (GetResponse g)) as [text|e]; (eexists; split; [reflexivity|]); by apply Hw.
Qed.
End answers.

(** A service whose health cannot be determined answers the status 200, with an empty body. *)
Theorem unhealthy_is_200 {V} (getHealth : Ctx -> result error V) marshal w r s err : sent (resp s) = None -> body (resp s) = "" ->
  getHealth (Context_ r) = Err err ->
  exists s', healthCheckHandler getHealth marshal w (r, s) = ((r, s'), Done) /\ status_sent s' = 200%Z /\ body (resp s') = "".
Proof. intros Hs Hb He. unfold healthCheckHandler. rewrite He. eexists. split; [reflexivity|]. unfold status_sent. cbn. by rewrite Hs. Qed.

(** ** The server of an application (openapi.go) *)

Section server.
Context {W : Type} (Name : string).
(** [ListenAndServe] and [Shutdown] of package net/http; the error of the context of a shutdown. *)
Context (ListenAndServe : W -> W * option error) (server_Shutdown : W -> W * option error) (ctx_Err : W -> option leaf).
Definition ErrServerClosed : leaf := LNew 30 "http: Server closed".
(** The error itself, not one that wraps it. *)
Definition is_server_closed (err : error) : bool := match err with Leaf l => bool_decide (l = ErrServerClosed) | _ => false end.
(** What is logged; the process ends after a fatal line. *)
Inductive server_event := EInfo (msg : string) | EFatal (msg : string) (err : error) | EError (err : error).

(* go: internal/openapiapp/openapi.go | func (a *App) StartServer( *)
Definition StartServer (addr : string) (w : W) : W * list server_event :=
  let starting := EInfo ("starting " +:+ String dquote Name +:+ String dquote " on: " +:+ addr) in
  match ListenAndServe w with
  | (w, Some err) =>
      if is_server_closed err then (w, [starting])
      else (w, [starting; EFatal (String dquote Name +:+ String dquote " error") err])
  | (w, None) => (w, [starting])
  end.
(** [errors.Is] of a nil target is true only for a nil error. *)
(* go: internal/openapiapp/openapi.go | func (a *App) ShutdownServer( *)
Definition ShutdownServer (w : W) : W * list server_event :=
  match server_Shutdown w with
  | (w, Some err) =>
      if match ctx_Err w with Some e => Is e err | None => false end then (w, [])
      else (w, [EError (Wrap (WFields [StringField "server" Name]) (Wrap (WText "could not shutdown server") err))])
  | (w, None) => (w, [])
  end.

(** A shutdown that ran into its deadline is not reported. *)
Theorem ShutdownServer_spec w w' err : server_Shutdown w = (w', Some err) ->
  ((ShutdownServer w).2 = [] <-> exists e, ctx_Err w' = Some e /\ Is e err = true).
Proof.
  intros Hs. unfold ShutdownServer. rewrite Hs. destruct (ctx_Err w') as [e|].
  - destruct (Is e err) eqn:E; cbn; [split; [by exists e|done]|]. split; [done|]. intros (? & [= <-] & ?). congruence.
  - cbn. split; [done|]. by intros (? & ? & _).
Qed.

(** A server that is shut down on purpose does not end the process. *)
Theorem StartServer_spec addr w w' err : ListenAndServe w = (w', Some err) ->
  ((exists msg e, EFatal msg e ∈ (StartServer addr w).2) <-> err <> Leaf ErrServerClosed).
Proof.
  intros Hl. unfold StartServer. rewrite Hl.
  assert (Hc : is_server_closed err = true <-> err = Leaf ErrServerClosed).
  { destruct err as [l|wr e|es]; cbn; [rewrite bool_decide_eq_true|..]; naive_solver. }
  destruct (is_server_closed err) eqn:Hd; cbn.
  - split; [intros (msg & e & [?|?%not_elem_of_nil]%elem_of_cons); done|]. intros Hne. by destruct Hne; apply Hc.
  - split; [intros _ E; apply Hc in E; done|]. intros _. do 2 eexists. right. by left.
Qed.
End server.
