(* ===== verification/YamlStruct.v ===== *)
(** * YAML from structs (internal/yamlfromstruct)

    A value is marshalled to JSON, the keys of its objects are turned to snake case by a regular
    expression over the text, and the result is converted to YAML. The encoding of the value,
    the indentation and the conversion to YAML are parameters; the theorem says that the
    expression changes the keys of the objects and nothing else. *)
From S2P Require Import Prelude GoErrors Dsn Texts Casing.

Definition backslash : ascii := "\"%char.
Definition dq : string := String dquote "".

(** A word character of a regular expression. *)
Definition word_char (c : ascii) : bool :=
  let n := N_of_ascii c in ((48 <=? n) && (n <=? 57) || (65 <=? n) && (n <=? 90) || (97 <=? n) && (n <=? 122) || (n =? 95))%N.
Fixpoint take_word (s : string) : string :=
  match s with "" => "" | String c s' => if word_char c then String c (take_word s') else "" end.

(** A match of [keyMatchRegex] at the beginning of a text: the word between the quotes. *)
(* go: internal/yamlfromstruct/yamlfromstruct.go | var keyMatchRegex *)
Definition key_at (s : string) : option string :=
  match s with
  | String c s' =>
      if decide (c = dquote) then
        let k := take_word s' in
        if negb (bool_decide (k = "")) && has_prefix (sdrop (String.length k) s') (dq +:+ ":") then Some k else None
      else None
  | "" => None
  end.

(** [CamelToSnake] of a word, whose characters are bytes. *)
Fixpoint bytes_of (t : text) : string := match t with [] => "" | r :: t' => String (ascii_of_N r) (bytes_of t') end.
Definition snake_word (k : string) : string := bytes_of (CamelToSnake isUpper ascii_lower ascii_to_lower (runes k)).

(** [ReplaceAllFunc]: matches are found from left to right and do not overlap; [skip] bytes of
    the last match are still to be passed over. The function that replaces a match takes the
    word out of the quotes. *)
(* go: internal/yamlfromstruct/yamlfromstruct.go | converted := keyMatchRegex.ReplaceAllFunc( *)
Fixpoint convert_keys (skip : nat) (s : string) : string :=
  match s with
  | "" => ""
  | String c s' =>
      match skip with
      | S n => convert_keys n s'
      | 0 =>
          match key_at s with
          | Some k => (dq +:+ snake_word k +:+ dq +:+ ":") +:+ convert_keys (String.length k + 2) s'
          | None => String c (convert_keys 0 s')
          end
      end
  end.

Section generate.
Context {T : Type} (Marshal : T -> result error string) (Indent : string -> result error string)
  (JSONToYAML : string -> result error string).

(* go: internal/yamlfromstruct/yamlfromstruct.go | func (c conventionalMarshaller) MarshalJSON() *)
Definition MarshalJSON (v : T) : result error string := marshalled ← Marshal v; Ok (convert_keys 0 marshalled).

(** [logger.Fatal] ends the program. *)
Inductive generated := Generated (yaml : string) | Fatal (msg : string) (err : error).
(** [MarshalIndent] checks and indents what [MarshalJSON] gives. *)
(* go: internal/yamlfromstruct/yamlfromstruct.go | // Generate returns YAML *)
Definition Generate (s : T) : generated :=
  match (b ← MarshalJSON s; Indent b) with
  | Err err => Fatal "failed to marshal request to json" err
  | Ok bytes =>
      match JSONToYAML bytes with
      | Err err => Fatal "failed to marshal json to yaml" err
      | Ok toYAML => Generated toYAML
      end
  end.
End generate.

(** ** JSON as encoding/json writes it *)

(** A value; the texts of strings and keys are as they are written, with their escapes. *)
Inductive json := JLit (s : string) | JStr (b : string) | JArr (l : list json) | JObj (l : list (string * json)).

Definition quote (b : string) : string := dq +:+ b +:+ dq.
Fixpoint print (j : json) : string :=
  match j with
  | JLit s => s
  | JStr b => quote b
  | JArr l => "[" +:+ join "," (map print l) +:+ "]"
  | JObj l => "{" +:+ join "," (map (fun kv => quote kv.1 +:+ ":" +:+ print kv.2) l) +:+ "}"
  end.

(** What may be between the quotes: bytes that are neither quotes nor backslashes, and escapes. *)
Inductive body : string -> Prop :=
| body_nil : body ""
| body_char c s : c <> dquote -> c <> backslash -> body s -> body (String c s)
| body_escape c s : body s -> body (String backslash (String c s)).

Fixpoint well_formed (j : json) : Prop :=
  match j with
  | JLit s => index_byte dquote s = None
  | JStr b => body b
  | JArr l => fold_right (fun j P => well_formed j /\ P) True l
  | JObj l => fold_right (fun kv P => body kv.1 /\ well_formed kv.2 /\ P) True l
  end.

(** How a key is changed: if it is a word; else if what follows its last escaped quote is one. *)
Definition is_word (s : string) : bool := negb (bool_decide (s = "")) && bool_decide (take_word s = s).
Fixpoint rename_tail (b : string) : string :=
  match b with
  | "" => ""
  | String c s =>
      if decide (c = backslash) then
        match s with
        | String d s' => String c (String d (if bool_decide (d = dquote) && is_word s' then snake_word s' else rename_tail s'))
        | "" => b
        end
      else String c (rename_tail s)
  end.
Definition rename_key (b : string) : string := if is_word b then snake_word b else rename_tail b.
Fixpoint rename (j : json) : json :=
  match j with
  | JLit s => JLit s
  | JStr b => JStr b
  | JArr l => JArr (map rename l)
  | JObj l => JObj (map (fun kv => (rename_key kv.1, rename kv.2)) l)
  end.

(** ** The expression on a text *)

Lemma append_cons c s t : String c s +:+ t = String c (s +:+ t).
Proof. done. Qed.

Lemma skip_over p n s : String.length p = n -> convert_keys n (p +:+ s) = convert_keys 0 s.
Proof.
  revert n. induction p as [|c p IH]; intros n; cbn [String.length]; [by intros <-|]. intros <-. rewrite append_cons. cbn [convert_keys]. by apply IH.
Qed.

Lemma key_at_other c s : c <> dquote -> key_at (String c s) = None.
Proof. intros H. unfold key_at. by rewrite decide_False. Qed.

Lemma copy c s : c <> dquote -> convert_keys 0 (String c s) = String c (convert_keys 0 s).
Proof. intros H. cbn [convert_keys]. by rewrite key_at_other. Qed.

Lemma copy_all p s : index_byte dquote p = None -> convert_keys 0 (p +:+ s) = p +:+ convert_keys 0 s.
Proof.
  induction p as [|c p IH]; [done|]. cbn [index_byte]. case_decide as Hc; [done|]. intros H. destruct (index_byte dquote p); [done|].
  rewrite !append_cons, copy by done. by rewrite IH.
Qed.

(** What follows a text between quotes. *)
Definition colon_follows (t : string) : bool := match t with String c _ => bool_decide (c = ":"%char) | "" => false end.

Lemma take_word_prefix s : has_prefix s (take_word s) = true.
Proof. induction s as [|c s IH]; [done|]. cbn. destruct (word_char c); [cbn; by rewrite bool_decide_true|done]. Qed.

Lemma take_word_body b t : body b ->
  take_word (b +:+ String dquote t) = take_word b /\
  (take_word b <> b -> has_prefix (sdrop (String.length (take_word b)) (b +:+ String dquote t)) (dq +:+ ":") = false).
Proof.
  induction 1 as [|c s H1 H2 Hs [IH1 IH2]|c s Hs [IH1 IH2]].
  - done.
  - rewrite append_cons. cbn [take_word]. destruct (word_char c).
    + rewrite IH1. split; [done|]. intros H. cbn [String.length sdrop]. apply IH2. congruence.
    + split; [done|]. intros _. change (dq +:+ ":") with (String dquote (String ":" "")). cbn. by rewrite bool_decide_false by congruence.
  - by rewrite append_cons.
Qed.

Lemma key_at_body b t : body b -> key_at (String dquote (b +:+ String dquote t)) = if is_word b && colon_follows t then Some b else None.
Proof.
  intros Hb. destruct (take_word_body b t Hb) as [E Hn]. unfold key_at, is_word. rewrite decide_True by done. cbv zeta. rewrite E.
  destruct (decide (take_word b = b)) as [Ew|Ew].
  - rewrite Ew, (bool_decide_true (b = b)) by done. rewrite sdrop_app, andb_true_r. destruct (negb _); [|done]. cbn [andb].
    change (dq +:+ ":") with (String dquote (String ":" "")). cbn.
    destruct t as [|c t]; [done|]. cbn. destruct (decide (c = ":"%char)) as [->|Hc]; [cbn; by destruct t|].
    rewrite (bool_decide_false (":"%char = c)), (bool_decide_false (c = ":"%char)) by congruence. by rewrite andb_false_r.
  - rewrite Hn by done. rewrite (bool_decide_false (take_word b = b)) by done. by rewrite !andb_false_r.
Qed.

(** After a quote that opens, or is escaped: the rest of a body, its closing quote and more. *)
Lemma convert_at b t : body b ->
  (forall c s, t = String c s -> word_char c = false) ->
  convert_keys 0 (b +:+ String dquote t) = (if colon_follows t then rename_tail b else b) +:+ String dquote (convert_keys 0 t) ->
  convert_keys 0 (String dquote (b +:+ String dquote t)) = String dquote ((if colon_follows t then rename_key b else b) +:+ String dquote (convert_keys 0 t)).
Proof.
  intros Hb Ht IH. cbn [convert_keys]. rewrite key_at_body by done. unfold rename_key. destruct (is_word b) eqn:Ew; cbn [andb].
  - destruct (colon_follows t) eqn:Ec; [|by rewrite IH].
    destruct t as [|c t]; [done|]. cbn in Ec. apply bool_decide_eq_true in Ec as ->.
    change (String dquote (String ":" t)) with ((dq +:+ ":") +:+ t). rewrite (string_app_assoc b), (skip_over (b +:+ (dq +:+ ":"))) by (rewrite string_length_app; done).
    rewrite (copy ":"%char) by done. rewrite <- !string_app_assoc. done.
  - by rewrite IH; destruct (colon_follows t).
Qed.

Lemma convert_body b t : body b -> (forall c s, t = String c s -> word_char c = false) ->
  convert_keys 0 (b +:+ String dquote t) = (if colon_follows t then rename_tail b else b) +:+ String dquote (convert_keys 0 t).
Proof.
  intros Hb Ht. remember (String.length b) as n eqn:Hn. revert b Hb Hn. induction (lt_wf n) as [n _ IH]. intros b Hb ->.
  destruct Hb as [|c s H1 H2 Hs|c s Hs].
  - change ("" +:+ ?x) with x. destruct (colon_follows t); (change (rename_tail "" +:+ ?x) with x || change ("" +:+ ?x) with x);
      cbn [convert_keys]; (replace (key_at (String dquote t)) with (@None string); [done|]);
      unfold key_at; rewrite decide_True by done; cbv zeta; (destruct t as [|c t]; [done|]); cbn [take_word]; by rewrite (Ht c t).
  - rewrite append_cons, copy by done. rewrite (IH (String.length s)) by (done || cbn; lia). cbn [rename_tail]. rewrite decide_False by done. by destruct (colon_follows t).
  - rewrite append_cons, copy by done. rewrite append_cons. cbn [rename_tail]. rewrite decide_True by done.
    assert (I : convert_keys 0 (s +:+ String dquote t) = (if colon_follows t then rename_tail s else s) +:+ String dquote (convert_keys 0 t))
      by (apply (IH (String.length s)); [cbn; lia|done|done]).
    destruct (decide (c = dquote)) as [->|Hc].
    + rewrite (convert_at s t Hs Ht I). rewrite bool_decide_true by done. unfold rename_key. destruct (colon_follows t), (is_word s); done.
    + rewrite copy by done. rewrite bool_decide_false by done. rewrite I. by destruct (colon_follows t).
Qed.

Lemma convert_quoted b t : body b -> (forall c s, t = String c s -> word_char c = false) ->
  convert_keys 0 (quote b +:+ t) = quote (if colon_follows t then rename_key b else b) +:+ convert_keys 0 t.
Proof.
  intros Hb Ht. unfold quote. rewrite <- !string_app_assoc. change (dq +:+ ?x) with (String dquote x).
  apply convert_at; [done..|]. by apply convert_body.
Qed.

(** ** The expression on JSON *)

(** What follows a value: nothing, or a byte that is neither a colon nor of a word. *)
Definition after_value (t : string) : Prop := colon_follows t = false /\ forall c s, t = String c s -> word_char c = false.
Definition converts (p q : string) : Prop := forall t, after_value t -> convert_keys 0 (p +:+ t) = q +:+ convert_keys 0 t.

Lemma after_byte c t : word_char c = false -> c <> ":"%char -> after_value (String c t).
Proof. intros H1 H2. split; [cbn; by rewrite bool_decide_false|]. intros c' s' [= <- <-]. done. Qed.

(** Converted values between commas. *)
Lemma converts_join ps qs : Forall2 converts ps qs -> converts (join "," ps) (join "," qs).
Proof.
  intros H t Ht. induction H as [|p q ps qs Hp Hps IH]; [done|]. destruct Hps as [|p2 q2 ps qs Hp2 Hps].
  - by apply Hp.
  - change (join "," (p :: p2 :: ps)) with (p +:+ "," +:+ join "," (p2 :: ps)). change (join "," (q :: q2 :: qs)) with (q +:+ "," +:+ join "," (q2 :: qs)).
    rewrite <- !string_app_assoc. change ("," +:+ ?x) with (String "," x). rewrite Hp by by apply after_byte. rewrite copy by done. by rewrite IH.
Qed.

Lemma converts_within c d p q : index_byte dquote (String c (String d "")) = None -> word_char d = false -> d <> ":"%char -> converts p q ->
  converts (String c "" +:+ p +:+ String d "") (String c "" +:+ q +:+ String d "").
Proof.
  intros Hcd Hw Hd Hp t Ht. rewrite <- !string_app_assoc. change (String c "" +:+ ?x) with (String c x). change (String d "" +:+ ?x) with (String d x).
  cbn [index_byte] in Hcd. case_decide; [done|]. case_decide; [done|]. rewrite copy by done. rewrite Hp by by apply after_byte. by rewrite copy.
Qed.

Lemma converts_field b p q : body b -> converts p q -> converts (quote b +:+ ":" +:+ p) (quote (rename_key b) +:+ ":" +:+ q).
Proof.
  intros Hb Hp t Ht. rewrite <- !string_app_assoc. change (":" +:+ ?x) with (String ":" x).
  rewrite convert_quoted; [|done|intros c s [= <- <-]; done]. cbn [colon_follows]. rewrite bool_decide_true by done. rewrite copy by done. by rewrite Hp.
Qed.

Lemma converts_print : forall j, well_formed j -> converts (print j) (print (rename j)).
Proof.
  fix IH 1. intros [s|b|l|l] Hj; cbn [print rename well_formed] in *.
  - intros t _. by apply copy_all.
  - intros t [Hc Ht]. rewrite convert_quoted by done. by rewrite Hc.
  - apply (converts_within "["%char "]"%char); [done..|]. apply converts_join. rewrite map_map.
    induction l as [|j l IHl]; constructor; [apply IH, Hj|apply IHl, Hj].
  - apply (converts_within "{"%char "}"%char); [done..|]. apply converts_join. rewrite map_map.
    induction l as [|[k j] l IHl]; cbn [map fst snd]; constructor; [apply converts_field; [apply Hj|apply IH, Hj]|apply IHl, Hj].
Qed.

(** C31. On what encoding/json writes for a value, the expression does exactly what it is meant for:
    the keys of all objects are turned to snake case, at every depth, and no string, number or
    bracket is touched, whatever the strings hold. (A key that is not a word is only changed
    after its last escaped quote.) *)
Theorem only_keys_change (j : json) : well_formed j -> convert_keys 0 (print j) = print (rename j).
Proof.
  intros Hj. rewrite <- (string_app_nil_r (print j)). rewrite (converts_print j Hj) by (split; [done|by intros]).
  change (convert_keys 0 "") with "". apply string_app_nil_r.
Qed.

(** A value is generated if it can be marshalled, and its text with the converted keys can be
    indented and converted; otherwise the program ends. *)
Theorem Generate_spec {T} (Marshal : T -> result error string) Indent JSONToYAML v j : Marshal v = Ok (print j) -> well_formed j ->
  Generate Marshal Indent JSONToYAML v =
    match Indent (print (rename j)) with
    | Err err => Fatal "failed to marshal request to json" err
    | Ok b => match JSONToYAML b with Err err => Fatal "failed to marshal json to yaml" err | Ok y => Generated y end
    end.
Proof. intros Hm Hj. unfold Generate, MarshalJSON. rewrite Hm. unfold mbind, result_bind. by rewrite only_keys_change. Qed.

(** ** Examples *)

Definition demo_json : json :=
  JObj [("UserID", JLit "7"); ("Note", JStr ("say \" +:+ dq +:+ "HelloWorld\" +:+ dq +:+ ": twice"));
        ("Tags", JArr [JObj [("not-AWord", JLit "null"); ("", JStr "X")]; JStr "KeepMe"])].

Lemma only_keys_change_witness : convert_keys 0 (print demo_json) = print (
  JObj [("user_id", JLit "7"); ("note", JStr ("say \" +:+ dq +:+ "HelloWorld\" +:+ dq +:+ ": twice"));
        ("tags", JArr [JObj [("not-AWord", JLit "null"); ("", JStr "X")]; JStr "KeepMe"])]).
Proof.
  apply (only_keys_change demo_json). cbn. split_and!; repeat (apply body_nil || (apply body_escape) || (apply body_char; [done|done|])); done.
Defined.

(** Two keys may become one, also keys of a map, which are data. *)
Example keys_collide : rename (JObj [("userID", JLit "1"); ("user_id", JLit "2")]) = JObj [("user_id", JLit "1"); ("user_id", JLit "2")].
Proof. vm_compute. reflexivity. Qed.
