(* ===== verification/RdbClient.v ===== *)
(** * Databases of internal/rdb, as their users see them

    An interface with the promises that the data sources of tests and the storage of the
    application rely on, and its implementation by RdbOpen.v and Rdb.v. *)
From S2P Require Import Prelude Codes GoErrors Semerr Retry Rdb DriverWrapper Dsn RdbOpen.

Definition nil_conn : string := "runtime error: invalid memory address or nil pointer dereference".

(** What a user of [rdb.DB] relies on: a database that was made ready does not panic. The state
    is that of the program and of the network. *)
Class Database (DB S : Type) := {
  db_New : RdbOpen.Config -> DB;
  db_Ready : DB -> S -> S * (DB * option error);
  db_ExecContext : DB -> text -> S -> S * outcome (option error);
  db_Close : DB -> S -> S * outcome (option error);
  db_MapperFunc : DB -> (string -> string) -> S -> S * outcome unit;
  usable : DB -> Prop;
  ready_usable d s s' d' : db_Ready d s = (s', (d', None)) -> usable d';
  usable_ExecContext d q s : usable d -> exists s' err, db_ExecContext d q s = (s', Returns err);
  usable_Close d s : usable d -> exists s' err, db_Close d s = (s', Returns err);
  usable_MapperFunc d mf s : usable d -> exists s', db_MapperFunc d mf s = (s', Returns tt)
}.

(** The implementation of RdbOpen.v and Rdb.v, without a transaction in the context. *)
Section rdb.
Context {X : Semerr.Xerrors} {B V Rows Result Conv W H C : Type}.
Notation Driver := (@DriverWrapper.Driver B V Rows Result Conv W).
Context (time_Now : W -> Z) (ctx_Err : DriverWrapper.Ctx B V -> W -> option error)
  (write : DriverWrapper.Level -> string -> list (DriverWrapper.log_field (V := V)) -> W -> W).
Context (bg : B) (convert : V -> V * option error) (genConnID : DriverWrapper.M W string) (parseDSN : text -> text * text * text).
Context (sql_driver : gmap string Driver -> string -> result error Driver) (close_err : option error) (all_slots_taken : error)
  (sql_Open : gmap string Driver -> string -> text -> result error H).
Context (ParseConfig : text -> result error C) (RegisterConnConfig : C -> W -> W * text).
Context (SetMaxOpenConns SetConnMaxLifetime : H -> Z -> W -> W) (handle_MapperFunc : H -> (string -> string) -> W -> W) (PingContext handle_Close : H -> W -> W * option error)
  (handle_ExecContext : H -> text -> W -> W * (option unit * option error)).
Context (retry_Do : Retry.retry_Do_type (W * option unit)) (core : error -> error) (retries : list Retry.strategy)
  (Hlaw : Retry.retry_law core retry_Do).

Definition rdb_Ready (d : RdbOpen.DB (H := H)) (s : gmap string Driver * W) : (gmap string Driver * W) * (RdbOpen.DB (H := H) * option error) :=
  let '(w, registry, d, err) := RdbOpen.Ready time_Now ctx_Err write bg convert genConnID parseDSN sql_driver close_err all_slots_taken sql_Open
    ParseConfig RegisterConnConfig SetMaxOpenConns SetConnMaxLifetime PingContext d s.1 s.2 in ((registry, w), (d, err)).
Definition rdb_ExecContext (d : RdbOpen.DB (H := H)) (q : text) (s : gmap string Driver * W) : (gmap string Driver * W) * outcome (option error) :=
  match session d with
  | None => (s, Panics nil_conn)
  | Some h => let '(w, r) := Rdb.DB_ExecContext retry_Do retries None (handle_ExecContext h q) s.2 in
              ((s.1, w), match r with Returns (_, err) => Returns err | Panics why => Panics why end)
  end.
Definition rdb_Close (d : RdbOpen.DB (H := H)) (s : gmap string Driver * W) : (gmap string Driver * W) * outcome (option error) :=
  let '(w, r) := RdbOpen.Close handle_Close d s.2 in ((s.1, w), r).

Definition rdb_MapperFunc (d : RdbOpen.DB (H := H)) (mf : string -> string) (s : gmap string Driver * W) : (gmap string Driver * W) * outcome unit :=
  let '(w, r) := RdbOpen.MapperFunc handle_MapperFunc d mf s.2 in ((s.1, w), r).

Lemma rdb_ready_usable d s s' d' : rdb_Ready d s = (s', (d', None)) -> is_Some (session d').
Proof.
  unfold rdb_Ready, RdbOpen.Ready. destruct (session d) as [h|] eqn:Es; [intros; simplify_eq; by rewrite Es|].
  destruct (CheckAndSetDefaults (conf d)); [done|]. destruct (ParseConfig _) as [c|]; [|done]. destruct (RegisterConnConfig c s.2) as [w0 name].
  unfold open_driver, DriverWrapper.Open. destruct (DriverWrapper.WrapDriverByName _ _ _ _ _ _) as [registry [reg [e|]]]; [done|].
  destruct (sql_Open _ _ _) as [h|e]; [|done]. destruct (PingContext h _) as [w1 [e|]]; [done|]. intros. simplify_eq/=. by eexists.
Qed.

Lemma rdb_exec_returns d q s : is_Some (session d) -> exists s' err, rdb_ExecContext d q s = (s', Returns err).
Proof.
  intros [h Hh]. unfold rdb_ExecContext. rewrite Hh. unfold Rdb.DB_ExecContext, Rdb.TxExecutorFromCtx, Rdb.sqlxdb_ExecContext, Rdb.with_retries.
  match goal with |- context [retry_Do retries ?a ?w] => set (act := a); pose proof (Hlaw retries act w) as Ha;
    destruct (retry_Do retries act w) as [[w' r] [[e|]|why]] end; [by do 2 eexists..|].
  exfalso. assert (Hact : forall x y z, act x <> (y, Panics z)) by (intros [v r0] y z; unfold act; by destruct (handle_ExecContext h q v) as [v' [r' err]]).
  clearbody act. remember ((w', r), Panics why) as res eqn:Hres. revert Hres. induction Ha; intros; simplify_eq; (by eapply Hact) || by apply IHHa.
Qed.

Lemma rdb_close_returns d s : is_Some (session d) -> exists s' err, rdb_Close d s = (s', Returns err).
Proof. intros [h Hh]. unfold rdb_Close, RdbOpen.Close. rewrite Hh. destruct (handle_Close h s.2) as [w err]. by do 2 eexists. Qed.

(** A database that could not be made ready panics when it is closed. *)
Theorem failed_database_panics cfg s s' d e v : rdb_Ready (RdbOpen.New cfg) s = (s', (d, Some e)) -> rdb_Close d v = (v, Panics DriverWrapper.nil_call).
Proof.
  unfold rdb_Ready, RdbOpen.Ready. cbn [RdbOpen.New session conf].
  destruct (CheckAndSetDefaults cfg); [intros; simplify_eq/=; by destruct v|]. destruct (ParseConfig _) as [c|]; [|intros; simplify_eq/=; by destruct v].
  destruct (RegisterConnConfig c s.2) as [w0 name]. destruct (open_driver _ _ _ _ _ _ _ _ _ _ _ _ _ _) as [registry [[h|] [e'|]]];
    try destruct (PingContext h _) as [w1 [e1|]]; intros; simplify_eq/=; by destruct v.
Qed.

Lemma rdb_mapper_returns d mf s : is_Some (session d) -> exists s', rdb_MapperFunc d mf s = (s', Returns tt).
Proof. intros [h Hh]. unfold rdb_MapperFunc, RdbOpen.MapperFunc. rewrite Hh. by eexists. Qed.

#[global] Instance rdb_database : Database (RdbOpen.DB (H := H)) (gmap string Driver * W) := {|
  db_New := RdbOpen.New; db_Ready := rdb_Ready; db_ExecContext := rdb_ExecContext; db_Close := rdb_Close; db_MapperFunc := rdb_MapperFunc;
  usable := fun d => is_Some (session d); ready_usable := rdb_ready_usable; usable_ExecContext := rdb_exec_returns;
  usable_Close := rdb_close_returns; usable_MapperFunc := rdb_mapper_returns
|}.
End rdb.

