(* ===== verification/Datasource.v ===== *)
(** * Databases for tests (internal/testtooling/datasource, internal/testtooling/clickhouse.go,
      internal/rdb/rdbtesttooling)

    Databases are created, used and dropped over connections that a data source keeps; Postgres
    itself runs in a container. The connections, containers and the environment are
    parameters. *)
From S2P Require Import Prelude Codes GoErrors Dsn Chdb RdbOpen TestDb RdbClient.

(** ** ClickHouse (clickhouse.go) *)

(* go: internal/testtooling/datasource/clickhouse.go | const ManagementClickHouseDB *)
Definition ManagementClickHouseDB : string := "default".

Section clickhouse.
(** The driver of Chdb.v, and the environment. *)
Context {W Conn : Type} (FromEnv : string -> string).
Context (Open : Options -> W -> W * (Conn + error)) (Ping : Conn -> W -> W * option error) (conn_Close : Conn -> W -> W * option error)
  (conn_Exec : Conn -> text -> W -> W * option error).
Notation D := (Chdb.DB Conn).

(* go: internal/testtooling/datasource/clickhouse.go | type Clickhouse struct *)
Record Clickhouse := MkClickhouse { ch_managementDBName : string; ch_host : string; ch_conn : option D }.
(* go: internal/testtooling/datasource/clickhouse.go | func NewClickHouse( *)
Definition NewClickHouse (host : string) : Clickhouse := MkClickhouse ManagementClickHouseDB host None.
Definition set_conn (conn : option D) (c : Clickhouse) : Clickhouse := MkClickhouse (ch_managementDBName c) (ch_host c) conn.

(** The configuration of a connection, which the source keeps even if it is not ready. *)
(* go: internal/testtooling/datasource/clickhouse.go | connCfg := chdb.DefaultConfig() | L39-L43 *)
Definition connCfg (host dbName : string) : Chdb.Config :=
  let d := Chdb.DefaultConfig FromEnv in {|
  Enabled := true; ChcAddr := host; ChcRoAddr := ChcRoAddr d; Chdb.Database := dbName; Username := Username d; ChcPassword := ChcPassword d;
  Chdb.MaxOpenConns := Chdb.MaxOpenConns d; MaxIdleConns := MaxIdleConns d; Chdb.CollectMetricsInterval := Chdb.CollectMetricsInterval d; UseTls := false;
  S3Dump := S3Dump d; S3ConsumptionEvents := S3ConsumptionEvents d; MaxPeriodsPerQuery := MaxPeriodsPerQuery d;
  MaxExecutionTime := MaxExecutionTime d; MaxQuerySize := MaxQuerySize d; MaxResultRows := MaxResultRows d; MaxResultBytes := MaxResultBytes d |}.

(* go: internal/testtooling/datasource/clickhouse.go | func (c *Clickhouse) Connect( *)
Definition ch_Connect (c : Clickhouse) (dbName : string) (w : W) : W * Clickhouse * result error D :=
  let '(w, (db, err)) := Chdb.Ready Open Ping (NewDB (connCfg (ch_host c) dbName) false) w in
  let c := set_conn (Some db) c in
  match err with
  | Some err => (w, c, Err (GoErrors.Wrap (WText "db is not ready") err))
  | None => (w, c, Ok db)
  end.

(** A statement over a connection of its own. *)
Definition ch_manage (stmt wrapped : string) (c : Clickhouse) (w : W) : W * Clickhouse * option error :=
  match ch_Connect c (ch_managementDBName c) w with
  | (w, c, Err err) => (w, c, Some err)
  | (w, c, Ok conn) =>
      let c := set_conn None c in
      match Chdb.ExecContext conn_Exec conn (runes stmt) w with
      | (w, Some err) => (w, c, Some (GoErrors.Wrap (WText wrapped) err))
      | (w, None) => let '(w, err) := Chdb.Close conn_Close conn w in (w, c, err)
      end
  end.
(* go: internal/testtooling/datasource/clickhouse.go | func (c *Clickhouse) CreateDatabase( *)
Definition ch_CreateDatabase (c : Clickhouse) (dbName : string) : W -> W * Clickhouse * option error :=
  ch_manage ("CREATE DATABASE " +:+ dbName) "cannot create db" c.
(* go: internal/testtooling/datasource/clickhouse.go | func (c *Clickhouse) DropDatabase( *)
Definition ch_DropDatabase (c : Clickhouse) (dbName : string) : W -> W * Clickhouse * option error :=
  ch_manage ("DROP DATABASE " +:+ dbName) "cannot drop db" c.
(* go: internal/testtooling/datasource/clickhouse.go | func (c *Clickhouse) Close() *)
Definition ch_Close (c : Clickhouse) (w : W) : W * outcome (option error) :=
  match ch_conn c with
  | None => (w, Panics nil_conn)
  | Some db => let '(w, err) := Chdb.Close conn_Close db w in (w, Returns err)
  end.

(** The container that migrates: started with a command, its exit code, its log. A URL is its
    user, password and path. *)
Context {CT : Type} (Parse : string -> result error (string * string * string)).
Context (GenericContainer : list string -> W -> W * result error CT) (ct_State : CT -> W -> W * result error Z)
  (ct_Logs : CT -> W -> W * result error string) (ct_Terminate : CT -> W -> W).

(* go: internal/testtooling/datasource/clickhouse.go | Cmd: []string{ *)
Definition migration_command (chPort dbName user pwd pgDB : string) : list string :=
  ["--clickhouse-url"; "clickhouse://host.docker.internal:" +:+ chPort +:+ "?database=" +:+ dbName +:+ "&x-multi-statement=true";
   "--console-postgres-conn"; "postgres://" +:+ user +:+ ":" +:+ pwd +:+ "@db:5432/" +:+ pgDB].
(** What a finished container says. *)
(* go: internal/testtooling/datasource/clickhouse.go | state, err := ct.State(ctx) | L143-L166 *)
Definition migration_verdict (ct : CT) (w : W) : W * option error :=
  match ct_State ct w with
  | (w, Err err) => (w, Some err)
  | (w, Ok ExitCode) =>
      if decide (ExitCode = 0%Z) then (w, None)
      else match ct_Logs ct w with
           | (w, Err err) => (w, Some err)
           | (w, Ok logs) =>
               (w, Some (GoErrors.Wrap (WFields [StringField "logs" logs; MkField "exit_code" Int64Type ExitCode "" ""])
                           (Leaf (LText "container exited with a non-zero exit code"))))
           end
  end.
(* go: internal/testtooling/datasource/clickhouse.go | func (c *Clickhouse) InitDBSchema( *)
Definition ch_InitDBSchema (c : Clickhouse) (pgDSN dbName : string) (w : W) : W * outcome (option error) :=
  match ch_conn c with
  | None => (w, Returns (Some (Leaf (LText "not connected"))))
  | Some _ =>
      match split_byte ":" (ch_host c) !! 1 with
      | None => (w, Panics index_out_of_range)
      | Some chPort =>
          match Parse (if decide (pgDSN = "") then "postgres://postgres:password@db:5432/yanakipre" else pgDSN) with
          | Err err => (w, Returns (Some (GoErrors.Wrap (WText "cannot parse dsn") err)))
          | Ok (_, _, "") => (w, Panics slice_out_of_range)
          | Ok (user, pwd, String _ pgDB) =>
              match GenericContainer (migration_command chPort dbName user pwd pgDB) w with
              | (w, Err err) => (w, Returns (Some err))
              | (w, Ok ct) => let '(w, err) := migration_verdict ct w in (ct_Terminate ct w, Returns err)
              end
          end
      end
  end.

(** *** What is kept and what is lost *)

Definition ch_options (c : Clickhouse) : Options :=
  let cfg := connCfg (ch_host c) (ch_managementDBName c) in chOptions cfg (ChcAddr cfg) (ChcPassword cfg).

(** Creating or dropping a database works over a connection of its own, which is closed only if
    the statement succeeds; the connection the source had before is forgotten without being
    closed, and closing the source then panics. *)
Theorem ch_manage_spec stmt wrapped c w :
  match Open (ch_options c) w with
  | (w1, inr err) => exists c' e, ch_manage stmt wrapped c w = (w1, c', Some e)
  | (w1, inl k) =>
      match Ping k w1 with
      | (w2, Some err) => exists c' e, ch_manage stmt wrapped c w = (w2, c', Some e)
      | (w2, None) =>
          match conn_Exec k (runes stmt) w2 with
          | (w3, Some err) => ch_manage stmt wrapped c w = (w3, set_conn None c, Some (GoErrors.Wrap (WText wrapped) err))
          | (w3, None) => ch_manage stmt wrapped c w = ((conn_Close k w3).1, set_conn None c, (conn_Close k w3).2)
          end
      end
  end /\
  forall v, ch_Close (set_conn None c) v = (v, Panics nil_conn).
Proof.
  split; [|done]. unfold ch_manage, ch_Connect, Chdb.Ready. change (negb (Enabled (cfg (NewDB _ _)))) with false. cbn iota.
  change (chOptions _ _ _) with (ch_options c). destruct (Open (ch_options c) w) as [w1 [k|err]]; [|by do 2 eexists].
  destruct (Ping k w1) as [w2 [err|]]; [by do 2 eexists|]. cbn. destruct (conn_Exec k (runes stmt) w2) as [w3 [err|]]; [done|].
  by destruct (conn_Close k w3).
Qed.

(** A schema is set up if the container ends with the exit code zero, and its log is in the
    error otherwise; a container that was started is always ended. A host without a port, or a
    URL without a path, panics before anything is started. *)
Theorem ch_InitDBSchema_spec c pgDSN dbName w user pwd path host port : ch_conn c <> None -> pgDSN <> "" ->
  Parse pgDSN = Ok (user, pwd, path) -> index_byte ":" host = None -> index_byte ":" port = None -> ch_host c = host +:+ ":" +:+ port ->
  (path = "" -> ch_InitDBSchema c pgDSN dbName w = (w, Panics slice_out_of_range)) /\
  (forall x pgDB, path = String x pgDB -> forall w1 ct, GenericContainer (migration_command port dbName user pwd pgDB) w = (w1, Ok ct) ->
     exists w2 err, migration_verdict ct w1 = (w2, err) /\ ch_InitDBSchema c pgDSN dbName w = (ct_Terminate ct w2, Returns err) /\
       (err = None <-> (ct_State ct w1).2 = Ok 0%Z)) /\
  (forall c', ch_conn c' <> None -> ch_host c' = host -> ch_InitDBSchema c' pgDSN dbName w = (w, Panics index_out_of_range)).
Proof.
  intros Hc Hd Hp Hh Hport Hhost.
  assert (Hs : split_byte ":" (ch_host c) = [host; port]) by
    (rewrite Hhost; change (":" +:+ port) with (String ":" port); by rewrite split_byte_app, !split_byte_free).
  unfold ch_InitDBSchema. destruct (ch_conn c); [|done]. rewrite Hs, Hp || rewrite Hs. cbn [lookup list_lookup]. rewrite decide_False by done.
  rewrite Hp. split_and!.
  - by intros ->.
  - intros x pgDB -> w1 ct ->. destruct (migration_verdict ct w1) as [w2 err] eqn:E. exists w2, err. split; [done|]. split; [done|].
    revert E. unfold migration_verdict. destruct (ct_State ct w1) as [w3 [code|e]]; cbn [snd]; [|intros; simplify_eq; naive_solver].
    case_decide; [subst; intros; simplify_eq; naive_solver|]. destruct (ct_Logs ct w3) as [w4 [l|e]]; intros; simplify_eq; naive_solver.
  - intros c' Hc' ->. destruct (ch_conn c'); [|done]. by rewrite split_byte_free.
Qed.
End clickhouse.

(** ** Postgres (postgres.go) *)

Section postgres.
Context {DB S : Type} `{Database DB S}.
(** Parsing a URL: its user with an optional password; the file with the schema. *)
Context (ParseUser : text -> result error (string * option string)) (ReadFile : S -> S * result error text).

(* go: internal/testtooling/datasource/postgres.go | defaultManagementPostgresDB *)
Definition defaultManagementPostgresDB : string := "postgres".
(* go: internal/testtooling/datasource/postgres.go | defaultSearchPath *)
Definition defaultSearchPath : string := "public".
(* go: internal/testtooling/datasource/postgres.go | type Postgres struct *)
Record Postgres := MkPostgres { pg_managementDBName : string; pg_host : string; pg_conn : option DB }.
(* go: internal/testtooling/datasource/postgres.go | func NewPostgresConnection( *)
Definition NewPostgresConnection (host : string) : Postgres := MkPostgres defaultManagementPostgresDB host None.

(** The user and password of the default connection string, as they are after parsing. *)
(* go: internal/testtooling/datasource/postgres.go | func (c *Postgres) defaultConfigWithDB( *)
Definition defaultConfigWithDB (c : Postgres) (dbName : string) : outcome RdbOpen.Config :=
  let cfg := RdbOpen.DefaultConfig in
  match ParseUser (conf_DSN cfg) with
  | Err err => Panics (error_text err)
  | Ok (name, pwd) =>
      let user := match pwd with Some pwd => name +:+ ":" +:+ pwd | None => name end in
      Returns (RdbOpen.MkConfig defaultSearchPath (DatabaseType cfg) (runes ("postgres://" +:+ user +:+ "@" +:+ pg_host c +:+ "/" +:+ dbName))
        (MaxConnLifetime cfg) (RdbOpen.MaxOpenConns cfg) (RdbOpen.CollectMetricsInterval cfg))
  end.

(* go: internal/testtooling/datasource/postgres.go | func (c *Postgres) Connect( *)
Definition pg_Connect (c : Postgres) (dbName : string) (s : S) : S * outcome (Postgres * result error DB) :=
  match defaultConfigWithDB c dbName with
  | Panics why => (s, Panics why)
  | Returns cfg =>
      let '(s, (db, err)) := db_Ready (db_New cfg) s in
      let c := MkPostgres (pg_managementDBName c) (pg_host c) (Some db) in
      (s, Returns (c, match err with Some err => Err (GoErrors.Wrap (WText "db is not ready") err) | None => Ok db end))
  end.

(** A statement over a database of its own. *)
Definition pg_manage (stmt wrapped : string) (c : Postgres) (s : S) : S * outcome (option error) :=
  match defaultConfigWithDB c (pg_managementDBName c) with
  | Panics why => (s, Panics why)
  | Returns cfg =>
      match db_Ready (db_New cfg) s with
      | (s, (_, Some err)) => (s, Returns (Some (GoErrors.Wrap (WText "db is not ready") err)))
      | (s, (managementDB, None)) =>
          match db_ExecContext managementDB (runes stmt) s with
          | (s, Panics why) => (s, Panics why)
          | (s, Returns (Some err)) => (s, Returns (Some (GoErrors.Wrap (WText wrapped) err)))
          | (s, Returns None) => db_Close managementDB s
          end
      end
  end.
(* go: internal/testtooling/datasource/postgres.go | func (c *Postgres) CreateDatabase( *)
Definition pg_CreateDatabase (c : Postgres) (dbName : string) : S -> S * outcome (option error) :=
  pg_manage ("CREATE DATABASE " +:+ dbName) "cannot create db" c.
(* go: internal/testtooling/datasource/postgres.go | func (c *Postgres) DropDatabase( *)
Definition pg_DropDatabase (c : Postgres) (dbName : string) : S -> S * outcome (option error) :=
  pg_manage ("DROP DATABASE " +:+ dbName) "cannot drop db" c.
(* go: internal/testtooling/datasource/postgres.go | func (c *Postgres) Close() *)
Definition pg_Close (c : Postgres) (s : S) : S * outcome (option error) :=
  match pg_conn c with None => (s, Panics nil_conn) | Some db => db_Close db s end.
(* go: internal/testtooling/datasource/postgres.go | func (c *Postgres) InitDBSchema( *)
Definition pg_InitDBSchema (c : Postgres) (s : S) : S * outcome (option error) :=
  match pg_conn c with
  | None => (s, Returns (Some (Leaf (LText "not connected"))))
  | Some db =>
      match ReadFile s with
      | (s, Err err) => (s, Returns (Some err))
      | (s, Ok expectedDbState) => db_ExecContext db expectedDbState s
      end
  end.

(** A source that could connect can be used to the end: the schema is set up and the source
    closed without a panic; creating and dropping databases never panics and leaves the
    connection of the source alone. All this from what a database promises. *)
Theorem pg_source_usable c dbName s user pwd : ParseUser (conf_DSN RdbOpen.DefaultConfig) = Ok (user, pwd) ->
  (forall s', exists s2 err, pg_CreateDatabase c dbName s' = (s2, Returns err)) /\
  (forall s', exists s2 err, pg_DropDatabase c dbName s' = (s2, Returns err)) /\
  (forall s1 c1 db, pg_Connect c dbName s = (s1, Returns (c1, Ok db)) -> pg_conn c1 = Some db /\
     (forall s', exists s2 err, pg_InitDBSchema c1 s' = (s2, Returns err)) /\ (forall s', exists s2 err, pg_Close c1 s' = (s2, Returns err))).
Proof.
  intros Hp.
  assert (Hm : forall stmt wrapped s', exists s2 err, pg_manage stmt wrapped c s' = (s2, Returns err)).
  { intros stmt wrapped s'. unfold pg_manage, defaultConfigWithDB. rewrite Hp.
    destruct (db_Ready _ s') as [s1 [db [err|]]] eqn:Er; [by do 2 eexists|]. apply ready_usable in Er.
    destruct (usable_ExecContext db (runes stmt) s1 Er) as (s2 & [err|] & ->); [by do 2 eexists|]. by apply usable_Close. }
  split_and!; [apply Hm..|]. intros s1 c1 db. unfold pg_Connect, defaultConfigWithDB. rewrite Hp.
  destruct (db_Ready _ s) as [s2 [db' [err|]]] eqn:Er; [done|]. intros. simplify_eq/=. apply ready_usable in Er. split_and!; [done| |].
  - intros s'. unfold pg_InitDBSchema. cbn. destruct (ReadFile s') as [s2 [q|err]]; [by apply usable_ExecContext|by do 2 eexists].
  - intros s'. unfold pg_Close. cbn. by apply usable_Close.
Qed.

(** A failed connection stays in the source: its methods are called although it is not ready. *)
Theorem pg_failed_connection_stays c dbName s s1 c1 err : pg_Connect c dbName s = (s1, Returns (c1, Err err)) ->
  exists cfg db e, db_Ready (db_New cfg) s = (s1, (db, Some e)) /\ pg_conn c1 = Some db /\ forall s', pg_Close c1 s' = db_Close db s'.
Proof.
  unfold pg_Connect. destruct (defaultConfigWithDB c dbName) as [cfg|]; [|done]. destruct (db_Ready _ s) as [s2 [db [e|]]] eqn:E; [|done].
  intros. simplify_eq/=. by exists cfg, db, e.
Qed.
End postgres.

(** ** Postgres in a container (internal/rdb/rdbtesttooling) *)

Section rdbtesttooling.
Context {W H : Type}.
(** The environment of the process; containers of gnomock with their host and ports. *)
Context (Getenv : string -> string).
Record Container := MkContainer { c_Host : string; c_Ports : gmap string Z }.
Definition port_of (c : Container) (name : string) : Z := default 0%Z (c_Ports c !! name).
Context (DefaultPort : string).

(* go: internal/rdb/rdbtesttooling/rdbtesttooling.go | const DsnEnvVar *)
Definition DsnEnvVar : string := "TEST_DATABASE_URL".
(* go: internal/rdb/rdbtesttooling/rdbtesttooling.go | // RealHostname changes *)
Definition RealHostname (host : string) : string :=
  if decide (Getenv "GNOMOCK_ENV" = "gnomockd") then "host.docker.internal" else host.

(* go: internal/rdb/rdbtesttooling/rdbtesttooling.go | connStr := fmt.Sprintf( *)
Definition connStr (c : Container) (db : string) : string :=
  "host=" +:+ c_Host c +:+ " port=" +:+ pretty (port_of c DefaultPort) +:+ " user=" +:+ "postgres" +:+ " password=" +:+ "password" +:+
  " dbname=" +:+ db +:+ " sslmode=" +:+ "disable".

(** database/sql: a handle, a ping, closing, and the query of the health check. *)
Context (sql_Open : string -> result error H) (Ping : H -> W -> W * option error) (sql_Close : H -> W -> W) (select_one : H -> W -> W * option error).
(** The handle is returned also when the ping fails. *)
(* go: internal/rdb/rdbtesttooling/rdbtesttooling.go | func postgresConnect( *)
Definition postgresConnect (c : option Container) (db : string) (w : W) : W * outcome (option H * option error) :=
  match c with
  | None => (w, Panics nil_conn)
  | Some c =>
      match sql_Open (connStr c db) with
      | Err err => (w, Returns (None, Some err))
      | Ok conn => let '(w, err) := Ping conn w in (w, Returns (Some conn, err))
      end
  end.
(** The container is changed in place. *)
(* go: internal/rdb/rdbtesttooling/rdbtesttooling.go | func postgresHealthcheck( *)
Definition postgresHealthcheck (c : option Container) (w : W) : W * option Container * outcome (option error) :=
  let c := (fun c => MkContainer (RealHostname (c_Host c)) (c_Ports c)) <$> c in
  match postgresConnect c "postgres" w with
  | (w, Panics why) => (w, c, Panics why)
  | (w, Returns (_, Some err)) => (w, c, Returns (Some err))
  | (w, Returns (None, None)) => (w, c, Panics nil_conn)
  | (w, Returns (Some db, None)) => let '(w, err) := select_one db w in (sql_Close db w, c, Returns err)
  end.

(** A preset: its version, and the queries that are run first. *)
Record P := MkP { Version : string; Queries : list string }.
Definition sha_14 : string := "sha256:51ce26e4463d434049b4b83e72eaaa008047a6a6cc65f2f3ee2ff3c183da0621".
(** Whether it is the library's preset, or the wrapper that fixes the image. *)
Inductive Preset := PresetOf (p : P) | FixImage (p : P).
(** What the library calls its image. *)
Context (P_Image : P -> string).
(* go: internal/rdb/rdbtesttooling/rdbtesttooling.go | func (p *fixImage) Image() *)
Definition Image (p : P) : string :=
  if contains (Version p) "sha256" then "docker.io/library/postgres@" +:+ Version p else P_Image p.

(** The credentials of an image, encoded; errors are logged and give no option. *)
Context (ImageAuth : string -> result error string).
(* go: internal/rdb/rdbtesttooling/rdbtesttooling.go | func WithRegistryAuth( *)
Definition WithRegistryAuth (image : string) : option string :=
  let image := if has_prefix image "docker.io/library/" then sdrop 18 image else image in
  match ImageAuth image with Err _ => None | Ok encoded => Some encoded end.

(** Starting a container of an image, with queries and credentials. *)
Context (Start : string -> list string -> option string -> W -> W * (option Container * option error)).
(** The preset is changed in place: it is returned. *)
(* go: internal/rdb/rdbtesttooling/rdbtesttooling.go | func StartPGContainerFromPreset( *)
Definition StartPGContainerFromPreset (p : Preset) (w : W) : W * Preset * outcome (option Container * option error) :=
  match p with
  | FixImage _ => (w, p, Panics "interface conversion: gnomock.Preset is *rdbtesttooling.fixImage, not *postgres.P")
  | PresetOf pgp =>
      if decide (Version pgp = "14-alpine") then
        let pgp := MkP sha_14 (["ALTER SYSTEM SET synchronous_commit=off;"; "ALTER SYSTEM SET fsync=off;"; "SELECT pg_reload_conf();"] ++ Queries pgp) in
        let '(w, (c, err)) := Start (Image pgp) (Queries pgp) (WithRegistryAuth (Image pgp)) w in
        (w, PresetOf pgp, Returns ((fun c => MkContainer (RealHostname (c_Host c)) (c_Ports c)) <$> c, err))
      else (w, p, Panics "unsupported version")
  end.

(** The connection string of a project: that of the environment, or that of a new container. *)
(* go: internal/rdb/rdbtesttooling/rdbtesttooling.go | dsn, ok := os.LookupEnv(DsnEnvVar) | L73-L85 *)
Definition project_dsn (LookupEnv : string -> option string) (StartPGContainer : W -> W * outcome (option Container * option error)) (w : W)
    : W * outcome (string * bool) :=
  match LookupEnv DsnEnvVar with
  | Some (String x dsn) => (w, Returns (String x dsn, false))
  | _ =>
      match StartPGContainer w with
      | (w, Panics why) => (w, Panics why)
      | (w, Returns (_, Some err)) => (w, Panics (error_text (GoErrors.Wrap (WText "could not start postgres project") err)))
      | (w, Returns (None, None)) => (w, Panics nil_conn)
      | (w, Returns (Some c, None)) => (w, Returns ("postgres://postgres:password@" +:+ c_Host c +:+ ":" +:+ pretty (port_of c DefaultPort) +:+ "/postgres", true))
      end
  end.

(** A preset starts one container: the version it then has is not one that is supported. The
    image that is started is pinned, and its credentials are asked for without the registry. *)
Theorem preset_used_once q w w' p r : StartPGContainerFromPreset (PresetOf (MkP "14-alpine" q)) w = (w', p, r) ->
  (exists c err, Start ("docker.io/library/postgres@" +:+ sha_14) (["ALTER SYSTEM SET synchronous_commit=off;"; "ALTER SYSTEM SET fsync=off;"; "SELECT pg_reload_conf();"] ++ q)
     (match ImageAuth ("postgres@" +:+ sha_14) with Err _ => None | Ok a => Some a end) w = (w', (c, err))) /\
  forall v, StartPGContainerFromPreset p v = (v, p, Panics "unsupported version").
Proof.
  unfold StartPGContainerFromPreset. rewrite decide_True by done.
  change (Image _) with ("docker.io/library/postgres@" +:+ sha_14). change (WithRegistryAuth _) with (match ImageAuth ("postgres@" +:+ sha_14) with Err _ => None | Ok a => Some a end).
  cbn [Queries]. destruct (Start _ _ _ w) as [w1 [c err]] eqn:E. intros. simplify_eq. split; [by do 2 eexists|]. done.
Qed.

(** The health check guards against a missing container, and then uses it. *)
Theorem healthcheck_without_container w : postgresHealthcheck None w = (w, None, Panics nil_conn).
Proof. done. Qed.

(** A ping that fails leaves the handle open. *)
Theorem healthcheck_leaks c conn w w1 err : sql_Open (connStr (MkContainer (RealHostname (c_Host c)) (c_Ports c)) "postgres") = Ok conn ->
  Ping conn w = (w1, Some err) ->
  postgresHealthcheck (Some c) w = (w1, Some (MkContainer (RealHostname (c_Host c)) (c_Ports c)), Returns (Some err)).
Proof. intros Ho Hp. unfold postgresHealthcheck, postgresConnect. cbn [fmap option_fmap option_map]. by rewrite Ho, Hp. Qed.
End rdbtesttooling.
