(* ===== verification/Cmd.v ===== *)
(** * The program (app/telegramsearch/cmd, internal/pkg/staticconfig)

    The commands, what runs before each of them, and the configuration they share. The library
    of commands (cobra), the loader of configurations and the operations of the controller are
    parameters; the loading is that of Helpers.v, the logger that of Logger.v, the client of
    OpenAI that of OpenAiClient.v, the database the interface of RdbClient.v. *)
From S2P Require Import Prelude GoErrors Durations Casing YamlStruct Helpers Logger HttpClient OpenAiClient Search Bot RdbOpen RdbClient.

(** ** Configuration (staticconfig, controllerv1/config.go, storage/postgres/config.go) *)

(** Texts of the bot. *)
(* go: app/telegramsearch/internal/pkg/controllers/controllerv1/config.go | func DefaultConfig() *)
Definition ctl_DefaultConfig : Search.Config := {|
  NoExplainedAnswer := "К сожалению, у меня нет информации об этом сообщении. Возможно оно было задано слишком давно и я о нем забыл.";
  HelpText := lines ["Добрый день! Это - бот, который поможет вам найти ответы на ваши вопросы.";
      "";
      "Чтобы задать вопрос, просто напишите его в чат. Он постарается найти наиболее подходящий ответ на ваш вопрос.";
      "Бот не выдумывает от себя, все его данные собраны от живых людей.";
      "";
      "Я, разработчик, буду очень признателен, если вы поделитесь своими впечатлениями о боте и порекомендуете его своим друзьям, если он вам полезен.";
      "";
      "Вот тут можно связаться с разработчиком: https://substack.com/home/post/p-148053843";
      ""];
  NewsText := lines ["Новости:";
      "";
      "Мы открыли чат, в котором все вопросы можно задавать и боту, и людям. Присоединяйтесь: https://t.me/+8trW_-0GEFI1NTE0";
      "Мы планируем добавить в бота функцию показа ссылок на чаты, где было найдена эта информация.";
      "Это позволит вам быстро найти чаты, где обсуждаются интересные вам темы.";
      "Если вам есть что прокомментировать или добавить - пишите в чате https://t.me/+8trW_-0GEFI1NTE0 или в https://substack.com/home/post/p-148053843";
      ""];
  StaleThreshold := (Hour * 24 * 365 * 2)%Z;
  StaleResponsesText := "В ответе не использовано информации свежее чем от %s";
  FreshResponsesText := "Обсуждений: %d";
  NoResultsAnswer := "К сожалению, у меня недостаточно информации чтобы ответить на данный вопрос." +:+
    " Но я учусь и, вероятно, смогу ответить на него позже." |}.

(* go: app/telegramsearch/internal/pkg/client/storage/postgres/config.go | func Default() *)
Definition storage_Default : RdbOpen.Config := RdbOpen.DefaultConfig.

Section program.
Context {W : Type} (ctx_err : W -> option error) (Limit : nat -> Retry.strategy) (BackoffWithJitter : Z -> Retry.strategy) (SmallEmbedding3 : string).
Notation openai_Config := (OpenAiClient.Config (W := W)).
Notation openai_Client := (OpenAiClient.Client (W := W)).

(* go: app/telegramsearch/internal/pkg/staticconfig/declaration.go | type Config struct *)
Record static_Config := MkStatic {
  Ctlv1 : Search.Config; PostgresRW : RdbOpen.Config; OpenAI : openai_Config; Logging : Logger.Config;
  TelegramTransport : bot_Config; TelegramV2 : v2_Config
}.

(** The zero values of Go. *)
Definition zero_ctl : Search.Config := {|
  HelpText := ""; NewsText := ""; NoExplainedAnswer := ""; NoResultsAnswer := ""; StaleResponsesText := ""; FreshResponsesText := ""; StaleThreshold := 0 |}.
Definition zero_rdb : RdbOpen.Config := RdbOpen.MkConfig "" "" [] (MkDuration 0) 0 (MkDuration 0).
Definition zero_openai : openai_Config :=
  OpenAiClient.MkConfig {| Model := "" |} None "" zero_Config {| Backoff := MkDuration 0; Attempts := 0 |} [] "" "".
Definition zero_logging : Logger.Config := {|
  Sink := ""; LogLevel := ""; Format := ""; Filters := {| FullNameFilter := []; ExactSubnameFilters := [] |}; Caller := false; CallerSkip := 0; StackTraceLevel := InfoLevel |}.
Definition zero_Static : static_Config :=
  MkStatic zero_ctl zero_rdb zero_openai zero_logging {| Token := ""; Greeting := "" |} {| AppID := 0; AppHash := "" |}.

(** The function, and the method of the same name that [config.Load] calls. *)
(* go: app/telegramsearch/internal/pkg/staticconfig/declaration.go | func DefaultConfig() Config *)
Definition DefaultConfig : static_Config :=
  MkStatic ctl_DefaultConfig zero_rdb (OpenAiClient.DefaultConfig SmallEmbedding3) Logger.DefaultConfig {| Token := ""; Greeting := "" |} v2_DefaultConfig.
(* go: app/telegramsearch/internal/pkg/staticconfig/defaults.go | func (c *Config) DefaultConfig() *)
Definition set_defaults (c : static_Config) : static_Config :=
  MkStatic ctl_DefaultConfig storage_Default (OpenAiClient.DefaultConfig SmallEmbedding3) Logger.DefaultConfig (TelegramTransport c) (TelegramV2 c).
(* go: app/telegramsearch/internal/pkg/staticconfig/declaration.go | // All sub validations *)
Definition static_Validate (c : static_Config) : option error := Join <$> match Bot.Validate (TelegramV2 c) with Some err => Some [err] | None => None end.
(* go: app/telegramsearch/cmd/telegramsearch/internal/configgen.go | func exampleConfigForUsers() *)
Definition exampleConfigForUsers : static_Config := set_defaults zero_Static.

(** ** The controller and the storage *)

Context {DB S : Type} `{Database DB S}.

(** The storage is its database. *)
(* go: app/telegramsearch/internal/pkg/client/storage/postgres/postgres.go | type Storage struct *)
Record Storage := MkStorage { st_cfg : RdbOpen.Config; st_db : DB }.
(* go: app/telegramsearch/internal/pkg/client/storage/postgres/postgres.go | func New( *)
Definition storage_New (cfg : RdbOpen.Config) : Storage := MkStorage cfg (db_New cfg).
Definition column_name (field : string) : string := snake_word field.
(* go: app/telegramsearch/internal/pkg/client/storage/postgres/postgres.go | // Ready implements *)
Definition storage_Ready (st : Storage) (s : S) : S * (Storage * outcome (option error)) :=
  match db_Ready (st_db st) s with
  | (s, (db, Some err)) => (s, (MkStorage (st_cfg st) db, Returns (Some err)))
  | (s, (db, None)) =>
      match db_MapperFunc db column_name s with
      | (s, Panics why) => (s, (MkStorage (st_cfg st) db, Panics why))
      | (s, Returns tt) => (s, (MkStorage (st_cfg st) db, Returns None))
      end
  end.
(* go: app/telegramsearch/internal/pkg/client/storage/postgres/postgres.go | func (s *Storage) Close() *)
Definition storage_Close (st : Storage) : S -> S * outcome (option error) := db_Close (st_db st).

(** The cache of answers to explain: its settings, and whether what has expired is removed. *)
Record answers_cache := { ttl : Z; capacity : Z; started : bool }.
(* go: app/telegramsearch/internal/pkg/controllers/controllerv1/controllerv1.go | type Ctl struct *)
Record Ctl := MkCtl { explainedMessagesCache : answers_cache; ctl_cfg : Search.Config; ctl_openai : openai_Client; storageRW : Storage }.
(* go: app/telegramsearch/internal/pkg/controllers/controllerv1/controllerv1.go | func New( *)
Definition ctl_New (cfg : Search.Config) (openai : openai_Client) (st : Storage) : Ctl :=
  MkCtl {| ttl := explained_ttl; capacity := 1024 * 1024 * 200; started := false |}%Z cfg openai st.
(* go: app/telegramsearch/internal/pkg/controllers/controllerv1/controllerv1.go | func (c *Ctl) Ready() *)
Definition ctl_Ready (c : Ctl) : Ctl * option error :=
  let k := explainedMessagesCache c in
  (MkCtl {| ttl := ttl k; capacity := capacity k; started := true |} (ctl_cfg c) (ctl_openai c) (storageRW c), None).

(** ** Commands (cmd/telegramsearch, clitooling) *)

(** What a command leaves with: its result, an error it returns, a panic, or [os.Exit]. *)
Inductive ending (A : Type) := Done (a : A) | Failed (e : error) | Crashed (why : string) | Exited.
#[global] Arguments Done {A}.
#[global] Arguments Failed {A}.
#[global] Arguments Crashed {A}.
#[global] Arguments Exited {A}.

(** The variables of the packages: [cfg] and [cfgName] of rootcmd, the logger, the transports,
    [ctl] of telegram and of embeddings; the output, what is logged, and the world of the
    database. [opened] are the storages that were made ready: none of them is ever closed. *)
Record state := MkState {
  cfg : static_Config; cfgName : string; logs : globals; transports : transportCache;
  telegram_ctl : option Ctl; embeddings_ctl : option Ctl;
  opened : list Storage; out : list string; logged : list string; dbs : S
}.

(** Steps that pass the state on and stop at the first error, panic or exit. *)
Definition M (A : Type) : Type := state -> state * ending A.
#[local] Instance M_ret : MRet M := fun A a s => (s, Done a).
#[local] Instance M_bind : MBind M := fun A B f m s =>
  match m s with
  | (s, Done a) => f a s
  | (s, Failed e) => (s, Failed e)
  | (s, Crashed why) => (s, Crashed why)
  | (s, Exited) => (s, Exited)
  end.
Definition stop {A} (e : ending A) : M A := fun s => (s, e).
Definition return_err (o : option error) : M unit := match o with Some e => stop (Failed e) | None => mret tt end.
Definition from_result {A} (wrap : error -> error) (r : result error A) : M A := match r with Ok a => mret a | Err e => stop (Failed (wrap e)) end.
Definition print_text (t : string) : M unit := fun s =>
  (MkState (cfg s) (cfgName s) (logs s) (transports s) (telegram_ctl s) (embeddings_ctl s) (opened s) (out s ++ [t]) (logged s) (dbs s), Done tt).
Definition log_text (t : string) : M unit := fun s =>
  (MkState (cfg s) (cfgName s) (logs s) (transports s) (telegram_ctl s) (embeddings_ctl s) (opened s) (out s) (logged s ++ [t]) (dbs s), Done tt).
Definition set_cfg (c : static_Config) (name : string) : M unit := fun s =>
  (MkState c name (logs s) (transports s) (telegram_ctl s) (embeddings_ctl s) (opened s) (out s) (logged s) (dbs s), Done tt).
Definition set_logs (g : globals) : M unit := fun s =>
  (MkState (cfg s) (cfgName s) g (transports s) (telegram_ctl s) (embeddings_ctl s) (opened s) (out s) (logged s) (dbs s), Done tt).
Definition set_transports (t : transportCache) : M unit := fun s =>
  (MkState (cfg s) (cfgName s) (logs s) t (telegram_ctl s) (embeddings_ctl s) (opened s) (out s) (logged s) (dbs s), Done tt).
Definition set_dbs (d : S) : M unit := fun s =>
  (MkState (cfg s) (cfgName s) (logs s) (transports s) (telegram_ctl s) (embeddings_ctl s) (opened s) (out s) (logged s) d, Done tt).
Definition set_opened (l : list Storage) : M unit := fun s =>
  (MkState (cfg s) (cfgName s) (logs s) (transports s) (telegram_ctl s) (embeddings_ctl s) l (out s) (logged s) (dbs s), Done tt).
Definition get : M state := fun s => (s, Done s).

(** The commands with their parents. *)
Inductive group := telegram | embeddings.
#[local] Instance group_eq_dec : EqDecision group.
Proof. solve_decision. Defined.
Inductive command := root | group_cmd (g : group) | bot | load | completion | try_ | generate | version | configgen.
#[local] Instance command_eq_dec : EqDecision command.
Proof. solve_decision. Defined.
(* go: app/telegramsearch/cmd/telegramsearch/internal/root.go | rootCmd = rootcmd.NewRootCmd( | L25-L30 *)
Definition Parent (c : command) : option command :=
  match c with
  | root => None
  | group_cmd _ | version | configgen => Some root
  | bot | load => Some (group_cmd telegram)
  | completion | try_ | generate => Some (group_cmd embeddings)
  end.

(** What the commands use: the home directory and the backends of the configuration, the levels
    and sinks of the logger, the two packages of YAML, and what the process was built from. *)
Context {B : Type} (user : result error string) (file : string -> B) (env : B) (confita_Load : list B -> static_Config -> static_Config * option error).
Context (level_Set : string -> option Z) (Open : string -> bool) (marshal marshal_v2 : static_Config -> result error string).
Context {T : Type} (to_json : T -> result error string) (Indent JSONToYAML : string -> result error string) (ReadFile : string -> result error string).

(** The operations of the controller, with what [yamlfromstruct] makes its text of. *)
Record operations := {
  op_DumpChatHistory : Ctl -> string -> string -> S -> S * outcome (result error T);
  op_TryCompletion : Ctl -> string -> S -> S * outcome (result error string);
  op_TryEmbedding : Ctl -> string -> S -> S * outcome (result error (list string));
  op_GenerateEmbeddings : Ctl -> S -> S * outcome (result error T);
  op_NewBot : bot_Config -> Ctl -> S -> S * option error;
  op_serve : bot_Config -> Ctl -> S -> S
}.
Context (ops : operations) (Build : T).
(** Flags and arguments of the command line. *)
Record arguments := { args : list string; chatID : string; filename : string }.

Definition call {A} (f : S -> S * outcome (result error A)) : M A :=
  s ← get; let '(d, r) := f (dbs s) in
  set_dbs d;; match r with Panics why => stop (Crashed why) | Returns r => from_result id r end.
(** What is read through a nil pointer of a controller panics. *)
Definition use {A} (c : option Ctl) (f : Ctl -> S -> S * outcome (result error A)) : M A :=
  match c with Some c => call (f c) | None => stop (Crashed nil_dereference) end.
Definition print_yaml (v : T) : M unit :=
  match Generate to_json Indent JSONToYAML v with YamlStruct.Generated y => print_text y | _ => stop Exited end.

(* go: app/telegramsearch/cmd/telegramsearch/internal/rootcmd/rootcmd.go | PersistentPreRunE: func(cmd *cobra.Command *)
Definition root_pre (cmd : command) : M unit :=
  if decide (cmd = configgen) then mret tt else
  s ← get;
  let name := if decide (cfgName s = "") then "config.yaml" else cfgName s in
  let '(c, err) := Helpers.config.Load file env set_defaults static_Validate confita_Load user "telegramsearch" (cfg s) name [] in
  set_cfg c name;;
  match err with
  | Some e => stop (Crashed (GoErrors.error_text e))
  | None =>
      let '(g, r) := SetNewGlobalLoggerOnce level_Set Open (Logging c) (logs s) in
      set_logs g;;
      match r with
      | SetPanics why => stop (Crashed why)
      | Exits => stop Exited
      | Set_ _ =>
          match marshal c with
          | Err e => stop (Crashed (GoErrors.error_text e))
          | Ok m => log_text ("running with config" +:+ m)
          end
      end
  end.

(* go: app/telegramsearch/cmd/telegramsearch/internal/ctl/ctl.go | func Init( *)
Definition ctl_Init : M Ctl :=
  s ← get;
  let '(d, (storageRW, r)) := storage_Ready (storage_New (PostgresRW (cfg s))) (dbs s) in
  set_dbs d;;
  match r with
  | Panics why => stop (Crashed why)
  | Returns (Some err) => stop (Failed (Wrap (WText "error creating storage") err))
  | Returns None =>
      set_opened (opened s ++ [storageRW]);;
      match NewClient ctx_err Limit BackoffWithJitter (OpenAI (cfg s)) (transports s) with
      | Panics why => stop (Crashed why)
      | Returns (openai, t) => set_transports t;; mret (ctl_New (Ctlv1 (cfg s)) openai storageRW)
      end
  end.
Definition set_ctl (g : group) (c : Ctl) : M unit := fun s =>
  match g with
  | telegram => (MkState (cfg s) (cfgName s) (logs s) (transports s) (Some c) (embeddings_ctl s) (opened s) (out s) (logged s) (dbs s), Done tt)
  | embeddings => (MkState (cfg s) (cfgName s) (logs s) (transports s) (telegram_ctl s) (Some c) (opened s) (out s) (logged s) (dbs s), Done tt)
  end.
(* go: app/telegramsearch/cmd/telegramsearch/internal/telegram/telegramcmd.go | func Init(ctx *)
Definition Init (g : group) : M unit := fun s =>
  match ctl_Init s with
  | (s, Failed err) => (s, Failed (Wrap (WText "error in controller init") err))
  | (s, Done controller) => set_ctl g controller s
  | (s, Crashed why) => (s, Crashed why)
  | (s, Exited) => (s, Exited)
  end.

(** [PersistentPreRunE] of a command that has one, called with the command that runs, or, by
    [RunParentPersistentPreRun], with the parent itself. *)
(* go: internal/clitooling/cobra.go | // RunParentPersistentPreRun *)
Definition RunParentPersistentPreRun (PersistentPreRunE : command -> command -> M unit) (cmd : command) : M unit :=
  match Parent cmd with Some p => PersistentPreRunE p p | None => mret tt end.
(* go: app/telegramsearch/cmd/telegramsearch/internal/telegram/telegramcmd.go | PersistentPreRunE: func | L38-L47 *)
Definition group_pre (PersistentPreRunE : command -> command -> M unit) (g : group) (cmd : command) : M unit :=
  RunParentPersistentPreRun PersistentPreRunE cmd;; Init g.
(** Three levels of commands need three calls. *)
Fixpoint PersistentPreRunE (fuel : nat) (owner cmd : command) : M unit :=
  match fuel, owner with
  | 0, _ => stop (Crashed "out of fuel")
  | _, root => root_pre cmd
  | Datatypes.S fuel, group_cmd g => group_pre (PersistentPreRunE fuel) g cmd
  | _, _ => stop (Crashed nil_dereference)
  end.

(** [RunE] of the commands. *)
(* go: app/telegramsearch/cmd/telegramsearch/internal/telegram/load.go | RunE: func *)
Definition load_RunE (a : arguments) : M unit :=
  s ← get;
  f ← from_result (Wrap (WText "cannot open file")) (ReadFile (filename a));
  chatHistory ← use (telegram_ctl s) (fun c => op_DumpChatHistory ops c (chatID a) f);
  print_yaml chatHistory.
(** The bot serves until it is interrupted. *)
(* go: app/telegramsearch/cmd/telegramsearch/internal/telegram/bot.go | RunE: func *)
Definition bot_RunE : M unit :=
  s ← get;
  match telegram_ctl s with
  | None => stop (Crashed nil_dereference)
  | Some c =>
      let '(d, err) := op_NewBot ops (TelegramTransport (cfg s)) c (dbs s) in
      set_dbs d;;
      match err with
      | Some e => stop (Failed (Wrap (WText "new bot") e))
      | None => set_dbs (op_serve ops (TelegramTransport (cfg s)) c d)
      end
  end.
Definition arg0 (a : arguments) : M string := match args a with x :: _ => mret x | [] => stop (Crashed index_out_of_range) end.
(* go: app/telegramsearch/cmd/telegramsearch/internal/embeddings/completion.go | RunE: func *)
Definition completion_RunE (a : arguments) : M unit :=
  s ← get; q ← arg0 a; r ← use (embeddings_ctl s) (fun c => op_TryCompletion ops c q); print_text r.
(* go: app/telegramsearch/cmd/telegramsearch/internal/embeddings/tryembedding.go | RunE: func *)
Definition try_RunE (a : arguments) : M unit :=
  s ← get; q ← arg0 a; r ← use (embeddings_ctl s) (fun c => op_TryEmbedding ops c q);
  foldr (fun t rest => print_text t;; rest) (mret tt) r.
(* go: app/telegramsearch/cmd/telegramsearch/internal/embeddings/generate.go | RunE: func *)
Definition generate_RunE : M unit := s ← get; r ← use (embeddings_ctl s) (op_GenerateEmbeddings ops); print_yaml r.
(* go: app/telegramsearch/cmd/telegramsearch/internal/version.go | RunE: func *)
Definition version_RunE : M unit := print_yaml Build.
(* go: app/telegramsearch/cmd/telegramsearch/internal/configgen.go | RunE: func *)
Definition configgen_RunE : M unit :=
  marshalled ← from_result (Wrap (WText "could not marshal config")) (marshal_v2 exampleConfigForUsers); print_text marshalled.
Definition RunE (c : command) (a : arguments) : option (M unit) :=
  match c with
  | root | group_cmd _ => None
  | bot => Some bot_RunE | load => Some (load_RunE a)
  | completion => Some (completion_RunE a) | try_ => Some (try_RunE a) | generate => Some generate_RunE
  | version => Some version_RunE | configgen => Some configgen_RunE
  end.

(** The library runs the hook of the nearest command that has one, and then the command; a command
    that does nothing shows its help. *)
Definition owner_of (c : command) : command :=
  match c with bot | load => group_cmd telegram | completion | try_ | generate => group_cmd embeddings | _ => root end.
Definition cobra_Execute (c : command) (a : arguments) : M unit :=
  match RunE c a with
  | None => print_text "help"
  | Some r => PersistentPreRunE 3 (owner_of c) c;; r
  end.
Inductive exit := Success | ExitOne (why : error) | Died.
(* go: app/telegramsearch/cmd/telegramsearch/internal/root.go | func Execute() *)
Definition Execute (c : command) (a : arguments) (s : state) : state * exit :=
  match cobra_Execute c a s with
  | (s, Done _) => (s, Success)
  | (s, Crashed _) => (s, Died)
  | (s, Exited) => (s, Died)
  | (s, Failed err) =>
      let '(g, r) := SetNewGlobalLoggerQuietly level_Set Open Logger.DefaultConfig (logs s) in
      let '(s, _) := set_logs g s in
      match r with
      | Set_ _ => ((log_text (GoErrors.error_text (Wrap (WText "error executing root command") err)) s).1, ExitOne err)
      | SetPanics _ | Exits => (s, Died)
      end
  end.

(** ** Before every command *)

Definition ctl_of (g : group) (s : state) : option Ctl := match g with telegram => telegram_ctl s | embeddings => embeddings_ctl s end.

(** A step that succeeded succeeded up to its first part. *)
Lemma M_bind_done {A A'} (m : M A) (f : A -> M A') s s' r : (m ≫= f) s = (s', Done r) ->
  exists s1 a, m s = (s1, Done a) /\ f a s1 = (s', Done r).
Proof. unfold mbind, M_bind. destruct (m s) as [s1 [a|e|why|]]; try done. by exists s1, a. Qed.
Lemma M_bind_get {A'} (f : state -> M A') s : (get ≫= f) s = f s s.
Proof. reflexivity. Qed.

(** Three calls are enough, however many are allowed. *)
Lemma PersistentPreRunE_fuel n c s : 3 <= n -> PersistentPreRunE n (owner_of c) c s = PersistentPreRunE 3 (owner_of c) c s.
Proof. intros H3. destruct n as [|[|[|n]]]; [lia..|]. by destruct c. Qed.

(** The configuration is loaded without touching what is connected. *)
Lemma root_pre_opened cmd s s' : root_pre cmd s = (s', Done tt) -> opened s' = opened s.
Proof.
  unfold root_pre. destruct (decide (cmd = configgen)); [by intros [= <-]|].
  rewrite M_bind_get. cbv zeta. destruct (Helpers.config.Load _ _ _ _ _ _ _ _ _ _) as [c [e|]]; [done|].
  destruct (SetNewGlobalLoggerOnce _ _ _ _) as [g r]. intros (s1 & [] & [= <-] & H1)%M_bind_done.
  apply M_bind_done in H1 as (s2 & [] & [= <-] & H2).
  destruct r; try done. destruct (marshal c); [|done]. by injection H2 as <-.
Qed.

(** A controller is one new storage, which works, and a cache that is not cleaned. *)
Lemma ctl_Init_spec s s' c : ctl_Init s = (s', Done c) ->
  opened s' = opened s ++ [storageRW c] /\ usable (st_db (storageRW c)) /\ started (explainedMessagesCache c) = false.
Proof.
  unfold ctl_Init. rewrite M_bind_get. unfold storage_Ready, storage_New. cbn [st_db st_cfg].
  destruct (db_Ready _ _) as [d [db [err|]]] eqn:Er; [done|].
  destruct (db_MapperFunc _ _ _) as [d' [[]|why]]; [|done].
  intros (s1 & [] & [= <-] & H1)%M_bind_done. apply M_bind_done in H1 as (s2 & [] & [= <-] & H2).
  destruct (NewClient _ _ _ _ _) as [[oc t]|why]; [|done].
  apply M_bind_done in H2 as (s3 & [] & [= <-] & [= <- <-]). cbn. split_and!; [done| |done]. by eapply ready_usable.
Qed.
Lemma Init_spec g s s' : Init g s = (s', Done tt) -> exists c, ctl_of g s' = Some c /\
  opened s' = opened s ++ [storageRW c] /\ usable (st_db (storageRW c)) /\ started (explainedMessagesCache c) = false.
Proof.
  unfold Init. destruct (ctl_Init s) as [s1 [c|e|why|]] eqn:E; try done. apply ctl_Init_spec in E as (Ho & Hu & Hc).
  intros H1. exists c. by destruct g; injection H1 as <-.
Qed.

(** The configuration that is loaded is the one a command runs with. *)
Definition loaded_config (s : state) : static_Config * option error :=
  Helpers.config.Load file env set_defaults static_Validate confita_Load user "telegramsearch" (cfg s)
    (if decide (cfgName s = "") then "config.yaml" else cfgName s) [].
Lemma root_pre_loaded cmd s s' : cmd <> configgen -> root_pre cmd s = (s', Done tt) -> loaded_config s = (cfg s', None).
Proof.
  unfold root_pre, loaded_config. intros Hne. rewrite decide_False by done. rewrite M_bind_get. cbv zeta.
  destruct (Helpers.config.Load _ _ _ _ _ _ _ _ _ _) as [c [e|]]; [done|].
  destruct (SetNewGlobalLoggerOnce _ _ _ _) as [g r]. intros (s1 & [] & [= <-] & H1)%M_bind_done.
  apply M_bind_done in H1 as (s2 & [] & [= <-] & H2).
  destruct r; try done. destruct (marshal c); [|done]. by injection H2 as <-.
Qed.

(** A controller has the configuration of the program, and a cache with the time to live of its
    package. *)
Definition configured (c : Ctl) (s : state) : Prop := ctl_cfg c = Ctlv1 (cfg s) /\ ttl (explainedMessagesCache c) = explained_ttl.
Lemma ctl_Init_configured s s' c : ctl_Init s = (s', Done c) -> configured c s' /\ cfg s' = cfg s.
Proof.
  unfold ctl_Init. rewrite M_bind_get. unfold storage_Ready, storage_New. cbn [st_db st_cfg].
  destruct (db_Ready _ _) as [d [db [err|]]]; [done|]. destruct (db_MapperFunc _ _ _) as [d' [[]|why]]; [|done].
  intros (s1 & [] & [= <-] & H1)%M_bind_done. apply M_bind_done in H1 as (s2 & [] & [= <-] & H2).
  destruct (NewClient _ _ _ _ _) as [[oc t]|why]; [|done].
  by apply M_bind_done in H2 as (s3 & [] & [= <-] & [= <- <-]).
Qed.
Lemma Init_configured g s s' : Init g s = (s', Done tt) -> cfg s' = cfg s /\ forall c, ctl_of g s' = Some c -> configured c s'.
Proof.
  unfold Init. destruct (ctl_Init s) as [s1 [c|e|why|]] eqn:E; try done. apply ctl_Init_configured in E as (Hc & <-).
  intros H1. destruct g; injection H1 as <-; (split; [done|]); by intros c' [= <-].
Qed.
Lemma prerun_configured g c s s' : Parent c = Some (group_cmd g) -> PersistentPreRunE 3 (owner_of c) c s = (s', Done tt) ->
  loaded_config s = (cfg s', None) /\ forall ctl, ctl_of g s' = Some ctl -> configured ctl s'.
Proof.
  intros Hp. assert (PersistentPreRunE 3 (owner_of c) c = ((root_pre root;; Init g);; Init g)) as -> by (by destruct c; inversion Hp).
  intros (s2 & [] & H2 & H3)%M_bind_done. apply M_bind_done in H2 as (s1 & [] & H1 & H2).
  apply root_pre_loaded in H1; [|done]. apply Init_configured in H2 as [E2 _], H3 as [E3 Hc]. split; [|exact Hc]. by rewrite E3, E2.
Qed.

(** The hook of a group runs its parent's with the parent of the command, which is the group: so
    the group connects twice. Only the second storage is used, the first is left open; and the
    cache of the controller is never started. *)
Theorem prerun_connects_twice g c s s' : Parent c = Some (group_cmd g) -> PersistentPreRunE 3 (owner_of c) c s = (s', Done tt) ->
  exists st ctl, ctl_of g s' = Some ctl /\ opened s' = opened s ++ [st; storageRW ctl] /\
    usable (st_db st) /\ usable (st_db (storageRW ctl)) /\ started (explainedMessagesCache ctl) = false.
Proof.
  intros Hp. assert (PersistentPreRunE 3 (owner_of c) c = ((root_pre root;; Init g);; Init g)) as -> by (by destruct c; inversion Hp).
  intros (s2 & [] & H2 & H3)%M_bind_done. apply M_bind_done in H2 as (s1 & [] & H1 & H2).
  apply root_pre_opened in H1. apply Init_spec in H2 as (c1 & _ & O2 & U2 & _), H3 as (c2 & Hc & O3 & U3 & F).
  exists (storageRW c1), c2. by rewrite O3, O2, H1, <- app_assoc.
Qed.

(** A question that is missing crashes the program, after it has connected. *)
Theorem no_question_crashes c a s s' : c = completion \/ c = try_ -> args a = [] ->
  PersistentPreRunE 3 (owner_of c) c s = (s', Done tt) -> Execute c a s = (s', Died).
Proof.
  intros Hc Ha Hs. unfold Execute, cobra_Execute.
  assert (exists r, RunE c a = Some r /\ forall s, r s = (s, Crashed index_out_of_range)) as (r & -> & Hr).
  { destruct Hc as [-> | ->]; cbn [RunE]; eexists; (split; [done|]); intros s0; unfold completion_RunE, try_RunE, arg0; by rewrite Ha. }
  unfold mbind at 1, M_bind. by rewrite Hs, Hr.
Qed.

(** The sample needs nothing: neither a configuration nor a connection. *)
Theorem configgen_only_prints a s m : marshal_v2 exampleConfigForUsers = Ok m ->
  exists s', Execute configgen a s = (s', Success) /\ out s' = out s ++ [m] /\
    opened s' = opened s /\ dbs s' = dbs s /\ cfg s' = cfg s /\ logged s' = logged s.
Proof.
  intros Hm. unfold Execute, cobra_Execute. cbn [RunE owner_of PersistentPreRunE].
  unfold root_pre. rewrite decide_True by done. unfold configgen_RunE. rewrite Hm. by eexists.
Qed.

(** But the sample can not be used as it is: it has no identity of the application. *)
Theorem sample_is_refused : exists err, static_Validate exampleConfigForUsers = Some err.
Proof. by eexists. Qed.

(** What a command returns is logged once and ends the program with 1; what it does before, it does
    whatever comes after. *)
Theorem failed_connection_is_reported c g a s s1 s2 err : Parent c = Some (group_cmd g) ->
  root_pre root s = (s1, Done tt) -> global (logs s2) <> None -> Init g s1 = (s2, Failed err) ->
  exists s', Execute c a s = (s', ExitOne err) /\ logged s' = logged s2 ++ [error_text (Wrap (WText "error executing root command") err)] /\
    out s' = out s2 /\ dbs s' = dbs s2.
Proof.
  intros Hp H1 Hg H2. unfold Execute, cobra_Execute.
  assert (exists r, RunE c a = Some r) as (r & ->) by (destruct c; inversion Hp; by eexists).
  assert (PersistentPreRunE 3 (owner_of c) c = ((root_pre root;; Init g);; Init g)) as -> by (by destruct c; inversion Hp).
  unfold mbind, M_bind. rewrite H1, H2. unfold SetNewGlobalLoggerQuietly. destruct (global (logs s2)); [|done]. by eexists.
Qed.

(** A question on the command line is answered by the controller that was made last, and the answer
    is all that is printed. *)
Lemma completion_ran a s s' : Execute completion a s = (s', Success) ->
  exists q rest s1 c answer, args a = q :: rest /\ PersistentPreRunE 3 (owner_of completion) completion s = (s1, Done tt) /\
    embeddings_ctl s1 = Some c /\ op_TryCompletion ops c q (dbs s1) = (dbs s', Returns (Ok answer)) /\ out s' = out s1 ++ [answer].
Proof.
  unfold Execute, cobra_Execute. cbn [RunE].
  destruct ((PersistentPreRunE 3 (owner_of completion) completion;; completion_RunE a) s) as [s2 [[]|e|why|]] eqn:E; try done.
  2: { destruct (SetNewGlobalLoggerQuietly _ _ _ _) as [g []]; cbn; done. }
  intros [= <-]. apply M_bind_done in E as (s1 & [] & H1 & H2). unfold completion_RunE in H2. rewrite M_bind_get in H2.
  apply M_bind_done in H2 as (s3 & q & H3 & H2). unfold arg0 in H3. destruct (args a) as [|q' rest] eqn:Ea; [done|].
  injection H3 as <- <-. apply M_bind_done in H2 as (s4 & r & H4 & [= <-]). unfold use in H4.
  destruct (embeddings_ctl s1) as [c|] eqn:Ec; [|done]. unfold call in H4. rewrite M_bind_get in H4.
  destruct (op_TryCompletion ops c q' (dbs s1)) as [d [[x|e]|why]] eqn:Eo; try done.
  injection H4 as <- <-. by exists q', rest, s1, c, x.
Qed.

(** The bot serves with the controller that was made last, once the library has made a bot. *)
Lemma bot_command a s s' : Execute bot a s = (s', Success) ->
  exists s1 c d, PersistentPreRunE 3 (owner_of bot) bot s = (s1, Done tt) /\ telegram_ctl s1 = Some c /\
    op_NewBot ops (TelegramTransport (cfg s1)) c (dbs s1) = (d, None) /\ dbs s' = op_serve ops (TelegramTransport (cfg s1)) c d.
Proof.
  unfold Execute, cobra_Execute. cbn [RunE].
  destruct ((PersistentPreRunE 3 (owner_of bot) bot;; bot_RunE) s) as [s2 [[]|e|why|]] eqn:E; try done.
  2: { destruct (SetNewGlobalLoggerQuietly _ _ _ _) as [g []]; cbn; done. }
  intros [= <-]. apply M_bind_done in E as (s1 & [] & H1 & H2). unfold bot_RunE in H2. rewrite M_bind_get in H2.
  destruct (telegram_ctl s1) as [c|] eqn:Ec; [|done].
  destruct (op_NewBot ops (TelegramTransport (cfg s1)) c (dbs s1)) as [d err] eqn:En.
  apply M_bind_done in H2 as (s3 & [] & [= <-] & H3). destruct err as [e|]; [done|]. injection H3 as <-.
  by exists s1, c, d.
Qed.
End program.

(** ** Examples *)

(** A database that counts how often it was opened, and can be down. *)
Definition demo_state : Type := nat * bool.
Definition demo_db_Ready (d : bool) (s : demo_state) : demo_state * (bool * option error) :=
  if s.2 then (s, (false, Some (Leaf (LText "down")))) else ((S s.1, false), (true, None)).
#[local] Program Instance demo_database : Database bool demo_state := {|
  db_New := fun _ => false; db_Ready := demo_db_Ready; db_ExecContext := fun _ _ s => (s, Returns None);
  db_Close := fun _ s => (s, Returns None); db_MapperFunc := fun _ _ s => (s, Returns tt); usable := fun d => d = true
|}.
Next Obligation. intros d s s' d'. unfold demo_db_Ready. destruct s.2; by intros [= <- <-]. Qed.
Next Obligation. intros d q s Hd. by exists s, None. Qed.
Next Obligation. intros d s Hd. by exists s, None. Qed.
Next Obligation. intros d mf s Hd. by exists s. Qed.

Section demo.
Notation cfg_t := (static_Config (W := unit)).
Definition demo_limit (n : nat) : Retry.strategy := fun _ _ => true.
Definition demo_limit' (n : Z) : Retry.strategy := fun _ _ => true.
Definition demo_cfg : cfg_t := DefaultConfig (W := unit) "small".
Definition demo_ops : operations (W := unit) (DB := bool) (S := demo_state) (T := string) := {|
  op_DumpChatHistory := fun _ chat f s => (s, Returns (Ok (chat +:+ f)));
  op_TryCompletion := fun _ q s => (s, Returns (Ok ("re: " +:+ q)));
  op_TryEmbedding := fun _ q s => (s, Returns (Ok [q; q]));
  op_GenerateEmbeddings := fun _ s => (s, Returns (Ok "done"));
  op_NewBot := fun _ _ s => (s, None); op_serve := fun _ _ s => s |}.
Definition demo_user : result error string := Ok "/root".
Definition demo_load (l : list string) (c : cfg_t) : cfg_t * option error := (demo_cfg, None).
Definition demo_start (down : bool) : state (W := unit) (DB := bool) (S := demo_state) :=
  MkState demo_cfg "" initial {| cached := []; made := 0 |} None None [] [] [] (0, down).
Notation pre := (PersistentPreRunE (fun _ => None) demo_limit demo_limit' "small" demo_user (fun s => s) "env"
  demo_load (fun _ => Some 0%Z) (fun _ => true) (fun _ => Ok "")).
Notation run := (Execute (fun _ => None) demo_limit demo_limit' "small" demo_user (fun s => s) "env"
  demo_load (fun _ => Some 0%Z) (fun _ => true) (fun _ => Ok "") (fun _ => Ok "sample")
  (fun t => Ok t) (fun t => Ok t) (fun t => Ok t) (fun _ => Ok "messages") demo_ops "build").

(** Two connections for one question, and the answer; none for the sample. *)
Example demo_command_question : exists s, run completion {| args := ["why"]; chatID := ""; filename := "" |} (demo_start false) = (s, Success) /\
  out s = ["re: why"] /\ dbs s = (2, false).
Proof. eexists. vm_compute. done. Qed.
Example demo_command_down : exists s e, run load {| args := []; chatID := ""; filename := "f" |} (demo_start true) = (s, ExitOne e) /\
  error_text e = "error in controller init: error creating storage: down".
Proof. do 2 eexists. vm_compute. done. Qed.

Lemma prerun_connects_twice_witness : exists s' (st : Storage) (ctl : Ctl (W := unit)), pre 3 (owner_of load) load (demo_start false) = (s', Done tt) /\
  opened s' = [st; storageRW ctl] /\ started (explainedMessagesCache ctl) = false.
Proof.
  destruct (pre 3 (owner_of load) load (demo_start false)) as [s' r] eqn:E.
  assert (r = Done tt) as -> by (revert E; vm_compute; by intros [= _ <-]).
  destruct (prerun_connects_twice _ _ _ _ _ _ _ _ _ _ _ telegram load (demo_start false) s' eq_refl E) as (st & ctl & _ & Ho & _ & _ & Hs).
  exists s', st, ctl. split; [reflexivity|]. split; [exact Ho | exact Hs].
Defined.
End demo.
