(* ===== verification/LogFmt.v ===== *)
(** * The formatter of log keys (internal/logfmt)

    The program that rewrites the keys of the log fields of all files below some directories; what
    it does to one call is in Casing.v. Parsing and printing files, and walking a directory, are
    parameters. *)
From S2P Require Import Prelude GoErrors Dsn Texts Casing Helpers.

(** ** One file *)

Definition quoted_key (k : text) : text := [dquote_rune] ++ k ++ [dquote_rune].

(** A node is visited before its children. The key is set before them as well; but that changes
    the literal only, which is not a call. *)
Fixpoint Apply (n : ast_node) : outcome (ast_node * (bool * list text)) :=
  let visit_all := fix visit_all (l : list ast_node) : outcome (list ast_node * (bool * list text)) :=
    match l with
    | [] => Returns ([], (false, []))
    | x :: l => '(x, (r1, k1)) ← Apply x; '(l, (r2, k2)) ← visit_all l; Returns (x :: l, (r1 || r2, k1 ++ k2))
    end in
  '(_, shouldRewrite, key) ← format_node n;
  let done_ (n : ast_node) (r : bool) (ks : list text) :=
    (match key with Some k => if shouldRewrite : bool then setZapFieldKey n (quoted_key k) else n | None => n end,
     (shouldRewrite || r, option_list key ++ ks)) in
  match n with
  | Ident _ | BasicLit _ _ => Returns (done_ n false [])
  | SelectorExpr x sel => '(x, (r, ks)) ← Apply x; Returns (done_ (SelectorExpr x sel) r ks)
  | CallExpr f args => '(f, (r1, k1)) ← Apply f; '(args, (r2, k2)) ← visit_all args; Returns (done_ (CallExpr f args) (r1 || r2) (k1 ++ k2))
  | OtherNode l => '(l, (r, ks)) ← visit_all l; Returns (done_ (OtherNode l) r ks)
  end.
(** The children of a node, in order; the same function, for lemmas. *)
Fixpoint visit_all (l : list ast_node) : outcome (list ast_node * (bool * list text)) :=
  match l with
  | [] => Returns ([], (false, []))
  | x :: l => '(x, (r1, k1)) ← Apply x; '(l, (r2, k2)) ← visit_all l; Returns (x :: l, (r1 || r2, k1 ++ k2))
  end.

(** ** The program *)

Section program.
Context (parse : text -> result error ast_node) (format : ast_node -> result error text).
(** What [WalkDir] calls its function with: paths, whether they are directories, and errors. *)
Context (WalkDir : string -> list (string * bool * option error)) (Getwd : result error string) (no_file : string -> error).

Definition files : Type := gmap string text.
Definition dot : Ascii.ascii := ".".
Definition Ext (name : string) : string :=
  match rev (split_byte dot name) with [] | [_] => "" | e :: _ => String dot e end.
Definition IsAbs (p : string) : bool := has_prefix "/" p.

(* go: internal/logfmt/logfmt.go | inputPaths := strings.Split | L61-L73 *)
Definition searchPaths (paths : string) : result error (list string) :=
  mapM (fun p => if IsAbs p then Ok p else wd ← Getwd; Ok (path.Clean (path.Join [wd; p]))) (split_byte " " paths).
(* go: internal/logfmt/logfmt.go | for _, rootPath := range searchPaths *)
Definition visit_entry (acc : result error (list string)) (e : string * bool * option error) : result error (list string) :=
  srcfiles ← acc;
  let '(p, isDir, err) := e in
  match err with
  | Some err => Err err
  | None => if (isDir : bool) || negb (bool_decide (Ext (path.Base p) = ".go")) then Ok srcfiles else Ok (srcfiles ++ [p])
  end.
Definition find_files (roots : list string) : result error (list string) := foldl (fun acc root => foldl visit_entry acc (WalkDir root)) (Ok []) roots.

(** One file: it is parsed, its keys collected, and it is written if a key was set. *)
(* go: internal/logfmt/logfmt.go | for _, srcfile := range srcfiles | L97-L133 *)
Definition format_file (srcfile : string) (fs : files) : files * outcome (result error (list text)) :=
  match fs !! srcfile with
  | None => (fs, Returns (Err (no_file srcfile)))
  | Some content =>
      match parse content with
      | Err err => (fs, Returns (Err err))
      | Ok file =>
          match Apply file with
          | Panics why => (fs, Panics why)
          | Returns (rewrittenFile, (shouldRewriteFile, keys)) =>
              if shouldRewriteFile : bool
              then match format rewrittenFile with
                   | Err err => (fs, Returns (Err err))
                   | Ok buf => (<[srcfile := buf]> fs, Returns (Ok keys))
                   end
              else (fs, Returns (Ok keys))
          end
      end
  end.
Fixpoint format_files (srcfiles : list string) (fs : files) : files * outcome (result error (list text)) :=
  match srcfiles with
  | [] => (fs, Returns (Ok []))
  | p :: l =>
      match format_file p fs with
      | (fs, Returns (Ok ks)) =>
          match format_files l fs with
          | (fs, Returns (Ok ks')) => (fs, Returns (Ok (ks ++ ks')))
          | r => r
          end
      | r => r
      end
  end.

(** The distinct keys in order, for [verbose]; every key is plain bytes. *)
Fixpoint text_leb (s t : text) : bool :=
  match s, t with
  | [], _ => true
  | _ :: _, [] => false
  | a :: s, b :: t => if (a =? b)%N then text_leb s t else (a <? b)%N
  end.
(* go: internal/logfmt/logfmt.go | if verbose { *)
Definition report (keys : list text) : list text :=
  merge_sort (fun s t => Is_true (text_leb s t)) (trim (N.eqb dquote_rune) <$> remove_dups keys).

(** The error is what the program panics with; the second component is what it prints. *)
(* go: internal/logfmt/logfmt.go | func logfmt() error *)
Definition logfmt (paths : string) (verbose : bool) (fs : files) : files * outcome (result error (list text)) :=
  match (roots ← searchPaths paths; find_files roots) with
  | Err err => (fs, Returns (Err err))
  | Ok srcfiles =>
      match format_files srcfiles fs with
      | (fs, Returns (Ok keys)) => (fs, Returns (Ok (if verbose then report keys else [])))
      | r => r
      end
  end.
End program.

(** ** Formatting twice *)

Section nodes.
Variable P : ast_node -> Prop.
Hypothesis (HI : forall s, P (Ident s)) (HS : forall x sel, P x -> P (SelectorExpr x sel)) (HB : forall b v, P (BasicLit b v))
  (HC : forall f args, P f -> Forall P args -> P (CallExpr f args)) (HO : forall l, Forall P l -> P (OtherNode l)).

Fixpoint ast_node_ind' (n : ast_node) : P n :=
  let all := fix all (l : list ast_node) : Forall P l :=
    match l with [] => Forall_nil_2 P | x :: l => Forall_cons_2 P x l (ast_node_ind' x) (all l) end in
  match n with
  | Ident s => HI s
  | SelectorExpr x sel => HS x sel (ast_node_ind' x)
  | BasicLit b v => HB b v
  | CallExpr f args => HC f args (ast_node_ind' f) (all args)
  | OtherNode l => HO l (all l)
  end.
End nodes.

(** What the key of a call depends on: the package of its function and its first argument. *)
Definition callee (n : ast_node) : option string := match n with SelectorExpr (Ident name) _ => Some name | _ => None end.
Definition literal (n : ast_node) : option text := match n with BasicLit true v => Some v | _ => None end.
Lemma getZapFieldKey_call f args : getZapFieldKey (CallExpr f args) =
  if decide (callee f = Some "zap") then match args with [] => Panics index_out_of_range | a :: _ => Returns (default [] (literal a)) end
  else Returns [].
Proof.
  destruct f as [|[name| | | |] sel| | |]; cbn [getZapFieldKey callee]; try (by rewrite decide_False by done).
  destruct (decide (name <> "zap")) as [H|H]; destruct (decide (Some name = Some "zap")) as [E|E]; try done.
  - by injection E.
  - destruct args as [|[| |[] v| |] args]; done.
  - destruct (decide (name = "zap")) as [->|]; done.
Qed.

(** The rest of a node's work when its children are done. *)
Definition finish (n : ast_node) (shouldRewrite : bool) (key : option text) : ast_node :=
  match key with Some k => if shouldRewrite then setZapFieldKey n (quoted_key k) else n | None => n end.
Definition same_view (m n : ast_node) : Prop :=
  callee m = callee n /\ literal m = literal n /\ (forall name, m = Ident name <-> n = Ident name).

Lemma format_node_key n n1 rw k : format_node n = Returns (n1, rw, Some k) -> snake k = true.
Proof.
  unfold format_node. destruct (getZapFieldKey n) as [key|why]; [|done]. unfold mbind, outcome_bind.
  destruct (decide (key = [])); [done|]. destruct (decide _) as [_|_]; intros [= _ _ <-]; apply toSnakeCase_snake.
Qed.
Lemma format_node_none n n1 rw : format_node n = Returns (n1, rw, None) -> rw = false.
Proof.
  unfold format_node. destruct (getZapFieldKey n) as [key|why]; [|done]. unfold mbind, outcome_bind.
  destruct (decide (key = [])); [by intros [= _ <-]|]. by destruct (decide _).
Qed.
(** A call is formatted by its key alone. *)
Lemma format_node_by_key m n n1 rw key : getZapFieldKey m = getZapFieldKey n -> format_node n = Returns (n1, rw, key) ->
  exists m1, format_node m = Returns (m1, rw, key).
Proof.
  intros Hk. unfold format_node. rewrite Hk. destruct (getZapFieldKey n) as [k|why]; [|done]. unfold mbind, outcome_bind.
  destruct (decide (k = [])); [intros [= _ <- <-]; by eexists|].
  destruct (decide _) as [_|_]; intros [= _ <- <-]; by eexists.
Qed.
Lemma setZapFieldKey_view f args f' args' k0 k : callee f' = callee f -> match args with a :: _ => exists b l, args' = b :: l /\ literal b = literal a | [] => args' = [] end ->
  getZapFieldKey (CallExpr f args) = Returns k0 -> k0 <> [] ->
  getZapFieldKey (setZapFieldKey (CallExpr f' args') k) = Returns k.
Proof.
  intros Hf Ha. rewrite getZapFieldKey_call. destruct (decide (callee f = Some "zap")) as [E|]; [|by intros [= <-]].
  destruct args as [|a args]; [done|]. destruct Ha as (b & l & -> & Hb). intros [= <-] Hk.
  rewrite <- Hb in Hk. destruct b as [| |[] v| |]; try done. cbn [setZapFieldKey].
  rewrite getZapFieldKey_call, decide_True by congruence. done.
Qed.

(** A call whose children are done is done: its key is found again, and set again. *)
Lemma finish_call f args f' args' n1 rw key : callee f' = callee f ->
  match args with a :: _ => exists b l, args' = b :: l /\ literal b = literal a | [] => args' = [] end ->
  format_node (CallExpr f args) = Returns (n1, rw, key) ->
  exists m1, format_node (finish (CallExpr f' args') rw key) = Returns (m1, rw, key).
Proof.
  intros Hf Ha Hn.
  assert (getZapFieldKey (CallExpr f' args') = getZapFieldKey (CallExpr f args)) as Hsame.
  { rewrite !getZapFieldKey_call, Hf. destruct args as [|a args]; [by subst|]. destruct Ha as (b & l & -> & Hb). by rewrite Hb. }
  destruct key as [k|]; [|by eapply format_node_by_key].
  destruct rw; cbn [finish]; [|by eapply format_node_by_key].
  pose proof (format_node_key _ _ _ _ Hn) as Hk. revert Hn. unfold format_node at 1.
  destruct (getZapFieldKey (CallExpr f args)) as [k0|why] eqn:Ek; [|done]. unfold mbind, outcome_bind.
  destruct (decide (k0 = [])) as [|Hk0]; [done|]. destruct (decide _) as [|_]; [done|]. intros [= _ _].
  unfold format_node. rewrite (setZapFieldKey_view f args f' args' k0 (quoted_key k) Hf Ha Ek Hk0). unfold mbind, outcome_bind.
  rewrite decide_False by done. unfold quoted_key.
  rewrite trim_quotes by (apply Forall_forall; intros r Hr; by apply (snake_no_quote k r Hk)).
  rewrite (toSnakeCase_id k Hk). rewrite decide_False; [by eexists|]. intros E.
  destruct k as [|r k']; [done|]. assert (r ∈ r :: k') as Hr by left. apply (snake_no_quote _ _ Hk) in Hr as [Hr _].
  by injection E as -> _.
Qed.

(** The work on a node, by cases. *)
Lemma Apply_call f args : Apply (CallExpr f args) =
  ('(_, rw, key) ← format_node (CallExpr f args); '(f, (r1, k1)) ← Apply f; '(args, (r2, k2)) ← visit_all args;
   Returns (finish (CallExpr f args) rw key, (rw || (r1 || r2), option_list key ++ k1 ++ k2))).
Proof. reflexivity. Qed.
Lemma Apply_other l : Apply (OtherNode l) = ('(l, r) ← visit_all l; Returns (OtherNode l, r)).
Proof.
  transitivity ('(l, (r, ks)) ← visit_all l; Returns (OtherNode l, (false || r, option_list None ++ ks))); [reflexivity|].
  unfold mbind, outcome_bind. by destruct (visit_all l) as [[? [[] ?]]|].
Qed.
Lemma Apply_selector x sel : Apply (SelectorExpr x sel) = ('(x, r) ← Apply x; Returns (SelectorExpr x sel, r)).
Proof. cbn. unfold mbind, outcome_bind. rewrite decide_True by done. by destruct (Apply x) as [[? [[] ?]]|]. Qed.

(** What is left when the keys are blanked. *)
Fixpoint erase (n : ast_node) : ast_node :=
  match n with
  | Ident _ | BasicLit _ _ => n
  | SelectorExpr x sel => SelectorExpr (erase x) sel
  | OtherNode l => OtherNode (erase <$> l)
  | CallExpr f args =>
      CallExpr (erase f)
        (if decide (callee f = Some "zap") then match args with BasicLit true _ :: l => BasicLit true [] :: (erase <$> l) | _ => erase <$> args end
         else erase <$> args)
  end.

(** What holds of a node and what it becomes. *)
Record normal (n n' : ast_node) (rw : bool) (ks : list text) : Prop := {
  n_again : Apply n' = Returns (n', (rw, ks));
  n_snake : Forall (fun k => snake k = true) ks;
  n_kept : rw = false -> n' = n;
  n_erase : erase n' = erase n;
  n_callee : callee n' = callee n;
  n_literal : literal n' = literal n;
  n_ident : forall name, n' = Ident name <-> n = Ident name
}.
Definition normalizes (n : ast_node) : Prop := forall n' rw ks, Apply n = Returns (n', (rw, ks)) -> normal n n' rw ks.

Lemma visit_all_normal l : Forall normalizes l -> forall l' rw ks, visit_all l = Returns (l', (rw, ks)) ->
  visit_all l' = Returns (l', (rw, ks)) /\ Forall (fun k => snake k = true) ks /\ (rw = false -> l' = l) /\
  Forall2 (fun b a => exists r k, normal a b r k) l' l.
Proof.
  induction 1 as [|x l Hx Hl IH]; intros l' rw ks; [by intros [= <- <- <-]|]. cbn [visit_all]. unfold mbind, outcome_bind.
  destruct (Apply x) as [[x' [r1 k1]]|] eqn:Ex; [|done]. destruct (visit_all l) as [[l1 [r2 k2]]|] eqn:El; [|done].
  intros [= <- <- <-]. pose proof (Hx _ _ _ Ex) as Hn. destruct (IH _ _ _ eq_refl) as (H1 & H2 & H3 & H4).
  cbn [visit_all]. unfold mbind, outcome_bind. rewrite (n_again _ _ _ _ Hn), H1. split_and!; [done| | |].
  - apply Forall_app. split; [by destruct Hn|done].
  - intros [-> ->]%orb_false_iff. by rewrite (n_kept _ _ _ _ Hn), H3.
  - constructor; [by exists r1, k1|done].
Qed.
Lemma same_head args args' : Forall2 (fun b a => exists r k, normal a b r k) args' args ->
  match args with a :: _ => exists b l, args' = b :: l /\ literal b = literal a | [] => args' = [] end.
Proof. intros [|b a l' l (r & k & H)]; [done|]. exists b, l'. split; [done|]. by destruct H. Qed.
Lemma same_erase args args' : Forall2 (fun b a => exists r k, normal a b r k) args' args -> erase <$> args' = erase <$> args.
Proof. induction 1 as [|b a l' l (r & k & H) _ IH]; [done|]. cbn. by rewrite IH, (n_erase _ _ _ _ H). Qed.

Lemma finish_erase f args f' args' n1 rw key : callee f' = callee f -> erase f' = erase f ->
  Forall2 (fun b a => exists r k, normal a b r k) args' args -> format_node (CallExpr f args) = Returns (n1, rw, key) ->
  erase (finish (CallExpr f' args') rw key) = erase (CallExpr f args).
Proof.
  intros Hf He Ha Hn.
  assert (erase (CallExpr f' args') = erase (CallExpr f args)) as Hsame.
  { cbn [erase]. rewrite Hf, He. f_equal. destruct (decide _); [|by apply same_erase].
    destruct Ha as [|b a l' l (r & k & H) Hl]; [done|]. pose proof (n_literal _ _ _ _ H) as Hlit. pose proof (n_erase _ _ _ _ H) as Her.
    apply same_erase in Hl. destruct b as [| |[] vb| |], a as [| |[] va| |]; try done; cbn in *; congruence. }
  destruct key as [k|]; [|done]. destruct rw; [|done]. cbn [finish]. rewrite <- Hsame.
  revert Hn. unfold format_node. destruct (getZapFieldKey (CallExpr f args)) as [k0|why] eqn:Ek; [|done]. unfold mbind, outcome_bind.
  destruct (decide (k0 = [])) as [|Hk0]; [done|]. intros _. rewrite getZapFieldKey_call in Ek.
  destruct (decide (callee f = Some "zap")) as [Ez|]; [|by injection Ek as <-].
  destruct Ha as [|b a l' l (r & k1 & H) Hl]; [done|]. injection Ek as <-. pose proof (n_literal _ _ _ _ H) as Hlit.
  destruct a as [| |[] va| |]; try done. destruct b as [| |[] vb| |]; try done.
  cbn [setZapFieldKey erase]. by rewrite !decide_True by congruence.
Qed.

Lemma Apply_normal n : normalizes n.
Proof.
  induction n as [s|x sel IH|b v|f args IHf IHargs|l IHl] using ast_node_ind'; intros n' rw ks.
  - intros H. injection H as <- <- <-. by split.
  - rewrite Apply_selector. unfold mbind, outcome_bind. destruct (Apply x) as [[x' [r k]]|] eqn:Ex; [|done].
    intros [= <- <- <-]. destruct (IH _ _ _ Ex) as [H1 H2 H3 H4 H5 H6 H7]. split; try done.
    + rewrite Apply_selector. unfold mbind, outcome_bind. by rewrite H1.
    + intros Hr. by rewrite H3.
    + cbn. by rewrite H4.
    + cbn. destruct x' as [s| | | |]; [|destruct x as [s| | | |]; try done; by destruct (proj2 (H7 s) eq_refl)..].
      by rewrite (proj1 (H7 s) eq_refl).
  - intros H. injection H as <- <- <-. by split.
  - rewrite Apply_call. destruct (format_node (CallExpr f args)) as [[[n1 r0] key]|] eqn:En; [|done].
    unfold mbind, outcome_bind. destruct (Apply f) as [[f' [r1 k1]]|] eqn:Ef; [|done].
    destruct (visit_all args) as [[args' [r2 k2]]|] eqn:Ea; [|done]. intros [= <- <- <-].
    pose proof (IHf _ _ _ Ef) as [F1 F2 F3 F4 F5 F6 F7].
    destruct (visit_all_normal _ IHargs _ _ _ Ea) as (A1 & A2 & A3 & A4).
    destruct (finish_call f args f' args' n1 r0 key F5 (same_head _ _ A4) En) as (m1 & Hm).
    assert (exists l, finish (CallExpr f' args') r0 key = CallExpr f' l /\ visit_all l = Returns (l, (r2, k2)) /\
      finish (CallExpr f' l) r0 key = CallExpr f' l) as (l & El & Hl & Hfin).
    { destruct key as [k|], r0; cbn [finish]; try by eexists.
      destruct args' as [|b l]; [by eexists|]. destruct b as [| |b v| |]; cbn [setZapFieldKey]; try by eexists.
      eexists. split; [done|]. split; [|done]. revert A1. cbn [visit_all]. change (Apply (BasicLit b ?t)) with (Returns (BasicLit b t, (false, @nil text))).
      unfold mbind, outcome_bind. destruct (visit_all l) as [[l1 [r3 k3]]|]; [|done]. by intros [= <- <- <-]. }
    split.
    + rewrite El in *. rewrite Apply_call, Hm. unfold mbind, outcome_bind. by rewrite F1, Hl, Hfin.
    + repeat apply Forall_app_2; try done. destruct key as [k|]; [|constructor]. constructor; [|constructor]. by eapply format_node_key.
    + intros [-> [-> ->]%orb_false_iff]%orb_false_iff. rewrite F3, A3 by done. by destruct key.
    + by eapply finish_erase.
    + by rewrite El.
    + by rewrite El.
    + intros s. by rewrite El.
  - rewrite Apply_other. unfold mbind, outcome_bind. destruct (visit_all l) as [[l' [r k]]|] eqn:El; [|done].
    intros [= <- <- <-]. destruct (visit_all_normal _ IHl _ _ _ El) as (H1 & H2 & H3 & H4). split; try done.
    + rewrite Apply_other. unfold mbind, outcome_bind. by rewrite H1.
    + intros Hr. by rewrite H3.
    + cbn. by rewrite (same_erase _ _ H4).
Qed.

(** Formatting a file changes the keys of log fields and nothing else; all keys are in snake case
    then; and formatting what was formatted changes nothing, though the file counts as rewritten
    again if it did before. *)
Theorem Apply_stable n n' rw ks : Apply n = Returns (n', (rw, ks)) ->
  erase n' = erase n /\ Forall (fun k => snake k = true) ks /\ (rw = false -> n' = n) /\ Apply n' = Returns (n', (rw, ks)).
Proof. intros H%Apply_normal. by destruct H. Qed.

(** ** The whole program twice *)

Section runs.
Context (parse : text -> result error ast_node) (format : ast_node -> result error text).
Context (WalkDir : string -> list (string * bool * option error)) (Getwd : result error string) (no_file : string -> error).
(** What was printed is read back. *)
Hypothesis print_law : forall n t, format n = Ok t -> parse t = Ok n.
Notation one := (format_file parse format no_file).
Notation all := (format_files parse format no_file).

(** A file that is as the program leaves it, with its keys. *)
Definition settled (fs : files) (p : string) (ks : list text) : Prop :=
  exists c n rw, fs !! p = Some c /\ parse c = Ok n /\ Apply n = Returns (n, (rw, ks)) /\ (rw = true -> format n = Ok c).

Lemma settled_one fs p ks : settled fs p ks -> one p fs = (fs, Returns (Ok ks)).
Proof.
  intros (c & n & rw & H1 & H2 & H3 & H4). unfold format_file. rewrite H1, H2, H3. destruct rw; [|done].
  rewrite H4 by done. f_equal. by apply insert_id.
Qed.
Lemma one_settled p fs fs' ks : one p fs = (fs', Returns (Ok ks)) -> settled fs' p ks /\ forall q, q <> p -> fs' !! q = fs !! q.
Proof.
  unfold format_file. destruct (fs !! p) as [c|] eqn:Ep; [|done]. destruct (parse c) as [n|e] eqn:En; [|done].
  destruct (Apply n) as [[n' [rw k]]|] eqn:Ea; [|done]. apply Apply_normal in Ea as [Ha _ Hk _ _ _ _]. destruct rw.
  - destruct (format n') as [t|e] eqn:Ef; [|done]. intros [= <- <-]. split.
    + exists t, n', true. split_and!; [apply lookup_insert_eq|by apply print_law|done|done].
    + intros q Hq. by apply lookup_insert_ne.
  - intros [= <- <-]. rewrite (Hk eq_refl) in Ha. split; [by exists c, n, false|done].
Qed.
Lemma one_keeps p q fs fs' ks ks' : one p fs = (fs', Returns (Ok ks)) -> settled fs q ks' -> settled fs' q ks'.
Proof.
  intros H Hq. destruct (decide (q = p)) as [->|Hne].
  - rewrite (settled_one _ _ _ Hq) in H. by injection H as <- _.
  - apply one_settled in H as [_ H]. destruct Hq as (c & n & rw & H1 & H2). exists c, n, rw. by rewrite H.
Qed.
Lemma all_keeps l fs fs' ks q ks' : all l fs = (fs', Returns (Ok ks)) -> settled fs q ks' -> settled fs' q ks'.
Proof.
  revert fs ks. induction l as [|p l IH]; intros fs ks; cbn [format_files]; [by intros [= <- _]|].
  destruct (one p fs) as [fs1 [[k|e]|why]] eqn:E; try done. destruct (all l fs1) as [fs2 [[k'|e]|why]] eqn:El; try done.
  intros [= <- _] Hq. eapply IH; [done|]. by eapply one_keeps.
Qed.
Lemma all_settled l fs fs' ks : all l fs = (fs', Returns (Ok ks)) -> exists kss, ks = concat kss /\ Forall2 (settled fs') l kss.
Proof.
  revert fs ks. induction l as [|p l IH]; intros fs ks; cbn [format_files]; [intros [= _ <-]; by exists []|].
  destruct (one p fs) as [fs1 [[k|e]|why]] eqn:E; try done. destruct (all l fs1) as [fs2 [[k'|e]|why]] eqn:El; try done.
  intros [= <- <-]. destruct (IH _ _ El) as (kss & -> & H). exists (k :: kss). split; [done|]. constructor; [|done].
  apply one_settled in E as [E _]. by eapply all_keeps.
Qed.
Lemma settled_all l fs kss : Forall2 (settled fs) l kss -> all l fs = (fs, Returns (Ok (concat kss))).
Proof. induction 1 as [|p ks l kss H _ IH]; [done|]. cbn [format_files]. by rewrite (settled_one _ _ _ H), IH. Qed.

(** Running the program again, after a run that succeeded, leaves every file as it is and prints
    the same keys, also when a file was reached twice. *)
Theorem logfmt_twice paths verbose fs fs' keys :
  logfmt parse format WalkDir Getwd no_file paths verbose fs = (fs', Returns (Ok keys)) ->
  logfmt parse format WalkDir Getwd no_file paths verbose fs' = (fs', Returns (Ok keys)).
Proof.
  unfold logfmt. destruct (roots ← searchPaths Getwd paths; find_files WalkDir roots) as [srcfiles|e]; [|done].
  destruct (all srcfiles fs) as [fs1 [[k|e]|why]] eqn:E; try done. intros [= <- <-].
  apply all_settled in E as (kss & -> & H). by rewrite (settled_all _ _ _ H).
Qed.
End runs.

(** ** Panics *)

(** Every call of a function of zap has an argument. *)
Fixpoint has_arguments (n : ast_node) : bool :=
  match n with
  | Ident _ | BasicLit _ _ => true
  | SelectorExpr x _ => has_arguments x
  | OtherNode l => forallb has_arguments l
  | CallExpr f args => negb (bool_decide (callee f = Some "zap") && bool_decide (args = [])) && has_arguments f && forallb has_arguments args
  end.
Definition returns {A} (o : outcome A) : bool := match o with Returns _ => true | Panics _ => false end.

Lemma visit_all_returns l : Forall (fun n => returns (Apply n) = has_arguments n) l -> returns (visit_all l) = forallb has_arguments l.
Proof.
  induction 1 as [|x l Hx Hl IH]; [done|]. cbn [visit_all forallb]. unfold mbind, outcome_bind. rewrite <- Hx, <- IH.
  destruct (Apply x) as [[? [? ?]]|]; [|done]. by destruct (visit_all l) as [[? [? ?]]|].
Qed.
Lemma format_node_returns n : returns (format_node n) = returns (getZapFieldKey n).
Proof. unfold format_node. destruct (getZapFieldKey n); [|done]. unfold mbind, outcome_bind. destruct (decide _); [done|]. by destruct (decide _). Qed.
(** The program crashes on a file exactly when a function of zap is called without arguments
    somewhere in it, such as zap.L(). *)
Theorem Apply_panics n : returns (Apply n) = has_arguments n.
Proof.
  induction n as [s|x sel IH|b v|f args IHf IHargs|l IHl] using ast_node_ind'; [done| |done| |].
  - rewrite Apply_selector. unfold mbind, outcome_bind. cbn. rewrite <- IH. by destruct (Apply x) as [[? ?]|].
  - rewrite Apply_call. cbn [has_arguments]. rewrite <- IHf, <- (visit_all_returns args IHargs).
    pose proof (format_node_returns (CallExpr f args)) as Hr. rewrite getZapFieldKey_call in Hr.
    unfold mbind, outcome_bind. destruct (format_node (CallExpr f args)) as [[[? ?] ?]|]; cbn [returns] in Hr.
    + destruct (decide (callee f = Some "zap")) as [Hz|Hz]; [destruct args as [|arg args]; [done|]|].
      * rewrite (bool_decide_false (arg :: args = [])), andb_false_r by done. cbn [negb andb].
        destruct (Apply f) as [[? [? ?]]|]; [|done]. by destruct (visit_all _) as [[? [? ?]]|].
      * rewrite (bool_decide_false (callee f = _)) by done. cbn [negb andb].
        destruct (Apply f) as [[? [? ?]]|]; [|done]. by destruct (visit_all _) as [[? [? ?]]|].
    + destruct (decide (callee f = Some "zap")) as [Hz|Hz]; [|done]. destruct args as [|a args]; [|done].
      by rewrite !bool_decide_true.
  - rewrite Apply_other. cbn [has_arguments]. rewrite <- (visit_all_returns l IHl). unfold mbind, outcome_bind.
    by destruct (visit_all l) as [[? ?]|].
Qed.

(** ** Examples *)

Example Ext_go : Ext "logfmt.go" = ".go" /\ Ext "Makefile" = "" /\ Ext "a.go.tmpl" = ".tmpl". Proof. done. Qed.
Definition demo_call (key : string) : ast_node :=
  CallExpr (SelectorExpr (Ident "zap") "String") [BasicLit true (quoted_key (runes key)); OtherNode []].
Definition demo_tree : ast_node := OtherNode [demo_call "projectID"; CallExpr (Ident "f") [demo_call "user_id"]].
Example demo_formatted : Apply demo_tree =
  Returns (OtherNode [demo_call "project_id"; CallExpr (Ident "f") [demo_call "user_id"]], (true, [runes "project_id"; runes "user_id"])).
Proof. reflexivity. Qed.
