(* ===== verification/Tools.v ===== *)
(** * Small parts of the program (buildtooling, client/otlp, status/generator, scheduletooling/logger.go,
      readiness/log.go, testtooling/assertion.go, time.go and redis.go, timer, appv1)

    What the binary was built from, the exporter of traces, the generator of conversions of
    statuses, two adapters to the logger, stopping timers, and the application that reads a chat. The libraries of
    OpenTelemetry and of Telegram, and templates, are parameters. *)
From S2P Require Import Prelude Redis GoErrors Urls Helpers Logger Readiness.

(** ** What the binary was built from (buildtooling) *)

(* go: internal/buildtooling/commit.go | type BuildInfo struct *)
Record BuildInfo := { CleanTree : bool; Commit : string; Time_ : string }.
Definition build_setting (result : BuildInfo) (setting : string * string) : BuildInfo :=
  let '(key, value) := setting in
  if decide (key = "vcs.modified") then {| CleanTree := bool_decide (value = "false"); Commit := Commit result; Time_ := Time_ result |}
  else if decide (key = "vcs.revision") then {| CleanTree := CleanTree result; Commit := value; Time_ := Time_ result |}
  else if decide (key = "vcs.time") then {| CleanTree := CleanTree result; Commit := Commit result; Time_ := value |}
  else result.
(** [info] are the settings of the build, if it has any. *)
(* go: internal/buildtooling/commit.go | func getBuildInfo() *)
Definition getBuildInfo (info : option (list (string * string))) : BuildInfo :=
  foldl build_setting {| CleanTree := false; Commit := ""; Time_ := "" |} (default [] info).

(** ** The exporter of traces (client/otlp) *)

(* go: internal/client/otlp/config.go | type OtlpExporterCfg struct *)
Record OtlpExporterCfg := { exp_Name : string; Enabled_ : bool; Endpoint : string }.
(* go: internal/client/otlp/config.go | func DefaultOtlpExporterCfg() *)
Definition DefaultOtlpExporterCfg : OtlpExporterCfg := {| exp_Name := "unnamed-service"; Enabled_ := true; Endpoint := "http://jaeger:4318" |}.
(** Options of the client of the collector. *)
Inductive otlp_Option := WithEndpoint (host : string) | WithURLPath (p : string) | WithInsecure.

Section otlp.
Context {E : Type} (url_Parse : string -> result error URL) (otlptrace_New : list otlp_Option -> result error E) (APP_VERSION : string).
(** The provider of tracers: its exporter, its service and version. *)
Record tracer_provider := { exporter : E; service : string; version_ : string }.
(** The global variables of OpenTelemetry: the provider, and whether traces are propagated. *)
Record tracing := { provider : option tracer_provider; propagates : bool }.

(* go: internal/client/otlp/exporter.go | opts := []otlptracehttp.Option{} | L44-L63 *)
Definition otlp_options (endpoint : string) : result error (list otlp_Option) :=
  if decide (endpoint = "") then Ok [] else
  match url_Parse endpoint with
  | Err err => Err (Wrap (WText ("could not parse OTLP endpoint setting " +:+ String dquote endpoint +:+ String dquote "")) err)
  | Ok endpointUrl =>
      Ok ([WithEndpoint (Host endpointUrl)]
        ++ (if decide (Path endpointUrl <> "") then [WithURLPath (Path endpointUrl)] else [])
        ++ (if decide (Scheme endpointUrl <> "https") then [WithInsecure] else []))
  end.
(** The result is what shuts down: nothing, or the provider. *)
(* go: internal/client/otlp/exporter.go | // Set up OpenTelemetry tracing *)
Definition InstallExportPipeline (cfg : OtlpExporterCfg) (t : tracing) : tracing * result error (option tracer_provider) :=
  if negb (Enabled_ cfg) then (t, Ok None)
  else match otlp_options (Endpoint cfg) with
       | Err err => (t, Err err)
       | Ok opts =>
           match otlptrace_New opts with
           | Err err => (t, Err (Wrap (WText "creating OTLP trace exporter") err))
           | Ok e => let p := {| exporter := e; service := exp_Name cfg; version_ := APP_VERSION |} in
                     ({| provider := Some p; propagates := true |}, Ok (Some p))
           end
       end.

(** Tracing is installed completely or not at all; what is returned shuts down what was installed. *)
Theorem InstallExportPipeline_spec cfg t t' r : InstallExportPipeline cfg t = (t', r) ->
  (t' = t /\ (r = Ok None /\ Enabled_ cfg = false \/ exists err, r = Err err)) \/
  (exists p, r = Ok (Some p) /\ t' = {| provider := Some p; propagates := true |} /\ service p = exp_Name cfg /\ Enabled_ cfg = true).
Proof.
  unfold InstallExportPipeline. destruct (Enabled_ cfg); cbn [negb]; [|intros [= <- <-]; left; split; [done|by left]].
  destruct (otlp_options (Endpoint cfg)) as [opts|err]; [|intros [= <- <-]; left; split; [done|right; by eexists]].
  destruct (otlptrace_New opts) as [e|err]; [|intros [= <- <-]; left; split; [done|right; by eexists]].
  intros [= <- <-]. right. by eexists.
Qed.
(** The connection is encrypted exactly for the scheme https, or when the endpoint is left to the
    environment. *)
Theorem otlp_insecure endpoint opts u : url_Parse endpoint = Ok u -> otlp_options endpoint = Ok opts ->
  WithInsecure ∈ opts <-> endpoint <> "" /\ Scheme u <> "https".
Proof.
  intros Hu. unfold otlp_options. rewrite Hu. destruct (decide (endpoint = "")) as [->|He]; intros [= <-].
  - split; [by intros ?%elem_of_nil|by intros [? _]].
  - destruct (decide (Path u <> "")), (decide (Scheme u <> "https")); cbn; rewrite ?elem_of_cons, ?elem_of_nil; naive_solver.
Qed.
End otlp.

(** ** The generator of conversions (status/generator) *)

(* go: internal/status/generator/generator.go | type args struct *)
Record generator_args := { PackageName : string; GeneratedPackagePath : string; GeneratedPackageName : string }.
Section generator.
Context (Parse : result error unit) (ExecuteTemplate : generator_args -> result error string) (write_err : string -> option error).
Definition required (flag : string) : error := Leaf (LText (flag +:+ " is required")).
(** The files are what was written, in order. *)
(* go: internal/status/generator/generator.go | func run() error *)
Definition generator_run (packageName generatedPackagePath destination : string) (written : list (string * string))
    : list (string * string) * option error :=
  if decide (packageName = "") then (written, Some (required "package name"))
  else if decide (generatedPackagePath = "") then (written, Some (required "generated package path"))
  else if decide (destination = "") then (written, Some (required "destination filename"))
  else match Parse with
       | Err err => (written, Some (Wrap (WText "failed to parse the template") err))
       | Ok _ =>
           match ExecuteTemplate {| PackageName := packageName; GeneratedPackagePath := generatedPackagePath;
                                    GeneratedPackageName := path.Base generatedPackagePath |} with
           | Err err => (written, Some (Wrap (WText "failed to execute the template") err))
           | Ok buf =>
               match write_err destination with
               | Some err => (written, Some (Wrap (WText "failed to write to destination file") err))
               | None => (written ++ [(destination, buf)], None)
               end
           end
       end.
(** Nothing is written unless everything worked: then it is the template, with all that is asked for. *)
Theorem generator_run_spec pkg gen dst w w' err : generator_run pkg gen dst w = (w', err) ->
  match err with
  | Some _ => w' = w
  | None => pkg <> "" /\ gen <> "" /\ dst <> "" /\ exists buf, w' = w ++ [(dst, buf)] /\
      ExecuteTemplate {| PackageName := pkg; GeneratedPackagePath := gen; GeneratedPackageName := path.Base gen |} = Ok buf
  end.
Proof.
  unfold generator_run. repeat (case_decide; [by intros [= <- <-]|]). destruct Parse as [?|?]; [|by intros [= <- <-]].
  destruct (ExecuteTemplate _) as [buf|?] eqn:E; [|by intros [= <- <-]]. destruct (write_err dst); intros [= <- <-]; [done|].
  split_and!; [done..|]. by exists buf.
Qed.
End generator.

(** ** The logger of the scheduler's library (scheduletooling/logger.go) *)

(** The methods of a logger of go-quartz, with the message as it is rendered; its levels. *)
Inductive quartz_call := QTrace | QTracef | QDebug | QDebugf | QInfo | QInfof | QWarn | QWarnf | QError | QErrorf.
Definition LevelError : Z := 8.
(* go: internal/scheduletooling/logger.go | func (l quartzLog) Trace(msg | L15-L53 *)
Definition quartz_line (c : quartz_call) (msg : string) : list (Z * string) :=
  match c with
  | QTrace | QTracef => []
  | QDebug | QDebugf => [(DebugLevel, msg)]
  | QInfo | QInfof => [(InfoLevel, msg)]
  | QWarn | QWarnf | QErrorf => [(WarnLevel, msg)]
  | QError => [(ErrorLevel, msg)]
  end.
(* go: internal/scheduletooling/logger.go | func (l quartzLog) Enabled *)
Definition quartz_Enabled (level : Z) : bool := (LevelError <=? level)%Z.
(** What the library calls a level. *)
Definition quartz_level (c : quartz_call) : Z :=
  match c with QTrace | QTracef => -8 | QDebug | QDebugf => -4 | QInfo | QInfof => 0 | QWarn | QWarnf => 4 | QError | QErrorf => 8 end.
(** Of what is enabled, an error with a format is only a warning. *)
Theorem quartz_enabled_lines c msg : quartz_Enabled (quartz_level c) = true ->
  quartz_line c msg = [(ErrorLevel, msg)] /\ c = QError \/ quartz_line c msg = [(WarnLevel, msg)] /\ c = QErrorf.
Proof. destruct c; try done; [by left|by right]. Qed.

(** ** What readiness logs (readiness/log.go) *)

(* go: internal/readiness/log.go | func (l *LogImp) Ready | L17-L30 *)
Definition readiness_line (e : event) : Z * string * string * option error :=
  match e with
  | LReady dependencyName => (InfoLevel, "Service is ready", dependencyName, None)
  | LNotReady dependencyName isOptional err =>
      (WarnLevel, if isOptional : bool then "Service is not ready, but optional. Skipped." else "Service is not ready", dependencyName, Some err)
  end.

(** ** Tests (testtooling/assertion.go) *)

(* go: internal/testtooling/assertion.go | func MustValue *)
Definition MustValue {A} (r : result error A) : outcome A := match r with Ok v => Returns v | Err err => Panics (error_text err) end.

(** Times of tests, in one of three layouts: they are shown in the local zone, and a text that is
    no time panics. *)
Section times.
Context {T : Type} (Parse : string -> string -> result error T) (Local : T -> T).
Definition parsed_local (layout timeStr : string) : outcome T := t ← MustValue (Parse layout timeStr); Returns (Local t).
(* go: internal/testtooling/time.go | func GetLocalTimeFromStr( *)
Definition GetLocalTimeFromStr (timeStr : string) : outcome T := parsed_local "02 Jan 06 15:04 MST" timeStr.
(* go: internal/testtooling/time.go | func GetLocalTimeFromStrWithSeconds( *)
Definition GetLocalTimeFromStrWithSeconds (timeStr : string) : outcome T := parsed_local "Mon, 02 Jan 2006 15:04:05 MST" timeStr.
(* go: internal/testtooling/time.go | func GetLocalTimeFromRFC3339Str( *)
Definition GetLocalTimeFromRFC3339Str (timeStr : string) : outcome T := parsed_local "2006-01-02T15:04:05Z07:00" timeStr.
(** A pointer to it, which is never nil. *)
(* go: internal/testtooling/time.go | func GetLocalTimeFromRFC3339StrPtr( *)
Definition GetLocalTimeFromRFC3339StrPtr (timeStr : string) : outcome (option T) := t ← GetLocalTimeFromRFC3339Str timeStr; Returns (Some t).
End times.

(** A Redis for tests: the container of the library, and a client of it. *)
Section redis.
Context {CT Addr P : Type} (Start : string -> result error CT) (Host : CT -> string) (DefaultPort : CT -> Z)
  (NewRequest : string -> option error) (Seconds : Z -> Z) (quote : string -> string) (ParseURL : string -> result error (Options (Addr := Addr))).
Definition test_redis_Config (c : CT) : Redis.Config :=
  {| Redis.AuthType := AuthPlain; Redis.AwsIRSA := None; Redis.URL := "redis://" +:+ Host c +:+ ":" +:+ pretty (DefaultPort c);
     Redis.ClientName := "yanakipre-test" |}.
(* go: internal/testtooling/redis.go | func StartRedis( *)
Definition StartRedis : outcome (CT * Redis (P := P)) :=
  match Start "6.0.9" with
  | Err err => Panics ("could not start redis project " +:+ error_text err)
  | Ok container =>
      r ← Redis.New NewRequest Seconds quote ParseURL (test_redis_Config container);
      rdb ← MustValue r;
      Returns (container, rdb)
  end.

(** It is the client of the container, without tokens, or a panic: when the container runs and its
    address is not accepted, nobody can stop it. *)
Theorem StartRedis_spec :
  match StartRedis with
  | Returns (c, rdb) => Start "6.0.9" = Ok c /\ tokenProvider rdb = None /\ o_ClientName (Client rdb) = "yanakipre-test" /\
      exists options, ParseURL (Redis.URL (test_redis_Config c)) = Ok options /\ o_Addr (Client rdb) = o_Addr options
  | Panics _ => (exists err, Start "6.0.9" = Err err) \/ exists c err, Start "6.0.9" = Ok c /\ ParseURL (Redis.URL (test_redis_Config c)) = Err err
  end.
Proof.
  unfold StartRedis. destruct (Start "6.0.9") as [c|err]; [|left; by eexists]. unfold Redis.New. rewrite decide_True by done.
  destruct (ParseURL (Redis.URL (test_redis_Config c))) as [o|err] eqn:E; cbn; [|right; by exists c, err].
  split_and!; try done. by exists o.
Qed.
End redis.

(** ** The application that reads a chat (appv1) *)

(** Messages of Telegram as the code tells them apart; what the call ends with. *)
Inductive tg_message := TgMessage (text : string) | OtherMessage.
Inductive tg_history := MessagesMessages (l : list tg_message) | OtherHistory.
Inductive appv1_end := NilApp (info : string) | FatalExit (msg : string) (err : option error).
Section appv1.
Context (Ping : option error) (MessagesGetHistory : option tg_history * option error).
(* go: app/telegramsearch/internal/app/appv1/appv1.go | func New(d Deps) *)
Definition appv1_New : appv1_end :=
  match Ping with
  | Some err => FatalExit "failed to ping" (Some err)
  | None =>
      let '(history, err) := MessagesGetHistory in
      match history with
      | Some (MessagesMessages []) => FatalExit "no messages" None
      | Some (MessagesMessages (TgMessage text :: _)) =>
          match err with Some err => FatalExit "failed to get history" (Some err) | None => NilApp text end
      | Some (MessagesMessages (OtherMessage :: _)) => FatalExit "unexpected msg type" None
      | _ => FatalExit "unexpected msgs type" None
      end
  end.
(** A call that fails has no history: its error is never reported, since the history is looked at
    first. *)
Theorem history_error_is_lost err : Ping = None -> MessagesGetHistory = (None, Some err) ->
  appv1_New = FatalExit "unexpected msgs type" None.
Proof. unfold appv1_New. by intros -> ->. Qed.
End appv1.

(** ** Timers (timer) *)

(** A timer has a channel with room for one value, which it sends when it expires. *)
Record Timer := { running : bool; C : option Z }.
Definition timer_Stop (t : Timer) : Timer * bool := ({| running := false; C := C t |}, running t).
(** A timer that runs expires, or its channel is read. *)
Inductive timer_step : Timer -> Timer -> Prop :=
| timer_expires now : timer_step {| running := true; C := None |} {| running := false; C := Some now |}
| timer_read r now : timer_step {| running := r; C := Some now |} {| running := r; C := None |}.
(* go: internal/timer/timer.go | func StopTimer *)
Definition StopTimer (t : Timer) : Timer :=
  match timer_Stop t with
  | (t, true) => t
  | (t, false) => match C t with Some _ => {| running := running t; C := None |} | None => t end
  end.
(** Whenever a new timer is stopped, before or after it expired and whether or not its value was
    read, it does not run any more and nothing is left to be read; stopping it again changes
    nothing, and never waits. *)
Theorem StopTimer_drains t : rtc timer_step {| running := true; C := None |} t ->
  StopTimer t = {| running := false; C := None |} /\ StopTimer (StopTimer t) = StopTimer t.
Proof.
  intros H.
  assert (forall t0, rtc timer_step t0 t -> running t0 = false \/ C t0 = None -> running t = false \/ C t = None) as Hinv.
  { clear H. induction 1 as [t0|t0 t1 t Hs _ IH]; [done|]. intros _. apply IH. inversion Hs; subst; cbn; auto. }
  destruct (Hinv _ H (or_intror eq_refl)) as [Hr|Hc]; destruct t as [r c]; cbn in *; subst.
  - by destruct c.
  - by destruct r.
Qed.
