(* ===== verification/Program.v ===== *)
(** * The program put together (app/telegramsearch)

    The commands of Cmd.v with the controller of Search.v and the bot of Bot.v: what the command
    line connects to is what the bot answers with. A session is the updates the bot gets before it
    is interrupted, one after the other, as when a user waits for each answer. *)
From S2P Require Import Prelude GoErrors Durations Threads Search Bot Helpers Logger HttpClient OpenAiClient RdbClient Cmd.

Section program.
(** The world: that of the database, of OpenAI, of the cache and of Telegram. *)
Context {DB W F : Type} `{Database DB W}.
Context (ctx_err : unit -> option error) (Limit : nat -> Retry.strategy) (BackoffWithJitter : Z -> Retry.strategy) (SmallEmbedding3 : string).
Context {B : Type} (user : result error string) (file : string -> B) (env : B).
Context (confita_Load : list B -> static_Config (W := unit) -> static_Config (W := unit) * option error).
Context (level_Set : string -> option Z) (Open : string -> bool) (marshal marshal_v2 : static_Config (W := unit) -> result error string).
Context {T : Type} (to_json : T -> result error string) (Indent JSONToYAML : string -> result error string) (ReadFile : string -> result error string) (Build : T).

(** What the controller uses (Search.v). *)
Context (api_CreateEmbeddings : list string -> W -> W * result error (list (vec F))).
Context (api_CreateChatCompletion : list string -> string -> W -> W * result error (list string)).
Context (table : list row) (order_by : list F -> list row -> list row) (db_err : Z * Z -> bool -> option error) (schedule : list (Z * Z) -> list (Z * Z)).
Context (SortFunc : (row -> row -> Z) -> list row -> list row) (Unmarshal : string -> result error thread).
Context (DateOnly : Z -> string) (Sprintf : string -> string -> string).
Context (cache_Set : Z -> Z -> ExplainedMessage -> W -> W) (cache_Get : W -> Z -> W * option ExplainedMessage) (now : W -> Z).

(** Telegram: connecting with a token, the updates until the interrupt, the wait for one of them,
    which of them are the start of a conversation, sending, and the report of a panic in a
    handler. *)
Context (NewBot : string -> W -> W * option error) (updates : W -> list Message) (await : Message -> W -> W) (is_start : Message -> bool).
Context (deliver : list sending -> W -> W) (report_panic : string -> W -> W).

Notation Ctl := (Ctl (W := unit) (DB := DB)).
Notation complete cfg := (TryCompletion api_CreateEmbeddings api_CreateChatCompletion table order_by db_err schedule SortFunc Unmarshal
  DateOnly Sprintf cache_Set cfg).
Notation controller_of c := (search_controller api_CreateEmbeddings api_CreateChatCompletion table order_by db_err schedule SortFunc Unmarshal
  DateOnly Sprintf cache_Set cache_Get (ctl_cfg c) now).

(** The handlers the bot registers: one for the start, one for texts. *)
(* go: app/telegramsearch/internal/pkg/transport/bottransport/bottransport.go | b.Handle("/start", func | L29-L36 *)
Definition handle (cfg : bot_Config) (c : Ctl) (m : Message) (w : W) : W * outcome (list sending) :=
  if is_start m then (w, Returns (OnStart cfg m)) else OnText (controller_of c) m w.
(** The library runs the handler of every update; a panic of one is reported, and the bot goes on. *)
Definition serve (cfg : bot_Config) (c : Ctl) (ms : list Message) (w : W) : W :=
  fold_left (fun w m => match handle cfg c m (await m w) with (w, Returns l) => deliver l w | (w, Panics why) => report_panic why w end) ms w.

(** Storing a history (Threads.v); a run of the loop that embeds the threads (Embeddings.v), which
    may never end, is left to the caller. *)
Context (read_history : string -> result error (list serializedChatMessage)) (CreateChatThread : string -> thread -> W -> W * option error).
Context (pool : list (W -> W * option error) -> W -> W * list error) (empty_response : T) (generate : Ctl -> W -> W * outcome (result error T)).
(** The operations of the commands: the questions of the command line have no sender. *)
Definition program_operations : operations (W := unit) (DB := DB) (S := W) (T := T) := {|
  op_DumpChatHistory := fun _ chat f w =>
    match DumpChatHistory read_history CreateChatThread pool chat f w with
    | (w, Some err) => (w, Returns (Err err))
    | (w, None) => (w, Returns (Ok empty_response))
    end;
  op_TryCompletion := fun c q w => c_TryCompletion (controller_of c) 0 q w;
  op_TryEmbedding := fun c q w => TryEmbedding api_CreateEmbeddings table order_by db_err schedule q (now w) w;
  op_GenerateEmbeddings := generate;
  op_NewBot := fun cfg _ w => NewBot (Token cfg) w;
  op_serve := fun cfg c w => serve cfg c (updates w) w |}.
Notation run := (Execute ctx_err Limit BackoffWithJitter SmallEmbedding3 user file env confita_Load level_Set Open marshal marshal_v2
  to_json Indent JSONToYAML ReadFile program_operations Build).
Notation pre := (PersistentPreRunE ctx_err Limit BackoffWithJitter SmallEmbedding3 user file env confita_Load level_Set Open marshal 3).

(** Waiting for a message and sending one take time, but leave what is stored in the cache. *)
Context (stored : W -> Z -> option (ExplainedMessage * Z)).
Record cache_law : Prop := {
  law_ttl : ttl_cache cache_Set cache_Get now stored;
  law_sent : forall l w k, stored (deliver l w) k = stored w k;
  law_waited : forall m w k, stored (await m w) k = stored w k
}.

Lemma handle_question cfg c id text w w' resp : is_start (question id text) = false -> text ∉ [explain; help; news] ->
  complete (ctl_cfg c) {| SenderID := id; Query := text |} (now w) w = (w', Returns (Ok resp)) ->
  handle cfg c (question id text) w = (w', Returns [ReplyTo text (Response resp)
    {| so_ReplyTo := text; DisableWebPagePreview := true; DisableNotification := false; so_ParseMode := ModeDefault |}]).
Proof.
  intros Hs Ht Hc. unfold handle. rewrite Hs, OnText_question by done. by apply reply_answered.
Qed.


(** A question of the command line is answered as by the bot, for nobody. *)
Theorem completion_is_search a s s' : run completion a s = (s', Success) ->
  exists q rest s1 c resp, args a = q :: rest /\ pre (owner_of completion) completion s = (s1, Done tt) /\ embeddings_ctl s1 = Some c /\
    complete (ctl_cfg c) {| SenderID := 0; Query := q |} (now (dbs s1)) (dbs s1) = (dbs s', Returns (Ok resp)) /\ out s' = out s1 ++ [Response resp].
Proof.
  intros H1. apply completion_ran in H1 as (q & rest & s1 & c & answer & Ha & Hpre & Hc & Ho & Hout).
  cbn [op_TryCompletion program_operations c_TryCompletion search_controller] in Ho.
  destruct (complete _ _ _ _) as [w [[resp|e]|why]] eqn:E; try done. injection Ho as <- <-. by exists q, rest, s1, c, resp.
Qed.
End program.

(** ** A session *)

Section demo.
Notation world := (list (Z * (ExplainedMessage * Z)) * list sending)%type.
Notation texts := (static_Config (W := unit)).
#[local] Program Instance ready_database : Database bool world := {|
  db_New := fun _ => false; db_Ready := fun _ s => (s, (true, None)); db_ExecContext := fun _ _ s => (s, Returns None);
  db_Close := fun _ s => (s, Returns None); db_MapperFunc := fun _ _ s => (s, Returns tt); usable := fun d => d = true
|}.
Next Obligation. by intros d s s' d' [= <- <-]. Qed.
Next Obligation. intros d q s Hd. by exists s, None. Qed.
Next Obligation. intros d s Hd. by exists s, None. Qed.
Next Obligation. intros d mf s Hd. by exists s. Qed.

Definition session_cfg : texts :=
  MkStatic Search.demo_cfg zero_rdb zero_openai Logger.DefaultConfig {| Token := "t"; Greeting := "hi" |} v2_DefaultConfig.
Definition session_load (l : list string) (c : texts) : texts * option error := (session_cfg, None).
Definition session_embeddings (l : list string) (w : world) : world * result error (list (vec nat)) :=
  let '(c, r) := demo_embeddings l w.1 in ((c, w.2), r).
Definition session_choices (l : list string) (q : string) (w : world) : world * result error (list string) :=
  let '(c, r) := demo_choices l q w.1 in ((c, w.2), r).
Definition session_set (ttl k : Z) (v : ExplainedMessage) (w : world) : world := (demo_set ttl k v w.1, w.2).
Definition session_stored (w : world) (k : Z) : option (ExplainedMessage * Z) := demo_stored w.1 k.
Definition session_get (w : world) (k : Z) : world * option ExplainedMessage := (w, (demo_get w.1 k).2).
Definition session_send (l : list sending) (w : world) : world := (w.1, w.2 ++ l).
Definition session_start : state (W := unit) (DB := bool) (S := world) :=
  MkState session_cfg "" initial {| cached := []; made := 0 |} None None [] [] [] ([], []).
Definition is_slash_start (m : Message) : bool := bool_decide (m_Text m = "/start").
Definition no_arguments : arguments := {| args := []; chatID := ""; filename := "" |}.

Notation session_operations := (program_operations (DB := bool) (T := string) session_embeddings session_choices demo_table (fun _ l => l) demo_ok id
  demo_sort demo_json (fun _ => "date") (fun fmt arg => fmt +:+ " " +:+ arg) session_set session_get (fun _ => demo_now)
  (fun _ w => (w, None)) (fun _ => [question 5 "q"; question 5 explain]) (fun _ w => w) is_slash_start session_send (fun _ w => w)
  (fun _ => Ok []) (fun _ _ w => (w, None)) (fun _ w => (w, [])) "" (fun _ w => (w, Returns (Ok "")))).
Notation session := (Execute (fun _ => None) demo_limit demo_limit' "small" demo_user (fun s => s) "env"
  session_load (fun _ => Some 0%Z) (fun _ => true) (fun _ => Ok "") (fun _ => Ok "sample")
  (fun t => Ok t) (fun t => Ok t) (fun t => Ok t) (fun _ => Ok "messages") session_operations "build").

Lemma session_cache_law : cache_law session_set session_get (fun _ => demo_now) (fun _ w => w) session_send session_stored.
Proof. split; [|done..]. split; [intros ttl k v w; apply (law_Set _ _ _ _ demo_ttl_cache)|done]. Qed.

End demo.
