(* ===== verification/ErrorFields.v ===== *)
(** * Errors with the fields of a context (internal/clouderr/clouderr.go)

    Errors that are made in a context take its fields and add their own. The fields of an error
    are then a slice, which may share its backing array with the context and with other errors;
    the heap is that of Clouderr.v. Also, how a list of errors is logged. *)
From S2P Require Import Prelude Codes GoErrors Clouderr.

(** ** Appending several elements *)

Section append_all.
(** The capacity the runtime gives to a slice that has to hold [n] elements. *)
Context (grow : nat -> nat).

(** [append(s, fs...)] writes into the array of [s] if all the elements find room in it. *)
Definition slice_append_all (h : heap) (s : option slice) (fs : list Field) : heap * option slice :=
  match fs with
  | [] => (h, s)
  | _ =>
      let len := match s with Some s => sl_len s | None => 0 end in
      let arr := match s with Some s => default [] (h !! sl_array s) | None => [] end in
      let n := len + length fs in
      match s with
      | Some s =>
          if decide (n <= length arr)
          then (<[sl_array s := take len arr ++ map Some fs ++ drop n arr]> h, Some (MkSlice (sl_array s) n))
          else (<[fresh_array h := take len arr ++ map Some fs ++ replicate (grow n - n) None]> h, Some (MkSlice (fresh_array h) n))
      | None => (<[fresh_array h := map Some fs ++ replicate (grow n - n) None]> h, Some (MkSlice (fresh_array h) n))
      end
  end.

Lemma filled_map (fs : list Field) : filled (map Some fs) = fs.
Proof. unfold filled. induction fs as [|f fs IH]; [done|]. cbn. by rewrite IH. Qed.
Lemma take_written {A} (l k m : list A) n : length l + length k = n -> take n (l ++ k ++ m) = l ++ k.
Proof.
  intros Hn. rewrite app_assoc, take_app, length_app. rewrite (take_ge (l ++ k)) by (rewrite length_app; lia).
  by rewrite Hn, Nat.sub_diag, take_0, app_nil_r.
Qed.
Lemma written_slice (h : heap) a (l m : list (option Field)) fs : let s := Some (MkSlice a (length l + length fs)) in
  contents (<[a := l ++ map Some fs ++ m]> h) s = filled l ++ fs /\ (Forall is_Some l -> good_slice (<[a := l ++ map Some fs ++ m]> h) s).
Proof.
  unfold contents, good_slice. cbn [sl_array sl_len]. rewrite !lookup_insert_eq. cbn [default].
  assert (Ht : take (length l + length fs) (l ++ map Some fs ++ m) = l ++ map Some fs) by (apply take_written; by rewrite length_map).
  unfold id. rewrite Ht, filled_app, filled_map. split; [done|]. intros Hl. eexists. split; [reflexivity|]. rewrite Ht.
  split; [rewrite !length_app, length_map; lia|]. apply Forall_app. split; [done|]. apply Forall_map. by apply Forall_forall.
Qed.
Lemma slice_append_all_contents h s fs : good_slice h s -> let '(h', s') := slice_append_all h s fs in
  contents h' s' = contents h s ++ fs /\ good_slice h' s'.
Proof.
  intros Hg. unfold slice_append_all. destruct fs as [|f0 fs0]; [by rewrite app_nil_r|].
  set (fs := f0 :: fs0). clearbody fs. cbv zeta.
  destruct s as [s|].
  2: { destruct (written_slice h (fresh_array h) [] (replicate (grow (0 + length fs) - (0 + length fs)) None) fs) as [Hc Hgood].
    split; [exact Hc|by apply Hgood]. }
  destruct Hg as (arr & Harr & Hle & Hall). rewrite Harr. cbn [default]. unfold id.
  assert (Hlen : length (take (sl_len s) arr) = sl_len s) by (rewrite length_take; lia).
  assert (Hold : contents h (Some s) = filled (take (sl_len s) arr)) by (unfold contents; by rewrite Harr).
  destruct (decide _); rewrite Hold.
  - destruct (written_slice h (sl_array s) (take (sl_len s) arr) (drop (sl_len s + length fs) arr) fs) as [Hc Hgood].
    rewrite Hlen in Hc, Hgood. rewrite Hc. auto.
  - destruct (written_slice h (fresh_array h) (take (sl_len s) arr) (replicate (grow (sl_len s + length fs) - (sl_len s + length fs)) None) fs) as [Hc Hgood].
    rewrite Hlen in Hc, Hgood. rewrite Hc. auto.
Qed.

(** ** Errors of a context *)

(** An error that keeps a slice. *)
(* go: internal/clouderr/clouderr.go | type ErrorWithFields struct *)
Record ErrorWithFields := MkEWF { ewf_error : error; ewf_fields : option slice }.
(** The error as the others see it now. *)
Definition shown (h : heap) (e : ErrorWithFields) : error :=
  match contents h (ewf_fields e) with [] => ewf_error e | fs => Wrap (WFields fs) (ewf_error e) end.

(* go: internal/clouderr/clouderr.go | // WrapWithFieldsFromContext constructs *)
Definition WrapWithFieldsFromContext (h : heap) (ctx : context) (err : option error) (fields : list Field) : outcome (heap * ErrorWithFields) :=
  let '(h, s) := slice_append_all h (FieldsFromContext ctx) fields in
  match err with
  | None => Panics "cannot wrap nil error"
  | Some e => Returns (h, MkEWF e s)
  end.
(* go: internal/clouderr/clouderr.go | // WithFieldsFromContext constructs *)
Definition WithFieldsFromContext (h : heap) (ctx : context) (id : N) (text : string) (fields : list Field) : outcome (heap * ErrorWithFields) :=
  WrapWithFieldsFromContext h ctx (Some (Leaf (LNew id text))) fields.

(** An error has the fields of its context, and then its own. *)
Theorem WrapWithFieldsFromContext_fields h ctx e fields : good_slice h (FieldsFromContext ctx) ->
  exists h' err, WrapWithFieldsFromContext h ctx (Some e) fields = Returns (h', err) /\
    Returns (shown h' err) = WrapWithFields (Some e) (context_fields h ctx ++ fields).
Proof.
  intros Hg. unfold WrapWithFieldsFromContext. pose proof (slice_append_all_contents h (FieldsFromContext ctx) fields Hg) as Hc.
  destruct (slice_append_all h (FieldsFromContext ctx) fields) as [h' s']. destruct Hc as [Hc _]. do 2 eexists. split; [reflexivity|].
  unfold shown, context_fields. cbn [ewf_fields ewf_error]. rewrite Hc. unfold WrapWithFields. by destruct (contents h _ ++ fields).
Qed.

(** But it does not keep them: when the array of the context has room, a second error that is made
    in the same context replaces the fields of the first one by its own. *)
Theorem errors_of_a_context_share h ctx s arr e1 e2 fs1 fs2 : FieldsFromContext ctx = Some s -> h !! sl_array s = Some arr ->
  Forall is_Some (take (sl_len s) arr) -> sl_len s + length fs1 <= length arr -> length fs2 = length fs1 -> fs1 <> [] ->
  exists h1 err1 h2 err2, WrapWithFieldsFromContext h ctx (Some e1) fs1 = Returns (h1, err1) /\
    WrapWithFieldsFromContext h1 ctx (Some e2) fs2 = Returns (h2, err2) /\
    shown h1 err1 = Wrap (WFields (context_fields h ctx ++ fs1)) e1 /\
    shown h2 err1 = Wrap (WFields (context_fields h ctx ++ fs2)) e1.
Proof.
  intros Hs Harr Hall Hroom Hlen Hne. set (n := sl_len s + length fs1).
  assert (Hput : forall fs h0 arr0, h0 !! sl_array s = Some arr0 -> length fs = length fs1 -> length arr0 = length arr ->
    slice_append_all h0 (Some s) fs = (<[sl_array s := take (sl_len s) arr0 ++ map Some fs ++ drop n arr0]> h0, Some (MkSlice (sl_array s) n))).
  { intros fs h0 arr0 H0 Hfs Hl. unfold slice_append_all. destruct fs as [|f fs]; [by destruct fs1|]. rewrite H0. cbn [default id].
    rewrite Hfs, decide_True by lia. done. }
  assert (Hshow : forall fs m h0 e, length fs = length fs1 ->
    shown (<[sl_array s := take (sl_len s) arr ++ map Some fs ++ m]> h0) (MkEWF e (Some (MkSlice (sl_array s) n))) = Wrap (WFields (context_fields h ctx ++ fs)) e).
  { intros fs m h0 e Hfs. unfold shown, context_fields. rewrite Hs. cbn [ewf_fields ewf_error].
    destruct (written_slice h0 (sl_array s) (take (sl_len s) arr) m fs) as [Hc _].
    rewrite length_take, Nat.min_l, Hfs in Hc by lia. fold n in Hc. rewrite Hc. unfold contents. rewrite Harr. cbn [default]. unfold id.
    destruct fs; [by destruct fs1|]. by destruct (filled _). }
  unfold WrapWithFieldsFromContext. rewrite Hs, (Hput fs1 h arr) by done. do 4 eexists. split; [reflexivity|].
  set (arr1 := take (sl_len s) arr ++ map Some fs1 ++ drop n arr).
  assert (Hl1 : length arr1 = length arr) by (unfold arr1; rewrite !length_app, length_take, length_map, length_drop; lia).
  rewrite (Hput fs2 (<[sl_array s := arr1]> h) arr1) by (done || apply lookup_insert_eq). split; [reflexivity|].
  assert (Ht1 : take (sl_len s) arr1 = take (sl_len s) arr).
  { unfold arr1. rewrite take_app, length_take, take_take, Nat.min_id. replace (sl_len s - sl_len s `min` length arr) with 0 by lia. by rewrite take_0, app_nil_r. }
  split; [by apply Hshow|]. fold arr1. rewrite Ht1. by apply Hshow.
Qed.
End append_all.

(** ** A list of errors in a log *)

Section errors.
(** The slice that is made of the map of fields, in any order. *)
Context (slice_of : gmap string Field -> list Field).

(** An object of the log: its keys with fields, where the text of the error comes first. *)
(* go: internal/clouderr/clouderr.go | // Errors creates a field *)
Definition Errors (key : string) (errs : list (option error)) : string * list (list Field) :=
  (key, omap (fun err => (fun e => StringField "error" (error_text e) :: slice_of (UnwrapFields e)) <$> err) errs).

(** One object for each error that is not nil, in their order, and each says what its error says. *)
Theorem Errors_texts key errs : (Errors key errs).1 = key /\
  map (fun o => f_String <$> head o) (Errors key errs).2 = map (fun e => Some (error_text e)) (omap id errs).
Proof.
  split; [done|]. unfold Errors. cbn [snd]. induction errs as [|[e|] errs IH]; [done| |done]. cbn. by rewrite IH.
Qed.
End errors.

(** ** An example *)

Lemma errors_of_a_context_share_witness : exists h1 err1 h2 err2,
  WrapWithFieldsFromContext demo_grow demo_ctx.1 demo_ctx.2 (Some (Leaf (LText "first"))) [kv "user" "alice"] = Returns (h1, err1) /\
  WrapWithFieldsFromContext demo_grow h1 demo_ctx.2 (Some (Leaf (LText "second"))) [kv "user" "bob"] = Returns (h2, err2) /\
  shown h1 err1 = Wrap (WFields (context_fields demo_ctx.1 demo_ctx.2 ++ [kv "user" "alice"])) (Leaf (LText "first")) /\
  shown h2 err1 = Wrap (WFields (context_fields demo_ctx.1 demo_ctx.2 ++ [kv "user" "bob"])) (Leaf (LText "first")).
Proof.
  refine (errors_of_a_context_share demo_grow demo_ctx.1 demo_ctx.2 _ _ (Leaf (LText "first")) (Leaf (LText "second"))
    [kv "user" "alice"] [kv "user" "bob"] _ _ _ _ _ _).
  - vm_compute. reflexivity.
  - vm_compute. reflexivity.
  - by_decision.
  - vm_compute. lia.
  - reflexivity.
  - discriminate.
Defined.
