(* ===== verification/Worker.v ===== *)
(** * The middleware jobs run in (internal/scheduletooling/worker)

    middleware.go as a whole, with the recovery, the Sentry context and the metrics around a job's
    function: what Schedule.v keeps of it is shown to be its end. Logging is that of Logger.v, the
    reports are those of Presenter.v; the clock, the identifiers and the function are parameters. *)
From S2P Require Import Prelude Codes GoErrors Clouderr Semerr Presenter Schedule Logger.
Import sentrytooling.

(* go: internal/scheduletooling/worker/middlewareerrors.go | func (j *Middleware) toSemanticErr( *)
Definition toSemanticErr `{Xerrors} (err : error) : Semerr.Error :=
  match semerr.AsSemanticError err with None => semerr.WrapWithInternal err "internal error" [] | Some e => e end.

(** How the function of a job ends: it returns, or panics with an error or another value. *)
Inductive job_end := Ended (err : option error) | PanickedError (err : error) | PanickedValue (text : string).
Definition recovered (e : job_end) : semerr.panic_value :=
  match e with Ended _ => semerr.NoPanic | PanickedError err => semerr.PanicError err | PanickedValue text => semerr.PanicValue text end.
Definition as_outcome (e : job_end) : outcome (option error) :=
  match e with Ended err => Returns err | _ => Panics "job" end.

Section worker.
Context {X : Xerrors} {O : MapOrder} {L W : Type} (error_of : Field -> option error) (stack : string).
(** The loggers of zap, and the global one. *)
Context (Named : string -> L -> L) (With : list Field -> L -> L) (nil_call : outcome L) (glob : option L).
Notation ctx := (Logger.ctx (L := L)).
(** The clock, fresh identifiers, and the error of the context when the function has ended. *)
Context (Now : W -> Z * W) (shortuuid_New : W -> string * W) (ctx_Err : W -> option error).

(** What a job leaves behind: its lines with the loggers they were written to, the metrics of its
    name, the seconds observed, what Sentry got, the tags of its context, and the finished spans. *)
Record trail := MkTrail {
  base : W; lines : list (option (option L) * line); jm : Schedule.metrics; observed : list Z;
  sentry : effects; tags : list (string * string); spans : list string
}.
Definition set_base (w : W) (s : trail) : trail := MkTrail w (lines s) (jm s) (observed s) (sentry s) (tags s) (spans s).
Definition log (c : ctx) (l : line) (s : trail) : trail :=
  MkTrail (base s) (lines s ++ [(FromContext glob c, l)]) (jm s) (observed s) (sentry s) (tags s) (spans s).
Definition count (f : Schedule.metrics -> Schedule.metrics) (s : trail) : trail :=
  MkTrail (base s) (lines s) (f (jm s)) (observed s) (sentry s) (tags s) (spans s).
Definition observe (d : Z) (s : trail) : trail :=
  MkTrail (base s) (lines s) (jm s) (observed s ++ [d]) (sentry s) (tags s) (spans s).
Definition Since (start : Z) (s : trail) : Z * trail := let '(t, w) := Now (base s) in ((t - start)%Z, set_base w s).

Definition Duration_ (key : string) (d : Z) : Field := MkField key DurationType d "" "".
Definition NamedError (key : string) (err : option error) : Field :=
  match err with None => MkField "" SkipType 0 "" "" | Some e => MkField key InterfaceType 0 "" (error_text e) end.

(** The hub of the context is a clone, which captures by itself. *)
(* go: internal/scheduletooling/worker/middlewaresentry.go | func (j *Middleware) sentryHub( *)
Definition sentryHub (name traceID : string) (s : trail) : trail * (trail -> trail) :=
  (MkTrail (base s) (lines s) (jm s) (observed s) (MkEffects (fx_slot (sentry s)) true (fx_captured (sentry s)) (fx_log (sentry s)))
     (tags s ++ [("Trace ID", traceID)]) (spans s),
   fun s => MkTrail (base s) (lines s) (jm s) (observed s) (sentry s) (tags s) (spans s ++ [name])).

(* go: internal/scheduletooling/worker/middlewarerecovery.go | return func() { *)
Definition recovers (c : ctx) (name : string) (start : Z) (p : semerr.panic_value) (s : trail) : trail :=
  let ctxErr := ctx_Err (base s) in
  let '(runtime, s) := Since start s in
  let fields := [StringField "job_key" name; Duration_ "runtime" runtime; StringField "op" "complete-job"; NamedError "context_error" ctxErr] in
  match p with
  | semerr.NoPanic => count (handlePanic false) s
  | _ =>
      let s := count (handlePanic true) (log c (Panic error_of stack p fields) s) in
      MkTrail (base s) (lines s) (jm s) (observed s) (Report (sentry s) (to_error (toSemanticErr (semerr.UnwrapPanic p)))) (tags s) (spans s)
  end.
(** The function that [JobStarted] returns also observes how long the job took. *)
(* go: internal/scheduletooling/worker/collector.go | CloudBackgroundJobDurationSec.WithLabelValues(name). | L57-L58 *)
Definition finished_at (jobStartTime : Z) (err : option error) (s : trail) : trail :=
  let '(d, s) := Since jobStartTime (count (finished err) s) in observe d s.

(** The fields every line of a job has. *)
(* go: internal/scheduletooling/worker/middleware.go | ctx = logger.WithFields(logger.WithName(ctx, name), | L32-L36 *)
Definition job_context (c : ctx) (name traceID : string) (runtime : Z) : outcome ctx :=
  c ← WithName Named nil_call glob c name;
  WithFields With nil_call glob c [StringField "job_key" name; StringField "trace_id" traceID; Duration_ "runtime" runtime].
(** From the call of the function on: its result is logged, and the deferred calls are run, the
    latest first. The function has the job's context. *)
(* go: internal/scheduletooling/worker/middleware.go | finished := j.metrics.JobStarted(name) | L52-L65 *)
Definition run_job (c : ctx) (name : string) (start : Z) (exec : ctx -> W -> W * job_end) (s : trail) : trail * outcome (option error) :=
  let s := count JobStarted s in
  let '(jobStartTime, w) := Now (base s) in
  let '(w, e) := exec c w in
  let s := set_base w s in
  match e with
  | Ended (Some err) =>
      let '(d, s) := Since start s in
      match Clouderr.WrapWithFields (Some (GoErrors.Wrap (WText "job finished with error") err)) [Duration_ "duration" d] with
      | Panics why => (s, Panics why)
      | Returns err' =>
          (recovers c name start semerr.NoPanic (finished_at jobStartTime (Some err) (log c (Error error_of err') s)), Returns (Some err'))
      end
  | Ended None =>
      let '(d, s) := Since start s in
      (recovers c name start semerr.NoPanic (finished_at jobStartTime None (log c (Info error_of "job finished" [Duration_ "duration" d]) s)),
       Returns None)
  | _ => (recovers c name start (recovered e) s, Returns None)
  end.
(* go: internal/scheduletooling/worker/middleware.go | func (j *Middleware) Execute | L27-L51 *)
Definition Middleware_Execute (c : ctx) (name : string) (exec : ctx -> W -> W * job_end) (s : trail) : trail * outcome (option error) :=
  let '(start, w) := Now (base s) in
  let '(traceID, w) := shortuuid_New w in
  let '(runtime, s) := Since start (set_base w s) in
  match job_context c name traceID runtime with
  | Panics why => (s, Panics why)
  | Returns c =>
      let s := log c (Info error_of "job started" []) s in
      let '(s, stopSentry) := sentryHub name traceID s in
      let '(s, r) := run_job c name start exec s in
      (stopSentry s, r)
  end.

(** ** What a job leaves behind *)

Lemma recovers_spec c name start p s : let s' := recovers c name start p s in
  jm s' = handlePanic (match p with semerr.NoPanic => false | _ => true end) (jm s) /\ observed s' = observed s /\ tags s' = tags s /\ spans s' = spans s /\
  match p with
  | semerr.NoPanic => lines s' = lines s /\ sentry s' = sentry s
  | _ => (exists fields, lines s' = lines s ++ [(FromContext glob c, Panic error_of stack p fields)]) /\
         sentry s' = Report (sentry s) (to_error (toSemanticErr (semerr.UnwrapPanic p)))
  end.
Proof. unfold recovers, Since. destruct (Now (base s)) as [t w]. destruct p; cbn; eauto 10. Qed.

Lemma finished_at_spec t err s : let s' := finished_at t err s in
  jm s' = finished err (jm s) /\ (exists d, observed s' = observed s ++ [d]) /\ tags s' = tags s /\ spans s' = spans s /\
  lines s' = lines s /\ sentry s' = sentry s.
Proof. unfold finished_at, Since. cbn [base count]. destruct (Now (base s)) as [t' w]. cbn. eauto 10. Qed.

(** The metrics and the result are those of Schedule.v, however the function ends; it gets the
    context of the job, and then there is one more line. *)
Lemma run_job_spec c name start exec s : let '(s', r) := run_job c name start exec s in
  let e := (exec c (Now (base s)).2).2 in
  exists runtime d l, jm s' = (Middleware_Execute_end runtime (as_outcome e) (JobStarted (jm s))).1 /\
    r = Returns (Middleware_Execute_end runtime (as_outcome e) (JobStarted (jm s))).2 /\
    lines s' = lines s ++ [(FromContext glob c, l)] /\ observed s' = observed s ++ d /\ tags s' = tags s /\ spans s' = spans s /\
    match recovered e with
    | semerr.NoPanic => length d = 1 /\ sentry s' = sentry s
    | p => d = [] /\ sentry s' = Report (sentry s) (to_error (toSemanticErr (semerr.UnwrapPanic p)))
    end.
Proof.
  unfold run_job. cbn [base count]. destruct (Now (base s)) as [t w]. cbn [snd]. destruct (exec c w) as [w' e].
  assert (forall err l s0, jm s0 = JobStarted (jm s) -> observed s0 = observed s -> tags s0 = tags s -> spans s0 = spans s ->
    lines s0 = lines s -> sentry s0 = sentry s ->
    let s' := recovers c name start semerr.NoPanic (finished_at t err (log c l s0)) in
    exists d, jm s' = handlePanic false (finished err (JobStarted (jm s))) /\ lines s' = lines s ++ [(FromContext glob c, l)] /\
      observed s' = observed s ++ d /\ tags s' = tags s /\ spans s' = spans s /\ length d = 1 /\ sentry s' = sentry s) as Hret.
  { intros err l s0 H1 H2 H3 H4 H5 H6. cbn zeta. destruct (finished_at_spec t err (log c l s0)) as (F1 & [d F2] & F3 & F4 & F5 & F6).
    destruct (recovers_spec c name start semerr.NoPanic (finished_at t err (log c l s0))) as (-> & -> & -> & -> & -> & ->).
    rewrite F1, F2, F3, F4, F5, F6. cbn. exists [d]. split_and!; done || congruence. }
  destruct e as [[err|]|err|text]; cbn [recovered as_outcome snd]; unfold Since; cbn [base set_base];
    try (destruct (Now w') as [t' w'']; cbn [Clouderr.WrapWithFields]).
  - destruct (Hret (Some err) (Error error_of (GoErrors.Wrap (WFields [Duration_ "duration" (t' - start)]) (GoErrors.Wrap (WText "job finished with error") err)))
      (set_base w'' (set_base w' (count JobStarted s)))) as (d & R); [done..|]. exists (t' - start)%Z, d. eexists. naive_solver.
  - destruct (Hret None (Info error_of "job finished" [Duration_ "duration" (t' - start)])
      (set_base w'' (set_base w' (count JobStarted s)))) as (d & R); [done..|]. exists (t' - start)%Z, d. eexists. naive_solver.
  - destruct (recovers_spec c name start (semerr.PanicError err) (set_base w' (count JobStarted s))) as (-> & -> & -> & -> & [fields ->] & ->).
    exists 0%Z, []. eexists. rewrite app_nil_r. done.
  - destruct (recovers_spec c name start (semerr.PanicValue text) (set_base w' (count JobStarted s))) as (-> & -> & -> & -> & [fields ->] & ->).
    exists 0%Z, []. eexists. rewrite app_nil_r. done.
Qed.

Lemma Report_captured fx err : fx_hub fx = true ->
  fx_captured (Report fx err) = fx_captured fx ++ (if shouldSkipSentry err then [] else [err]).
Proof. intros H. unfold Report. rewrite H. destruct (shouldSkipSentry err); [by rewrite app_nil_r|done]. Qed.

(** The segments of a logger's name, and its fields, as in Logger.v. *)
Context (name_of : L -> list string) (fields_of : L -> list Field).
Hypothesis named_law : forall s l, name_of (Named s l) = name_of l ++ (if decide (s = "") then [] else [s]) /\ fields_of (Named s l) = fields_of l.
Hypothesis with_law : forall fs l, fields_of (With fs l) = fields_of l ++ fs /\ name_of (With fs l) = name_of l.

(** A job writes two lines, with the name and the identifier of the job, whatever its function
    does; their field runtime has the time from the start to the making of the context, which
    does not depend on the function. The metrics and the result are those of Schedule.v, and the
    errors of panics are captured unless Sentry skips them. *)
Theorem job_trail c name s l : FromContext glob c = Some (Some l) ->
  exists c' w' l' traceID d, FromContext glob c' = Some (Some l') /\
    name_of l' = name_of l ++ (if decide (name = "") then [] else [name]) /\
    fields_of l' = fields_of l ++ [StringField "job_key" name; StringField "trace_id" traceID; Duration_ "runtime" d] /\
    forall exec, let '(s', r) := Middleware_Execute c name exec s in let e := (exec c' w').2 in
      exists runtime last, jm s' = (Middleware_Execute_end runtime (as_outcome e) (JobStarted (jm s))).1 /\
        r = Returns (Middleware_Execute_end runtime (as_outcome e) (JobStarted (jm s))).2 /\
        lines s' = lines s ++ [(Some (Some l'), Info error_of "job started" []); (Some (Some l'), last)] /\
        spans s' = spans s ++ [name] /\ tags s' = tags s ++ [("Trace ID", traceID)] /\
        fx_captured (sentry s') = fx_captured (sentry s) ++
          match recovered e with
          | semerr.NoPanic => []
          | p => let err := to_error (toSemanticErr (semerr.UnwrapPanic p)) in if shouldSkipSentry err then [] else [err]
          end.
Proof.
  intros Hl. unfold Middleware_Execute. destruct (Now (base s)) as [start w1]. destruct (shortuuid_New w1) as [traceID w2].
  unfold Since. cbn [base set_base]. destruct (Now w2) as [t w3]. cbn zeta.
  set (c' := {| ctx_logger := Some (Some (With [StringField "job_key" name; StringField "trace_id" traceID; Duration_ "runtime" (t - start)] (Named name l)));
    ctx_fields := ctx_fields c ++ [StringField "job_key" name; StringField "trace_id" traceID; Duration_ "runtime" (t - start)] |}).
  assert (job_context c name traceID (t - start) = Returns c') as ->
    by (unfold job_context, WithName; rewrite Hl; done).
  exists c', (Now w3).2. eexists. exists traceID, (t - start)%Z. split; [reflexivity|].
  destruct (with_law [StringField "job_key" name; StringField "trace_id" traceID; Duration_ "runtime" (t - start)] (Named name l)) as [-> ->].
  destruct (named_law name l) as [-> ->]. split_and!; [done..|]. intros exec. cbn [sentryHub].
  match goal with |- context [run_job c' name start exec ?s0] => pose proof (run_job_spec c' name start exec s0) as H; destruct (run_job c' name start exec s0) as [s' r] end.
  cbn in H. destruct H as (runtime & d & last & -> & -> & Hlines & Hobs & Htags & Hspans & Hsentry). exists runtime, last. cbn.
  rewrite Hlines, Hspans, Htags, <- app_assoc. split_and!; [done..|].
  destruct (recovered _); destruct Hsentry as [_ ->]; [by rewrite app_nil_r|by rewrite Report_captured..].
Qed.
End worker.
